(** * pygpt: a shallow embedding of the GPT utility of [wax/lib/pygpt.py]

    The development follows the layers of the program: field codecs,
    the generic record model ([GPTObject]), the three concrete records,
    the [GPT] aggregate bound to a disk image, and the command layer
    ([GPTCommands]).  Python integers are unbounded, so they are [Z];
    [bytes] values are [list byte]; exceptions are the [Err] branch of
    [result]. *)

From Stdlib Require Import ZArith List Lia String Bool Ascii.
From coqutil Require Import Byte Word.LittleEndianList Z.bitblast.
Import ListNotations.
Local Open Scope Z_scope.

(** ** Exceptions and the error monad *)

(** The exception classes the modelled code can raise.  [GPTError] and
    [StructError] are the two classes declared by pygpt itself; the
    others come from the Python runtime ([struct_error] is [struct.error]). *)
Inductive error : Type :=
| GPTError (msg : string)
| StructError (msg : string)
| struct_error
| OSError
| UnicodeDecodeError
| UnicodeEncodeError
| AssertionError
| ValueError
| UnboundLocalError
| AttributeError
| KeyError
| StopIteration.

Inductive result (A : Type) : Type :=
| OK (a : A)
| Err (e : error).
Arguments OK {A} a.
Arguments Err {A} e.

Definition bind {A B : Type} (m : result A) (k : A -> result B) : result B :=
  match m with
  | OK a => k a
  | Err e => Err e
  end.

Notation "x <- m ;; k" := (bind m (fun x => k))
  (at level 61, m at next level, right associativity).
Notation "' p <- m ;; k" := (bind m (fun p => k))
  (at level 61, p pattern, m at next level, right associativity).

Definition is_GPTError {A : Type} (r : result A) : Prop :=
  exists msg, r = Err (GPTError msg).

(** ** Bit-packed attribute word *)

(** [BitProperty(getter, setter, shift, mask)]: the two closures
    [_getter] and [_setter], over the raw integer. *)
Module BitProperty.

Definition _getter (shift mask raw : Z) : Z :=
  Z.land (Z.shiftr raw shift) mask.

(** [assert value & mask == value], then
    [getter(self) & ~(mask << shift) | value << shift]. *)
Definition _setter (shift mask raw value : Z) : result Z :=
  if Z.land value mask =? value
  then OK (Z.lor (Z.land raw (Z.lnot (Z.shiftl mask shift)))
                 (Z.shiftl value shift))
  else Err AssertionError.

End BitProperty.

(** [PartitionAttributes]: a wrapper of the raw integer [_attrs] with
    one [BitProperty] per field. *)
Module PartitionAttributes.

Record t : Type := Make { _attrs : Z }.

Definition raw (a : t) : Z := _attrs a.

Inductive field : Type :=
| successful | tries | priority | legacy_boot | required | raw_16.

Definition shift (f : field) : Z :=
  match f with
  | successful => 56
  | tries => 52
  | priority => 48
  | legacy_boot => 2
  | required => 0
  | raw_16 => 48
  end.

Definition mask (f : field) : Z :=
  match f with
  | successful => 1
  | tries => 0xf
  | priority => 0xf
  | legacy_boot => 1
  | required => 1
  | raw_16 => 0xffff
  end.

Definition get (f : field) (a : t) : Z :=
  BitProperty._getter (shift f) (mask f) (_attrs a).

Definition set (f : field) (a : t) (value : Z) : result t :=
  r <- BitProperty._setter (shift f) (mask f) (_attrs a) value ;;
  OK (Make r).

End PartitionAttributes.

(** ** Field codecs *)

(** The part of Python's [struct] module the program uses: format
    strings that start with ['<'] (little-endian, standard sizes, no
    padding) and are made of ['Ns'], ['L'] (4 bytes), ['Q'] (8 bytes)
    and ['I'] (4 bytes) items. *)
Module struct.

(** An unsigned integer item of [n] bytes: [struct.pack] raises
    [struct.error] when the value is out of range. *)
Definition pack_uint (n : nat) (v : Z) : result (list byte) :=
  if (0 <=? v) && (v <? 2 ^ (8 * Z.of_nat n))
  then OK (le_split n v)
  else Err struct_error.

Definition unpack_uint (bs : list byte) : Z := le_combine bs.

(** An ['Ns'] item: the value is truncated or padded with zero bytes. *)
Definition pack_s (n : nat) (v : list byte) : list byte :=
  firstn n v ++ repeat Byte.x00 (n - List.length v).

Definition pack_L := pack_uint 4.
Definition pack_Q := pack_uint 8.
Definition pack_I := pack_uint 4.

End struct.

(** [uuid.UUID], as the library stores it: the 128-bit integer.  [GUID]
    only changes [__str__] to upper case. *)
Module GUID.

Definition t : Type := Z.

Definition eqb (a b : t) : bool := Z.eqb a b.

(** [bytes[4-1::-1] + bytes[6-1:4-1:-1] + bytes[8-1:6-1:-1] + bytes[8:]],
    the conversion between [bytes] and [bytes_le], both ways. *)
Definition swap_le (b : list byte) : list byte :=
  rev (firstn 4 b) ++ rev (firstn 2 (skipn 4 b))
    ++ rev (firstn 2 (skipn 6 b)) ++ skipn 8 b.

(** [int.to_bytes(16)] and [int.from_bytes], big-endian. *)
Definition bytes (g : t) : list byte := rev (le_split 16 g).
Definition of_bytes (b : list byte) : t := le_combine (rev b).

Definition bytes_le (g : t) : list byte := swap_le (bytes g).
Definition of_bytes_le (b : list byte) : t := of_bytes (swap_le b).

Definition hex_digit_upper (d : Z) : ascii :=
  if d <? 10 then ascii_of_nat (Z.to_nat (48 + d))
  else ascii_of_nat (Z.to_nat (65 + (d - 10))).

(** The [n] hexadecimal digits of [v], most significant first. *)
Fixpoint hex_upper (n : nat) (v : Z) : string :=
  match n with
  | O => EmptyString
  | S k => String.append (hex_upper k (v / 16))
                         (String (hex_digit_upper (v mod 16)) EmptyString)
  end.

(** [str(guid)]: ['%032x' % int] cut 8-4-4-4-12, in upper case. *)
Definition to_string (g : t) : string :=
  let h := hex_upper 32 g in
  (substring 0 8 h ++ "-" ++ substring 8 4 h ++ "-" ++ substring 12 4 h
     ++ "-" ++ substring 16 4 h ++ "-" ++ substring 20 12 h)%string.

Definition valid (g : t) : Prop := 0 <= g < 2 ^ 128.

End GUID.

(** [GUIDStructField]: ['16s'] holding [bytes_le]. *)
Module GUIDStructField.
Definition Pack (value : GUID.t) : list byte := GUID.bytes_le value.
Definition Unpack (value : list byte) : GUID.t := GUID.of_bytes_le value.
End GUIDStructField.

(** Python's [str] is a sequence of code points; the ['utf-16-le'] codec
    with strict error handling. *)
Module utf16le.

Definition str : Type := list Z.

Definition encode_char (c : Z) : option (list Z) :=
  if (c <? 0) || (0x10FFFF <? c) then None
  else if (0xD800 <=? c) && (c <=? 0xDFFF) then None
  else if c <? 0x10000 then Some [c]
  else Some [0xD800 + (c - 0x10000) / 1024; 0xDC00 + (c - 0x10000) mod 1024].

Fixpoint encode_units (s : str) : option (list Z) :=
  match s with
  | [] => Some []
  | c :: rest =>
      match encode_char c, encode_units rest with
      | Some us, Some us' => Some (us ++ us')
      | _, _ => None
      end
  end.

Definition bytes_of_units (us : list Z) : list byte :=
  flat_map (le_split 2) us.

Definition encode (s : str) : result (list byte) :=
  match encode_units s with
  | Some us => OK (bytes_of_units us)
  | None => Err UnicodeEncodeError
  end.

Fixpoint units_of_bytes (bs : list byte) : option (list Z) :=
  match bs with
  | [] => Some []
  | [_] => None
  | lo :: hi :: rest =>
      option_map (cons (le_combine [lo; hi])) (units_of_bytes rest)
  end.

Fixpoint decode_units (us : list Z) : option str :=
  match us with
  | [] => Some []
  | u :: rest =>
      if (u <? 0xD800) || (0xDFFF <? u)
      then option_map (cons u) (decode_units rest)
      else if u <=? 0xDBFF then
        match rest with
        | u2 :: rest' =>
            if (0xDC00 <=? u2) && (u2 <=? 0xDFFF)
            then option_map
                   (cons (0x10000 + (u - 0xD800) * 1024 + (u2 - 0xDC00)))
                   (decode_units rest')
            else None
        | [] => None
        end
      else None
  end.

Definition decode (bs : list byte) : result str :=
  match units_of_bytes bs with
  | Some us =>
      match decode_units us with
      | Some s => OK s
      | None => Err UnicodeDecodeError
      end
  | None => Err UnicodeDecodeError
  end.

(** [s.strip('\x00')] *)
Fixpoint lstrip0 (s : str) : str :=
  match s with
  | c :: rest => if c =? 0 then lstrip0 rest else s
  | [] => []
  end.

Definition strip0 (s : str) : str := rev (lstrip0 (rev (lstrip0 s))).

(** A string literal of the model, for labels written in ASCII. *)
Fixpoint of_string (s : string) : str :=
  match s with
  | EmptyString => []
  | String a rest => Z.of_nat (nat_of_ascii a) :: of_string rest
  end.

End utf16le.

(** [UTF16StructField(max_length, name)] *)
Module UTF16StructField.

Definition Pack (max_length : nat) (value : utf16le.str)
  : result (list byte) :=
  new_value <- utf16le.encode value ;;
  if (max_length <=? List.length new_value)%nat
  then Err (StructError "Value cannot be packed into field"%string)
  else OK new_value.

Definition Unpack (value : list byte) : result utf16le.str :=
  s <- utf16le.decode value ;;
  OK (utf16le.strip0 s).

End UTF16StructField.

(** [PartitionAttributeStructField]: ['Q'] holding [value.raw]. *)
Module PartitionAttributeStructField.
Definition Pack (value : PartitionAttributes.t) : Z :=
  PartitionAttributes.raw value.
Definition Unpack (value : Z) : PartitionAttributes.t :=
  PartitionAttributes.Make value.
End PartitionAttributeStructField.

(** ** Records: header, partition entry, protective MBR *)

(** A bytes literal. *)
Definition b (s : string) : list byte := list_byte_of_string s.

Definition bytes_eqb (x y : list byte) : bool :=
  if list_eq_dec Byte.byte_eq_dec x y then true else false.

(** [struct.unpack] hands out the items of a buffer one after the other. *)
Definition take (n : nat) (bs : list byte) : list byte * list byte :=
  (firstn n bs, skipn n bs).

(** [binascii.crc32]: the CRC-32 of zlib (reflected polynomial
    [0xEDB88320], initial value and final xor [0xFFFFFFFF]). *)
Module binascii.

Definition crc32_bit (c : Z) : Z :=
  if Z.odd c then Z.lxor (Z.shiftr c 1) 0xEDB88320 else Z.shiftr c 1.

Definition crc32_byte (c : Z) (x : byte) : Z :=
  let c0 := Z.lxor c (byte.unsigned x) in
  crc32_bit (crc32_bit (crc32_bit (crc32_bit
    (crc32_bit (crc32_bit (crc32_bit (crc32_bit c0))))))).

Definition crc32 (data : list byte) : Z :=
  Z.lxor (fold_left crc32_byte data 0xFFFFFFFF) 0xFFFFFFFF.

End binascii.

Module Header.

Record t : Type := Make {
  Signature : list byte;
  Revision : list byte;
  HeaderSize : Z;
  CRC32 : Z;
  Reserved : list byte;
  CurrentLBA : Z;
  BackupLBA : Z;
  FirstUsableLBA : Z;
  LastUsableLBA : Z;
  DiskGUID : GUID.t;
  PartitionEntriesStartingLBA : Z;
  PartitionEntriesNumber : Z;
  PartitionEntrySize : Z;
  PartitionArrayCRC32 : Z
}.

(** [struct.calcsize('<8s4sLL4sQQQQ16sQLLL')] *)
Definition calcsize : nat := 92.

Definition SIGNATURES : list (list byte) := [b "EFI PART"%string; b "CHROMEOS"%string].
Definition SIGNATURE_IGNORE : list byte := b "IGNOREME"%string.
Definition DEFAULT_REVISION : list byte :=
  [Byte.x00; Byte.x00; Byte.x01; Byte.x00].
Definition DEFAULT_PARTITION_ENTRIES : Z := 128.
Definition DEFAULT_PARTITIONS_LBA : Z := 2.

Definition Pack (h : t) : result (list byte) :=
  f3 <- struct.pack_L (HeaderSize h) ;;
  f4 <- struct.pack_L (CRC32 h) ;;
  f6 <- struct.pack_Q (CurrentLBA h) ;;
  f7 <- struct.pack_Q (BackupLBA h) ;;
  f8 <- struct.pack_Q (FirstUsableLBA h) ;;
  f9 <- struct.pack_Q (LastUsableLBA h) ;;
  f11 <- struct.pack_Q (PartitionEntriesStartingLBA h) ;;
  f12 <- struct.pack_L (PartitionEntriesNumber h) ;;
  f13 <- struct.pack_L (PartitionEntrySize h) ;;
  f14 <- struct.pack_L (PartitionArrayCRC32 h) ;;
  OK (struct.pack_s 8 (Signature h) ++ struct.pack_s 4 (Revision h)
        ++ f3 ++ f4 ++ struct.pack_s 4 (Reserved h)
        ++ f6 ++ f7 ++ f8 ++ f9
        ++ struct.pack_s 16 (GUIDStructField.Pack (DiskGUID h))
        ++ f11 ++ f12 ++ f13 ++ f14).

Definition blob := Pack.

Definition Unpack (source : list byte) : result t :=
  if negb (List.length source =? calcsize)%nat then Err struct_error else
  let '(v1, r) := take 8 source in
  let '(v2, r) := take 4 r in
  let '(v3, r) := take 4 r in
  let '(v4, r) := take 4 r in
  let '(v5, r) := take 4 r in
  let '(v6, r) := take 8 r in
  let '(v7, r) := take 8 r in
  let '(v8, r) := take 8 r in
  let '(v9, r) := take 8 r in
  let '(v10, r) := take 16 r in
  let '(v11, r) := take 8 r in
  let '(v12, r) := take 4 r in
  let '(v13, r) := take 4 r in
  let '(v14, _) := take 4 r in
  OK {| Signature := v1; Revision := v2;
        HeaderSize := struct.unpack_uint v3;
        CRC32 := struct.unpack_uint v4;
        Reserved := v5;
        CurrentLBA := struct.unpack_uint v6;
        BackupLBA := struct.unpack_uint v7;
        FirstUsableLBA := struct.unpack_uint v8;
        LastUsableLBA := struct.unpack_uint v9;
        DiskGUID := GUIDStructField.Unpack v10;
        PartitionEntriesStartingLBA := struct.unpack_uint v11;
        PartitionEntriesNumber := struct.unpack_uint v12;
        PartitionEntrySize := struct.unpack_uint v13;
        PartitionArrayCRC32 := struct.unpack_uint v14 |}.

(** [Zero()]: unpack a buffer of zero bytes. *)
Definition Zero : t :=
  {| Signature := repeat Byte.x00 8; Revision := repeat Byte.x00 4;
     HeaderSize := 0; CRC32 := 0; Reserved := repeat Byte.x00 4;
     CurrentLBA := 0; BackupLBA := 0; FirstUsableLBA := 0;
     LastUsableLBA := 0; DiskGUID := 0; PartitionEntriesStartingLBA := 0;
     PartitionEntriesNumber := 0; PartitionEntrySize := 0;
     PartitionArrayCRC32 := 0 |}.

(** [Update(name=value)] for the fields the program updates. *)
Definition set_Signature (v : list byte) (h : t) : t :=
  Make v (Revision h) (HeaderSize h) (CRC32 h) (Reserved h) (CurrentLBA h)
    (BackupLBA h) (FirstUsableLBA h) (LastUsableLBA h) (DiskGUID h)
    (PartitionEntriesStartingLBA h) (PartitionEntriesNumber h)
    (PartitionEntrySize h) (PartitionArrayCRC32 h).
Definition set_CRC32 (v : Z) (h : t) : t :=
  Make (Signature h) (Revision h) (HeaderSize h) v (Reserved h)
    (CurrentLBA h) (BackupLBA h) (FirstUsableLBA h) (LastUsableLBA h)
    (DiskGUID h) (PartitionEntriesStartingLBA h) (PartitionEntriesNumber h)
    (PartitionEntrySize h) (PartitionArrayCRC32 h).
Definition set_CurrentLBA (v : Z) (h : t) : t :=
  Make (Signature h) (Revision h) (HeaderSize h) (CRC32 h) (Reserved h)
    v (BackupLBA h) (FirstUsableLBA h) (LastUsableLBA h)
    (DiskGUID h) (PartitionEntriesStartingLBA h) (PartitionEntriesNumber h)
    (PartitionEntrySize h) (PartitionArrayCRC32 h).
Definition set_BackupLBA (v : Z) (h : t) : t :=
  Make (Signature h) (Revision h) (HeaderSize h) (CRC32 h) (Reserved h)
    (CurrentLBA h) v (FirstUsableLBA h) (LastUsableLBA h)
    (DiskGUID h) (PartitionEntriesStartingLBA h) (PartitionEntriesNumber h)
    (PartitionEntrySize h) (PartitionArrayCRC32 h).
Definition set_LastUsableLBA (v : Z) (h : t) : t :=
  Make (Signature h) (Revision h) (HeaderSize h) (CRC32 h) (Reserved h)
    (CurrentLBA h) (BackupLBA h) (FirstUsableLBA h) v
    (DiskGUID h) (PartitionEntriesStartingLBA h) (PartitionEntriesNumber h)
    (PartitionEntrySize h) (PartitionArrayCRC32 h).
Definition set_PartitionEntriesStartingLBA (v : Z) (h : t) : t :=
  Make (Signature h) (Revision h) (HeaderSize h) (CRC32 h) (Reserved h)
    (CurrentLBA h) (BackupLBA h) (FirstUsableLBA h) (LastUsableLBA h)
    (DiskGUID h) v (PartitionEntriesNumber h)
    (PartitionEntrySize h) (PartitionArrayCRC32 h).
Definition set_PartitionArrayCRC32 (v : Z) (h : t) : t :=
  Make (Signature h) (Revision h) (HeaderSize h) (CRC32 h) (Reserved h)
    (CurrentLBA h) (BackupLBA h) (FirstUsableLBA h) (LastUsableLBA h)
    (DiskGUID h) (PartitionEntriesStartingLBA h) (PartitionEntriesNumber h)
    (PartitionEntrySize h) v.

(** [Header.Create(size, block_size, pad_blocks, part_entries)];
    [disk_guid] is the value [GUID.Random()] returns. *)
Definition Create (disk_guid : GUID.t) (size block_size pad_blocks
                                         part_entries : Z) : t :=
  let part_entry_size := 128 in
  let parts_lba := DEFAULT_PARTITIONS_LBA + pad_blocks in
  let parts_bytes := part_entries * part_entry_size in
  let parts_blocks := parts_bytes / block_size in
  let parts_blocks :=
    if negb (parts_bytes mod block_size =? 0)
    then parts_blocks + 1 else parts_blocks in
  {| Signature := nth 0 SIGNATURES [];
     Revision := DEFAULT_REVISION;
     HeaderSize := Z.of_nat calcsize;
     CRC32 := 0;
     Reserved := repeat Byte.x00 4;
     CurrentLBA := 1;
     BackupLBA := size / block_size - 1;
     FirstUsableLBA := parts_lba + parts_blocks;
     LastUsableLBA := size / block_size - parts_blocks - parts_lba;
     DiskGUID := disk_guid;
     PartitionEntriesStartingLBA := parts_lba;
     PartitionEntriesNumber := part_entries;
     PartitionEntrySize := part_entry_size;
     PartitionArrayCRC32 := 0 |}.

(** [Header.UpdateChecksum]: [Update(CRC32=0)], then
    [Update(CRC32=binascii.crc32(self.blob))]. *)
Definition UpdateChecksum (h : t) : result t :=
  let h0 := set_CRC32 0 h in
  blob0 <- blob h0 ;;
  OK (set_CRC32 (binascii.crc32 blob0) h0).

End Header.

(** The type GUIDs of [GPT.TYPE_GUID_MAP], in the order of the source. *)
Definition TYPE_GUID_MAP : list (GUID.t * string) :=
  [ (0x00000000000000000000000000000000, "Unused"%string);
    (0xEBD0A0A2B9E5443387C068B6B72699C7, "Basic data stateful"%string);
    (0x0FC63DAF848347728E793D69D8477DE4, "Linux data"%string);
    (0xFE3A2A5D4F3241A7B725ACCC3285A309, "ChromeOS kernel"%string);
    (0x3CB8E2023B7E47DD8A3C7FF2A13CFCEC, "ChromeOS rootfs"%string);
    (0x2E0A753D9E4843B08337B15192CB1B5E, "ChromeOS reserved"%string);
    (0xCAB6E88EABF34102A07AD4BB9BE3C1D3, "ChromeOS firmware"%string);
    (0xC12A7328F81F11D2BA4B00A0C93EC93B, "EFI System Partition"%string);
    (0x09845860705F4BB5B16C8A8A099CAF52, "ChromeOS MINIOS"%string);
    (0x3F0F8318F1464E6B8222C28C8F02E0D5, "ChromeOS hibernate"%string) ].

(** [dict.get] on an association list that stands for a dict. *)
Fixpoint dict_get {K V : Type} (eqb : K -> K -> bool) (d : list (K * V))
  (k : K) : option V :=
  match d with
  | [] => None
  | (k', v) :: rest => if eqb k' k then Some v else dict_get eqb rest k
  end.

Definition lower_ascii (a : ascii) : ascii :=
  let n := nat_of_ascii a in
  if ((65 <=? n) && (n <=? 90))%nat then ascii_of_nat (n + 32) else a.

Fixpoint lower (s : string) : string :=
  match s with
  | EmptyString => EmptyString
  | String a rest => String (lower_ascii a) (lower rest)
  end.

(** [s.split()[-1]] for a string of words separated by single spaces:
    the text after the last space. *)
Fixpoint last_word_from (acc : string) (s : string) : string :=
  match s with
  | EmptyString => acc
  | String a rest =>
      if Ascii.eqb a " "%char then last_word_from EmptyString rest
      else last_word_from (acc ++ String a EmptyString)%string rest
  end.

Definition last_word (s : string) : string := last_word_from EmptyString s.

(** [{'efi' if v.startswith('EFI') else v.lower().split()[-1]: k
      for k, v in TYPE_GUID_MAP.items()}] *)
Definition TYPE_GUID_FROM_NAME : list (string * GUID.t) :=
  map (fun kv : GUID.t * string =>
         let (k, v) := kv in
         (if String.prefix "EFI"%string v then "efi"%string else last_word (lower v),
          k))
      TYPE_GUID_MAP.

Definition TYPE_GUID_UNUSED : GUID.t :=
  match dict_get String.eqb TYPE_GUID_FROM_NAME "unused"%string with
  | Some g => g
  | None => 0
  end.

Definition TYPE_GUID_CHROMEOS_KERNEL : GUID.t :=
  match dict_get String.eqb TYPE_GUID_FROM_NAME "kernel"%string with
  | Some g => g
  | None => 0
  end.

Definition TYPE_GUID_EFI : GUID.t :=
  match dict_get String.eqb TYPE_GUID_FROM_NAME "efi"%string with
  | Some g => g
  | None => 0
  end.

Definition TYPE_GUID_LIST_BOOTABLE : list GUID.t :=
  [TYPE_GUID_CHROMEOS_KERNEL; TYPE_GUID_EFI].

(** [GPT.Partition]: the six on-disk fields and the meta values
    [image], [number] and [block_size]. *)
Module Partition.

Record t : Type := Make {
  TypeGUID : GUID.t;
  UniqueGUID : GUID.t;
  FirstLBA : Z;
  LastLBA : Z;
  Attributes : PartitionAttributes.t;
  Names : utf16le.str;
  image : string;
  number : Z;
  block_size : Z
}.

(** [struct.calcsize('<16s16sQQQ72s')] *)
Definition calcsize : nat := 128.

(** The values each field's [Pack] returns first, then [struct.pack]. *)
Definition Pack (p : t) : result (list byte) :=
  f6 <- UTF16StructField.Pack 72 (Names p) ;;
  f3 <- struct.pack_Q (FirstLBA p) ;;
  f4 <- struct.pack_Q (LastLBA p) ;;
  f5 <- struct.pack_Q (PartitionAttributeStructField.Pack (Attributes p)) ;;
  OK (struct.pack_s 16 (GUIDStructField.Pack (TypeGUID p))
        ++ struct.pack_s 16 (GUIDStructField.Pack (UniqueGUID p))
        ++ f3 ++ f4 ++ f5 ++ struct.pack_s 72 f6).

Definition blob := Pack.

(** [Unpack] on an object that carries the meta values
    [image_], [number_] and [block_size_]. *)
Definition Unpack (image_ : string) (number_ block_size_ : Z)
  (source : list byte) : result t :=
  if negb (List.length source =? calcsize)%nat then Err struct_error else
  let '(v1, r) := take 16 source in
  let '(v2, r) := take 16 r in
  let '(v3, r) := take 8 r in
  let '(v4, r) := take 8 r in
  let '(v5, r) := take 8 r in
  let '(v6, _) := take 72 r in
  names <- UTF16StructField.Unpack v6 ;;
  OK {| TypeGUID := GUIDStructField.Unpack v1;
        UniqueGUID := GUIDStructField.Unpack v2;
        FirstLBA := struct.unpack_uint v3;
        LastLBA := struct.unpack_uint v4;
        Attributes :=
          PartitionAttributeStructField.Unpack (struct.unpack_uint v5);
        Names := names;
        image := image_; number := number_; block_size := block_size_ |}.

(** [Zero()] keeps the meta values. *)
Definition Zero (p : t) : t :=
  {| TypeGUID := 0; UniqueGUID := 0; FirstLBA := 0; LastLBA := 0;
     Attributes := PartitionAttributes.Make 0; Names := [];
     image := image p; number := number p; block_size := block_size p |}.

(** [Partition(block_size=..., image=..., number=...)] *)
Definition New (image_ : string) (number_ block_size_ : Z) : t :=
  {| TypeGUID := 0; UniqueGUID := 0; FirstLBA := 0; LastLBA := 0;
     Attributes := PartitionAttributes.Make 0; Names := [];
     image := image_; number := number_; block_size := block_size_ |}.

Definition set_TypeGUID (v : GUID.t) (p : t) : t :=
  Make v (UniqueGUID p) (FirstLBA p) (LastLBA p) (Attributes p) (Names p)
    (image p) (number p) (block_size p).
Definition set_UniqueGUID (v : GUID.t) (p : t) : t :=
  Make (TypeGUID p) v (FirstLBA p) (LastLBA p) (Attributes p) (Names p)
    (image p) (number p) (block_size p).
Definition set_FirstLBA (v : Z) (p : t) : t :=
  Make (TypeGUID p) (UniqueGUID p) v (LastLBA p) (Attributes p) (Names p)
    (image p) (number p) (block_size p).
Definition set_LastLBA (v : Z) (p : t) : t :=
  Make (TypeGUID p) (UniqueGUID p) (FirstLBA p) v (Attributes p) (Names p)
    (image p) (number p) (block_size p).
Definition set_Attributes (v : PartitionAttributes.t) (p : t) : t :=
  Make (TypeGUID p) (UniqueGUID p) (FirstLBA p) (LastLBA p) v (Names p)
    (image p) (number p) (block_size p).
Definition set_Names (v : utf16le.str) (p : t) : t :=
  Make (TypeGUID p) (UniqueGUID p) (FirstLBA p) (LastLBA p) (Attributes p) v
    (image p) (number p) (block_size p).

Definition IsUnused (p : t) : bool := GUID.eqb (TypeGUID p) TYPE_GUID_UNUSED.

Definition IsChromeOSKernel (p : t) : bool :=
  GUID.eqb (TypeGUID p) TYPE_GUID_CHROMEOS_KERNEL.

Definition blocks (p : t) : Z := LastLBA p - FirstLBA p + 1.
Definition offset (p : t) : Z := FirstLBA p * block_size p.
Definition size (p : t) : Z := blocks p * block_size p.

End Partition.

Module ProtectiveMBR.

Record t : Type := Make {
  BootCode : list byte;
  BootGUID : GUID.t;
  DiskID : Z;
  Magic : list byte;
  LegacyPart0 : list byte;
  LegacyPart1 : list byte;
  LegacyPart2 : list byte;
  LegacyPart3 : list byte;
  Signature : list byte
}.

(** [struct.calcsize('<424s16sL2s16s16s16s16s2s')] *)
Definition calcsize : nat := 512.

Definition SIGNATURE : list byte := [Byte.x55; Byte.xaa].
Definition MAGIC : list byte := [Byte.x1d; Byte.x9a].

Definition Pack (m : t) : result (list byte) :=
  f3 <- struct.pack_L (DiskID m) ;;
  OK (struct.pack_s 424 (BootCode m)
        ++ struct.pack_s 16 (GUIDStructField.Pack (BootGUID m))
        ++ f3 ++ struct.pack_s 2 (Magic m)
        ++ struct.pack_s 16 (LegacyPart0 m)
        ++ struct.pack_s 16 (LegacyPart1 m)
        ++ struct.pack_s 16 (LegacyPart2 m)
        ++ struct.pack_s 16 (LegacyPart3 m)
        ++ struct.pack_s 2 (Signature m)).

Definition blob := Pack.

Definition Unpack (source : list byte) : result t :=
  if negb (List.length source =? calcsize)%nat then Err struct_error else
  let '(v1, r) := take 424 source in
  let '(v2, r) := take 16 r in
  let '(v3, r) := take 4 r in
  let '(v4, r) := take 2 r in
  let '(v5, r) := take 16 r in
  let '(v6, r) := take 16 r in
  let '(v7, r) := take 16 r in
  let '(v8, r) := take 16 r in
  let '(v9, _) := take 2 r in
  OK {| BootCode := v1; BootGUID := GUIDStructField.Unpack v2;
        DiskID := struct.unpack_uint v3; Magic := v4;
        LegacyPart0 := v5; LegacyPart1 := v6; LegacyPart2 := v7;
        LegacyPart3 := v8; Signature := v9 |}.

Definition set_BootCode (v : list byte) (m : t) : t :=
  Make v (BootGUID m) (DiskID m) (Magic m) (LegacyPart0 m) (LegacyPart1 m)
    (LegacyPart2 m) (LegacyPart3 m) (Signature m).
Definition set_BootGUID (v : GUID.t) (m : t) : t :=
  Make (BootCode m) v (DiskID m) (Magic m) (LegacyPart0 m) (LegacyPart1 m)
    (LegacyPart2 m) (LegacyPart3 m) (Signature m).

End ProtectiveMBR.

(** ** The disk image *)

(** A file object opened in binary mode: the bytes of the file, the
    position of the next read or write, and what the operating system
    reports for the file name ([logical_block_size] is [Some n] for a
    block device with sectors of [n] bytes, [None] for a plain file). *)
Module File.

Record t : Type := Make {
  name : string;
  content : list byte;
  pos : Z;
  logical_block_size : option Z
}.

Definition size (f : t) : Z := Z.of_nat (List.length (content f)).

Definition set_pos (p : Z) (f : t) : t :=
  Make (name f) (content f) p (logical_block_size f).

Definition set_content (c : list byte) (f : t) : t :=
  Make (name f) c (pos f) (logical_block_size f).

End File.

(** Code that works on an open file: state passing with exceptions. *)
Definition io (A : Type) : Type := File.t -> result (A * File.t).

Definition ret {A : Type} (a : A) : io A := fun f => OK (a, f).

Definition raise {A : Type} (e : error) : io A := fun _ => Err e.

Definition lift {A : Type} (r : result A) : io A :=
  fun f => match r with OK a => OK (a, f) | Err e => Err e end.

Definition io_bind {A B : Type} (m : io A) (k : A -> io B) : io B :=
  fun f => match m f with
           | OK (a, f') => k a f'
           | Err e => Err e
           end.

Notation "x <~ m ;; k" := (io_bind m (fun x => k))
  (at level 61, m at next level, right associativity).
Notation "' p <~ m ;; k" := (io_bind m (fun p => k))
  (at level 61, p pattern, m at next level, right associativity).

(** The value of a run on a file, without the file after the run; and
    the file after the run, rewound ([default] when the run fails). *)
Definition value {A : Type} (r : result (A * File.t)) : result A :=
  match r with
  | OK (a, _) => OK a
  | Err e => Err e
  end.

Definition file_after {A : Type} (default : File.t)
  (r : result (A * File.t)) : File.t :=
  match r with
  | OK (_, f) => File.set_pos 0 f
  | Err _ => default
  end.

Inductive whence : Type := SEEK_SET | SEEK_END.

(** [image.seek(offset, whence)]: a negative position is refused. *)
Definition seek (offset : Z) (w : whence) : io unit :=
  fun f =>
    let p := match w with
             | SEEK_SET => offset
             | SEEK_END => File.size f + offset
             end in
    if p <? 0 then Err OSError else OK (tt, File.set_pos p f).

(** [image.read(num)]: the bytes that are there, at most [num]. *)
Definition read (num : nat) : io (list byte) :=
  fun f =>
    let data := firstn num (skipn (Z.to_nat (File.pos f)) (File.content f)) in
    OK (data, File.set_pos (File.pos f + Z.of_nat (List.length data)) f).

(** [image.write(blob)]: a gap after the end of the file reads as zero. *)
Definition write_at (c : list byte) (p : nat) (blob : list byte)
  : list byte :=
  firstn p c ++ repeat Byte.x00 (p - List.length c) ++ blob
    ++ skipn (p + List.length blob) c.

Definition write (blob : list byte) : io unit :=
  fun f =>
    let c := write_at (File.content f) (Z.to_nat (File.pos f)) blob in
    OK (tt, File.Make (File.name f) c
              (File.pos f + Z.of_nat (List.length blob))
              (File.logical_block_size f)).

Definition get_name : io string := fun f => OK (File.name f, f).

(** [GPT.IsBlockDevice(image.name)] and [GPT.GetLogicalBlockSize]. *)
Definition IsBlockDevice : io bool :=
  fun f => OK (match File.logical_block_size f with
               | Some _ => true
               | None => false
               end, f).

Definition GetLogicalBlockSize : io Z :=
  fun f => match File.logical_block_size f with
           | Some n => OK (n, f)
           | None => Err AssertionError
           end.

(** [GPT.GetImageSize(image.name)] *)
Definition GetImageSize : io Z := fun f => OK (File.size f, f).

(** [cls.ReadFrom(source, **kargs)]: read [calcsize] bytes, then unpack. *)
Definition Header_ReadFrom : io Header.t :=
  source <~ read Header.calcsize ;;
  lift (Header.Unpack source).

Definition ProtectiveMBR_ReadFrom : io ProtectiveMBR.t :=
  source <~ read ProtectiveMBR.calcsize ;;
  lift (ProtectiveMBR.Unpack source).

Definition Partition_ReadFrom (image_ : string) (number_ block_size_ : Z)
  : io Partition.t :=
  source <~ read Partition.calcsize ;;
  lift (Partition.Unpack image_ number_ block_size_ source).

(** Python's stable [list.sort(key=...)], ascending and with
    [reverse=True]. *)
Fixpoint insert_by {A : Type} (before : A -> A -> bool) (x : A) (l : list A)
  : list A :=
  match l with
  | [] => [x]
  | y :: rest => if before x y then x :: l else y :: insert_by before x rest
  end.

Definition sort_by {A : Type} (before : A -> A -> bool) (l : list A)
  : list A :=
  fold_right (insert_by before) [] l.

Definition sort_key {A : Type} (key : A -> Z) (l : list A) : list A :=
  sort_by (fun x y => key x <=? key y) l.

Definition sort_key_reverse {A : Type} (key : A -> Z) (l : list A) : list A :=
  sort_by (fun x y => key y <=? key x) l.

(** [l[i] = x] for a list index inside the list. *)
Fixpoint list_set {A : Type} (l : list A) (i : nat) (x : A) : list A :=
  match l, i with
  | [], _ => []
  | _ :: rest, O => x :: rest
  | y :: rest, S k => y :: list_set rest k x
  end.

(** [b''.join(p.blob for p in partitions)] *)
Fixpoint join_blobs (ps : list Partition.t) : result (list byte) :=
  match ps with
  | [] => OK []
  | p :: rest =>
      x <- Partition.blob p ;;
      xs <- join_blobs rest ;;
      OK (x ++ xs)
  end.

(** ** The GPT aggregate *)

Module GPT.

Record t : Type := Make {
  pmbr : option ProtectiveMBR.t;
  header : Header.t;
  partitions : list Partition.t;
  block_size : Z;
  is_secondary : bool
}.

Definition DEFAULT_BLOCK_SIZE : Z := 512.

Definition set_header (h : Header.t) (g : t) : t :=
  Make (pmbr g) h (partitions g) (block_size g) (is_secondary g).

Definition set_partitions (ps : list Partition.t) (g : t) : t :=
  Make (pmbr g) (header g) ps (block_size g) (is_secondary g).

(** [GPT.Create(image_name, size, block_size, pad_blocks)] *)
Definition Create (disk_guid : GUID.t) (image_name : string)
  (size block_size_ pad_blocks : Z) : t :=
  let h := Header.Create disk_guid size block_size_ pad_blocks
             Header.DEFAULT_PARTITION_ENTRIES in
  {| pmbr := None;
     header := h;
     partitions :=
       map (fun i => Partition.New image_name (Z.of_nat i + 1) block_size_)
           (seq 0 (Z.to_nat (Header.PartitionEntriesNumber h)));
     block_size := block_size_;
     is_secondary := false |}.

Definition valid_signature (sig : list byte) : bool :=
  existsb (bytes_eqb sig) Header.SIGNATURES.

(** The inner loop of [LoadFromFile]: the places of one block size,
    tried in the order of the list; [i] is the index [enumerate]
    gives.  [None] is the loop's [else] branch. *)
Fixpoint probe_seeks (seeks : list (Z * whence)) (i : Z)
  : io (option (Header.t * bool)) :=
  match seeks with
  | [] => ret None
  | (offset, w) :: rest =>
      _ <~ seek offset w ;;
      header <~ Header_ReadFrom ;;
      if valid_signature (Header.Signature header)
      then ret (Some (header, negb (i =? 0)))
      else probe_seeks rest (i + 1)
  end.

(** The outer loop: the block sizes in order; its [else] branch raises. *)
Fixpoint probe_block_sizes (block_sizes : list Z)
  : io (Header.t * Z * bool) :=
  match block_sizes with
  | [] => raise (GPTError "Invalid signature in GPT header.")
  | block_size_ :: rest =>
      found <~ probe_seeks [(block_size_ * 1, SEEK_SET);
                            (- block_size_, SEEK_END)] 0 ;;
      match found with
      | Some (header, secondary) => ret (header, block_size_, secondary)
      | None => probe_block_sizes rest
      end
  end.

Fixpoint read_partitions (image_ : string) (block_size_ : Z)
  (numbers : list Z) : io (list Partition.t) :=
  match numbers with
  | [] => ret []
  | n :: rest =>
      p <~ Partition_ReadFrom image_ n block_size_ ;;
      ps <~ read_partitions image_ block_size_ rest ;;
      ret (p :: ps)
  end.

(** [GPT.LoadFromFile(image)] on an open file. *)
Definition LoadFromFile : io t :=
  _ <~ seek 0 SEEK_SET ;;
  pmbr_ <~ ProtectiveMBR_ReadFrom ;;
  let gpt_pmbr :=
    if bytes_eqb (ProtectiveMBR.Signature pmbr_) ProtectiveMBR.SIGNATURE
    then if bytes_eqb (ProtectiveMBR.Magic pmbr_) ProtectiveMBR.MAGIC
         then Some pmbr_ else None
    else None in
  is_blk <~ IsBlockDevice ;;
  block_sizes <~ (if is_blk
                  then (n <~ GetLogicalBlockSize ;; ret [n])
                  else ret [DEFAULT_BLOCK_SIZE; 4096]) ;;
  '(header_, block_size_, secondary) <~ probe_block_sizes block_sizes ;;
  _ <~ seek (block_size_ * Header.PartitionEntriesStartingLBA header_)
         SEEK_SET ;;
  image_name <~ get_name ;;
  parts <~ read_partitions image_name block_size_
             (map (fun i => Z.of_nat i + 1)
                (seq 0 (Z.to_nat (Header.PartitionEntriesNumber header_)))) ;;
  ret {| pmbr := gpt_pmbr; header := header_; partitions := parts;
         block_size := block_size_; is_secondary := secondary |}.

Definition GetUsedPartitions (g : t) : list Partition.t :=
  filter (fun p => negb (Partition.IsUnused p)) (partitions g).

Definition GetMaxUsedLBA (g : t) : Z :=
  match map Partition.LastLBA (GetUsedPartitions g) with
  | [] => Header.FirstUsableLBA (header g) - 1
  | x :: rest => fold_left Z.max rest x
  end.

Definition GetPartitionTableBlocks (g : t) (h : Header.t) : Z :=
  let size := Header.PartitionEntrySize h * Header.PartitionEntriesNumber h in
  let blocks := size / block_size g in
  if negb (size mod block_size g =? 0) then blocks + 1 else blocks.

Definition GetPartition (g : t) (number : Z) : result Partition.t :=
  if negb ((0 <? number)
           && (number <=? Z.of_nat (List.length (partitions g))))
  then Err (GPTError "Invalid partition number.")
  else match nth_error (partitions g) (Z.to_nat (number - 1)) with
       | Some p => OK p
       | None => Err (GPTError "Invalid partition number.")
       end.

(** The partition object [GetPartition(number)] returned, changed in
    place: the entry of the list changes with it. *)
Definition store_partition (g : t) (number : Z) (p : Partition.t) : t :=
  set_partitions (list_set (partitions g) (Z.to_nat (number - 1)) p) g.

Definition GetSize (g : t) : Z :=
  block_size g * (Header.BackupLBA (header g) + 1).

Definition Resize (g : t) (new_size : Z) (check_overlap : bool)
  : result t :=
  let old_size := GetSize g in
  if negb (new_size mod block_size g =? 0)
  then Err (GPTError "New file size is not valid for image files.")
  else
    let new_blocks := new_size / block_size g in
    if old_size =? new_size then OK g
    else
      let backup_lba := new_blocks - 1 in
      let last_usable_lba :=
        backup_lba - Header.FirstUsableLBA (header g) in
      if check_overlap
         && (last_usable_lba <? Header.LastUsableLBA (header g))
         && (last_usable_lba <? GetMaxUsedLBA g)
      then Err (GPTError
                  "Backup partition tables will overlap used partitions")
      else OK (set_header
                 (Header.set_LastUsableLBA last_usable_lba
                    (Header.set_BackupLBA backup_lba (header g))) g).

Definition GetFreeSpace (g : t) : result Z :=
  let max_lba := GetMaxUsedLBA g in
  if max_lba <=? Header.LastUsableLBA (header g)
  then OK (block_size g * (Header.LastUsableLBA (header g) - max_lba))
  else Err AssertionError.

(** [ExpandPartition(number, reserved_blocks)]: the pair
    [(old_blocks, new_blocks)] and the table after the update. *)
Definition ExpandPartition (g : t) (number reserved_blocks : Z)
  : result ((Z * Z) * t) :=
  p <- GetPartition g number ;;
  if Partition.IsUnused p
  then Err (GPTError "Partition is unused.")
  else
    let max_used_lba := GetMaxUsedLBA g in
    if max_used_lba >? Partition.LastLBA p
    then Err (GPTError "Cannot expand because it is not allocated at last.")
    else
      let old_blocks := Partition.blocks p in
      let p' := Partition.set_LastLBA
                  (Header.LastUsableLBA (header g) - reserved_blocks) p in
      let new_blocks := Partition.blocks p' in
      OK ((old_blocks, new_blocks), store_partition g number p').

Definition CheckOutsideUsable (h : Header.t)
  (entries_first_lba entries_last_lba : Z) (lba : Z)
  (outside_entries : bool) : result unit :=
  if lba <? 1 then Err (GPTError "should not live in LBA")
  else if lba >? Z.max (Header.BackupLBA h) (Header.CurrentLBA h)
  then Err (GPTError "should not be larger than BackupLBA")
  else if (Header.FirstUsableLBA h <=? lba)
          && (lba <=? Header.LastUsableLBA h)
  then Err (GPTError "should not be included in usable LBAs")
  else if outside_entries
          && (entries_first_lba <=? lba) && (lba <=? entries_last_lba)
  then Err (GPTError "should be outside partition entries")
  else OK tt.

(** The sweep over the sorted list: entry [i] against entry [i + 1]. *)
Fixpoint check_overlap (lba_list : list Partition.t) : result unit :=
  match lba_list with
  | p :: ((q :: _) as rest) =>
      if Partition.LastLBA p >=? Partition.FirstLBA q
      then Err (GPTError "Overlap in partition entries")
      else check_overlap rest
  | _ => OK tt
  end.

(** [GPT.CheckIntegrity].  The two messages about the first and the
    last partition read [header.FirstLBA] and [header.LastLBA], which
    a header does not have: building them raises [AttributeError]. *)
Definition CheckIntegrity (g : t) : result unit :=
  let h := header g in
  let entries_first_lba := Header.PartitionEntriesStartingLBA h in
  let entries_last_lba :=
    entries_first_lba + GetPartitionTableBlocks g h - 1 in
  let check := CheckOutsideUsable h entries_first_lba entries_last_lba in
  _ <- check (Header.CurrentLBA h) true ;;
  _ <- check (Header.BackupLBA h) true ;;
  _ <- check entries_first_lba false ;;
  _ <- check entries_last_lba false ;;
  let parts := GetUsedPartitions g in
  let lba_list := sort_key Partition.FirstLBA parts in
  _ <- check_overlap lba_list ;;
  _ <- match lba_list with
       | [] => OK tt
       | p :: _ =>
           if Partition.FirstLBA p <? Header.FirstUsableLBA h
           then Err AttributeError
           else
             let p := last lba_list p in
             if Partition.LastLBA p >? Header.LastUsableLBA h
             then Err AttributeError
             else OK tt
       end ;;
  if negb (List.length (nodup Z.eq_dec (map Partition.UniqueGUID parts))
           =? List.length parts)%nat
  then Err (GPTError "Partition UniqueGUIDs are duplicated.")
  else
    parts_blob <- join_blobs (partitions g) ;;
    if negb (binascii.crc32 parts_blob =? Header.PartitionArrayCRC32 h)
    then Err (GPTError "GPT Header PartitionArrayCRC32 does not match.")
    else
      header_crc <- Header.UpdateChecksum h ;;
      if negb (Header.CRC32 header_crc =? Header.CRC32 h)
      then Err (GPTError "GPT Header CRC32 does not match.")
      else OK tt.

Definition UpdateChecksum (g : t) : result t :=
  parts <- join_blobs (partitions g) ;;
  let h := Header.set_PartitionArrayCRC32 (binascii.crc32 parts)
             (header g) in
  h' <- Header.UpdateChecksum h ;;
  OK (set_header h' g).

Definition GetBackupHeader (g : t) (h : Header.t) : result Header.t :=
  let partitions_starting_lba :=
    Header.BackupLBA h - GetPartitionTableBlocks g (header g) in
  Header.UpdateChecksum
    (Header.set_PartitionEntriesStartingLBA partitions_starting_lba
       (Header.set_CurrentLBA (Header.BackupLBA h)
          (Header.set_BackupLBA (Header.CurrentLBA h) h))).

Definition WriteData (g : t) (blob : list byte) (lba : Z) : io unit :=
  _ <~ seek (lba * block_size g) SEEK_SET ;;
  write blob.

(** [GPT.WriteToFile(image)] on an open file; the result is the
    object after the call (its checksums are updated in place). *)
Definition WriteToFile (g : t) : io t :=
  g <~ lift (UpdateChecksum g) ;;
  _ <~ lift (CheckIntegrity g) ;;
  parts_blob <~ lift (join_blobs (partitions g)) ;;
  let h := header g in
  header_blob <~ lift (Header.blob h) ;;
  _ <~ WriteData g header_blob (Header.CurrentLBA h) ;;
  _ <~ WriteData g parts_blob (Header.PartitionEntriesStartingLBA h) ;;
  if negb (is_secondary g)
  then
    backup_header <~ lift (GetBackupHeader g h) ;;
    _ <~ WriteData g parts_blob
           (Header.PartitionEntriesStartingLBA backup_header) ;;
    backup_blob <~ lift (Header.blob backup_header) ;;
    _ <~ WriteData g backup_blob (Header.CurrentLBA backup_header) ;;
    ret g
  else ret g.

Definition IsLastPartition (g : t) (part : Z) : result bool :=
  p <- GetPartition g part ;;
  OK (negb (Partition.IsUnused p)
      && (GetMaxUsedLBA g =? Partition.LastLBA p)).

End GPT.

Module GPT_PMBR.

(** [codecs.decode('00000200eeffffff01000000', 'hex')] *)
Definition part0_prefix : list byte :=
  [Byte.x00; Byte.x00; Byte.x02; Byte.x00; Byte.xee; Byte.xff; Byte.xff;
   Byte.xff; Byte.x01; Byte.x00; Byte.x00; Byte.x00].

(** [legacy_sectors], for an image of [image_size] bytes. *)
Definition legacy_sectors (image_size : Z) : Z :=
  Z.min 0x100000000 (image_size / GPT.DEFAULT_BLOCK_SIZE) - 1.

(** [GPT.WriteProtectiveMBR(image, create, bootcode, boot_guid)] on an
    open file. *)
Definition WriteProtectiveMBR (create : bool)
  (bootcode : option (list byte)) (boot_guid : option GUID.t)
  : io ProtectiveMBR.t :=
  _ <~ seek 0 SEEK_SET ;;
  pmbr <~ ProtectiveMBR_ReadFrom ;;
  pmbr <~ (if create
           then
             image_size <~ GetImageSize ;;
             count <~ lift (struct.pack_I (legacy_sectors image_size)) ;;
             let part0 := part0_prefix ++ count in
             let part1 := repeat Byte.x00 16 in
             ret {| ProtectiveMBR.BootCode := ProtectiveMBR.BootCode pmbr;
                    ProtectiveMBR.BootGUID := TYPE_GUID_UNUSED;
                    ProtectiveMBR.DiskID := 0;
                    ProtectiveMBR.Magic := ProtectiveMBR.MAGIC;
                    ProtectiveMBR.LegacyPart0 := part0;
                    ProtectiveMBR.LegacyPart1 := part1;
                    ProtectiveMBR.LegacyPart2 := part1;
                    ProtectiveMBR.LegacyPart3 := part1;
                    ProtectiveMBR.Signature := ProtectiveMBR.SIGNATURE |}
           else ret pmbr) ;;
  let pmbr :=
    match bootcode with
    | Some ((_ :: _) as code) =>
        let code :=
          if (List.length (ProtectiveMBR.BootCode pmbr)
              <? List.length code)%nat
          then firstn (List.length (ProtectiveMBR.BootCode pmbr)) code
          else code in
        ProtectiveMBR.set_BootCode code pmbr
    | _ => pmbr
    end in
  let pmbr :=
    match boot_guid with
    | Some guid => ProtectiveMBR.set_BootGUID guid pmbr
    | None => pmbr
    end in
  blob <~ lift (ProtectiveMBR.blob pmbr) ;;
  _ <~ seek 0 SEEK_SET ;;
  _ <~ write blob ;;
  ret pmbr.

(** The sector count a legacy partition record holds: the four bytes
    after the CHS values and the first sector. *)
Definition sector_count (legacy_part : list byte) : Z :=
  struct.unpack_uint (skipn 12 legacy_part).

End GPT_PMBR.

(** ** Text output *)

Definition dquote : string := String (ascii_of_nat 34) EmptyString.

Fixpoint digits_from (fuel : nat) (base : Z) (digit : Z -> ascii) (v : Z)
  (acc : string) : string :=
  match fuel with
  | O => acc
  | S k =>
      let acc := String (digit (v mod base)) acc in
      if v / base =? 0 then acc else digits_from k base digit (v / base) acc
  end.

Definition decimal_digit (d : Z) : ascii := ascii_of_nat (Z.to_nat (48 + d)).

Definition hex_digit_lower (d : Z) : ascii :=
  if d <? 10 then ascii_of_nat (Z.to_nat (48 + d))
  else ascii_of_nat (Z.to_nat (97 + (d - 10))).

(** [str(v)] for an integer. *)
Definition str_int (v : Z) : string :=
  let mag := digits_from (S (Z.to_nat (Z.log2 (Z.abs v)))) 10 decimal_digit
               (Z.abs v) EmptyString in
  if v <? 0 then String "-"%char mag else mag.

(** [f'{v:x}'] for an integer that is not negative. *)
Definition str_hex (v : Z) : string :=
  digits_from (S (Z.to_nat (Z.log2 v))) 16 hex_digit_lower v EmptyString.

(** ['%Ns' % s]: right-justified in at least [n] columns. *)
Definition rjust (n : nat) (s : string) : string :=
  (string_of_list_ascii (repeat " "%char (n - String.length s)) ++ s)%string.

(** What [print] writes for a [str]: its UTF-8 bytes. *)
Definition utf8_char (c : Z) : list ascii :=
  let a (v : Z) := ascii_of_nat (Z.to_nat v) in
  if c <? 0x80 then [a c]
  else if c <? 0x800 then [a (0xC0 + c / 64); a (0x80 + c mod 64)]
  else if c <? 0x10000
  then [a (0xE0 + c / 4096); a (0x80 + (c / 64) mod 64); a (0x80 + c mod 64)]
  else [a (0xF0 + c / 262144); a (0x80 + (c / 4096) mod 64);
        a (0x80 + (c / 64) mod 64); a (0x80 + c mod 64)].

Definition str_text (s : utf16le.str) : string :=
  string_of_list_ascii (flat_map utf8_char s).

(** Whether the strict ['utf8'] codec decodes a byte string: it
    accepts the well-formed sequences only (no stray continuation
    byte, no overlong form, no surrogate, nothing above U+10FFFF).
    [need] continuation bytes are still to come, the next of them
    within [lo .. hi]. *)
Fixpoint utf8_decodes (need : nat) (lo hi : Z) (data : list byte) : bool :=
  match data with
  | [] => (need =? 0)%nat
  | x :: rest =>
      let v := byte.unsigned x in
      match need with
      | O =>
          if v <? 0x80 then utf8_decodes 0 0x80 0xBF rest
          else if (0xC2 <=? v) && (v <=? 0xDF)
          then utf8_decodes 1 0x80 0xBF rest
          else if v =? 0xE0 then utf8_decodes 2 0xA0 0xBF rest
          else if v =? 0xED then utf8_decodes 2 0x80 0x9F rest
          else if (0xE1 <=? v) && (v <=? 0xEF)
          then utf8_decodes 2 0x80 0xBF rest
          else if v =? 0xF0 then utf8_decodes 3 0x90 0xBF rest
          else if (0xF1 <=? v) && (v <=? 0xF3)
          then utf8_decodes 3 0x80 0xBF rest
          else if v =? 0xF4 then utf8_decodes 3 0x80 0x8F rest
          else false
      | S k =>
          if (lo <=? v) && (v <=? hi) then utf8_decodes k 0x80 0xBF rest
          else false
      end
  end.

(** ** The command layer *)

Module GPTCommands.

(** [GPT.GetTypeGUID(value)] for the aliases of the table; a value
    that is no alias is parsed as a GUID by the caller. *)
Definition GetTypeGUID_alias (value : string) : option GUID.t :=
  dict_get String.eqb TYPE_GUID_FROM_NAME (lower value).

(** *** create *)
Module Create.

Record args : Type := Args {
  zero : bool;
  pad_blocks : Z;
  block_size : option Z
}.

Definition Execute (disk_guid : GUID.t) (a : args) : io string :=
  block_size_ <~ match block_size a with
                 | Some n => ret n
                 | None =>
                     is_blk <~ IsBlockDevice ;;
                     if is_blk then GetLogicalBlockSize
                     else ret GPT.DEFAULT_BLOCK_SIZE
                 end ;;
  image_name <~ get_name ;;
  image_size <~ GetImageSize ;;
  let gpt := GPT.Create disk_guid image_name image_size block_size_
               (pad_blocks a) in
  _ <~ (if zero a
        then
          _ <~ seek 0 SEEK_SET ;;
          write (repeat Byte.x00
                   (Z.to_nat (block_size_
                              * Header.FirstUsableLBA (GPT.header gpt))))
        else ret tt) ;;
  _ <~ GPT.WriteToFile gpt ;;
  ret "Created GPT"%string.

End Create.

(** *** add *)
Module Add.

Record args : Type := Args {
  number : option Z;
  begin : option Z;
  sectors : option Z;
  type_guid : option GUID.t;
  unique_guid : option GUID.t;
  label : option utf16le.str;
  successful : option Z;
  tries : option Z;
  priority : option Z;
  required : option Z;
  legacy_boot : option Z;
  raw_16 : option Z
}.

Definition UpdateAttr (f : PartitionAttributes.field) (value : option Z)
  (attrs : PartitionAttributes.t) : result PartitionAttributes.t :=
  match value with
  | None => OK attrs
  | Some v => PartitionAttributes.set f attrs v
  end.

Definition GetArg {A : Type} (arg_value : option A) (default_value : A)
  : A :=
  match arg_value with
  | None => default_value
  | Some v => v
  end.

(** The change [Execute] makes to the loaded table; the first
    component tells whether the partition was new.  [unique] is the
    value [GUID.Random()] returns. *)
Definition apply (unique : GUID.t) (a : args) (gpt : GPT.t)
  : result (bool * Z * GPT.t) :=
  number_ <- match number a with
             | Some n => OK n
             | None =>
                 match find Partition.IsUnused (GPT.partitions gpt) with
                 | Some p => OK (Partition.number p)
                 | None => Err StopIteration
                 end
             end ;;
  part <- GPT.GetPartition gpt number_ ;;
  let is_new_part := Partition.IsUnused part in
  let part :=
    if is_new_part
    then
      let part := Partition.Zero part in
      let data :=
        match GetTypeGUID_alias "data" with Some g => g | None => 0 end in
      Partition.set_TypeGUID data
        (Partition.set_UniqueGUID unique
           (Partition.set_LastLBA
              (Header.LastUsableLBA (GPT.header gpt))
              (Partition.set_FirstLBA
                 (GPT.GetMaxUsedLBA (GPT.store_partition gpt number_ part)
                  + 1)
                 part)))
    else part in
  let attrs := Partition.Attributes part in
  attrs <- UpdateAttr PartitionAttributes.legacy_boot (legacy_boot a)
             attrs ;;
  attrs <- UpdateAttr PartitionAttributes.required (required a) attrs ;;
  attrs <- UpdateAttr PartitionAttributes.priority (priority a) attrs ;;
  attrs <- UpdateAttr PartitionAttributes.tries (tries a) attrs ;;
  attrs <- UpdateAttr PartitionAttributes.successful (successful a)
             attrs ;;
  attrs <- UpdateAttr PartitionAttributes.raw_16 (raw_16 a) attrs ;;
  let first_lba := GetArg (begin a) (Partition.FirstLBA part) in
  let part :=
    {| Partition.TypeGUID :=
         GetArg (type_guid a) (Partition.TypeGUID part);
       Partition.UniqueGUID :=
         GetArg (unique_guid a) (Partition.UniqueGUID part);
       Partition.FirstLBA := first_lba;
       Partition.LastLBA :=
         first_lba - 1 + GetArg (sectors a) (Partition.blocks part);
       Partition.Attributes := attrs;
       Partition.Names := GetArg (label a) (Partition.Names part);
       Partition.image := Partition.image part;
       Partition.number := Partition.number part;
       Partition.block_size := Partition.block_size part |} in
  let part := if Partition.IsUnused part then Partition.Zero part
              else part in
  OK (is_new_part, number_, GPT.store_partition gpt number_ part).

Definition Execute (unique : GUID.t) (a : args) : io string :=
  gpt <~ GPT.LoadFromFile ;;
  '(is_new_part, number_, gpt) <~ lift (apply unique a gpt) ;;
  _ <~ GPT.WriteToFile gpt ;;
  part <~ lift (GPT.GetPartition gpt number_) ;;
  ret (if Partition.IsUnused part then "Deleted (zeroed)"
       else if is_new_part then "Added" else "Modified")%string.

End Add.

(** *** show *)
Module Show.

Record args : Type := Args {
  numeric : bool;
  quick : bool;
  number : option Z;
  begin : bool;
  size : bool;
  type : bool;
  unique : bool;
  label : bool;
  Successful : bool;
  Tries : bool;
  Priority : bool;
  Legacy : bool;
  Attribute : bool
}.

Definition FormatTypeGUID (a : args) (p : Partition.t) : string :=
  let guid := Partition.TypeGUID p in
  match (if negb (numeric a) then dict_get GUID.eqb TYPE_GUID_MAP guid
         else None) with
  | Some names =>
      if (String.length names =? 0)%nat then GUID.to_string guid
      else names
  | None => GUID.to_string guid
  end.

Definition IsBootableType (guid : GUID.t) : bool :=
  existsb (GUID.eqb guid) TYPE_GUID_LIST_BOOTABLE.

Definition join_spaces (l : list string) : string :=
  String.concat " " l.

Definition FormatAttribute (a : args) (attrs : PartitionAttributes.t)
  (chromeos_kernel : bool) : string :=
  if numeric a
  then ("[" ++ str_hex (Z.shiftr (PartitionAttributes.raw attrs) 48)
          ++ "]")%string
  else
    let get f := PartitionAttributes.get f attrs in
    join_spaces
      ((if chromeos_kernel
        then [("priority=" ++ str_int (get PartitionAttributes.priority));
              ("tries=" ++ str_int (get PartitionAttributes.tries));
              ("successful="
                 ++ str_int (get PartitionAttributes.successful))]%string
        else [])
       ++ (if negb (get PartitionAttributes.required =? 0)
           then ["required=1"%string] else [])
       ++ (if negb (get PartitionAttributes.legacy_boot =? 0)
           then ["legacy_boot=1"%string] else [])).

(** What [print(ApplyFormatArgs(p))] writes. *)
Definition ApplyFormatArgs (a : args) (p : Partition.t) : string :=
  let attr f := str_int (PartitionAttributes.get f
                           (Partition.Attributes p)) in
  if begin a then str_int (Partition.FirstLBA p)
  else if size a then str_int (Partition.blocks p)
  else if type a then FormatTypeGUID a p
  else if unique a then GUID.to_string (Partition.UniqueGUID p)
  else if label a then str_text (Partition.Names p)
  else if Successful a then attr PartitionAttributes.successful
  else if Priority a then attr PartitionAttributes.priority
  else if Tries a then attr PartitionAttributes.tries
  else if Legacy a then attr PartitionAttributes.legacy_boot
  else if Attribute a
  then ("["
          ++ str_hex (Z.shiftr (PartitionAttributes.raw
                                  (Partition.Attributes p)) 48)
          ++ "]")%string
  else "None"%string.

Definition IsFormatArgsSpecified (a : args) : bool :=
  begin a || size a || type a || unique a || label a || Successful a
  || Tries a || Priority a || Legacy a || Attribute a.

(** ['%12s %11s %7s  %s'] and ['%32s  %s: %s'] *)
Definition fmt (c1 c2 c3 c4 : string) : string :=
  (rjust 12 c1 ++ " " ++ rjust 11 c2 ++ " " ++ rjust 7 c3 ++ "  "
     ++ c4)%string.

Definition fmt2 (c1 c2 c3 : string) : string :=
  (rjust 32 c1 ++ "  " ++ c2 ++ ": " ++ c3)%string.

(** The lines the loop prints for one partition. *)
Definition show_partition (a : args) (p : Partition.t) : list string :=
  let skip :=
    match number a with
    | None => Partition.IsUnused p
    | Some n => negb (Partition.number p =? n)
    end in
  if skip then []
  else if IsFormatArgsSpecified a then [ApplyFormatArgs a p]
  else
    fmt (str_int (Partition.FirstLBA p)) (str_int (Partition.blocks p))
        (str_int (Partition.number p))
        (if quick a then FormatTypeGUID a p
         else ("Label: " ++ dquote ++ str_text (Partition.Names p)
                 ++ dquote)%string)
    :: (if negb (quick a)
        then
          [fmt2 "" "Type" (FormatTypeGUID a p);
           fmt2 "" "UUID" (GUID.to_string (Partition.UniqueGUID p))]
          ++ (if numeric a || IsBootableType (Partition.TypeGUID p)
              then [fmt2 "" "Attr"
                      (FormatAttribute a (Partition.Attributes p)
                         (Partition.IsChromeOSKernel p))]
              else [])
        else []).

(** [Show.Execute]: the lines printed, and how the command ends. *)
Definition Execute (a : args) (image_file : File.t)
  : list string * result unit :=
  match GPT.LoadFromFile image_file with
  | Err e => ([], Err e)
  | OK (gpt, f) =>
      let h := GPT.header gpt in
      if IsFormatArgsSpecified a
         && match number a with None => true | Some _ => false end
      then ([], Err (GPTError "Format arguments must be used with -i."))
      else if negb match number a with
                   | None => true
                   | Some n =>
                       (0 <? n) && (n <=? Header.PartitionEntriesNumber h)
                   end
      then ([], Err (GPTError "Invalid partition number"))
      else
        let plain := negb (quick a || IsFormatArgsSpecified a) in
        let do_print_gpt_blocks :=
          plain && match number a with None => true | Some _ => false end
        in
        let out :=
          (if plain then [fmt "start" "size" "part" "contents"] else [])
          ++ (if do_print_gpt_blocks
              then
                (match GPT.pmbr gpt with
                 | Some _ => [fmt "0" "1" "" "PMBR"]
                 | None => []
                 end)
                ++ (if GPT.is_secondary gpt
                    then [fmt (str_int (Header.BackupLBA h)) "1" "IGNORED"
                            "Pri GPT header"]
                    else [fmt (str_int (Header.CurrentLBA h)) "1" ""
                            "Pri GPT header";
                          fmt (str_int
                                 (Header.PartitionEntriesStartingLBA h))
                            (str_int (GPT.GetPartitionTableBlocks gpt h))
                            "" "Pri GPT table"])
              else [])
          ++ flat_map (show_partition a) (GPT.partitions gpt) in
        if do_print_gpt_blocks
        then
          match (if GPT.is_secondary gpt then OK (h, f)
                 else (_ <~ seek (Header.BackupLBA h * GPT.block_size gpt)
                              SEEK_SET ;;
                       Header_ReadFrom) f) with
          | Err e => (out, Err e)
          | OK (h2, _) =>
              (out ++ [fmt (str_int (Header.PartitionEntriesStartingLBA h2))
                         (str_int (GPT.GetPartitionTableBlocks gpt h2))
                         "" "Sec GPT table";
                       fmt (str_int (Header.CurrentLBA h2)) "1" ""
                         "Sec GPT header"],
               GPT.CheckIntegrity gpt)
          end
        else (out, GPT.CheckIntegrity gpt)
  end.

End Show.

(** *** prioritize *)
Module Prioritize.

Record args : Type := Args {
  priority : option Z;
  number : option Z;
  friends : bool
}.

(** [itertools.groupby(parts, key)]: runs of equal keys. *)
Fixpoint groupby {A : Type} (key : A -> Z) (l : list A)
  : list (Z * list A) :=
  match l with
  | [] => []
  | x :: rest =>
      match groupby key rest with
      | (k, g) :: gs =>
          if key x =? k then (k, x :: g) :: gs
          else (key x, [x]) :: (k, g) :: gs
      | [] => [(key x, [x])]
      end
  end.

(** A dict with integer keys, in insertion order. *)
Definition dict (V : Type) : Type := list (Z * V).

Fixpoint dict_set {V : Type} (d : dict V) (k : Z) (v : V) : dict V :=
  match d with
  | [] => [(k, v)]
  | (k', v') :: rest =>
      if k' =? k then (k', v) :: rest else (k', v') :: dict_set rest k v
  end.

Definition dict_of {V : Type} (items : list (Z * V)) : dict V :=
  fold_left (fun d kv => dict_set d (fst kv) (snd kv)) items [].

Fixpoint dict_remove {V : Type} (d : dict V) (k : Z) : dict V :=
  match d with
  | [] => []
  | (k', v') :: rest =>
      if k' =? k then rest else (k', v') :: dict_remove rest k
  end.

Definition dict_pop {V : Type} (d : dict V) (k : Z)
  : result (V * dict V) :=
  match dict_get Z.eqb d k with
  | Some v => OK (v, dict_remove d k)
  | None => Err KeyError
  end.

Definition dict_mem {V : Type} (d : dict V) (k : Z) : bool :=
  existsb (fun kv => fst kv =? k) d.

Definition keys {V : Type} (d : dict V) : list Z := map fst d.

(** [max(groups)] *)
Definition max_key {V : Type} (d : dict V) : result Z :=
  match keys d with
  | [] => Err ValueError
  | k :: rest => OK (fold_left Z.max rest k)
  end.

(** [friends.remove(p)]: the first occurrence. *)
Fixpoint remove_first (i : nat) (l : list nat) : list nat :=
  match l with
  | [] => []
  | j :: rest => if Nat.eqb j i then rest else j :: remove_first i rest
  end.

Definition priority_of (p : Partition.t) : Z :=
  PartitionAttributes.get PartitionAttributes.priority
    (Partition.Attributes p).

(** The kernel partitions, each with its place in [gpt.partitions]
    (which stands for the identity of the object), sorted and
    grouped; a group holds the places. *)
Definition kernel_parts (ps : list Partition.t)
  : list (nat * Partition.t) :=
  filter (fun ip => Partition.IsChromeOSKernel (snd ip))
    (combine (seq 0 (List.length ps)) ps).

Definition initial_groups (ps : list Partition.t) : dict (list nat) :=
  let parts := sort_key_reverse (fun ip => priority_of (snd ip))
                 (kernel_parts ps) in
  dict_of (map (fun kg : Z * list (nat * Partition.t) =>
                  (fst kg, map fst (snd kg)))
             (groupby (fun ip => priority_of (snd ip)) parts)).

(** The part of [Execute] under [if args.number:]. *)
Definition promote (a : args) (gpt : GPT.t) (groups : dict (list nat))
  : result (dict (list nat)) :=
  match number a with
  | None => OK groups
  | Some n =>
      if n =? 0 then OK groups
      else
        p <- GPT.GetPartition gpt n ;;
        let i := Z.to_nat (n - 1) in
        if negb (existsb (Nat.eqb i)
                   (map fst (kernel_parts (GPT.partitions gpt))))
        then Err (GPTError "is not a ChromeOS kernel.")
        else
          let pri := priority_of p in
          '(friends_, groups) <- dict_pop groups pri ;;
          m <- max_key groups ;;
          let new_pri := m + 1 in
          if friends a then OK (dict_set groups new_pri friends_)
          else
            let groups := dict_set groups new_pri [i] in
            let friends_ := remove_first i friends_ in
            match friends_ with
            | [] => OK groups
            | _ :: _ => OK (dict_set groups pri friends_)
            end
  end.

(** The body of the inner loop, for the partition at place [i]. *)
Definition reprioritize (new_priority : Z) (ps : list Partition.t)
  (i : nat) : result (list Partition.t) :=
  match nth_error ps i with
  | None => OK ps
  | Some p =>
      let attrs := Partition.Attributes p in
      let old_priority :=
        PartitionAttributes.get PartitionAttributes.priority attrs in
      if old_priority =? new_priority then OK ps
      else
        attrs <- PartitionAttributes.set PartitionAttributes.priority
                   attrs new_priority ;;
        attrs <- (if (PartitionAttributes.get PartitionAttributes.tries
                        attrs <? 1)
                     && (PartitionAttributes.get
                           PartitionAttributes.successful attrs =? 0)
                  then PartitionAttributes.set PartitionAttributes.tries
                         attrs 15
                  else OK attrs) ;;
        OK (list_set ps i (Partition.set_Attributes attrs p))
  end.

Fixpoint reprioritize_group (new_priority : Z) (ps : list Partition.t)
  (group : list nat) : result (list Partition.t) :=
  match group with
  | [] => OK ps
  | i :: rest =>
      ps <- reprioritize new_priority ps i ;;
      reprioritize_group new_priority ps rest
  end.

(** The outer loop over [enumerate(prios)], from index [i]. *)
Fixpoint assign (groups : dict (list nat)) (highest : Z) (i : Z)
  (prios : list Z) (ps : list Partition.t) : result (list Partition.t) :=
  match prios with
  | [] => OK ps
  | pri :: rest =>
      let new_priority := Z.max 1 (highest - i) in
      match dict_get Z.eqb groups pri with
      | None => Err KeyError
      | Some group =>
          ps <- reprioritize_group new_priority ps group ;;
          assign groups highest (i + 1) rest ps
      end
  end.

(** The change [Execute] makes to the loaded table. *)
Definition apply (a : args) (gpt : GPT.t) : result GPT.t :=
  let groups := initial_groups (GPT.partitions gpt) in
  groups <- promote a gpt groups ;;
  let groups := if dict_mem groups 0 then dict_remove groups 0
                else groups in
  let prios := sort_key_reverse (fun k => k) (keys groups) in
  let highest :=
    Z.min (match priority a with
           | Some v => if v =? 0 then Z.of_nat (List.length prios) else v
           | None => Z.of_nat (List.length prios)
           end) 0xf in
  ps <- assign groups highest 0 prios (GPT.partitions gpt) ;;
  OK (GPT.set_partitions ps gpt).

Definition Execute (a : args) : io unit :=
  gpt <~ GPT.LoadFromFile ;;
  gpt <~ lift (apply a gpt) ;;
  _ <~ GPT.WriteToFile gpt ;;
  ret tt.

End Prioritize.

(** *** find *)
Module Find.

Record args : Type := Args {
  type_guid : option GUID.t;
  unique_guid : option GUID.t;
  label : option utf16le.str;
  numeric : bool;
  single_match : bool;
  match_file : option string;
  offset : Z;
  drive : option string
}.

(** The files of the system by name, and the names [lsblk] lists. *)
Record system : Type := System {
  files : list File.t;
  lsblk : list string
}.

(** [open(path, 'rb')] *)
Definition open (sys : system) (path : string) : result File.t :=
  match find (fun f => String.eqb (File.name f) path) (files sys) with
  | Some f => OK (File.set_pos 0 f)
  | None => Err OSError
  end.

(** [GPT.LoadFromFile(drive)] with a path: open, then load. *)
Definition LoadFromPath (sys : system) (path : string) : result GPT.t :=
  f <- open sys path ;;
  '(gpt, _) <- GPT.LoadFromFile f ;;
  OK gpt.

Definition Unmatch {A : Type} (eqb : A -> A -> bool) (a : option A)
  (x : A) : bool :=
  match a with
  | None => false
  | Some v => negb (eqb v x)
  end.

Definition str_eqb (x y : utf16le.str) : bool :=
  if list_eq_dec Z.eq_dec x y then true else false.

(** [p.image[-1].isdigit()], for a name that ends in an ASCII
    character ([str.isdigit] also holds of the digits of other
    scripts). *)
Definition last_is_digit (s : string) : bool :=
  match rev (list_ascii_of_string s) with
  | c :: _ => let n := nat_of_ascii c in ((48 <=? n) && (n <=? 57))%nat
  | [] => false
  end.

(** The state of the loops: whether a pattern is to be matched,
    the count and the lines printed so far. *)
Record state : Type := State {
  found : Z;
  printed : list string
}.

(** The body of the loop over [gpt.partitions].  A pattern read from
    the match file is a [str] and what the drive gives is [bytes]:
    they never compare equal. *)
Definition match_partition (sys : system) (a : args)
  (match_pattern : bool) (drive_ : string) (st : state)
  (p : Partition.t) : result state :=
  if Partition.IsUnused p
     || Unmatch str_eqb (label a) (Partition.Names p)
     || Unmatch GUID.eqb (unique_guid a) (Partition.UniqueGUID p)
     || Unmatch GUID.eqb (type_guid a) (Partition.TypeGUID p)
  then OK st
  else if match_pattern
  then
    f <- open sys drive_ ;;
    _ <- seek (Partition.offset p + offset a) SEEK_SET f ;;
    OK st
  else
    OK {| found := found st + 1;
          printed :=
            printed st
            ++ [if numeric a then str_int (Partition.number p)
                else (Partition.image p
                        ++ (if last_is_digit (Partition.image p)
                            then "p" else "")
                        ++ str_int (Partition.number p))%string] |}.

Fixpoint match_partitions (sys : system) (a : args)
  (match_pattern : bool) (drive_ : string) (st : state)
  (ps : list Partition.t) : state * result unit :=
  match ps with
  | [] => (st, OK tt)
  | p :: rest =>
      match match_partition sys a match_pattern drive_ st p with
      | OK st' => match_partitions sys a match_pattern drive_ st' rest
      | Err e => (st, Err e)
      end
  end.

(** The loop over the drives.  [gpt] is the local variable of that
    name: [None] while it is not bound. *)
Fixpoint scan (sys : system) (a : args) (match_pattern : bool)
  (gpt : option GPT.t) (st : state) (drives : list string)
  : state * result unit :=
  match drives with
  | [] => (st, OK tt)
  | drive_ :: rest =>
      let loaded :=
        match LoadFromPath sys drive_ with
        | OK g => OK (Some g)
        | Err (GPTError msg) =>
            match drive a with
            | Some _ => Err (GPTError msg)
            | None => OK gpt
            end
        | Err e => Err e
        end in
      match loaded with
      | Err e => (st, Err e)
      | OK None => (st, Err UnboundLocalError)
      | OK (Some g) =>
          match match_partitions sys a match_pattern drive_ st
                  (GPT.partitions g) with
          | (st', OK _) => scan sys a match_pattern (Some g) st' rest
          | (st', Err e) => (st', Err e)
          end
      end
  end.

(** [Find.Execute]: the lines printed, and the exit code or the
    exception.  The match file is opened as text in UTF-8 and read to
    its end; the pattern is used when it is not empty. *)
Definition Execute (sys : system) (a : args)
  : list string * result Z :=
  let given {A : Type} (o : option A) :=
    match o with Some _ => true | None => false end in
  if negb (given (type_guid a) || given (unique_guid a)
           || match label a with
              | Some (_ :: _) => true
              | _ => false
              end)
  then ([], Err (GPTError
                   "You must specify at least one of -t, -u, or -l"))
  else
    let drives :=
      match drive a with
      | Some name => [name]
      | None => map (fun name => ("/dev/" ++ name)%string) (lsblk sys)
      end in
    match (match match_file a with
           | None => OK false
           | Some path =>
               if (String.length path =? 0)%nat then OK false
               else
                 f <- open sys path ;;
                 if utf8_decodes 0 0x80 0xBF (File.content f)
                 then OK (negb (File.size f =? 0))
                 else Err UnicodeDecodeError
           end) with
    | Err e => ([], Err e)
    | OK match_pattern =>
        match scan sys a match_pattern None
                {| found := 0; printed := [] |} drives with
        | (st, Err e) => (printed st, Err e)
        | (st, OK _) =>
            (printed st,
             OK (if (found st <? 1)
                    || (single_match a && (found st >? 1))
                 then 1 else 0))
        end
    end.

End Find.

End GPTCommands.

(** ** Records in canonical form

    The values of a field that [Pack] writes without change: a byte
    string of the width of its item, an integer within the range of
    its item, a GUID of 128 bits, and a name that [Pack] accepts and
    that has no NUL at either end ([Unpack] strips them). *)

Definition uint_range (n : nat) (v : Z) : Prop :=
  0 <= v < 2 ^ (8 * Z.of_nat n).

Definition valid_name (s : utf16le.str) : Prop :=
  (exists blob, UTF16StructField.Pack 72 s = OK blob)
  /\ utf16le.strip0 s = s.

Definition valid_header (h : Header.t) : Prop :=
  List.length (Header.Signature h) = 8%nat
  /\ List.length (Header.Revision h) = 4%nat
  /\ uint_range 4 (Header.HeaderSize h)
  /\ uint_range 4 (Header.CRC32 h)
  /\ List.length (Header.Reserved h) = 4%nat
  /\ uint_range 8 (Header.CurrentLBA h)
  /\ uint_range 8 (Header.BackupLBA h)
  /\ uint_range 8 (Header.FirstUsableLBA h)
  /\ uint_range 8 (Header.LastUsableLBA h)
  /\ GUID.valid (Header.DiskGUID h)
  /\ uint_range 8 (Header.PartitionEntriesStartingLBA h)
  /\ uint_range 4 (Header.PartitionEntriesNumber h)
  /\ uint_range 4 (Header.PartitionEntrySize h)
  /\ uint_range 4 (Header.PartitionArrayCRC32 h).

Definition valid_partition (p : Partition.t) : Prop :=
  GUID.valid (Partition.TypeGUID p)
  /\ GUID.valid (Partition.UniqueGUID p)
  /\ uint_range 8 (Partition.FirstLBA p)
  /\ uint_range 8 (Partition.LastLBA p)
  /\ uint_range 8 (PartitionAttributes.raw (Partition.Attributes p))
  /\ valid_name (Partition.Names p).

Definition valid_pmbr (m : ProtectiveMBR.t) : Prop :=
  List.length (ProtectiveMBR.BootCode m) = 424%nat
  /\ GUID.valid (ProtectiveMBR.BootGUID m)
  /\ uint_range 4 (ProtectiveMBR.DiskID m)
  /\ List.length (ProtectiveMBR.Magic m) = 2%nat
  /\ List.length (ProtectiveMBR.LegacyPart0 m) = 16%nat
  /\ List.length (ProtectiveMBR.LegacyPart1 m) = 16%nat
  /\ List.length (ProtectiveMBR.LegacyPart2 m) = 16%nat
  /\ List.length (ProtectiveMBR.LegacyPart3 m) = 16%nat
  /\ List.length (ProtectiveMBR.Signature m) = 2%nat.

(** The entries of a table as [LoadFromFile] numbers them: entry [i]
    (from 0) has number [i + 1], and all carry the image name and the
    block size of the table. *)
Fixpoint table_meta (image_ : string) (block_size_ : Z) (first : Z)
  (ps : list Partition.t) : Prop :=
  match ps with
  | [] => True
  | p :: rest =>
      Partition.image p = image_ /\ Partition.number p = first
      /\ Partition.block_size p = block_size_
      /\ table_meta image_ block_size_ (first + 1) rest
  end.

(** ** Sample values *)

Module Sample.

Definition disk_guid : GUID.t := 0x5A4C1E0F9B7D4C3EA1B2C3D4E5F60718.

Definition header : Header.t :=
  Header.Create disk_guid 51200 512 0 Header.DEFAULT_PARTITION_ENTRIES.

Definition kernel : Partition.t :=
  {| Partition.TypeGUID := TYPE_GUID_CHROMEOS_KERNEL;
     Partition.UniqueGUID := 0x11111111222233334444555555555555;
     Partition.FirstLBA := 34;
     Partition.LastLBA := 41;
     Partition.Attributes := PartitionAttributes.Make 0x0102000000000000;
     Partition.Names := utf16le.of_string "KERN-A";
     Partition.image := "disk.bin";
     Partition.number := 1;
     Partition.block_size := 512 |}.

Definition state : Partition.t :=
  {| Partition.TypeGUID := 0x0FC63DAF848347728E793D69D8477DE4;
     Partition.UniqueGUID := 0x66666666777788889999AAAAAAAAAAAA;
     Partition.FirstLBA := 42;
     Partition.LastLBA := 50;
     Partition.Attributes := PartitionAttributes.Make 0;
     Partition.Names := utf16le.of_string "STATE";
     Partition.image := "disk.bin";
     Partition.number := 2;
     Partition.block_size := 512 |}.

Definition pmbr : ProtectiveMBR.t :=
  {| ProtectiveMBR.BootCode := repeat Byte.x90 424;
     ProtectiveMBR.BootGUID := 0;
     ProtectiveMBR.DiskID := 0;
     ProtectiveMBR.Magic := ProtectiveMBR.MAGIC;
     ProtectiveMBR.LegacyPart0 :=
       GPT_PMBR.part0_prefix ++ [Byte.x63; Byte.x00; Byte.x00; Byte.x00];
     ProtectiveMBR.LegacyPart1 := repeat Byte.x00 16;
     ProtectiveMBR.LegacyPart2 := repeat Byte.x00 16;
     ProtectiveMBR.LegacyPart3 := repeat Byte.x00 16;
     ProtectiveMBR.Signature := ProtectiveMBR.SIGNATURE |}.

(** A table of 100 blocks of 512 bytes with the two partitions. *)
Definition gpt : GPT.t :=
  let g := GPT.Create disk_guid "disk.bin" 51200 512 0 in
  GPT.store_partition (GPT.store_partition g 1 kernel) 2 state.

End Sample.

(** ** The search order of [LoadFromFile], spelled out

    [header_at f off] is the header decoded from the 92 bytes at byte
    offset [off]; [probe_order] lists, for an image of [size] bytes that
    is no block device, the candidates as (block size, is secondary,
    byte offset), in the order the two loops visit them. *)

Definition header_at (f : File.t) (off : Z) : result Header.t :=
  Header.Unpack
    (firstn Header.calcsize (skipn (Z.to_nat off) (File.content f))).

Definition probe_order (size : Z) : list (Z * bool * Z) :=
  [ (512, false, 512); (512, true, size - 512);
    (4096, false, 4096); (4096, true, size - 4096) ].

Definition signature_found (f : File.t) (c : Z * bool * Z) : bool :=
  match header_at f (snd c) with
  | OK h => GPT.valid_signature (Header.Signature h)
  | Err _ => false
  end.

(** The search as the specification words it: for each candidate
    block size the backup location (the last block) first, then the
    primary location (the second block). *)
Module SpecOrder.

Fixpoint probe_seeks (seeks : list (Z * whence * bool))
  : io (option (Header.t * bool)) :=
  match seeks with
  | [] => ret None
  | (offset, w, secondary) :: rest =>
      _ <~ seek offset w ;;
      header <~ Header_ReadFrom ;;
      if GPT.valid_signature (Header.Signature header)
      then ret (Some (header, secondary))
      else probe_seeks rest
  end.

Fixpoint probe_block_sizes (block_sizes : list Z)
  : io (Header.t * Z * bool) :=
  match block_sizes with
  | [] => raise (GPTError "Invalid signature in GPT header.")
  | block_size_ :: rest =>
      found <~ probe_seeks [(- block_size_, SEEK_END, true);
                            (block_size_ * 1, SEEK_SET, false)] ;;
      match found with
      | Some (header, secondary) => ret (header, block_size_, secondary)
      | None => probe_block_sizes rest
      end
  end.

End SpecOrder.

Module Sample2.

(** The image [WriteToFile] makes of the sample table on a blank file
    of 100 blocks. *)
Definition blank : File.t :=
  File.Make "disk.bin" (repeat Byte.x00 (Z.to_nat 51200)) 0 None.

Definition image : File.t :=
  file_after blank (GPT.WriteToFile Sample.gpt blank).

End Sample2.

(** What [LoadFromFile] does besides the search: the protective MBR
    of block 0, and the entries read once the header is chosen. *)
Definition pmbr_at_start (f : File.t) : option ProtectiveMBR.t :=
  match ProtectiveMBR.Unpack
          (firstn ProtectiveMBR.calcsize (File.content f)) with
  | OK m =>
      if bytes_eqb (ProtectiveMBR.Signature m) ProtectiveMBR.SIGNATURE
      then if bytes_eqb (ProtectiveMBR.Magic m) ProtectiveMBR.MAGIC
           then Some m else None
      else None
  | Err _ => None
  end.

Definition load_entries (f : File.t) (h : Header.t) (bs : Z) (sec : bool)
  : result (GPT.t * File.t) :=
  match GPT.read_partitions (File.name f) bs
          (map (fun i => Z.of_nat i + 1)
             (seq 0 (Z.to_nat (Header.PartitionEntriesNumber h))))
          (File.set_pos (bs * Header.PartitionEntriesStartingLBA h) f) with
  | OK (ps, f') =>
      OK ({| GPT.pmbr := pmbr_at_start f; GPT.header := h;
             GPT.partitions := ps; GPT.block_size := bs;
             GPT.is_secondary := sec |}, f')
  | Err e => Err e
  end.

Module Sample3.

(** Two block devices with sectors of 512 bytes: [/dev/sda] holds the
    sample table, [/dev/sdb] holds zero bytes only (no GPT). *)
Definition sda : File.t :=
  File.Make "/dev/sda" (File.content Sample2.image) 0 (Some 512).

Definition sdb : File.t :=
  File.Make "/dev/sdb" (repeat Byte.x00 (Z.to_nat 51200)) 0 (Some 512).

Definition good_then_bad : GPTCommands.Find.system :=
  {| GPTCommands.Find.files := [sda; sdb];
     GPTCommands.Find.lsblk := ["sda"%string; "sdb"%string] |}.

Definition bad_then_good : GPTCommands.Find.system :=
  {| GPTCommands.Find.files := [sda; sdb];
     GPTCommands.Find.lsblk := ["sdb"%string; "sda"%string] |}.

(** [find -l STATE], with [-1] when [single] is set and with the drive
    [drive] when one is named. *)
Definition find_state (single : bool) (drive : option string)
  : GPTCommands.Find.args :=
  {| GPTCommands.Find.type_guid := None;
     GPTCommands.Find.unique_guid := None;
     GPTCommands.Find.label := Some (utf16le.of_string "STATE");
     GPTCommands.Find.numeric := false;
     GPTCommands.Find.single_match := single;
     GPTCommands.Find.match_file := None;
     GPTCommands.Find.offset := 0;
     GPTCommands.Find.drive := drive |}.

End Sample3.

Module Sample4.

(** [add -t kernel -s 2048], [show -i 1 -t] and [show -n -i 1 -t]. *)
Definition add_kernel : GPTCommands.Add.args :=
  {| GPTCommands.Add.number := None;
     GPTCommands.Add.begin := None;
     GPTCommands.Add.sectors := Some 2048;
     GPTCommands.Add.type_guid := GPTCommands.GetTypeGUID_alias "kernel";
     GPTCommands.Add.unique_guid := None;
     GPTCommands.Add.label := None;
     GPTCommands.Add.successful := None;
     GPTCommands.Add.tries := None;
     GPTCommands.Add.priority := None;
     GPTCommands.Add.required := None;
     GPTCommands.Add.legacy_boot := None;
     GPTCommands.Add.raw_16 := None |}.

Definition show_type (numeric_ : bool) : GPTCommands.Show.args :=
  {| GPTCommands.Show.numeric := numeric_;
     GPTCommands.Show.quick := false;
     GPTCommands.Show.number := Some 1;
     GPTCommands.Show.begin := false;
     GPTCommands.Show.size := false;
     GPTCommands.Show.type := true;
     GPTCommands.Show.unique := false;
     GPTCommands.Show.label := false;
     GPTCommands.Show.Successful := false;
     GPTCommands.Show.Tries := false;
     GPTCommands.Show.Priority := false;
     GPTCommands.Show.Legacy := false;
     GPTCommands.Show.Attribute := false |}.

(** A blank image of 2200 blocks of 512 bytes; the image after
    [create], and after [add -t kernel -s 2048] on it. *)
Definition blank : File.t :=
  File.Make "disk.bin" (repeat Byte.x00 (Z.to_nat 1126400)) 0 None.

Definition unique : GUID.t := 0x11111111222233334444555555555555.

Definition created : File.t :=
  file_after blank
    (GPTCommands.Create.Execute Sample.disk_guid
       (GPTCommands.Create.Args false 0 None) blank).

Definition added : File.t :=
  file_after blank
    (GPTCommands.Add.Execute unique add_kernel created).

(** The table [LoadFromFile] gives for the created image: the table
    [GPT.Create] makes for 2200 blocks, with its two checksums. *)
Definition loaded : GPT.t :=
  GPT.set_header
    (Header.set_CRC32 3966153873
       (Header.set_PartitionArrayCRC32 2874462854
          (Header.Create Sample.disk_guid 1126400 512 0
             Header.DEFAULT_PARTITION_ENTRIES)))
    (GPT.Create Sample.disk_guid "disk.bin" 1126400 512 0).

End Sample4.

(** ** [CheckIntegrity] in two halves

    The checks of [CheckIntegrity] that come before the checksums
    (placement of the headers and of the entries, overlap, bounds of
    the first and of the last partition, distinct GUIDs), and the two
    checksum checks. *)

Definition check_layout (g : GPT.t) : result unit :=
  let h := GPT.header g in
  let entries_first_lba := Header.PartitionEntriesStartingLBA h in
  let entries_last_lba :=
    entries_first_lba + GPT.GetPartitionTableBlocks g h - 1 in
  let check := GPT.CheckOutsideUsable h entries_first_lba entries_last_lba in
  _ <- check (Header.CurrentLBA h) true ;;
  _ <- check (Header.BackupLBA h) true ;;
  _ <- check entries_first_lba false ;;
  _ <- check entries_last_lba false ;;
  let parts := GPT.GetUsedPartitions g in
  let lba_list := sort_key Partition.FirstLBA parts in
  _ <- GPT.check_overlap lba_list ;;
  _ <- match lba_list with
       | [] => OK tt
       | p :: _ =>
           if Partition.FirstLBA p <? Header.FirstUsableLBA h
           then Err AttributeError
           else
             let p := last lba_list p in
             if Partition.LastLBA p >? Header.LastUsableLBA h
             then Err AttributeError
             else OK tt
       end ;;
  if negb (List.length (nodup Z.eq_dec (map Partition.UniqueGUID parts))
           =? List.length parts)%nat
  then Err (GPTError "Partition UniqueGUIDs are duplicated.")
  else OK tt.

Definition check_checksums (g : GPT.t) : result unit :=
  let h := GPT.header g in
  parts_blob <- join_blobs (GPT.partitions g) ;;
  if negb (binascii.crc32 parts_blob =? Header.PartitionArrayCRC32 h)
  then Err (GPTError "GPT Header PartitionArrayCRC32 does not match.")
  else
    header_crc <- Header.UpdateChecksum h ;;
    if negb (Header.CRC32 header_crc =? Header.CRC32 h)
    then Err (GPTError "GPT Header CRC32 does not match.")
    else OK tt.

Module Sample6.

(** The sample table with its checksums brought up to date. *)
Definition checked : GPT.t :=
  match GPT.UpdateChecksum Sample.gpt with
  | OK g => g
  | Err _ => Sample.gpt
  end.

End Sample6.

(** ** [RemovePartition]

    [RemovePartition(image, part)] prints a line, then runs
    [add -i part -t Unused] on the image and drops its message; the
    result is the line printed and the run on the image. *)
Definition RemovePartition_args (part : Z) : GPTCommands.Add.args :=
  {| GPTCommands.Add.number := Some part;
     GPTCommands.Add.begin := None;
     GPTCommands.Add.sectors := None;
     GPTCommands.Add.type_guid := GPTCommands.GetTypeGUID_alias "Unused";
     GPTCommands.Add.unique_guid := None;
     GPTCommands.Add.label := None;
     GPTCommands.Add.successful := None;
     GPTCommands.Add.tries := None;
     GPTCommands.Add.priority := None;
     GPTCommands.Add.required := None;
     GPTCommands.Add.legacy_boot := None;
     GPTCommands.Add.raw_16 := None |}.

Definition RemovePartition (unique : GUID.t) (part : Z) (image : File.t)
  : list string * result (unit * File.t) :=
  ([("Removing partition " ++ str_int part ++ "...")%string],
   (_ <~ GPTCommands.Add.Execute unique (RemovePartition_args part) ;;
    ret tt) image).

(** [add -i number] with no other option. *)
Definition Add_number_only (number_ : Z) : GPTCommands.Add.args :=
  {| GPTCommands.Add.number := Some number_;
     GPTCommands.Add.begin := None;
     GPTCommands.Add.sectors := None;
     GPTCommands.Add.type_guid := None;
     GPTCommands.Add.unique_guid := None;
     GPTCommands.Add.label := None;
     GPTCommands.Add.successful := None;
     GPTCommands.Add.tries := None;
     GPTCommands.Add.priority := None;
     GPTCommands.Add.required := None;
     GPTCommands.Add.legacy_boot := None;
     GPTCommands.Add.raw_16 := None |}.

(** ** Reading leaves the file as it is

    [same_file f f']: [f'] is [f] but for the position. *)
Definition same_file (f f' : File.t) : Prop :=
  File.name f' = File.name f
  /\ File.content f' = File.content f
  /\ File.logical_block_size f' = File.logical_block_size f.

Module Sample7.

(** The table [LoadFromFile] gives for the sample image. *)
Definition loaded : GPT.t :=
  match value (GPT.LoadFromFile Sample2.image) with
  | OK g => g
  | Err _ => Sample.gpt
  end.

End Sample7.

(** ** What [prioritize] may change

    [priority_tries_only a a']: the attribute words [a] and [a']
    agree on every bit outside the priority field (bits 48 to 51) and
    the tries field (bits 52 to 55).  [attributes_frame S ps ps']:
    the entries of [ps'] are those of [ps] with other attributes,
    differing in the priority and tries fields only, and not at all
    at the places outside [S]. *)
Definition priority_tries_only (a a' : PartitionAttributes.t) : Prop :=
  forall i, ~ 48 <= i < 56 ->
            Z.testbit (PartitionAttributes.raw a') i
            = Z.testbit (PartitionAttributes.raw a) i.

Definition attributes_frame (S : nat -> Prop) (ps ps' : list Partition.t)
  : Prop :=
  List.length ps' = List.length ps
  /\ forall j p,
      nth_error ps j = Some p ->
      exists attrs,
        nth_error ps' j = Some (Partition.set_Attributes attrs p)
        /\ priority_tries_only (Partition.Attributes p) attrs
        /\ (~ S j -> attrs = Partition.Attributes p).

(** The places of [ps] that hold a ChromeOS kernel partition, and
    those that hold one of priority [k]. *)
Definition kernel_place (ps : list Partition.t) (j : nat) : Prop :=
  exists p, nth_error ps j = Some p
            /\ Partition.IsChromeOSKernel p = true.

Definition kernel_place_of_priority (ps : list Partition.t) (k : Z)
  (j : nat) : Prop :=
  exists p, nth_error ps j = Some p
            /\ Partition.IsChromeOSKernel p = true
            /\ GPTCommands.Prioritize.priority_of p = k.

Module Sample8.

(** The sample table with a second kernel partition, of priority 0,
    as entry 3; [prioritize] with no option, and [prioritize -i 1]. *)
Definition kernel_b : Partition.t :=
  {| Partition.TypeGUID := TYPE_GUID_CHROMEOS_KERNEL;
     Partition.UniqueGUID := 0xBBBBBBBBCCCCDDDDEEEEFFFFFFFFFFFF;
     Partition.FirstLBA := 51;
     Partition.LastLBA := 58;
     Partition.Attributes := PartitionAttributes.Make 0;
     Partition.Names := utf16le.of_string "KERN-B";
     Partition.image := "disk.bin";
     Partition.number := 3;
     Partition.block_size := 512 |}.

Definition gpt : GPT.t := GPT.store_partition Sample.gpt 3 kernel_b.

Definition no_option : GPTCommands.Prioritize.args :=
  GPTCommands.Prioritize.Args None None false.

Definition target_1 : GPTCommands.Prioritize.args :=
  GPTCommands.Prioritize.Args None (Some 1) false.

End Sample8.

(** ** [find], partition by partition

    The test the loop of [find] makes on a partition when no match
    file is given, and the line it prints for a match. *)
Definition Find_matches (a : GPTCommands.Find.args) (p : Partition.t)
  : bool :=
  negb (Partition.IsUnused p
        || GPTCommands.Find.Unmatch GPTCommands.Find.str_eqb
             (GPTCommands.Find.label a) (Partition.Names p)
        || GPTCommands.Find.Unmatch GUID.eqb
             (GPTCommands.Find.unique_guid a) (Partition.UniqueGUID p)
        || GPTCommands.Find.Unmatch GUID.eqb
             (GPTCommands.Find.type_guid a) (Partition.TypeGUID p)).

Definition Find_line (a : GPTCommands.Find.args) (p : Partition.t)
  : string :=
  if GPTCommands.Find.numeric a then str_int (Partition.number p)
  else (Partition.image p
          ++ (if GPTCommands.Find.last_is_digit (Partition.image p)
              then "p" else "")
          ++ str_int (Partition.number p))%string.

(** The criteria [find] asks for: one of [-t], [-u] and a non-empty
    [-l]. *)
Definition Find_criteria (a : GPTCommands.Find.args) : Prop :=
  GPTCommands.Find.type_guid a <> None
  \/ GPTCommands.Find.unique_guid a <> None
  \/ exists c s, GPTCommands.Find.label a = Some (c :: s).

Module Sample9.

(** The two devices and a match file that holds the text [STATE];
    [find -l STATE -M pattern /dev/sda]. *)
Definition pattern : File.t :=
  File.Make "pattern" (b "STATE"%string) 0 None.

Definition sys : GPTCommands.Find.system :=
  {| GPTCommands.Find.files := [Sample3.sda; Sample3.sdb; pattern];
     GPTCommands.Find.lsblk := ["sda"%string; "sdb"%string] |}.

Definition find_state_pattern : GPTCommands.Find.args :=
  {| GPTCommands.Find.type_guid := None;
     GPTCommands.Find.unique_guid := None;
     GPTCommands.Find.label := Some (utf16le.of_string "STATE");
     GPTCommands.Find.numeric := false;
     GPTCommands.Find.single_match := false;
     GPTCommands.Find.match_file := Some "pattern"%string;
     GPTCommands.Find.offset := 0;
     GPTCommands.Find.drive := Some "/dev/sda"%string |}.

End Sample9.

(** ** Pieces of a file

    [slice c p n]: the [n] bytes of [c] from offset [p] (fewer at the
    end of [c]); what [read(n)] returns at position [p]. *)
Definition slice (c : list byte) (p n : nat) : list byte :=
  firstn n (skipn p c).

(** ** Tables that [WriteToFile] writes where [LoadFromFile] looks

    [primary_table image_ g]: [g] is a primary table with blocks of
    512 bytes and its header in block 1, in canonical form, with
    entries of 128 bytes numbered from 1 for the image [image_]; its
    entries start after block 1, and the backup entries (which
    [WriteToFile] puts right before the backup header) come after the
    primary ones. *)
Definition primary_table (image_ : string) (g : GPT.t) : Prop :=
  let h := GPT.header g in
  GPT.block_size g = 512
  /\ GPT.is_secondary g = false
  /\ Header.CurrentLBA h = 1
  /\ GPT.valid_signature (Header.Signature h) = true
  /\ valid_header h
  /\ Header.PartitionEntrySize h = 128
  /\ Z.of_nat (List.length (GPT.partitions g))
     = Header.PartitionEntriesNumber h
  /\ Forall valid_partition (GPT.partitions g)
  /\ table_meta image_ 512 1 (GPT.partitions g)
  /\ 2 <= Header.PartitionEntriesStartingLBA h
  /\ Header.PartitionEntriesStartingLBA h + GPT.GetPartitionTableBlocks g h
     <= Header.BackupLBA h - GPT.GetPartitionTableBlocks g h.

(** ** The layout checks in two halves

    [check_placement]: the four calls of [CheckOutsideUsable], which
    look at the header and the block size only.  [check_partitions]:
    the checks that follow them, on the used partitions: overlap,
    bounds of the first and of the last one, distinct GUIDs. *)
Definition check_placement (g : GPT.t) : result unit :=
  let h := GPT.header g in
  let entries_first_lba := Header.PartitionEntriesStartingLBA h in
  let entries_last_lba :=
    entries_first_lba + GPT.GetPartitionTableBlocks g h - 1 in
  let check := GPT.CheckOutsideUsable h entries_first_lba entries_last_lba in
  _ <- check (Header.CurrentLBA h) true ;;
  _ <- check (Header.BackupLBA h) true ;;
  _ <- check entries_first_lba false ;;
  check entries_last_lba false.

Definition check_partitions (h : Header.t) (parts : list Partition.t)
  : result unit :=
  let lba_list := sort_key Partition.FirstLBA parts in
  _ <- GPT.check_overlap lba_list ;;
  _ <- match lba_list with
       | [] => OK tt
       | p :: _ =>
           if Partition.FirstLBA p <? Header.FirstUsableLBA h
           then Err AttributeError
           else
             let p := last lba_list p in
             if Partition.LastLBA p >? Header.LastUsableLBA h
             then Err AttributeError
             else OK tt
       end ;;
  if negb (List.length (nodup Z.eq_dec (map Partition.UniqueGUID parts))
           =? List.length parts)%nat
  then Err (GPTError "Partition UniqueGUIDs are duplicated.")
  else OK tt.

(** Two partitions that share no block; a partition within the usable
    blocks of a header. *)
Definition disjoint (p q : Partition.t) : Prop :=
  Partition.LastLBA p < Partition.FirstLBA q
  \/ Partition.LastLBA q < Partition.FirstLBA p.

Definition within_usable (h : Header.t) (p : Partition.t) : Prop :=
  Header.FirstUsableLBA h <= Partition.FirstLBA p
  /\ Partition.LastLBA p <= Header.LastUsableLBA h.

(** In the sorted list every entry begins no later than each entry
    after it, and ends before that one begins. *)
Definition before (p q : Partition.t) : Prop :=
  Partition.FirstLBA p <= Partition.FirstLBA q
  /\ Partition.LastLBA p < Partition.FirstLBA q.

Definition first_le_last (p : Partition.t) : Prop :=
  Partition.FirstLBA p <= Partition.LastLBA p.

Module Sample10.

(** The image [create] makes of a blank file of 100 blocks, and the
    table [LoadFromFile] gives for it (the table [GPT.Create] makes
    for 100 blocks, with its two checksums): it has 33 usable blocks,
    no room for 2048. *)
Definition created : File.t :=
  file_after Sample2.blank
    (GPTCommands.Create.Execute Sample.disk_guid
       (GPTCommands.Create.Args false 0 None) Sample2.blank).

Definition loaded : GPT.t :=
  GPT.set_header
    (Header.set_CRC32 1649532843
       (Header.set_PartitionArrayCRC32 2874462854
          (Header.Create Sample.disk_guid 51200 512 0
             Header.DEFAULT_PARTITION_ENTRIES)))
    (GPT.Create Sample.disk_guid "disk.bin" 51200 512 0).

End Sample10.

Module Sample11.

(** The sample table with partition 2 ending at block 70, after
    [LastUsableLBA] (66). *)
Definition outside : GPT.t :=
  GPT.store_partition Sample.gpt 2 (Partition.set_LastLBA 70 Sample.state).

End Sample11.

(** ** A checksum damaged on the disk

    [corrupt_PartitionArrayCRC32 v f]: the image [f] with the stored
    [PartitionArrayCRC32] of the primary header (the last four of the
    92 bytes of the header, which begins at byte 512) overwritten by
    the four bytes of [v]. *)
Definition corrupt_PartitionArrayCRC32 (v : Z) (f : File.t) : File.t :=
  File.set_content
    (write_at (File.content f) (512 + 88) (le_split 4 v)) f.
(** *** The setter touches its own bits only *)

Section BitPropertyFacts.

Variables shift mask : Z.
Hypothesis shift_nonneg : 0 <= shift.

Lemma setter_ok raw v :
  Z.land v mask = v ->
  BitProperty._setter shift mask raw v =
  OK (Z.lor (Z.land raw (Z.lnot (Z.shiftl mask shift))) (Z.shiftl v shift)).
Proof.
  intros Hv. unfold BitProperty._setter.
  rewrite Hv, Z.eqb_refl. reflexivity.
Qed.

Lemma getter_after_setter raw v :
  Z.land v mask = v ->
  BitProperty._getter shift mask
    (Z.lor (Z.land raw (Z.lnot (Z.shiftl mask shift))) (Z.shiftl v shift)) = v.
Proof.
  intros Hv. unfold BitProperty._getter.
  apply Z.bits_inj'. intros i Hi.
  rewrite Z.land_spec, Z.shiftr_spec, Z.lor_spec, Z.land_spec,
    Z.lnot_spec, !Z.shiftl_spec by lia.
  replace (i + shift - shift) with i by lia.
  rewrite <- Hv at 2. rewrite Z.land_spec.
  destruct (Z.testbit raw (i + shift)), (Z.testbit mask i),
    (Z.testbit v i); reflexivity.
Qed.

Lemma setter_frame raw v i :
  Z.land v mask = v ->
  Z.testbit (Z.shiftl mask shift) i = false ->
  Z.testbit
    (Z.lor (Z.land raw (Z.lnot (Z.shiftl mask shift))) (Z.shiftl v shift)) i
  = Z.testbit raw i.
Proof.
  intros Hv Hm.
  destruct (Z.ltb_spec i 0) as [Hneg | Hpos].
  - rewrite !Z.testbit_neg_r by assumption. reflexivity.
  - rewrite Z.lor_spec, Z.land_spec, Z.lnot_spec, Hm by lia.
    assert (Hvi : Z.testbit (Z.shiftl v shift) i = false).
    { rewrite Z.shiftl_spec in * by lia.
      rewrite <- Hv, Z.land_spec, Hm. apply andb_false_r. }
    rewrite Hvi. simpl. rewrite andb_true_r, orb_false_r. reflexivity.
Qed.

Lemma setter_range raw v :
  Z.land v mask = v ->
  0 <= mask -> Z.shiftl mask shift < 2 ^ 64 ->
  0 <= raw < 2 ^ 64 ->
  0 <= Z.lor (Z.land raw (Z.lnot (Z.shiftl mask shift))) (Z.shiftl v shift)
    < 2 ^ 64.
Proof.
  intros Hv Hm Hms Hraw.
  assert (Hv0 : 0 <= v) by (rewrite <- Hv; apply Z.land_nonneg; auto).
  set (r := Z.lor _ _).
  assert (Hr0 : 0 <= r).
  { apply Z.lor_nonneg. split.
    - apply Z.land_nonneg. left. lia.
    - apply Z.shiftl_nonneg. assumption. }
  split; [assumption|].
  assert (Hr : r = r mod 2 ^ 64).
  { rewrite <- Z.land_ones by lia.
    apply Z.bits_inj'. intros i Hi.
    rewrite Z.land_spec.
    destruct (Z.ltb_spec i 64) as [Hlt | Hge].
    - rewrite Z.ones_spec_low by lia. rewrite andb_true_r. reflexivity.
    - rewrite Z.ones_spec_high by lia. rewrite andb_false_r.
      assert (Hhi : forall x, 0 <= x < 2 ^ 64 -> Z.testbit x i = false).
      { intros x Hx. destruct (Z.eq_dec x 0) as [-> | Hnz].
        - apply Z.bits_0.
        - apply Z.bits_above_log2; [lia|].
          assert (Z.log2 x < 64) by (apply Z.log2_lt_pow2; lia). lia. }
      unfold r. rewrite setter_frame.
      + apply Hhi. assumption.
      + assumption.
      + apply Hhi. split; [apply Z.shiftl_nonneg|]; assumption. }
  rewrite Hr. apply Z.mod_pos_bound. lia.
Qed.

End BitPropertyFacts.

(** C10. For every 64-bit attributes word and every bit-packed field
    (successful, tries, priority, legacy_boot, required; the raw 16-bit
    view too), setting the field to a value [v] with [v & mask == v]
    succeeds, reading the field afterwards returns [v], every bit
    outside the field's shifted mask is unchanged, and the word stays a
    64-bit word. *)
Theorem BitProperty_set_get_frame :
  forall (f : PartitionAttributes.field) (a : PartitionAttributes.t) (v : Z),
    0 <= PartitionAttributes.raw a < 2 ^ 64 ->
    Z.land v (PartitionAttributes.mask f) = v ->
    exists a',
      PartitionAttributes.set f a v = OK a'
      /\ PartitionAttributes.get f a' = v
      /\ (forall i,
             Z.testbit (Z.shiftl (PartitionAttributes.mask f)
                          (PartitionAttributes.shift f)) i = false ->
             Z.testbit (PartitionAttributes.raw a') i
             = Z.testbit (PartitionAttributes.raw a) i)
      /\ 0 <= PartitionAttributes.raw a' < 2 ^ 64.
Proof.
  intros f [raw] v Hraw Hv. simpl in Hraw.
  assert (Hs : 0 <= PartitionAttributes.shift f) by (destruct f; simpl; lia).
  eexists. unfold PartitionAttributes.set, PartitionAttributes.get. simpl.
  rewrite (setter_ok _ _ raw v Hv). simpl. split; [reflexivity|].
  split; [apply getter_after_setter; assumption|].
  split; [intros i Hi; apply setter_frame; assumption|].
  apply setter_range; try assumption.
  - destruct f; simpl; lia.
  - destruct f; vm_compute; reflexivity.
Qed.

Lemma BitProperty_set_get_frame_witness :
  exists a',
    PartitionAttributes.set PartitionAttributes.priority
      (PartitionAttributes.Make 0x0123456789ABCDEF) 9 = OK a'
    /\ PartitionAttributes.get PartitionAttributes.priority a' = 9
    /\ (forall i,
           Z.testbit (Z.shiftl 15 48) i = false ->
           Z.testbit (PartitionAttributes.raw a') i
           = Z.testbit 0x0123456789ABCDEF i)
    /\ 0 <= PartitionAttributes.raw a' < 2 ^ 64.
Proof.
  apply (BitProperty_set_get_frame PartitionAttributes.priority
           (PartitionAttributes.Make 0x0123456789ABCDEF) 9).
  - simpl. lia.
  - reflexivity.
Defined.

(** ** [GetMaxUsedLBA] and [ExpandPartition] *)

Lemma fold_max_ge_init (l : list Z) (x : Z) : x <= fold_left Z.max l x.
Proof.
  revert x. induction l as [|y l IH]; intros x; simpl; [lia|].
  specialize (IH (Z.max x y)). lia.
Qed.

Lemma fold_max_upper (l : list Z) (x y : Z) :
  In y (x :: l) -> y <= fold_left Z.max l x.
Proof.
  revert x. induction l as [|z l IH]; intros x Hin; simpl.
  - destruct Hin as [-> | []]. lia.
  - destruct Hin as [-> | [-> | Hin]].
    + pose proof (fold_max_ge_init l (Z.max y z)). lia.
    + pose proof (fold_max_ge_init l (Z.max x y)). lia.
    + apply IH. right. assumption.
Qed.

Lemma fold_max_in (l : list Z) (x : Z) : In (fold_left Z.max l x) (x :: l).
Proof.
  revert x. induction l as [|z l IH]; intros x; simpl; [auto|].
  destruct (IH (Z.max x z)) as [H | H].
  - destruct (Z.max_spec x z) as [[_ E] | [_ E]]; rewrite E in *; auto.
  - auto.
Qed.

Lemma GetPartition_In (g : GPT.t) (number : Z) (p : Partition.t) :
  GPT.GetPartition g number = OK p -> In p (GPT.partitions g).
Proof.
  unfold GPT.GetPartition. intros H.
  destruct (negb _); [discriminate|].
  destruct (nth_error _ _) eqn:E; [|discriminate].
  inversion H; subst. eapply nth_error_In; eassumption.
Qed.

Lemma GetMaxUsedLBA_upper (g : GPT.t) (q : Partition.t) :
  In q (GPT.GetUsedPartitions g) ->
  Partition.LastLBA q <= GPT.GetMaxUsedLBA g.
Proof.
  intros Hin. unfold GPT.GetMaxUsedLBA.
  apply (in_map Partition.LastLBA) in Hin.
  destruct (map Partition.LastLBA (GPT.GetUsedPartitions g)) as [|x l];
    [contradiction|].
  apply fold_max_upper. assumption.
Qed.

Lemma GetMaxUsedLBA_attained (g : GPT.t) :
  GPT.GetUsedPartitions g <> [] ->
  exists q, In q (GPT.GetUsedPartitions g)
            /\ Partition.LastLBA q = GPT.GetMaxUsedLBA g.
Proof.
  intros Hne. unfold GPT.GetMaxUsedLBA.
  destruct (map Partition.LastLBA (GPT.GetUsedPartitions g)) as [|x l] eqn:E.
  - destruct (GPT.GetUsedPartitions g); [congruence | discriminate].
  - pose proof (fold_max_in l x) as Hin. rewrite <- E in Hin.
    apply in_map_iff in Hin. destruct Hin as [q [Hq Hin]]. eauto.
Qed.

(** C4. With [p] the partition [GetPartition(n)] returns:
    [ExpandPartition(n, reserved_blocks)] fails with a [GPTError]
    whenever [p] is unused or an allocated partition has a [LastLBA]
    greater than [p]'s; when [p] is allocated and no allocated partition
    ends after it, the call returns [(old_blocks, new_blocks)] and sets
    [p]'s [LastLBA] to [LastUsableLBA - reserved_blocks], changing
    nothing else; and with [reserved_blocks = 0] the block count only
    goes down when [LastUsableLBA] is below the old [LastLBA]. *)
Theorem ExpandPartition_last_partition :
  forall (g : GPT.t) (number reserved_blocks : Z) (p : Partition.t),
    GPT.GetPartition g number = OK p ->
    let last_usable := Header.LastUsableLBA (GPT.header g) in
    let p' := Partition.set_LastLBA (last_usable - reserved_blocks) p in
    ((Partition.IsUnused p = true
      \/ (exists q, In q (GPT.GetUsedPartitions g)
                    /\ Partition.LastLBA q > Partition.LastLBA p)) ->
     is_GPTError (GPT.ExpandPartition g number reserved_blocks))
    /\ (Partition.IsUnused p = false ->
        (forall q, In q (GPT.GetUsedPartitions g) ->
                   Partition.LastLBA q <= Partition.LastLBA p) ->
        GPT.ExpandPartition g number reserved_blocks
        = OK ((Partition.blocks p, Partition.blocks p'),
              GPT.store_partition g number p')
        /\ Partition.LastLBA p' = last_usable - reserved_blocks
        /\ (reserved_blocks = 0 ->
            Partition.blocks p' < Partition.blocks p ->
            last_usable < Partition.LastLBA p)).
Proof.
  intros g number reserved_blocks p Hget last_usable p'.
  unfold GPT.ExpandPartition. rewrite Hget. simpl.
  split.
  - intros [Hun | [q [Hin Hgt]]].
    + rewrite Hun. eexists. reflexivity.
    + destruct (Partition.IsUnused p); [eexists; reflexivity|].
      pose proof (GetMaxUsedLBA_upper g q Hin) as Hle.
      destruct (Z.gtb_spec (GPT.GetMaxUsedLBA g) (Partition.LastLBA p));
        [eexists; reflexivity | lia].
  - intros Hused Hall. rewrite Hused.
    assert (Hp : In p (GPT.GetUsedPartitions g)).
    { unfold GPT.GetUsedPartitions. apply filter_In. split.
      - eapply GetPartition_In. eassumption.
      - rewrite Hused. reflexivity. }
    destruct (GetMaxUsedLBA_attained g) as [q [Hq Hmax]].
    { intros E. rewrite E in Hp. contradiction. }
    specialize (Hall q Hq).
    destruct (Z.gtb_spec (GPT.GetMaxUsedLBA g) (Partition.LastLBA p));
      [lia|].
    split; [reflexivity|]. split; [reflexivity|].
    intros -> Hlt. unfold Partition.blocks, p' in Hlt. simpl in Hlt.
    fold last_usable in Hlt. lia.
Qed.

Lemma ExpandPartition_last_partition_witness :
  let last_usable := Header.LastUsableLBA (GPT.header Sample.gpt) in
  let p' := Partition.set_LastLBA (last_usable - 0) Sample.state in
  ((Partition.IsUnused Sample.state = true
    \/ (exists q, In q (GPT.GetUsedPartitions Sample.gpt)
                  /\ Partition.LastLBA q > Partition.LastLBA Sample.state)) ->
   is_GPTError (GPT.ExpandPartition Sample.gpt 2 0))
  /\ (Partition.IsUnused Sample.state = false ->
      (forall q, In q (GPT.GetUsedPartitions Sample.gpt) ->
                 Partition.LastLBA q <= Partition.LastLBA Sample.state) ->
      GPT.ExpandPartition Sample.gpt 2 0
      = OK ((Partition.blocks Sample.state, Partition.blocks p'),
            GPT.store_partition Sample.gpt 2 p')
      /\ Partition.LastLBA p' = last_usable - 0
      /\ (0 = 0 ->
          Partition.blocks p' < Partition.blocks Sample.state ->
          last_usable < Partition.LastLBA Sample.state)).
Proof.
  apply (ExpandPartition_last_partition Sample.gpt 2 0 Sample.state).
  vm_compute. reflexivity.
Defined.

(** ** Field codecs: what is packed is what is unpacked *)

Lemma firstn_app_len {A : Type} (n : nat) (x y : list A) :
  List.length x = n -> firstn n (x ++ y) = x.
Proof.
  intros <-. rewrite firstn_app, Nat.sub_diag, firstn_all. simpl.
  apply app_nil_r.
Qed.

Lemma skipn_app_len {A : Type} (n : nat) (x y : list A) :
  List.length x = n -> skipn n (x ++ y) = y.
Proof.
  intros <-. rewrite skipn_app, Nat.sub_diag, skipn_all. reflexivity.
Qed.

Lemma take_app (n : nat) (x y : list byte) :
  List.length x = n -> take n (x ++ y) = (x, y).
Proof.
  intros H. unfold take. rewrite firstn_app_len, skipn_app_len by assumption.
  reflexivity.
Qed.

Lemma pack_s_exact (n : nat) (v : list byte) :
  List.length v = n -> struct.pack_s n v = v.
Proof.
  intros <-. unfold struct.pack_s.
  rewrite firstn_all, Nat.sub_diag. simpl. apply app_nil_r.
Qed.

Lemma pack_s_length (n : nat) (v : list byte) :
  List.length (struct.pack_s n v) = n.
Proof.
  unfold struct.pack_s. rewrite length_app, length_firstn, repeat_length. lia.
Qed.

Lemma pack_uint_ok (n : nat) (v : Z) :
  uint_range n v -> struct.pack_uint n v = OK (le_split n v).
Proof.
  intros [H0 H1]. unfold struct.pack_uint.
  destruct (Z.leb_spec 0 v); [|lia]. destruct (Z.ltb_spec v (2 ^ (8 * Z.of_nat n)));
    [reflexivity | lia].
Qed.

Lemma pack_uint_inv (n : nat) (v : Z) (bs : list byte) :
  struct.pack_uint n v = OK bs -> uint_range n v /\ bs = le_split n v.
Proof.
  unfold struct.pack_uint, uint_range.
  destruct (Z.leb_spec 0 v); destruct (Z.ltb_spec v (2 ^ (8 * Z.of_nat n)));
    simpl; intros E; inversion E; subst; auto.
Qed.

Lemma unpack_uint_split (n : nat) (v : Z) :
  uint_range n v -> struct.unpack_uint (le_split n v) = v.
Proof.
  intros [H0 H1]. unfold struct.unpack_uint.
  rewrite le_combine_split. apply Z.mod_small.
  replace (Z.of_nat n * 8) with (8 * Z.of_nat n) by lia. lia.
Qed.

Lemma unpack_uint_range (bs : list byte) :
  uint_range (List.length bs) (struct.unpack_uint bs).
Proof. apply le_combine_bound. Qed.

(** *** GUID *)

Lemma swap_le_involutive (x : list byte) :
  List.length x = 16%nat -> GUID.swap_le (GUID.swap_le x) = x.
Proof.
  intros H.
  do 16 (destruct x as [|? x]; [discriminate|]).
  destruct x; [reflexivity | discriminate].
Qed.

Lemma swap_le_length (x : list byte) :
  List.length x = 16%nat -> List.length (GUID.swap_le x) = 16%nat.
Proof.
  intros H.
  do 16 (destruct x as [|? x]; [discriminate|]).
  destruct x; [reflexivity | discriminate].
Qed.

Lemma bytes_le_length (g : GUID.t) : List.length (GUID.bytes_le g) = 16%nat.
Proof.
  unfold GUID.bytes_le, GUID.bytes. apply swap_le_length.
  rewrite length_rev. apply length_le_split.
Qed.

Lemma of_bytes_le_valid (x : list byte) :
  List.length x = 16%nat -> GUID.valid (GUID.of_bytes_le x).
Proof.
  intros H. unfold GUID.valid, GUID.of_bytes_le, GUID.of_bytes.
  pose proof (le_combine_bound (rev (GUID.swap_le x))) as Hb.
  rewrite length_rev, swap_le_length in Hb by assumption. exact Hb.
Qed.

Lemma GUID_roundtrip (g : GUID.t) :
  GUID.valid g ->
  GUIDStructField.Unpack (struct.pack_s 16 (GUIDStructField.Pack g)) = g.
Proof.
  intros Hg. unfold GUIDStructField.Unpack, GUIDStructField.Pack.
  rewrite pack_s_exact by apply bytes_le_length.
  unfold GUID.of_bytes_le, GUID.bytes_le, GUID.of_bytes, GUID.bytes.
  rewrite swap_le_involutive by (rewrite length_rev; apply length_le_split).
  rewrite rev_involutive.
  apply (unpack_uint_split 16 g). exact Hg.
Qed.

Lemma GUID_bytes_roundtrip (x : list byte) :
  List.length x = 16%nat ->
  GUIDStructField.Pack (GUIDStructField.Unpack x) = x.
Proof.
  intros H. unfold GUIDStructField.Unpack, GUIDStructField.Pack.
  unfold GUID.of_bytes_le, GUID.bytes_le, GUID.of_bytes, GUID.bytes.
  replace 16%nat with (List.length (rev (GUID.swap_le x)))
    by (rewrite length_rev; apply swap_le_length; assumption).
  rewrite split_le_combine, rev_involutive.
  apply swap_le_involutive. assumption.
Qed.

(** *** UTF-16 names *)

Lemma Some_inj {A : Type} (x y : A) : Some x = Some y -> x = y.
Proof. intros H. injection H. auto. Qed.

Lemma encode_char_cases (c : Z) (us : list Z) :
  utf16le.encode_char c = Some us ->
  (0 <= c < 0xD800 /\ us = [c])
  \/ (0xDFFF < c < 0x10000 /\ us = [c])
  \/ (0x10000 <= c <= 0x10FFFF
      /\ us = [0xD800 + (c - 0x10000) / 1024;
               0xDC00 + (c - 0x10000) mod 1024]).
Proof.
  unfold utf16le.encode_char.
  destruct (Z.ltb_spec c 0); [discriminate|].
  destruct (Z.ltb_spec 0x10FFFF c); [discriminate|].
  cbn [orb].
  destruct (Z.leb_spec 0xD800 c); destruct (Z.leb_spec c 0xDFFF);
    cbn [andb]; try (intros E; discriminate E);
    destruct (Z.ltb_spec c 0x10000); intros E; apply Some_inj in E;
    subst us.
  all: try (exfalso; lia).
  - right. left. split; [lia | reflexivity].
  - right. right. split; [lia | reflexivity].
  - left. split; [lia | reflexivity].
Qed.

Lemma surrogate_pair_range (c : Z) :
  0x10000 <= c <= 0x10FFFF ->
  0xD800 <= 0xD800 + (c - 0x10000) / 1024 <= 0xDBFF
  /\ 0xDC00 <= 0xDC00 + (c - 0x10000) mod 1024 <= 0xDFFF
  /\ 0x10000 + (0xD800 + (c - 0x10000) / 1024 - 0xD800) * 1024
     + (0xDC00 + (c - 0x10000) mod 1024 - 0xDC00) = c.
Proof.
  intros Hc.
  pose proof (Z.div_pos (c - 65536) 1024 ltac:(lia) ltac:(lia)) as Hq0.
  assert (Hq1 : (c - 65536) / 1024 < 1024)
    by (apply Z.div_lt_upper_bound; lia).
  pose proof (Z.mod_pos_bound (c - 65536) 1024 ltac:(lia)) as Hr.
  pose proof (Z.div_mod (c - 65536) 1024 ltac:(lia)) as Hdm.
  generalize dependent ((c - 65536) / 1024).
  generalize dependent ((c - 65536) mod 1024).
  intros. lia.
Qed.

Lemma encode_char_units (c : Z) (us : list Z) :
  utf16le.encode_char c = Some us -> Forall (uint_range 2) us.
Proof.
  intros E. unfold uint_range. change (2 ^ (8 * Z.of_nat 2)) with 65536.
  destruct (encode_char_cases c us E) as [[Hc ->] | [[Hc ->] | [Hc ->]]].
  - repeat constructor; lia.
  - repeat constructor; lia.
  - destruct (surrogate_pair_range c Hc) as [Hh [Hl _]].
    generalize dependent ((c - 65536) / 1024).
    generalize dependent ((c - 65536) mod 1024).
    intros. repeat constructor; lia.
Qed.

Lemma encode_units_range (s : utf16le.str) (us : list Z) :
  utf16le.encode_units s = Some us -> Forall (uint_range 2) us.
Proof.
  revert us. induction s as [|c s IH]; cbn [utf16le.encode_units];
    intros us E.
  - apply Some_inj in E. subst. constructor.
  - destruct (utf16le.encode_char c) as [u1|] eqn:E1; [|discriminate].
    destruct (utf16le.encode_units s) as [u2|]; [|discriminate].
    apply Some_inj in E. subst. apply Forall_app. split.
    + eapply encode_char_units. eassumption.
    + apply IH. reflexivity.
Qed.

Lemma bytes_of_units_cons (u : Z) (us : list Z) :
  utf16le.bytes_of_units (u :: us)
  = le_split 2 u ++ utf16le.bytes_of_units us.
Proof. reflexivity. Qed.

Lemma bytes_of_units_length (us : list Z) :
  List.length (utf16le.bytes_of_units us) = (2 * List.length us)%nat.
Proof.
  induction us as [|u us IH]; [reflexivity|].
  rewrite bytes_of_units_cons, length_app, length_le_split, IH.
  cbn [List.length]. lia.
Qed.

Lemma units_of_bytes_pair (lo hi : byte) (rest : list byte) :
  utf16le.units_of_bytes (lo :: hi :: rest)
  = option_map (cons (le_combine [lo; hi])) (utf16le.units_of_bytes rest).
Proof. reflexivity. Qed.

Lemma units_of_bytes_app (us : list Z) (rest : list byte) :
  Forall (uint_range 2) us ->
  utf16le.units_of_bytes (utf16le.bytes_of_units us ++ rest)
  = option_map (app us) (utf16le.units_of_bytes rest).
Proof.
  induction 1 as [|u us Hu Hus IH].
  - cbn [utf16le.bytes_of_units flat_map app].
    destruct (utf16le.units_of_bytes rest); reflexivity.
  - rewrite bytes_of_units_cons.
    change (le_split 2 u) with [byte.of_Z u; byte.of_Z (Z.shiftr u 8)].
    cbn [app]. rewrite units_of_bytes_pair, IH.
    change [byte.of_Z u; byte.of_Z (Z.shiftr u 8)] with (le_split 2 u).
    rewrite (unpack_uint_split 2 u Hu : le_combine (le_split 2 u) = u).
    destruct (utf16le.units_of_bytes rest); reflexivity.
Qed.

Lemma units_of_zero_bytes (k : nat) :
  utf16le.units_of_bytes (repeat Byte.x00 (2 * k)) = Some (repeat 0 k).
Proof.
  induction k as [|k IH]; [reflexivity|].
  replace (2 * S k)%nat with (S (S (2 * k))) by lia.
  cbn [repeat]. rewrite units_of_bytes_pair, IH. reflexivity.
Qed.

Lemma decode_units_single (u : Z) (rest : list Z) :
  u < 0xD800 \/ 0xDFFF < u ->
  utf16le.decode_units (u :: rest)
  = option_map (cons u) (utf16le.decode_units rest).
Proof.
  intros H. cbn [utf16le.decode_units].
  destruct (Z.ltb_spec u 0xD800); [reflexivity|].
  destruct (Z.ltb_spec 0xDFFF u); [reflexivity | lia].
Qed.

Lemma decode_units_pair (hi lo : Z) (rest : list Z) :
  0xD800 <= hi <= 0xDBFF -> 0xDC00 <= lo <= 0xDFFF ->
  utf16le.decode_units (hi :: lo :: rest)
  = option_map (cons (0x10000 + (hi - 0xD800) * 1024 + (lo - 0xDC00)))
      (utf16le.decode_units rest).
Proof.
  intros Hh Hl. cbn [utf16le.decode_units].
  destruct (Z.ltb_spec hi 0xD800); [lia|].
  destruct (Z.ltb_spec 0xDFFF hi); [lia|]. cbn [orb].
  destruct (Z.leb_spec hi 0xDBFF); [|lia].
  destruct (Z.leb_spec 0xDC00 lo); [|lia].
  destruct (Z.leb_spec lo 0xDFFF); [|lia]. reflexivity.
Qed.

Lemma decode_zero_units (k : nat) :
  utf16le.decode_units (repeat 0 k) = Some (repeat 0 k).
Proof.
  induction k as [|k IH]; [reflexivity|].
  cbn [repeat]. rewrite decode_units_single by lia. rewrite IH. reflexivity.
Qed.

Lemma decode_units_app (s : utf16le.str) (us rest : list Z) :
  utf16le.encode_units s = Some us ->
  utf16le.decode_units (us ++ rest)
  = option_map (app s) (utf16le.decode_units rest).
Proof.
  revert us. induction s as [|c s IH]; cbn [utf16le.encode_units];
    intros us E.
  - apply Some_inj in E. subst. cbn [app].
    destruct (utf16le.decode_units rest); reflexivity.
  - destruct (utf16le.encode_char c) as [u1|] eqn:E1; [|discriminate].
    destruct (utf16le.encode_units s) as [u2|]; [|discriminate].
    apply Some_inj in E. subst. specialize (IH u2 eq_refl).
    destruct (encode_char_cases c u1 E1) as [[Hc ->] | [[Hc ->] | [Hc ->]]].
    + cbn [app]. rewrite decode_units_single by lia. rewrite IH.
      destruct (utf16le.decode_units rest); reflexivity.
    + cbn [app]. rewrite decode_units_single by lia. rewrite IH.
      destruct (utf16le.decode_units rest); reflexivity.
    + destruct (surrogate_pair_range c Hc) as [Hh [Hl Hc']].
      cbn [app]. rewrite decode_units_pair by assumption.
      rewrite Hc', IH.
      destruct (utf16le.decode_units rest); reflexivity.
Qed.

Lemma lstrip0_length (s : utf16le.str) :
  (List.length (utf16le.lstrip0 s) <= List.length s)%nat.
Proof.
  induction s as [|c s IH]; simpl; [lia|].
  destruct (c =? 0); simpl; lia.
Qed.

Lemma lstrip0_fixed (s : utf16le.str) :
  List.length (utf16le.lstrip0 s) = List.length s -> utf16le.lstrip0 s = s.
Proof.
  destruct s as [|c s]; simpl; [reflexivity|].
  destruct (c =? 0); [|reflexivity].
  pose proof (lstrip0_length s). simpl. lia.
Qed.

Lemma strip0_fixed (s : utf16le.str) :
  utf16le.strip0 s = s ->
  utf16le.lstrip0 s = s /\ utf16le.lstrip0 (rev s) = rev s.
Proof.
  intros H. unfold utf16le.strip0 in H.
  assert (Hlen : List.length (utf16le.lstrip0 s) = List.length s).
  { apply (f_equal (@List.length Z)) in H. rewrite length_rev in H.
    pose proof (lstrip0_length (rev (utf16le.lstrip0 s))) as H1.
    rewrite length_rev in H1. pose proof (lstrip0_length s). lia. }
  apply lstrip0_fixed in Hlen. rewrite Hlen in H. split; [assumption|].
  apply (f_equal (@rev Z)) in H. rewrite rev_involutive in H. assumption.
Qed.

Lemma lstrip0_zeros_app (k : nat) (s : utf16le.str) :
  utf16le.lstrip0 (repeat 0 k ++ s) = utf16le.lstrip0 s.
Proof. induction k as [|k IH]; simpl; auto. Qed.

Lemma repeat_rev {A : Type} (x : A) (k : nat) : rev (repeat x k) = repeat x k.
Proof.
  induction k as [|k IH]; [reflexivity|].
  simpl. rewrite IH. symmetry. apply repeat_cons.
Qed.

Lemma strip0_padding (s : utf16le.str) (k : nat) :
  utf16le.strip0 s = s -> utf16le.strip0 (s ++ repeat 0 k) = s.
Proof.
  intros H. destruct (strip0_fixed s H) as [Hl Hr].
  unfold utf16le.strip0.
  assert (E : utf16le.lstrip0 (s ++ repeat 0 k) = s ++ repeat 0 k
              \/ s = []).
  { destruct s as [|c s]; [right; reflexivity|left].
    simpl in *. destruct (c =? 0); [|reflexivity].
    pose proof (lstrip0_length s) as Hlen. rewrite Hl in Hlen.
    simpl in Hlen. lia. }
  destruct E as [E | ->].
  - rewrite E, rev_app_distr, repeat_rev, lstrip0_zeros_app, Hr.
    apply rev_involutive.
  - simpl. rewrite <- (app_nil_r (repeat 0 k)), lstrip0_zeros_app. simpl.
    reflexivity.
Qed.

Lemma Names_roundtrip (s : utf16le.str) (blob : list byte) :
  UTF16StructField.Pack 72 s = OK blob ->
  utf16le.strip0 s = s ->
  UTF16StructField.Unpack (struct.pack_s 72 blob) = OK s.
Proof.
  unfold UTF16StructField.Pack, utf16le.encode. intros Hp Hs.
  destruct (utf16le.encode_units s) as [us|] eqn:E; cbn [bind] in Hp;
    [|discriminate].
  destruct (Nat.leb_spec 72 (List.length (utf16le.bytes_of_units us)));
    [discriminate|].
  injection Hp as <-.
  pose proof (bytes_of_units_length us) as Hlen.
  unfold struct.pack_s. rewrite firstn_all2 by lia.
  replace (72 - List.length (utf16le.bytes_of_units us))%nat
    with (2 * (36 - List.length us))%nat by lia.
  unfold UTF16StructField.Unpack, utf16le.decode.
  rewrite units_of_bytes_app by (eapply encode_units_range; eassumption).
  rewrite units_of_zero_bytes. cbn [option_map].
  rewrite (decode_units_app s us _ E), decode_zero_units.
  cbn [option_map bind]. rewrite strip0_padding by assumption. reflexivity.
Qed.

(** ** Records: [Unpack] after [Pack] *)

Local Opaque le_split struct.pack_s.

Lemma take_all (n : nat) (x : list byte) :
  List.length x = n -> take n x = (x, []).
Proof.
  intros H. rewrite <- (app_nil_r x) at 1. apply take_app. assumption.
Qed.

Ltac field_length :=
  first [ apply pack_s_length | apply length_le_split ].

Ltac step_take :=
  first [ rewrite take_app by field_length
        | rewrite take_all by field_length ];
  cbv beta iota.

Ltac blob_length :=
  rewrite ?length_app, ?pack_s_length, ?length_le_split.

Lemma Header_Pack_valid (h : Header.t) :
  valid_header h ->
  Header.Pack h =
  OK (struct.pack_s 8 (Header.Signature h)
        ++ struct.pack_s 4 (Header.Revision h)
        ++ le_split 4 (Header.HeaderSize h)
        ++ le_split 4 (Header.CRC32 h)
        ++ struct.pack_s 4 (Header.Reserved h)
        ++ le_split 8 (Header.CurrentLBA h)
        ++ le_split 8 (Header.BackupLBA h)
        ++ le_split 8 (Header.FirstUsableLBA h)
        ++ le_split 8 (Header.LastUsableLBA h)
        ++ struct.pack_s 16 (GUIDStructField.Pack (Header.DiskGUID h))
        ++ le_split 8 (Header.PartitionEntriesStartingLBA h)
        ++ le_split 4 (Header.PartitionEntriesNumber h)
        ++ le_split 4 (Header.PartitionEntrySize h)
        ++ le_split 4 (Header.PartitionArrayCRC32 h)).
Proof.
  intros (H1 & H2 & H3 & H4 & H5 & H6 & H7 & H8 & H9 & H10 & H11 & H12
          & H13 & H14).
  unfold Header.Pack, struct.pack_L, struct.pack_Q.
  rewrite !pack_uint_ok by assumption. reflexivity.
Qed.

Lemma Header_Pack_length (h : Header.t) (blob : list byte) :
  Header.Pack h = OK blob -> List.length blob = Header.calcsize.
Proof.
  unfold Header.Pack, struct.pack_L, struct.pack_Q. intros H.
  repeat match type of H with
         | bind (struct.pack_uint ?n ?v) _ = _ =>
             let E := fresh "E" in
             destruct (struct.pack_uint n v) eqn:E; cbn [bind] in H;
             [apply pack_uint_inv in E; destruct E as [_ ->] | discriminate]
         end.
  injection H as <-. blob_length. reflexivity.
Qed.

Lemma Header_roundtrip (h : Header.t) :
  valid_header h ->
  exists blob, Header.Pack h = OK blob /\ Header.Unpack blob = OK h.
Proof.
  intros Hv. eexists. split; [apply Header_Pack_valid; assumption|].
  destruct Hv as (H1 & H2 & H3 & H4 & H5 & H6 & H7 & H8 & H9 & H10 & H11
                  & H12 & H13 & H14).
  unfold Header.Unpack.
  match goal with
  | |- (if negb (List.length ?b =? _)%nat then _ else _) = _ =>
      replace (List.length b) with Header.calcsize
        by (blob_length; reflexivity)
  end.
  rewrite Nat.eqb_refl. cbn [negb].
  do 14 step_take.
  rewrite !pack_s_exact by assumption.
  rewrite !unpack_uint_split by assumption.
  rewrite GUID_roundtrip by assumption.
  destruct h; reflexivity.
Qed.

Lemma Partition_Pack_valid (p : Partition.t) (names : list byte) :
  GUID.valid (Partition.TypeGUID p) ->
  GUID.valid (Partition.UniqueGUID p) ->
  uint_range 8 (Partition.FirstLBA p) ->
  uint_range 8 (Partition.LastLBA p) ->
  uint_range 8 (PartitionAttributes.raw (Partition.Attributes p)) ->
  UTF16StructField.Pack 72 (Partition.Names p) = OK names ->
  Partition.Pack p =
  OK (struct.pack_s 16 (GUIDStructField.Pack (Partition.TypeGUID p))
        ++ struct.pack_s 16 (GUIDStructField.Pack (Partition.UniqueGUID p))
        ++ le_split 8 (Partition.FirstLBA p)
        ++ le_split 8 (Partition.LastLBA p)
        ++ le_split 8 (PartitionAttributes.raw (Partition.Attributes p))
        ++ struct.pack_s 72 names).
Proof.
  intros H1 H2 H3 H4 H5 H6.
  unfold Partition.Pack, struct.pack_Q, PartitionAttributeStructField.Pack.
  rewrite H6. cbn [bind].
  rewrite !pack_uint_ok by assumption. reflexivity.
Qed.

Lemma Partition_Pack_length (p : Partition.t) (blob : list byte) :
  Partition.Pack p = OK blob -> List.length blob = Partition.calcsize.
Proof.
  unfold Partition.Pack, struct.pack_Q. intros H.
  destruct (UTF16StructField.Pack 72 (Partition.Names p)); cbn [bind] in H;
    [|discriminate].
  repeat match type of H with
         | bind (struct.pack_uint ?n ?v) _ = _ =>
             let E := fresh "E" in
             destruct (struct.pack_uint n v) eqn:E; cbn [bind] in H;
             [apply pack_uint_inv in E; destruct E as [_ ->] | discriminate]
         end.
  injection H as <-. blob_length. reflexivity.
Qed.

Lemma Partition_roundtrip (p : Partition.t) :
  valid_partition p ->
  exists blob,
    Partition.Pack p = OK blob
    /\ Partition.Unpack (Partition.image p) (Partition.number p)
         (Partition.block_size p) blob = OK p.
Proof.
  intros (H1 & H2 & H3 & H4 & H5 & [names Hn] & Hs).
  eexists. split; [apply Partition_Pack_valid; eassumption|].
  unfold Partition.Unpack.
  match goal with
  | |- (if negb (List.length ?b =? _)%nat then _ else _) = _ =>
      replace (List.length b) with Partition.calcsize
        by (blob_length; reflexivity)
  end.
  rewrite Nat.eqb_refl. cbn [negb].
  do 6 step_take.
  rewrite (Names_roundtrip _ _ Hn Hs). cbn [bind].
  rewrite !unpack_uint_split by assumption.
  rewrite !GUID_roundtrip by assumption.
  destruct p as [? ? ? ? [?] ? ? ? ?]; reflexivity.
Qed.

Lemma ProtectiveMBR_Pack_length (m : ProtectiveMBR.t) (blob : list byte) :
  ProtectiveMBR.Pack m = OK blob -> List.length blob = ProtectiveMBR.calcsize.
Proof.
  unfold ProtectiveMBR.Pack, struct.pack_L. intros H.
  destruct (struct.pack_uint 4 (ProtectiveMBR.DiskID m)) eqn:E;
    cbn [bind] in H; [|discriminate].
  apply pack_uint_inv in E. destruct E as [_ ->].
  injection H as <-. blob_length. reflexivity.
Qed.

Lemma ProtectiveMBR_roundtrip (m : ProtectiveMBR.t) :
  valid_pmbr m ->
  exists blob,
    ProtectiveMBR.Pack m = OK blob /\ ProtectiveMBR.Unpack blob = OK m.
Proof.
  intros (H1 & H2 & H3 & H4 & H5 & H6 & H7 & H8 & H9).
  unfold ProtectiveMBR.Pack, struct.pack_L.
  rewrite pack_uint_ok by assumption. cbn [bind].
  eexists. split; [reflexivity|].
  unfold ProtectiveMBR.Unpack.
  match goal with
  | |- (if negb (List.length ?b =? _)%nat then _ else _) = _ =>
      replace (List.length b) with ProtectiveMBR.calcsize
        by (blob_length; reflexivity)
  end.
  rewrite Nat.eqb_refl. cbn [negb].
  do 9 step_take.
  rewrite GUID_roundtrip by assumption.
  rewrite !pack_s_exact by assumption.
  rewrite unpack_uint_split by assumption.
  destruct m; reflexivity.
Qed.

(** ** Reading what the file holds *)

Lemma read_exact (f : File.t) (pre blob post : list byte) :
  File.content f = pre ++ blob ++ post ->
  File.pos f = Z.of_nat (List.length pre) ->
  read (List.length blob) f
  = OK (blob, File.set_pos (File.pos f + Z.of_nat (List.length blob)) f).
Proof.
  intros Hc Hp. unfold read. rewrite Hc, Hp, Nat2Z.id.
  rewrite skipn_app_len by reflexivity.
  rewrite firstn_app_len by reflexivity. reflexivity.
Qed.

Lemma Partition_ReadFrom_exact (f : File.t) (pre post : list byte)
  (p : Partition.t) (blob : list byte) :
  Partition.Pack p = OK blob ->
  Partition.Unpack (Partition.image p) (Partition.number p)
    (Partition.block_size p) blob = OK p ->
  File.content f = pre ++ blob ++ post ->
  File.pos f = Z.of_nat (List.length pre) ->
  Partition_ReadFrom (Partition.image p) (Partition.number p)
    (Partition.block_size p) f
  = OK (p, File.set_pos (File.pos f + Z.of_nat (List.length blob)) f).
Proof.
  intros Hpack Hun Hc Hp. unfold Partition_ReadFrom, io_bind.
  rewrite <- (Partition_Pack_length p blob Hpack).
  rewrite (read_exact f pre blob post Hc Hp).
  unfold lift. rewrite Hun. reflexivity.
Qed.

Lemma table_roundtrip (image_ : string) (block_size_ : Z)
  (ps : list Partition.t) :
  Forall valid_partition ps ->
  forall k : nat,
    table_meta image_ block_size_ (Z.of_nat k + 1) ps ->
    exists blob,
      join_blobs ps = OK blob
      /\ List.length blob = (Partition.calcsize * List.length ps)%nat
      /\ forall (f : File.t) (pre post : list byte),
          File.content f = pre ++ blob ++ post ->
          File.pos f = Z.of_nat (List.length pre) ->
          GPT.read_partitions image_ block_size_
            (map (fun i => Z.of_nat i + 1) (seq k (List.length ps))) f
          = OK (ps, File.set_pos
                      (File.pos f + Z.of_nat (List.length blob)) f).
Proof.
  induction 1 as [|p ps Hp Hps IH]; intros k Hmeta.
  - exists []. split; [reflexivity|]. split; [reflexivity|].
    intros f pre post Hc Hpos. cbn. unfold ret.
    rewrite Z.add_0_r. destruct f; reflexivity.
  - destruct Hmeta as (Hi & Hn & Hb & Hrest).
    destruct (Partition_roundtrip p Hp) as [blob1 [Hpack Hun]].
    replace (Z.of_nat k + 1 + 1) with (Z.of_nat (S k) + 1) in Hrest by lia.
    destruct (IH (S k) Hrest) as [blob2 [Hjoin [Hlen Hread]]].
    exists (blob1 ++ blob2).
    split; [cbn [join_blobs]; unfold Partition.blob; rewrite Hpack, Hjoin;
            reflexivity|].
    split.
    { rewrite length_app, Hlen, (Partition_Pack_length p blob1 Hpack).
      cbn [List.length]. lia. }
    intros f pre post Hc Hpos.
    cbn [List.length seq map GPT.read_partitions]. unfold io_bind.
    rewrite <- Hi, <- Hn, <- Hb.
    rewrite <- app_assoc in Hc.
    rewrite (Partition_ReadFrom_exact f pre (blob2 ++ post) p blob1
               Hpack Hun Hc Hpos).
    rewrite Hi, Hb.
    rewrite (Hread (File.set_pos (File.pos f + Z.of_nat (List.length blob1)) f)
               (pre ++ blob1) post).
    + unfold ret. cbn [File.set_pos File.pos File.name File.content
                        File.logical_block_size].
      rewrite length_app, Nat2Z.inj_add, Z.add_assoc. reflexivity.
    + cbn [File.set_pos File.content]. rewrite Hc, <- app_assoc. reflexivity.
    + cbn [File.set_pos File.pos]. rewrite Hpos, length_app, Nat2Z.inj_add.
      reflexivity.
Qed.

(** C2. For every record in canonical form (valid_header,
    valid_partition, valid_pmbr), unpacking the bytes that packing
    produces gives the record back; and for a table of such entries,
    numbered as [LoadFromFile] numbers them, reading the entries back
    from a file that holds the joined blobs gives the table back. *)
Theorem Unpack_Pack_roundtrip :
  (forall h : Header.t,
      valid_header h ->
      exists blob, Header.Pack h = OK blob /\ Header.Unpack blob = OK h)
  /\ (forall p : Partition.t,
         valid_partition p ->
         exists blob,
           Partition.Pack p = OK blob
           /\ Partition.Unpack (Partition.image p) (Partition.number p)
                (Partition.block_size p) blob = OK p)
  /\ (forall m : ProtectiveMBR.t,
         valid_pmbr m ->
         exists blob,
           ProtectiveMBR.Pack m = OK blob /\ ProtectiveMBR.Unpack blob = OK m)
  /\ (forall (image_ : string) (block_size_ : Z) (ps : list Partition.t),
         Forall valid_partition ps ->
         table_meta image_ block_size_ 1 ps ->
         exists blob,
           join_blobs ps = OK blob
           /\ forall (f : File.t) (pre post : list byte),
               File.content f = pre ++ blob ++ post ->
               File.pos f = Z.of_nat (List.length pre) ->
               exists f',
                 GPT.read_partitions image_ block_size_
                   (map (fun i => Z.of_nat i + 1)
                      (seq 0 (List.length ps))) f
                 = OK (ps, f')).
Proof.
  split; [exact Header_roundtrip|].
  split; [exact Partition_roundtrip|].
  split; [exact ProtectiveMBR_roundtrip|].
  intros image_ block_size_ ps Hv Hmeta.
  destruct (table_roundtrip image_ block_size_ ps Hv 0 Hmeta)
    as [blob [Hjoin [_ Hread]]].
  exists blob. split; [assumption|].
  intros f pre post Hc Hp. eexists. apply (Hread f pre post); assumption.
Qed.

Lemma Sample_header_valid : valid_header Sample.header.
Proof.
  unfold valid_header, uint_range, GUID.valid.
  repeat split; vm_compute; congruence.
Qed.

Lemma Sample_kernel_valid : valid_partition Sample.kernel.
Proof.
  unfold valid_partition, valid_name, uint_range, GUID.valid.
  repeat split; try (vm_compute; congruence).
  eexists. vm_compute. reflexivity.
Qed.

Lemma Sample_state_valid : valid_partition Sample.state.
Proof.
  unfold valid_partition, valid_name, uint_range, GUID.valid.
  repeat split; try (vm_compute; congruence).
  eexists. vm_compute. reflexivity.
Qed.

Lemma Sample_pmbr_valid : valid_pmbr Sample.pmbr.
Proof.
  unfold valid_pmbr, uint_range, GUID.valid.
  repeat split; try (vm_compute; congruence).
Qed.

Lemma Unpack_Pack_roundtrip_witness :
  (exists blob,
      Header.Pack Sample.header = OK blob
      /\ Header.Unpack blob = OK Sample.header)
  /\ (exists blob,
         Partition.Pack Sample.kernel = OK blob
         /\ Partition.Unpack "disk.bin" 1 512 blob = OK Sample.kernel)
  /\ (exists blob,
         ProtectiveMBR.Pack Sample.pmbr = OK blob
         /\ ProtectiveMBR.Unpack blob = OK Sample.pmbr)
  /\ (exists blob,
         join_blobs [Sample.kernel; Sample.state] = OK blob
         /\ exists f',
             GPT.read_partitions "disk.bin" 512 [1; 2]
               (File.Make "disk.bin" blob 0 None)
             = OK ([Sample.kernel; Sample.state], f')).
Proof.
  destruct Unpack_Pack_roundtrip as (Hh & Hp & Hm & Ht).
  split; [exact (Hh Sample.header Sample_header_valid)|].
  split; [exact (Hp Sample.kernel Sample_kernel_valid)|].
  split; [exact (Hm Sample.pmbr Sample_pmbr_valid)|].
  destruct (Ht "disk.bin"%string 512 [Sample.kernel; Sample.state])
    as [blob [Hj Hr]].
  - apply Forall_cons; [exact Sample_kernel_valid|].
    apply Forall_cons; [exact Sample_state_valid | apply Forall_nil].
  - cbn. repeat split; reflexivity.
  - exists blob. split; [exact Hj|].
    apply (Hr (File.Make "disk.bin" blob 0 None) [] []).
    + cbn. rewrite app_nil_r. reflexivity.
    + reflexivity.
Defined.


(** ** The protective MBR *)

Lemma ProtectiveMBR_Unpack_total (source : list byte) :
  List.length source = ProtectiveMBR.calcsize ->
  exists m, ProtectiveMBR.Unpack source = OK m.
Proof.
  intros H. unfold ProtectiveMBR.Unpack. rewrite H, Nat.eqb_refl.
  cbn [negb]. unfold take. eexists. reflexivity.
Qed.

Lemma read_start (f : File.t) (n : nat) :
  Z.of_nat n <= File.size f ->
  read n (File.set_pos 0 f)
  = OK (firstn n (File.content f), File.set_pos (Z.of_nat n) f).
Proof.
  intros H. unfold read, File.size in *.
  cbn [File.set_pos File.pos File.content]. cbn [Z.to_nat skipn].
  rewrite length_firstn, Nat.min_l by lia. reflexivity.
Qed.

Lemma sector_count_part0 (v : Z) :
  uint_range 4 v ->
  GPT_PMBR.sector_count (GPT_PMBR.part0_prefix ++ le_split 4 v) = v.
Proof.
  intros H. unfold GPT_PMBR.sector_count.
  rewrite skipn_app_len by reflexivity. apply unpack_uint_split. assumption.
Qed.

Lemma legacy_sectors_range (size : Z) :
  512 <= size -> uint_range 4 (GPT_PMBR.legacy_sectors size).
Proof.
  intros H. unfold GPT_PMBR.legacy_sectors, uint_range, GPT.DEFAULT_BLOCK_SIZE.
  change (2 ^ (8 * Z.of_nat 4)) with 4294967296.
  assert (1 <= size / 512) by (apply Z.div_le_lower_bound; lia). lia.
Qed.

Lemma write_at_start (c blob : list byte) :
  write_at c 0 blob = blob ++ skipn (List.length blob) c.
Proof. reflexivity. Qed.

(** What [WriteProtectiveMBR] with [create=True] returns and writes, for
    an image of at least one sector. *)
Lemma WriteProtectiveMBR_create (f : File.t) (bootcode : option (list byte))
  (boot_guid : option GUID.t) :
  512 <= File.size f ->
  exists pmbr f',
    GPT_PMBR.WriteProtectiveMBR true bootcode boot_guid f = OK (pmbr, f')
    /\ ProtectiveMBR.LegacyPart0 pmbr
       = GPT_PMBR.part0_prefix
           ++ le_split 4 (GPT_PMBR.legacy_sectors (File.size f))
    /\ ProtectiveMBR.LegacyPart1 pmbr = repeat Byte.x00 16
    /\ ProtectiveMBR.LegacyPart2 pmbr = repeat Byte.x00 16
    /\ ProtectiveMBR.LegacyPart3 pmbr = repeat Byte.x00 16
    /\ firstn 16 (skipn 446 (File.content f'))
       = ProtectiveMBR.LegacyPart0 pmbr.
Proof.
  intros Hsize.
  unfold GPT_PMBR.WriteProtectiveMBR, io_bind.
  assert (Hseek : seek 0 SEEK_SET f = OK (tt, File.set_pos 0 f))
    by reflexivity.
  rewrite Hseek. unfold ProtectiveMBR_ReadFrom, io_bind.
  rewrite read_start by exact Hsize.

  destruct (ProtectiveMBR_Unpack_total
              (firstn ProtectiveMBR.calcsize (File.content f)))
    as [m0 Hm0].
  { rewrite length_firstn. unfold File.size in Hsize.
    unfold ProtectiveMBR.calcsize. lia. }
  unfold lift at 1. rewrite Hm0.
  unfold GetImageSize. cbn [File.size File.set_pos File.content].
  fold (File.size f).
  unfold lift at 1, struct.pack_I.
  rewrite pack_uint_ok by (apply legacy_sectors_range; exact Hsize).
  unfold ret.
  set (part0 := GPT_PMBR.part0_prefix
                  ++ le_split 4 (GPT_PMBR.legacy_sectors (File.size f))).
  match goal with
  | |- context [lift (ProtectiveMBR.blob ?m)] => set (pm := m)
  end.
  assert (Hpm : ProtectiveMBR.DiskID pm = 0
                /\ ProtectiveMBR.LegacyPart0 pm = part0
                /\ ProtectiveMBR.LegacyPart1 pm = repeat Byte.x00 16
                /\ ProtectiveMBR.LegacyPart2 pm = repeat Byte.x00 16
                /\ ProtectiveMBR.LegacyPart3 pm = repeat Byte.x00 16).
  { unfold pm. destruct bootcode as [[|? ?]|]; destruct boot_guid;
      repeat split; reflexivity. }
  destruct Hpm as (Hid & H0 & H1 & H2 & H3).
  unfold ProtectiveMBR.blob, ProtectiveMBR.Pack, struct.pack_L.
  rewrite Hid, pack_uint_ok by (unfold uint_range; simpl; lia).
  cbn [bind lift].
  assert (Hseek' : forall g, seek 0 SEEK_SET g = OK (tt, File.set_pos 0 g))
    by reflexivity.
  rewrite Hseek'. unfold write.
  cbn [File.set_pos File.pos File.content File.name File.logical_block_size].
  exists pm. eexists. split; [reflexivity|].
  split; [assumption|]. split; [assumption|]. split; [assumption|].
  split; [assumption|].
  cbn [File.content Z.to_nat]. rewrite write_at_start.
  rewrite H0.
  repeat rewrite app_assoc.
  repeat rewrite <- app_assoc.
  rewrite (app_assoc (struct.pack_s 424 _)).
  rewrite (app_assoc (struct.pack_s 424 _ ++ _)).
  rewrite (app_assoc ((struct.pack_s 424 _ ++ _) ++ _)).
  rewrite skipn_app_len by (blob_length; reflexivity).
  rewrite firstn_app_len by apply pack_s_length.
  apply pack_s_exact. unfold part0. rewrite length_app, length_le_split.
  reflexivity.
Qed.

(** C6, as the code has it. [WriteProtectiveMBR] with [create=True] on
    an image of at least one sector succeeds, and the sector count of
    the covering legacy partition entry, in the record returned and in
    the sector written, is [min(2^32, image sectors) - 1], the image
    sectors being the image size divided by 512; the three other legacy
    entries are zero. *)
Theorem WriteProtectiveMBR_sector_count :
  forall (f : File.t) (bootcode : option (list byte))
         (boot_guid : option GUID.t),
    512 <= File.size f ->
    exists pmbr f',
      GPT_PMBR.WriteProtectiveMBR true bootcode boot_guid f = OK (pmbr, f')
      /\ GPT_PMBR.sector_count (ProtectiveMBR.LegacyPart0 pmbr)
         = Z.min (2 ^ 32) (File.size f / 512) - 1
      /\ GPT_PMBR.sector_count (firstn 16 (skipn 446 (File.content f')))
         = Z.min (2 ^ 32) (File.size f / 512) - 1
      /\ ProtectiveMBR.LegacyPart1 pmbr = repeat Byte.x00 16
      /\ ProtectiveMBR.LegacyPart2 pmbr = repeat Byte.x00 16
      /\ ProtectiveMBR.LegacyPart3 pmbr = repeat Byte.x00 16.
Proof.
  intros f bootcode boot_guid Hsize.
  destruct (WriteProtectiveMBR_create f bootcode boot_guid Hsize)
    as (pmbr & f' & Hrun & H0 & H1 & H2 & H3 & Hdisk).
  exists pmbr, f'. split; [exact Hrun|].
  rewrite Hdisk, H0.
  rewrite sector_count_part0 by (apply legacy_sectors_range; exact Hsize).
  repeat split; try assumption; reflexivity.
Qed.

Lemma WriteProtectiveMBR_sector_count_witness :
  let f := File.Make "disk.bin" (repeat Byte.x00 1024) 0 None in
  exists pmbr f',
    GPT_PMBR.WriteProtectiveMBR true None None f = OK (pmbr, f')
    /\ GPT_PMBR.sector_count (ProtectiveMBR.LegacyPart0 pmbr)
       = Z.min (2 ^ 32) (File.size f / 512) - 1
    /\ GPT_PMBR.sector_count (firstn 16 (skipn 446 (File.content f')))
       = Z.min (2 ^ 32) (File.size f / 512) - 1
    /\ ProtectiveMBR.LegacyPart1 pmbr = repeat Byte.x00 16
    /\ ProtectiveMBR.LegacyPart2 pmbr = repeat Byte.x00 16
    /\ ProtectiveMBR.LegacyPart3 pmbr = repeat Byte.x00 16.
Proof.
  apply (WriteProtectiveMBR_sector_count
           (File.Make "disk.bin" (repeat Byte.x00 1024) 0 None) None None).
  vm_compute. congruence.
Defined.

(** C6, as the claim states it, fails on an image of 2 TiB (2^32 sectors
    of 512 bytes): the entry holds [2^32 - 1], where the claim's
    [min(2^32 - 1, image sectors) - 1] is [2^32 - 2]. *)
Lemma WriteProtectiveMBR_sector_count_counterexample :
  let f :=
    File.Make "disk.bin" (repeat Byte.x00 (Z.to_nat 2199023255552)) 0 None in
  exists pmbr f',
    GPT_PMBR.WriteProtectiveMBR true None None f = OK (pmbr, f')
    /\ GPT_PMBR.sector_count (ProtectiveMBR.LegacyPart0 pmbr) = 4294967295
    /\ GPT_PMBR.sector_count (ProtectiveMBR.LegacyPart0 pmbr)
       <> Z.min (2 ^ 32 - 1) (File.size f / 512) - 1.
Proof.
  intros f.
  assert (Hsize : File.size f = 2199023255552).
  { unfold File.size, f. cbn [File.content].
    rewrite repeat_length. apply Z2Nat.id. lia. }
  destruct (WriteProtectiveMBR_create f None None ltac:(lia))
    as (pmbr & f' & Hrun & H0 & _).
  exists pmbr, f'. split; [exact Hrun|].
  rewrite H0, Hsize.
  rewrite sector_count_part0
    by (apply legacy_sectors_range; lia).
  unfold GPT_PMBR.legacy_sectors, GPT.DEFAULT_BLOCK_SIZE.
  change (2199023255552 / 512) with 4294967296.
  split; [reflexivity|]. intros H. discriminate H.
Qed.

(** ** The search order of [LoadFromFile] *)

Lemma Header_Unpack_total (source : list byte) :
  List.length source = Header.calcsize ->
  exists h, Header.Unpack source = OK h
            /\ Header.Signature h = firstn 8 source.
Proof.
  intros H. unfold Header.Unpack. rewrite H, Nat.eqb_refl.
  cbn [negb]. unfold take. eexists. split; reflexivity.
Qed.

Lemma header_at_set_pos (f : File.t) (p off : Z) :
  header_at (File.set_pos p f) off = header_at f off.
Proof. reflexivity. Qed.

Lemma set_pos_self (f : File.t) : File.set_pos (File.pos f) f = f.
Proof. destruct f; reflexivity. Qed.

Lemma seek_at (f : File.t) (q offset : Z) (w : whence) (p : Z) :
  p = match w with
      | SEEK_SET => offset
      | SEEK_END => File.size f + offset
      end ->
  0 <= p ->
  seek offset w (File.set_pos q f) = OK (tt, File.set_pos p f).
Proof.
  intros Hp H0. unfold seek.
  change (File.size (File.set_pos q f)) with (File.size f). rewrite <- Hp.
  destruct (Z.ltb_spec p 0); [lia | reflexivity].
Qed.

Lemma Header_ReadFrom_at (f : File.t) (p : Z) :
  0 <= p -> p + 92 <= File.size f ->
  exists h,
    header_at f p = OK h
    /\ Header_ReadFrom (File.set_pos p f) = OK (h, File.set_pos (p + 92) f).
Proof.
  intros H0 H1.
  unfold Header_ReadFrom, io_bind, read.
  cbn [File.set_pos File.pos File.content].
  destruct (Header_Unpack_total
              (firstn Header.calcsize (skipn (Z.to_nat p) (File.content f))))
    as [h [Hh _]].
  { rewrite length_firstn, length_skipn. unfold File.size in H1.
    unfold Header.calcsize. lia. }
  exists h. split; [exact Hh|].
  unfold lift. rewrite Hh.
  rewrite length_firstn, length_skipn.
  unfold File.size in H1. unfold Header.calcsize.
  replace (Z.of_nat (Init.Nat.min 92
                       (List.length (File.content f) - Z.to_nat p)))
    with 92 by lia.
  reflexivity.
Qed.

(** One step of the inner loop, at byte offset [p]. *)
Lemma probe_seeks_step (f : File.t) (q offset : Z) (w : whence) (p : Z)
  (rest : list (Z * whence)) (i : Z) :
  p = match w with
      | SEEK_SET => offset
      | SEEK_END => File.size f + offset
      end ->
  0 <= p -> p + 92 <= File.size f ->
  exists h,
    header_at f p = OK h
    /\ GPT.probe_seeks ((offset, w) :: rest) i (File.set_pos q f)
       = if GPT.valid_signature (Header.Signature h)
         then OK (Some (h, negb (i =? 0)), File.set_pos (p + 92) f)
         else GPT.probe_seeks rest (i + 1) (File.set_pos (p + 92) f).
Proof.
  intros Hp H0 H1.
  destruct (Header_ReadFrom_at f p H0 H1) as [h [Hh Hread]].
  exists h. split; [exact Hh|].
  cbn [GPT.probe_seeks]. unfold io_bind.
  rewrite (seek_at f q offset w p Hp H0), Hread.
  destruct (GPT.valid_signature (Header.Signature h)); reflexivity.
Qed.

(** The inner loop for one block size: primary place, then backup. *)
Lemma probe_seeks_pair (f : File.t) (q bs : Z) :
  92 <= bs -> bs + 92 <= File.size f ->
  exists h1 h2,
    header_at f bs = OK h1
    /\ header_at f (File.size f - bs) = OK h2
    /\ GPT.probe_seeks [(bs * 1, SEEK_SET); (- bs, SEEK_END)] 0
         (File.set_pos q f)
       = if GPT.valid_signature (Header.Signature h1)
         then OK (Some (h1, false), File.set_pos (bs + 92) f)
         else if GPT.valid_signature (Header.Signature h2)
              then OK (Some (h2, true),
                       File.set_pos (File.size f - bs + 92) f)
              else OK (None, File.set_pos (File.size f - bs + 92) f).
Proof.
  intros Hbs Hsize.
  destruct (probe_seeks_step f q (bs * 1) SEEK_SET bs
              [(- bs, SEEK_END)] 0 ltac:(cbv beta iota; lia) ltac:(lia)
              ltac:(lia))
    as [h1 [Hh1 Hp1]].
  destruct (probe_seeks_step f (bs + 92) (- bs) SEEK_END
              (File.size f - bs) [] (0 + 1) ltac:(cbv beta iota; lia)
              ltac:(lia) ltac:(lia))
    as [h2 [Hh2 Hp2]].
  exists h1, h2. split; [assumption|]. split; [assumption|].
  rewrite Hp1, Hp2.
  destruct (GPT.valid_signature (Header.Signature h1)); [reflexivity|].
  destruct (GPT.valid_signature (Header.Signature h2)); reflexivity.
Qed.

Lemma probe_block_sizes_order (f : File.t) (q : Z) :
  4188 <= File.size f ->
  match find (signature_found f) (probe_order (File.size f)) with
  | Some (bs, sec, off) =>
      exists h,
        header_at f off = OK h
        /\ GPT.probe_block_sizes [512; 4096] (File.set_pos q f)
           = OK ((h, bs, sec), File.set_pos (off + 92) f)
  | None =>
      GPT.probe_block_sizes [512; 4096] (File.set_pos q f)
      = Err (GPTError "Invalid signature in GPT header.")
  end.
Proof.
  intros Hsize.
  unfold probe_order. cbn [find]. unfold signature_found. cbn [snd].
  cbn [GPT.probe_block_sizes]. unfold io_bind.
  destruct (probe_seeks_pair f q 512 ltac:(lia) ltac:(lia))
    as (h1 & h2 & Hh1 & Hh2 & Hp).
  rewrite Hp, Hh1, Hh2. clear Hp.
  destruct (GPT.valid_signature (Header.Signature h1)).
  { exists h1. split; [assumption | reflexivity]. }
  destruct (GPT.valid_signature (Header.Signature h2)).
  { exists h2. split; [assumption | reflexivity]. }
  destruct (probe_seeks_pair f (File.size f - 512 + 92) 4096
              ltac:(lia) ltac:(lia))
    as (h3 & h4 & Hh3 & Hh4 & Hp).
  rewrite Hp, Hh3, Hh4. clear Hp.
  destruct (GPT.valid_signature (Header.Signature h3)).
  { exists h3. split; [assumption | reflexivity]. }
  destruct (GPT.valid_signature (Header.Signature h4)).
  { exists h4. split; [assumption | reflexivity]. }
  reflexivity.
Qed.

Lemma header_at_nonneg (f : File.t) (off : Z) (h : Header.t) :
  header_at f off = OK h -> 0 <= Header.PartitionEntriesStartingLBA h.
Proof.
  unfold header_at, Header.Unpack.
  destruct (negb _); [discriminate|]. unfold take. intros E.
  injection E as <-. cbn [Header.PartitionEntriesStartingLBA].
  apply le_combine_bound.
Qed.

Lemma LoadFromFile_plain (f : File.t) :
  File.logical_block_size f = None ->
  512 <= File.size f ->
  GPT.LoadFromFile f
  = match GPT.probe_block_sizes [512; 4096] (File.set_pos 512 f) with
    | OK ((h, bs, sec), f1) =>
        (_ <~ seek (bs * Header.PartitionEntriesStartingLBA h) SEEK_SET ;;
         image_name <~ get_name ;;
         parts <~ GPT.read_partitions image_name bs
                    (map (fun i => Z.of_nat i + 1)
                       (seq 0 (Z.to_nat (Header.PartitionEntriesNumber h)))) ;;
         ret {| GPT.pmbr := pmbr_at_start f; GPT.header := h;
                GPT.partitions := parts; GPT.block_size := bs;
                GPT.is_secondary := sec |}) f1
    | Err e => Err e
    end.
Proof.
  intros Hblk Hsize. unfold GPT.LoadFromFile.
  unfold io_bind at 1.
  rewrite <- (set_pos_self f) at 1.
  rewrite (seek_at f (File.pos f) 0 SEEK_SET 0 eq_refl ltac:(lia)).
  unfold io_bind at 1. unfold ProtectiveMBR_ReadFrom, io_bind at 1.
  rewrite (read_start f ProtectiveMBR.calcsize Hsize).
  destruct (ProtectiveMBR_Unpack_total
              (firstn ProtectiveMBR.calcsize (File.content f)))
    as [m Hm].
  { rewrite length_firstn. unfold File.size in Hsize.
    unfold ProtectiveMBR.calcsize. lia. }
  unfold pmbr_at_start. rewrite Hm. unfold lift at 1.
  unfold io_bind at 1, IsBlockDevice.
  cbn [File.set_pos File.logical_block_size]. rewrite Hblk.
  unfold io_bind at 1, ret at 1.
  unfold io_bind at 1.
  change (Z.of_nat ProtectiveMBR.calcsize) with 512.
  change GPT.DEFAULT_BLOCK_SIZE with 512.
  destruct f as [name content pos lbs]. cbn [File.set_pos File.name File.content File.logical_block_size] in *.
  destruct (GPT.probe_block_sizes [512; 4096] _) as [[[[h bs] sec] f1]|e];
    reflexivity.
Qed.

(** C1, as the code has it. For an image that is no block device
    (and long enough for every read of the search, 4188 bytes),
    [LoadFromFile] tries the block sizes 512 then 4096 and, for each
    size, the primary location (the second block, byte offset
    [block_size]) before the backup location (the last block, byte
    offset [size - block_size]); the first location that holds a valid
    signature fixes the header, the block size and whether the copy is
    secondary, and the entries are read from there; when no location
    holds one, loading fails with a [GPTError]. *)
Theorem LoadFromFile_probe_order :
  forall f : File.t,
    File.logical_block_size f = None ->
    4188 <= File.size f ->
    match find (signature_found f) (probe_order (File.size f)) with
    | Some (bs, sec, off) =>
        exists h,
          header_at f off = OK h
          /\ GPT.valid_signature (Header.Signature h) = true
          /\ GPT.LoadFromFile f = load_entries f h bs sec
    | None =>
        GPT.LoadFromFile f
        = Err (GPTError "Invalid signature in GPT header.")
    end.
Proof.
  intros f Hblk Hsize.
  rewrite (LoadFromFile_plain f Hblk ltac:(lia)).
  pose proof (probe_block_sizes_order f 512 Hsize) as Hprobe.
  destruct (find (signature_found f) (probe_order (File.size f)))
    as [[[bs sec] off]|] eqn:Hfind.
  - destruct Hprobe as [h [Hh Hp]]. exists h. split; [exact Hh|].
    apply find_some in Hfind. destruct Hfind as [Hin Hsig].
    unfold signature_found in Hsig. cbn [snd] in Hsig. rewrite Hh in Hsig.
    split; [exact Hsig|].
    rewrite Hp. unfold load_entries, io_bind.
    assert (Hbs : 0 <= bs).
    { unfold probe_order in Hin. cbn [In] in Hin.
      destruct Hin as [E | [E | [E | [E | []]]]]; injection E as <- _ _; lia. }
    pose proof (header_at_nonneg f off h Hh) as Hstart.
    rewrite (seek_at f (off + 92) _ SEEK_SET
               (bs * Header.PartitionEntriesStartingLBA h) eq_refl
               ltac:(nia)).
    unfold get_name. cbn [File.set_pos File.name].
    destruct (GPT.read_partitions _ _ _ _) as [[ps f2]|e]; reflexivity.
  - rewrite Hprobe. reflexivity.
Qed.

Lemma LoadFromFile_probe_order_witness :
  match find (signature_found Sample2.image)
          (probe_order (File.size Sample2.image)) with
  | Some (bs, sec, off) =>
      exists h,
        header_at Sample2.image off = OK h
        /\ GPT.valid_signature (Header.Signature h) = true
        /\ GPT.LoadFromFile Sample2.image
           = load_entries Sample2.image h bs sec
  | None =>
      GPT.LoadFromFile Sample2.image
      = Err (GPTError "Invalid signature in GPT header.")
  end.
Proof.
  apply (LoadFromFile_probe_order Sample2.image).
  - vm_compute. reflexivity.
  - vm_compute. congruence.
Defined.

(** C1, as the claim states it, fails on the image [WriteToFile] makes
    of the sample table: both the second block and the last block
    hold a header with the signature "EFI PART".  The code takes the
    primary one (its [CurrentLBA] is 1, the copy is not secondary);
    the order of the claim, backup first, takes the backup one (its
    [CurrentLBA] is 99, the copy is secondary). *)
Lemma LoadFromFile_probe_order_counterexample :
  exists h_code h_spec g,
    value (GPT.probe_block_sizes [512; 4096] Sample2.image)
    = OK (h_code, 512, false)
    /\ value (SpecOrder.probe_block_sizes [512; 4096] Sample2.image)
       = OK (h_spec, 512, true)
    /\ Header.CurrentLBA h_code = 1
    /\ Header.CurrentLBA h_spec = 99
    /\ value (GPT.LoadFromFile Sample2.image) = OK g
    /\ GPT.header g = h_code
    /\ GPT.is_secondary g = false.
Proof.
  do 3 eexists.
  split; [vm_compute; reflexivity|].
  split; [vm_compute; reflexivity|].
  split; [reflexivity|].
  split; [reflexivity|].
  split; [vm_compute; reflexivity|].
  split; reflexivity.
Qed.

(** ** [find] over several devices *)

(** With a drive named on the command line, a [GPTError] of
    [LoadFromFile] ends the command with that error. *)
Lemma Find_named_drive_propagates (sys : GPTCommands.Find.system)
  (a : GPTCommands.Find.args) (name msg : string) :
  GPTCommands.Find.drive a = Some name ->
  GPTCommands.Find.match_file a = None ->
  (GPTCommands.Find.type_guid a <> None
   \/ GPTCommands.Find.unique_guid a <> None
   \/ exists c s, GPTCommands.Find.label a = Some (c :: s)) ->
  GPTCommands.Find.LoadFromPath sys name = Err (GPTError msg) ->
  GPTCommands.Find.Execute sys a = ([], Err (GPTError msg)).
Proof.
  intros Hdrive Hmatch Hcrit Hload. unfold GPTCommands.Find.Execute.
  assert (Hgiven :
            negb
              (match GPTCommands.Find.type_guid a with
               | Some _ => true | None => false end
               || match GPTCommands.Find.unique_guid a with
                  | Some _ => true | None => false end
               || match GPTCommands.Find.label a with
                  | Some (_ :: _) => true | _ => false end) = false).
  { destruct Hcrit as [H | [H | [c [s H]]]].
    - destruct (GPTCommands.Find.type_guid a); [reflexivity | congruence].
    - destruct (GPTCommands.Find.unique_guid a); [|congruence].
      rewrite orb_true_r. reflexivity.
    - rewrite H, !orb_true_r. reflexivity. }
  rewrite Hgiven, Hdrive, Hmatch.
  cbn [GPTCommands.Find.scan]. rewrite Hload, Hdrive. reflexivity.
Qed.

(** C8. Scanning all block devices ([find -l STATE] with no drive),
    the code does not skip a device that fails to decode: the handler
    of [GPTError] falls through to the loop over [gpt.partitions].
    With the failing device first, [gpt] is not bound and the command
    ends in [UnboundLocalError]; with the failing device after a good
    one, the partitions of the good one are matched a second time, so
    its one match is printed twice and [-1] makes the command fail. *)
Theorem Find_scan_all_decode_failure :
  GPTCommands.Find.Execute Sample3.bad_then_good
    (Sample3.find_state false None)
  = ([], Err UnboundLocalError)
  /\ GPTCommands.Find.Execute Sample3.good_then_bad
       (Sample3.find_state true None)
     = (["/dev/sda2"%string; "/dev/sda2"%string], OK 1)
  /\ GPTCommands.Find.Execute Sample3.good_then_bad
       (Sample3.find_state true (Some "/dev/sda"%string))
     = (["/dev/sda2"%string], OK 0)
  /\ GPTCommands.Find.Execute Sample3.good_then_bad
       (Sample3.find_state false (Some "/dev/sdb"%string))
     = ([], Err (GPTError "Invalid signature in GPT header.")).
Proof.
  split; [vm_compute; reflexivity|].
  split; [vm_compute; reflexivity|].
  split; vm_compute; reflexivity.
Qed.

(** ** [add] of a kernel partition, then [show] *)

Lemma TYPE_GUID_UNUSED_eq : TYPE_GUID_UNUSED = 0.
Proof. reflexivity. Qed.

Lemma TYPE_GUID_CHROMEOS_KERNEL_eq :
  TYPE_GUID_CHROMEOS_KERNEL = 0xFE3A2A5D4F3241A7B725ACCC3285A309.
Proof. reflexivity. Qed.

Lemma table_meta_numbers (image_ : string) (bs : Z) (ps : list Partition.t) :
  forall k, table_meta image_ bs k ps ->
            Forall (fun p => k <= Partition.number p) ps.
Proof.
  induction ps as [|p ps IH]; intros k H; [constructor|].
  destruct H as (_ & Hn & _ & Hrest). constructor; [lia|].
  apply IH in Hrest. eapply Forall_impl; [|exact Hrest].
  cbv beta. intros. lia.
Qed.

Lemma GetUsedPartitions_empty (g : GPT.t) :
  Forall (fun p => Partition.IsUnused p = true) (GPT.partitions g) ->
  GPT.GetUsedPartitions g = [].
Proof.
  unfold GPT.GetUsedPartitions. induction 1 as [|p ps Hp Hps IH];
    [reflexivity|].
  cbn [filter]. rewrite Hp. exact IH.
Qed.

Lemma Add_kernel_apply (unique : GUID.t) (gpt : GPT.t) (p1 : Partition.t)
  (rest : list Partition.t) :
  GPT.partitions gpt = p1 :: rest ->
  Forall (fun p => Partition.IsUnused p = true) (p1 :: rest) ->
  Partition.number p1 = 1 ->
  let first := Header.FirstUsableLBA (GPT.header gpt) in
  let p :=
    {| Partition.TypeGUID := TYPE_GUID_CHROMEOS_KERNEL;
       Partition.UniqueGUID := unique;
       Partition.FirstLBA := first;
       Partition.LastLBA := first - 1 + 2048;
       Partition.Attributes := PartitionAttributes.Make 0;
       Partition.Names := [];
       Partition.image := Partition.image p1;
       Partition.number := 1;
       Partition.block_size := Partition.block_size p1 |} in
  GPTCommands.Add.apply unique Sample4.add_kernel gpt
  = OK (true, 1, GPT.set_partitions (p :: rest) gpt).
Proof.
  intros Hps Hunused Hn first p.
  pose proof (Forall_inv Hunused) as Hp1. cbv beta in Hp1.
  unfold GPTCommands.Add.apply.
  cbn [GPTCommands.Add.number Sample4.add_kernel].
  rewrite Hps. cbn [find]. rewrite Hp1, Hn. cbn [bind].
  unfold GPT.GetPartition. rewrite Hps.
  cbn [List.length]. 
  assert (Hlen : (1 <=? Z.of_nat (S (List.length rest))) = true)
    by (apply Z.leb_le; lia).
  rewrite Hlen. cbn [Z.ltb Z.compare andb negb Z.sub Z.add Z.opp Z.pos_sub
                      Z.to_nat nth_error bind].
  rewrite Hp1.
  assert (Hmax : GPT.GetMaxUsedLBA
                   (GPT.store_partition gpt 1 (Partition.Zero p1))
                 = first - 1).
  { unfold GPT.GetMaxUsedLBA. rewrite GetUsedPartitions_empty; [reflexivity|].
    unfold GPT.store_partition. cbn [GPT.set_partitions GPT.partitions].
    rewrite Hps. cbn [Z.sub Z.add Z.opp Z.pos_sub Z.to_nat list_set].
    constructor; [reflexivity|]. exact (Forall_inv_tail Hunused). }
  rewrite Hmax.
  cbn [GPTCommands.Add.legacy_boot GPTCommands.Add.required
       GPTCommands.Add.priority GPTCommands.Add.tries
       GPTCommands.Add.successful GPTCommands.Add.raw_16
       GPTCommands.Add.UpdateAttr bind GPTCommands.Add.begin
       GPTCommands.Add.sectors GPTCommands.Add.type_guid
       GPTCommands.Add.unique_guid GPTCommands.Add.label
       GPTCommands.Add.GetArg].
  change (GPTCommands.GetTypeGUID_alias "kernel")
    with (Some TYPE_GUID_CHROMEOS_KERNEL).
  change (GPTCommands.GetTypeGUID_alias "data")
    with (Some 0x0FC63DAF848347728E793D69D8477DE4).
  cbn [Partition.set_TypeGUID Partition.set_UniqueGUID Partition.set_LastLBA
       Partition.set_FirstLBA Partition.Zero Partition.TypeGUID
       Partition.UniqueGUID Partition.FirstLBA Partition.LastLBA
       Partition.Attributes Partition.Names Partition.image Partition.number
       Partition.block_size].
  replace (first - 1 + 1) with first by lia.
  unfold GPT.store_partition. rewrite Hps, Hn.
  reflexivity.
Qed.

Lemma show_partition_other (a : GPTCommands.Show.args) (n : Z)
  (ps : list Partition.t) :
  GPTCommands.Show.number a = Some n ->
  Forall (fun p => n + 1 <= Partition.number p) ps ->
  flat_map (GPTCommands.Show.show_partition a) ps = [].
Proof.
  intros Hn. induction 1 as [|p ps Hp Hps IH]; [reflexivity|].
  cbn [flat_map]. rewrite IH, app_nil_r.
  unfold GPTCommands.Show.show_partition. rewrite Hn.
  destruct (Z.eqb_spec (Partition.number p) n); [lia | reflexivity].
Qed.

(** [show -i 1 -t] and [show -n -i 1 -t] on an image whose table has a
    kernel partition as entry 1 and entries numbered from 1. *)
Lemma Show_type_of_kernel (numeric_ : bool) (f f' : File.t) (g : GPT.t)
  (p : Partition.t) (rest : list Partition.t) :
  GPT.LoadFromFile f = OK (g, f') ->
  GPT.partitions g = p :: rest ->
  table_meta (Partition.image p) (Partition.block_size p) 1 (p :: rest) ->
  Partition.TypeGUID p = TYPE_GUID_CHROMEOS_KERNEL ->
  1 <= Header.PartitionEntriesNumber (GPT.header g) ->
  GPTCommands.Show.Execute (Sample4.show_type numeric_) f
  = ([if numeric_ then "FE3A2A5D-4F32-41A7-B725-ACCC3285A309"%string
      else "ChromeOS kernel"%string],
     GPT.CheckIntegrity g).
Proof.
  intros Hload Hps Hmeta Htype Hnum.
  unfold GPTCommands.Show.Execute. rewrite Hload.
  assert (Hfmt : forall n, GPTCommands.Show.IsFormatArgsSpecified
                             (Sample4.show_type n) = true)
    by (intros; reflexivity).
  rewrite Hfmt. cbn [GPTCommands.Show.number Sample4.show_type andb].
  destruct (Z.leb_spec 1 (Header.PartitionEntriesNumber (GPT.header g)));
    [|lia].
  cbn [Z.ltb Z.compare andb negb GPTCommands.Show.quick orb app].
  rewrite Hps. cbn [flat_map].
  destruct Hmeta as (_ & Hn & _ & Hrest).
  rewrite (show_partition_other (Sample4.show_type numeric_) 1 rest eq_refl
             (table_meta_numbers _ _ rest (1 + 1) Hrest)).
  unfold GPTCommands.Show.show_partition.
  cbn [GPTCommands.Show.number Sample4.show_type]. rewrite Hn.
  cbn [Z.eqb Pos.eqb negb]. rewrite Hfmt.
  unfold GPTCommands.Show.ApplyFormatArgs.
  cbn [GPTCommands.Show.begin GPTCommands.Show.size GPTCommands.Show.type
       Sample4.show_type].
  unfold GPTCommands.Show.FormatTypeGUID.
  cbn [GPTCommands.Show.numeric Sample4.show_type]. rewrite Htype.
  destruct numeric_; reflexivity.
Qed.

Lemma GetPartition_first (g : GPT.t) (p : Partition.t)
  (rest : list Partition.t) :
  GPT.partitions g = p :: rest -> GPT.GetPartition g 1 = OK p.
Proof.
  intros H. unfold GPT.GetPartition. rewrite H. cbn [List.length].
  destruct (Z.leb_spec 1 (Z.of_nat (S (List.length rest)))); [|lia].
  reflexivity.
Qed.


(** ** Checksums *)

Lemma high_bits_zero (n x i : Z) :
  0 <= n -> 0 <= x < 2 ^ n -> n <= i -> Z.testbit x i = false.
Proof.
  intros Hn Hx Hi. destruct (Z.eq_dec x 0) as [-> | Hnz].
  - apply Z.bits_0.
  - apply Z.bits_above_log2; [lia|].
    assert (Z.log2 x < n) by (apply Z.log2_lt_pow2; lia). lia.
Qed.

Lemma range_of_bits (n x : Z) :
  0 <= n -> 0 <= x ->
  (forall i, n <= i -> Z.testbit x i = false) -> 0 <= x < 2 ^ n.
Proof.
  intros Hn Hx Hbits. split; [assumption|].
  assert (E : x = x mod 2 ^ n).
  { rewrite <- Z.land_ones by assumption.
    apply Z.bits_inj'. intros i Hi. rewrite Z.land_spec.
    destruct (Z.ltb_spec i n).
    - rewrite Z.ones_spec_low by lia. rewrite andb_true_r. reflexivity.
    - rewrite Z.ones_spec_high by lia. rewrite andb_false_r.
      apply Hbits. assumption. }
  rewrite E. apply Z.mod_pos_bound. lia.
Qed.

Lemma lxor_range (n a c : Z) :
  0 <= n -> 0 <= a < 2 ^ n -> 0 <= c < 2 ^ n -> 0 <= Z.lxor a c < 2 ^ n.
Proof.
  intros Hn Ha Hc. apply range_of_bits; [assumption| |].
  - apply Z.lxor_nonneg. lia.
  - intros i Hi. rewrite Z.lxor_spec.
    rewrite (high_bits_zero n a i), (high_bits_zero n c i) by assumption.
    reflexivity.
Qed.

Lemma crc32_bit_range (c : Z) :
  0 <= c < 2 ^ 32 -> 0 <= binascii.crc32_bit c < 2 ^ 32.
Proof.
  intros Hc. unfold binascii.crc32_bit.
  assert (Hs : 0 <= Z.shiftr c 1 < 2 ^ 32).
  { rewrite Z.shiftr_div_pow2 by lia. change (2 ^ 1) with 2.
    split; [apply Z.div_pos; lia|].
    apply Z.div_lt_upper_bound; lia. }
  destruct (Z.odd c); [|assumption].
  apply lxor_range; [lia | assumption | lia].
Qed.

Lemma crc32_byte_range (c : Z) (x : byte) :
  0 <= c < 2 ^ 32 -> 0 <= binascii.crc32_byte c x < 2 ^ 32.
Proof.
  intros Hc. unfold binascii.crc32_byte.
  assert (H0 : 0 <= Z.lxor c (byte.unsigned x) < 2 ^ 32).
  { apply lxor_range; [lia | assumption|].
    pose proof (byte.unsigned_range x). lia. }
  do 8 apply crc32_bit_range. exact H0.
Qed.

Lemma crc32_range (data : list byte) : uint_range 4 (binascii.crc32 data).
Proof.
  unfold uint_range, binascii.crc32.
  change (2 ^ (8 * Z.of_nat 4)) with (2 ^ 32).
  apply lxor_range; [lia | | lia].
  assert (H : forall c, 0 <= c < 2 ^ 32 ->
                        0 <= fold_left binascii.crc32_byte data c < 2 ^ 32).
  { induction data as [|x data IH]; intros c Hc; [exact Hc|].
    cbn [fold_left]. apply IH. apply crc32_byte_range. exact Hc. }
  apply H. lia.
Qed.

Lemma Header_UpdateChecksum_inv (h h' : Header.t) :
  Header.UpdateChecksum h = OK h' ->
  exists blob0,
    Header.blob (Header.set_CRC32 0 h) = OK blob0
    /\ h' = Header.set_CRC32 (binascii.crc32 blob0) h.
Proof.
  unfold Header.UpdateChecksum. intros H.
  destruct (Header.blob (Header.set_CRC32 0 h)) as [blob0|] eqn:E;
    cbn [bind] in H; [|discriminate].
  exists blob0. split; [reflexivity|].
  injection H as <-. destruct h; reflexivity.
Qed.

Lemma Header_UpdateChecksum_idempotent (h h' : Header.t) :
  Header.UpdateChecksum h = OK h' -> Header.UpdateChecksum h' = OK h'.
Proof.
  intros H. destruct (Header_UpdateChecksum_inv h h' H) as [blob0 [Hb ->]].
  unfold Header.UpdateChecksum.
  replace (Header.set_CRC32 0 (Header.set_CRC32 (binascii.crc32 blob0) h))
    with (Header.set_CRC32 0 h) by (destruct h; reflexivity).
  rewrite Hb. cbn [bind]. destruct h; reflexivity.
Qed.

Lemma CheckIntegrity_split (g : GPT.t) :
  GPT.CheckIntegrity g = (_ <- check_layout g ;; check_checksums g).
Proof.
  unfold GPT.CheckIntegrity, check_layout, check_checksums.
  cbv zeta.
  repeat match goal with
         | |- bind ?x _ = bind (bind ?x _) _ =>
             destruct x as [[]|]; cbn [bind]; [|reflexivity]
         end.
  destruct (negb _); reflexivity.
Qed.

Lemma check_layout_crc_fields (g : GPT.t) (c1 c2 : Z) :
  check_layout
    (GPT.set_header
       (Header.set_CRC32 c1
          (Header.set_PartitionArrayCRC32 c2 (GPT.header g))) g)
  = check_layout g.
Proof. destruct g as [pm h ps bs sec]. destruct h. reflexivity. Qed.

Lemma UpdateChecksum_inv (g g' : GPT.t) :
  GPT.UpdateChecksum g = OK g' ->
  exists parts h',
    join_blobs (GPT.partitions g) = OK parts
    /\ Header.UpdateChecksum
         (Header.set_PartitionArrayCRC32 (binascii.crc32 parts)
            (GPT.header g)) = OK h'
    /\ g' = GPT.set_header h' g.
Proof.
  unfold GPT.UpdateChecksum. intros H.
  destruct (join_blobs (GPT.partitions g)) as [parts|]; cbn [bind] in H;
    [|discriminate].
  destruct (Header.UpdateChecksum _) as [h'|] eqn:E; cbn [bind] in H;
    [|discriminate].
  injection H as <-. exists parts, h'. repeat split. exact E.
Qed.

Lemma UpdateChecksum_checksums (g g' : GPT.t) :
  GPT.UpdateChecksum g = OK g' ->
  check_checksums g' = OK tt
  /\ GPT.UpdateChecksum g' = OK g'
  /\ check_layout g' = check_layout g
  /\ GPT.partitions g' = GPT.partitions g.
Proof.
  intros H. destruct (UpdateChecksum_inv g g' H) as (parts & h' & Hj & Hh & ->).
  pose proof (Header_UpdateChecksum_idempotent _ _ Hh) as Hidem.
  destruct (Header_UpdateChecksum_inv _ _ Hh) as (blob0 & Hb & Hh').
  assert (Hpa : Header.PartitionArrayCRC32 h' = binascii.crc32 parts).
  { rewrite Hh'. destruct (GPT.header g). reflexivity. }
  split; [|split; [|split]].
  - unfold check_checksums. cbn [GPT.set_header GPT.partitions GPT.header].
    rewrite Hj. cbn [bind]. rewrite Hpa, Z.eqb_refl. cbn [negb].
    rewrite Hidem. cbn [bind]. rewrite Z.eqb_refl. reflexivity.
  - unfold GPT.UpdateChecksum.
    cbn [GPT.set_header GPT.partitions GPT.header]. rewrite Hj. cbn [bind].
    replace (Header.set_PartitionArrayCRC32 (binascii.crc32 parts) h')
      with h' by (rewrite <- Hpa; destruct h'; reflexivity).
    rewrite Hidem. cbn [bind]. destruct g; reflexivity.
  - rewrite Hh'.
    replace (Header.set_CRC32 (binascii.crc32 blob0)
               (Header.set_PartitionArrayCRC32 (binascii.crc32 parts)
                  (GPT.header g)))
      with (Header.set_CRC32 (binascii.crc32 blob0)
              (Header.set_PartitionArrayCRC32 (binascii.crc32 parts)
                 (GPT.header
                    g))) by reflexivity.
    apply check_layout_crc_fields.
  - reflexivity.
Qed.

(** ** Checksums and [CheckIntegrity] *)

Lemma CheckOutsideUsable_error (h : Header.t) (a c lba : Z) (o : bool)
  (e : error) :
  GPT.CheckOutsideUsable h a c lba o = Err e ->
  e <> GPTError "GPT Header PartitionArrayCRC32 does not match."
  /\ e <> GPTError "GPT Header CRC32 does not match.".
Proof.
  unfold GPT.CheckOutsideUsable. intros H.
  repeat match type of H with
         | (if ?c then _ else _) = _ => destruct c
         end;
    try discriminate; injection H as <-; split; discriminate.
Qed.

Lemma check_overlap_error (l : list Partition.t) (e : error) :
  GPT.check_overlap l = Err e ->
  e = GPTError "Overlap in partition entries".
Proof.
  induction l as [|p [|q rest] IH]; cbn [GPT.check_overlap];
    try discriminate.
  destruct (_ >=? _); [intros H; injection H as <-; reflexivity | exact IH].
Qed.

(** The layout checks never report a checksum. *)
Lemma check_layout_error (g : GPT.t) (e : error) :
  check_layout g = Err e ->
  e <> GPTError "GPT Header PartitionArrayCRC32 does not match."
  /\ e <> GPTError "GPT Header CRC32 does not match.".
Proof.
  unfold check_layout. cbv zeta. intros H.
  repeat match type of H with
         | bind (GPT.CheckOutsideUsable ?h ?a ?c ?l ?o) _ = _ =>
             let E := fresh "E" in
             destruct (GPT.CheckOutsideUsable h a c l o) as [[]|e0] eqn:E;
             cbn [bind] in H;
             [|injection H as <-; exact (CheckOutsideUsable_error _ _ _ _ _ _ E)]
         end.
  destruct (GPT.check_overlap _) as [[]|e0] eqn:Eo; cbn [bind] in H.
  2:{ injection H as <-. rewrite (check_overlap_error _ _ Eo).
      split; discriminate. }
  destruct (sort_key Partition.FirstLBA (GPT.GetUsedPartitions g))
    as [|p l]; cbn [bind] in H.
  - destruct (negb _); [|discriminate].
    injection H as <-. split; discriminate.
  - destruct (_ <? _); cbn [bind] in H;
      [injection H as <-; split; discriminate|].
    destruct (_ >? _); cbn [bind] in H;
      [injection H as <-; split; discriminate|].
    destruct (negb _); [|discriminate].
    injection H as <-. split; discriminate.
Qed.

Lemma check_layout_of_checksum_error (g : GPT.t) :
  GPT.CheckIntegrity g = OK tt
  \/ GPT.CheckIntegrity g
     = Err (GPTError "GPT Header PartitionArrayCRC32 does not match.")
  \/ GPT.CheckIntegrity g = Err (GPTError "GPT Header CRC32 does not match.") ->
  check_layout g = OK tt.
Proof.
  rewrite CheckIntegrity_split.
  destruct (check_layout g) as [[]|e] eqn:E; [reflexivity|].
  cbn [bind]. destruct (check_layout_error g e E) as [H1 H2].
  intros [H|[H|H]]; [discriminate| |]; injection H as ->; congruence.
Qed.

(** X1. [UpdateChecksum] repairs the checksums and nothing else: on a
    table that [CheckIntegrity] accepts, or rejects only for one of
    the two checksums, it gives a table that [CheckIntegrity] accepts,
    with the same partitions, the same block size and a header that
    differs at most in [CRC32] and [PartitionArrayCRC32]; a second
    [UpdateChecksum] changes nothing. *)
Theorem UpdateChecksum_repairs_checksums :
  forall g g' : GPT.t,
    GPT.UpdateChecksum g = OK g' ->
    GPT.CheckIntegrity g = OK tt
    \/ GPT.CheckIntegrity g
       = Err (GPTError "GPT Header PartitionArrayCRC32 does not match.")
    \/ GPT.CheckIntegrity g
       = Err (GPTError "GPT Header CRC32 does not match.") ->
    GPT.CheckIntegrity g' = OK tt
    /\ GPT.UpdateChecksum g' = OK g'
    /\ GPT.partitions g' = GPT.partitions g
    /\ GPT.block_size g' = GPT.block_size g
    /\ Header.set_CRC32 0
         (Header.set_PartitionArrayCRC32 0 (GPT.header g'))
       = Header.set_CRC32 0
           (Header.set_PartitionArrayCRC32 0 (GPT.header g)).
Proof.
  intros g g' Hup Hci.
  pose proof (check_layout_of_checksum_error g Hci) as Hlay.
  destruct (UpdateChecksum_checksums g g' Hup) as (Hsum & Hidem & Hl & Hp).
  split; [|split; [exact Hidem|split; [exact Hp|]]].
  - rewrite CheckIntegrity_split, Hl, Hlay. cbn [bind]. exact Hsum.
  - destruct (UpdateChecksum_inv g g' Hup) as (parts & h' & _ & Hh & ->).
    destruct (Header_UpdateChecksum_inv _ _ Hh) as (blob0 & _ & ->).
    split; [reflexivity|].
    cbn [GPT.set_header GPT.header]. destruct (GPT.header g). reflexivity.
Qed.

Lemma UpdateChecksum_repairs_checksums_witness :
  exists g',
    GPT.UpdateChecksum Sample.gpt = OK g'
    /\ GPT.CheckIntegrity Sample.gpt
       = Err (GPTError "GPT Header PartitionArrayCRC32 does not match.")
    /\ GPT.CheckIntegrity g' = OK tt
    /\ GPT.UpdateChecksum g' = OK g'
    /\ GPT.partitions g' = GPT.partitions Sample.gpt.
Proof.
  destruct (GPT.UpdateChecksum Sample.gpt) as [g'|e] eqn:E;
    [|vm_compute in E; discriminate].
  assert (H : GPT.CheckIntegrity Sample.gpt
              = Err (GPTError
                       "GPT Header PartitionArrayCRC32 does not match."))
    by (vm_compute; reflexivity).
  exists g'. split; [reflexivity|]. split; [exact H|].
  destruct (UpdateChecksum_repairs_checksums Sample.gpt g' E
              (or_intror (or_introl H))) as (H1 & H2 & H3 & _).
  repeat split; assumption.
Defined.

(** X2. [CheckIntegrity] detects a changed checksum field: on a table
    it accepts, storing any other value in [PartitionArrayCRC32] makes
    it fail with the [GPTError] of the partition array checksum, and
    storing any other value in [CRC32] makes it fail with the
    [GPTError] of the header checksum. *)
Theorem CheckIntegrity_detects_checksum_change :
  forall (g : GPT.t) (v : Z),
    GPT.CheckIntegrity g = OK tt ->
    (v <> Header.PartitionArrayCRC32 (GPT.header g) ->
     GPT.CheckIntegrity
       (GPT.set_header
          (Header.set_PartitionArrayCRC32 v (GPT.header g)) g)
     = Err (GPTError "GPT Header PartitionArrayCRC32 does not match."))
    /\ (v <> Header.CRC32 (GPT.header g) ->
        GPT.CheckIntegrity
          (GPT.set_header (Header.set_CRC32 v (GPT.header g)) g)
        = Err (GPTError "GPT Header CRC32 does not match.")).
Proof.
  intros g v Hci.
  pose proof (check_layout_of_checksum_error g (or_introl Hci)) as Hlay.
  rewrite CheckIntegrity_split, Hlay in Hci. cbn [bind] in Hci.
  unfold check_checksums in Hci. cbv zeta in Hci.
  destruct (join_blobs (GPT.partitions g)) as [parts|] eqn:Hj;
    cbn [bind] in Hci; [|discriminate].
  destruct (Z.eqb_spec (binascii.crc32 parts)
              (Header.PartitionArrayCRC32 (GPT.header g))) as [Hpa|];
    cbn [negb] in Hci; [|discriminate].
  destruct (Header.UpdateChecksum (GPT.header g)) as [hc|] eqn:Hh;
    cbn [bind] in Hci; [|discriminate].
  destruct (Z.eqb_spec (Header.CRC32 hc) (Header.CRC32 (GPT.header g)))
    as [Hc|]; cbn [negb] in Hci; [|discriminate].
  split; intros Hv; rewrite CheckIntegrity_split.
  - replace (check_layout _) with (check_layout g).
    2:{ destruct g as [pm h ps bs sec]. destruct h. reflexivity. }
    rewrite Hlay. cbn [bind]. unfold check_checksums. cbv zeta.
    cbn [GPT.set_header GPT.partitions GPT.header]. rewrite Hj.
    cbn [bind].
    replace (Header.PartitionArrayCRC32
               (Header.set_PartitionArrayCRC32 v (GPT.header g)))
      with v by (destruct (GPT.header g); reflexivity).
    destruct (Z.eqb_spec (binascii.crc32 parts) v); [congruence|].
    reflexivity.
  - replace (check_layout _) with (check_layout g).
    2:{ destruct g as [pm h ps bs sec]. destruct h. reflexivity. }
    rewrite Hlay. cbn [bind]. unfold check_checksums. cbv zeta.
    cbn [GPT.set_header GPT.partitions GPT.header]. rewrite Hj.
    cbn [bind].
    replace (Header.PartitionArrayCRC32
               (Header.set_CRC32 v (GPT.header g)))
      with (Header.PartitionArrayCRC32 (GPT.header g))
      by (destruct (GPT.header g); reflexivity).
    rewrite Hpa, Z.eqb_refl. cbn [negb].
    destruct (Header_UpdateChecksum_inv _ _ Hh) as (blob0 & Hb & ->).
    unfold Header.UpdateChecksum.
    replace (Header.set_CRC32 0 (Header.set_CRC32 v (GPT.header g)))
      with (Header.set_CRC32 0 (GPT.header g))
      by (destruct (GPT.header g); reflexivity).
    rewrite Hb. cbn [bind].
    replace (Header.CRC32 (Header.set_CRC32 _ (Header.set_CRC32 0 _)))
      with (binascii.crc32 blob0) by (destruct (GPT.header g); reflexivity).
    replace (Header.CRC32 (Header.set_CRC32 v (GPT.header g)))
      with v by (destruct (GPT.header g); reflexivity).
    replace (Header.CRC32 (Header.set_CRC32 (binascii.crc32 blob0)
                             (GPT.header g)))
      with (binascii.crc32 blob0) in Hc
      by (destruct (GPT.header g); reflexivity).
    destruct (Z.eqb_spec (binascii.crc32 blob0) v); [congruence|].
    reflexivity.
Qed.

Lemma CheckIntegrity_detects_checksum_change_witness :
  GPT.CheckIntegrity Sample6.checked = OK tt
  /\ GPT.CheckIntegrity
       (GPT.set_header
          (Header.set_PartitionArrayCRC32 0 (GPT.header Sample6.checked))
          Sample6.checked)
     = Err (GPTError "GPT Header PartitionArrayCRC32 does not match.")
  /\ GPT.CheckIntegrity
       (GPT.set_header (Header.set_CRC32 0 (GPT.header Sample6.checked))
          Sample6.checked)
     = Err (GPTError "GPT Header CRC32 does not match.").
Proof.
  assert (H : GPT.CheckIntegrity Sample6.checked = OK tt)
    by (vm_compute; reflexivity).
  split; [exact H|].
  destruct (CheckIntegrity_detects_checksum_change Sample6.checked 0 H)
    as [H1 H2].
  split; [apply H1 | apply H2]; vm_compute; discriminate.
Defined.
(** ** Partitions by number, and resizing *)

(** X3. [IsLastPartition] answers whether [ExpandPartition] will go
    through: for every table, partition number and reserve,
    [ExpandPartition] returns a result exactly when [IsLastPartition]
    returns [True], and an error of [IsLastPartition] (a partition
    number out of range) is the error of [ExpandPartition]. *)
Theorem IsLastPartition_iff_ExpandPartition :
  forall (g : GPT.t) (number reserved_blocks : Z),
    (GPT.IsLastPartition g number = OK true
     <-> exists r, GPT.ExpandPartition g number reserved_blocks = OK r)
    /\ (forall e, GPT.IsLastPartition g number = Err e ->
                  GPT.ExpandPartition g number reserved_blocks = Err e).
Proof.
  intros g number reserved_blocks.
  unfold GPT.IsLastPartition, GPT.ExpandPartition.
  destruct (GPT.GetPartition g number) as [p|e0] eqn:Hget; cbn [bind].
  2:{ split; [split; [discriminate | intros [r Hr]; discriminate]|].
      intros e He. injection He as <-. reflexivity. }
  split; [|discriminate].
  destruct (Partition.IsUnused p) eqn:Hun; cbn [negb andb].
  - split; [discriminate | intros [r Hr]; discriminate].
  - assert (Hin : In p (GPT.GetUsedPartitions g)).
    { unfold GPT.GetUsedPartitions. apply filter_In. split.
      - eapply GetPartition_In. eassumption.
      - rewrite Hun. reflexivity. }
    pose proof (GetMaxUsedLBA_upper g p Hin) as Hle.
    destruct (Z.gtb_spec (GPT.GetMaxUsedLBA g) (Partition.LastLBA p));
      destruct (Z.eqb_spec (GPT.GetMaxUsedLBA g) (Partition.LastLBA p));
      try lia.
    + split; [discriminate | intros [r Hr]; discriminate].
    + split; [intros _; eexists; reflexivity | reflexivity].
Qed.

Lemma GetMaxUsedLBA_header (g : GPT.t) (h : Header.t) :
  Header.FirstUsableLBA h = Header.FirstUsableLBA (GPT.header g) ->
  GPT.GetMaxUsedLBA (GPT.set_header h g) = GPT.GetMaxUsedLBA g.
Proof.
  intros H. unfold GPT.GetMaxUsedLBA, GPT.GetUsedPartitions.
  cbn [GPT.set_header GPT.partitions GPT.header]. rewrite H. reflexivity.
Qed.

(** X4. What a successful [Resize] with the overlap check gives, on a
    table whose block size is not zero: the size of the table is the
    new size, the partitions are the same, used partitions that ended
    within [LastUsableLBA] still do, and resizing again to the same
    size changes nothing. *)
Theorem Resize_checked :
  forall (g g' : GPT.t) (new_size : Z),
    GPT.block_size g <> 0 ->
    GPT.Resize g new_size true = OK g' ->
    GPT.GetSize g' = new_size
    /\ GPT.partitions g' = GPT.partitions g
    /\ GPT.GetMaxUsedLBA g' = GPT.GetMaxUsedLBA g
    /\ (GPT.GetMaxUsedLBA g <= Header.LastUsableLBA (GPT.header g) ->
        GPT.GetMaxUsedLBA g' <= Header.LastUsableLBA (GPT.header g'))
    /\ GPT.Resize g' new_size true = OK g'.
Proof.
  intros g g' new_size Hbs. unfold GPT.Resize at 1. cbv zeta.
  destruct (Z.eqb_spec (new_size mod GPT.block_size g) 0) as [Hmod|];
    cbn [negb]; [|discriminate].
  assert (Hidem : forall g0, GPT.block_size g0 = GPT.block_size g ->
                             GPT.GetSize g0 = new_size ->
                             GPT.Resize g0 new_size true = OK g0).
  { intros g0 Hb0 Hs0. unfold GPT.Resize. cbv zeta.
    rewrite Hb0, Hmod, Hs0, !Z.eqb_refl. reflexivity. }
  destruct (Z.eqb_spec (GPT.GetSize g) new_size) as [Hsame|Hdiff].
  { intros H. injection H as <-.
    split; [exact Hsame|]. split; [reflexivity|]. split; [reflexivity|].
    split; [tauto|]. apply Hidem; [reflexivity | exact Hsame]. }
  cbn [andb].
  set (last := new_size / GPT.block_size g - 1
               - Header.FirstUsableLBA (GPT.header g)).
  destruct (Z.ltb_spec last (Header.LastUsableLBA (GPT.header g)))
    as [Hlt|Hge]; cbn [andb].
  - destruct (Z.ltb_spec last (GPT.GetMaxUsedLBA g)) as [|Hmax];
      [discriminate|].
    intros H. injection H as <-.
    assert (Hm : GPT.GetMaxUsedLBA
                   (GPT.set_header
                      (Header.set_LastUsableLBA last
                         (Header.set_BackupLBA
                            (new_size / GPT.block_size g - 1)
                            (GPT.header g))) g)
                 = GPT.GetMaxUsedLBA g)
      by (apply GetMaxUsedLBA_header; destruct (GPT.header g); reflexivity).
    assert (Hs : GPT.GetSize
                   (GPT.set_header
                      (Header.set_LastUsableLBA last
                         (Header.set_BackupLBA
                            (new_size / GPT.block_size g - 1)
                            (GPT.header g))) g)
                 = new_size).
    { unfold GPT.GetSize. cbn [GPT.set_header GPT.block_size GPT.header].
      replace (Header.BackupLBA _) with (new_size / GPT.block_size g - 1)
        by (destruct (GPT.header g); reflexivity).
      pose proof (Z.div_mod new_size (GPT.block_size g) Hbs). lia. }
    split; [exact Hs|]. split; [reflexivity|]. split; [exact Hm|].
    split.
    + intros _. rewrite Hm. cbn [GPT.set_header GPT.header].
      replace (Header.LastUsableLBA _) with last
        by (destruct (GPT.header g); reflexivity).
      lia.
    + apply Hidem; [reflexivity | exact Hs].
  - intros H. injection H as <-.
    assert (Hm : GPT.GetMaxUsedLBA
                   (GPT.set_header
                      (Header.set_LastUsableLBA last
                         (Header.set_BackupLBA
                            (new_size / GPT.block_size g - 1)
                            (GPT.header g))) g)
                 = GPT.GetMaxUsedLBA g)
      by (apply GetMaxUsedLBA_header; destruct (GPT.header g); reflexivity).
    assert (Hs : GPT.GetSize
                   (GPT.set_header
                      (Header.set_LastUsableLBA last
                         (Header.set_BackupLBA
                            (new_size / GPT.block_size g - 1)
                            (GPT.header g))) g)
                 = new_size).
    { unfold GPT.GetSize. cbn [GPT.set_header GPT.block_size GPT.header].
      replace (Header.BackupLBA _) with (new_size / GPT.block_size g - 1)
        by (destruct (GPT.header g); reflexivity).
      pose proof (Z.div_mod new_size (GPT.block_size g) Hbs). lia. }
    split; [exact Hs|]. split; [reflexivity|]. split; [exact Hm|].
    split.
    + intros Hle. rewrite Hm. cbn [GPT.set_header GPT.header].
      replace (Header.LastUsableLBA _) with last
        by (destruct (GPT.header g); reflexivity).
      lia.
    + apply Hidem; [reflexivity | exact Hs].
Qed.

Lemma Resize_checked_witness :
  exists g',
    GPT.block_size Sample.gpt <> 0
    /\ GPT.Resize Sample.gpt 46080 true = OK g'
    /\ GPT.GetSize g' = 46080
    /\ GPT.partitions g' = GPT.partitions Sample.gpt
    /\ GPT.GetMaxUsedLBA g' <= Header.LastUsableLBA (GPT.header g').
Proof.
  assert (Hbs : GPT.block_size Sample.gpt <> 0) by (vm_compute; intros H; discriminate H).
  destruct (GPT.Resize Sample.gpt 46080 true) as [g'|e] eqn:E;
    [|vm_compute in E; discriminate].
  exists g'. split; [exact Hbs|]. split; [reflexivity|].
  destruct (Resize_checked Sample.gpt g' 46080 Hbs E)
    as (H1 & H2 & _ & H4 & _).
  split; [exact H1|]. split; [exact H2|].
  apply H4. vm_compute. intros H. discriminate H.
Defined.
(** ** [add] on the loaded table *)

Lemma list_set_length {A : Type} (l : list A) (i : nat) (x : A) :
  List.length (list_set l i x) = List.length l.
Proof.
  revert i. induction l as [|y l IH]; intros [|i]; cbn [list_set List.length];
    try reflexivity.
  rewrite IH. reflexivity.
Qed.

Lemma list_set_same {A : Type} (l : list A) (i : nat) (x : A) :
  (i < List.length l)%nat -> nth_error (list_set l i x) i = Some x.
Proof.
  revert i. induction l as [|y l IH]; intros [|i] H; cbn [List.length] in H;
    try lia; cbn [list_set nth_error]; [reflexivity|].
  apply IH. lia.
Qed.

Lemma list_set_other {A : Type} (l : list A) (i j : nat) (x : A) :
  i <> j -> nth_error (list_set l i x) j = nth_error l j.
Proof.
  revert i j. induction l as [|y l IH]; intros [|i] [|j] H;
    cbn [list_set nth_error]; try reflexivity; try congruence.
  apply IH. congruence.
Qed.

Lemma list_set_nth {A : Type} (l : list A) (i : nat) (x : A) :
  nth_error l i = Some x -> list_set l i x = l.
Proof.
  revert i. induction l as [|y l IH]; intros [|i]; cbn [list_set nth_error];
    try discriminate.
  - intros H. injection H as ->. reflexivity.
  - intros H. rewrite (IH i H). reflexivity.
Qed.

Lemma GetPartition_inv (g : GPT.t) (number : Z) (p : Partition.t) :
  GPT.GetPartition g number = OK p ->
  0 < number <= Z.of_nat (List.length (GPT.partitions g))
  /\ nth_error (GPT.partitions g) (Z.to_nat (number - 1)) = Some p.
Proof.
  unfold GPT.GetPartition.
  destruct (Z.ltb_spec 0 number); cbn [andb negb]; [|discriminate].
  destruct (Z.leb_spec number (Z.of_nat (List.length (GPT.partitions g))));
    cbn [negb]; [|discriminate].
  destruct (nth_error _ _) as [q|]; [|discriminate].
  intros E. injection E as ->. split; [lia | reflexivity].
Qed.

Lemma GetPartition_store_same (g : GPT.t) (number : Z) (p x : Partition.t) :
  GPT.GetPartition g number = OK p ->
  GPT.GetPartition (GPT.store_partition g number x) number = OK x.
Proof.
  intros H. destruct (GetPartition_inv g number p H) as [Hn Hnth].
  unfold GPT.GetPartition, GPT.store_partition.
  cbn [GPT.set_partitions GPT.partitions]. rewrite list_set_length.
  destruct (Z.ltb_spec 0 number); [|lia].
  destruct (Z.leb_spec number (Z.of_nat (List.length (GPT.partitions g))));
    [|lia].
  cbn [andb negb]. rewrite list_set_same; [reflexivity | lia].
Qed.

Lemma GetPartition_store_other (g : GPT.t) (number m : Z) (x : Partition.t) :
  0 < number -> m <> number ->
  GPT.GetPartition (GPT.store_partition g number x) m = GPT.GetPartition g m.
Proof.
  intros Hn Hm. unfold GPT.GetPartition, GPT.store_partition.
  cbn [GPT.set_partitions GPT.partitions]. rewrite list_set_length.
  destruct (Z.ltb_spec 0 m); cbn [andb negb]; [|reflexivity].
  rewrite list_set_other by lia. reflexivity.
Qed.

Lemma store_partition_same (g : GPT.t) (number : Z) (p : Partition.t) :
  GPT.GetPartition g number = OK p -> GPT.store_partition g number p = g.
Proof.
  intros H. destruct (GetPartition_inv g number p H) as [_ Hnth].
  unfold GPT.store_partition. rewrite (list_set_nth _ _ _ Hnth).
  destruct g; reflexivity.
Qed.

Lemma IsUnused_Zero (p : Partition.t) :
  Partition.IsUnused (Partition.Zero p) = true.
Proof. reflexivity. Qed.

(** Replacing an unused entry by an unused entry leaves the used
    partitions as they are. *)
Lemma used_list_set (l : list Partition.t) (i : nat) (p x : Partition.t) :
  nth_error l i = Some p ->
  Partition.IsUnused p = true -> Partition.IsUnused x = true ->
  filter (fun q => negb (Partition.IsUnused q)) (list_set l i x)
  = filter (fun q => negb (Partition.IsUnused q)) l.
Proof.
  revert i. induction l as [|y l IH]; intros [|i]; cbn [list_set nth_error];
    try discriminate.
  - intros H Hp Hx. injection H as ->. cbn [filter]. rewrite Hp, Hx.
    reflexivity.
  - intros H Hp Hx. cbn [filter]. rewrite (IH i H Hp Hx). reflexivity.
Qed.

Lemma GetMaxUsedLBA_store_unused (g : GPT.t) (number : Z)
  (p x : Partition.t) :
  GPT.GetPartition g number = OK p ->
  Partition.IsUnused p = true -> Partition.IsUnused x = true ->
  GPT.GetMaxUsedLBA (GPT.store_partition g number x) = GPT.GetMaxUsedLBA g.
Proof.
  intros H Hp Hx. destruct (GetPartition_inv g number p H) as [_ Hnth].
  unfold GPT.GetMaxUsedLBA, GPT.GetUsedPartitions, GPT.store_partition.
  cbn [GPT.set_partitions GPT.partitions GPT.header].
  rewrite (used_list_set _ _ p x Hnth Hp Hx). reflexivity.
Qed.

(** [add -i part -t Unused] on the loaded table zeroes entry [part]
    (every field, the type GUID included, so the entry is unused)
    whatever it held. *)
Lemma RemovePartition_apply (unique : GUID.t) (gpt : GPT.t) (part : Z)
  (p : Partition.t) :
  GPT.GetPartition gpt part = OK p ->
  GPTCommands.Add.apply unique (RemovePartition_args part) gpt
  = OK (Partition.IsUnused p, part,
        GPT.store_partition gpt part (Partition.Zero p)).
Proof.
  intros Hget. unfold GPTCommands.Add.apply.
  cbn [RemovePartition_args GPTCommands.Add.number bind]. rewrite Hget.
  cbn [bind GPTCommands.Add.legacy_boot GPTCommands.Add.required
       GPTCommands.Add.priority GPTCommands.Add.tries
       GPTCommands.Add.successful GPTCommands.Add.raw_16
       GPTCommands.Add.UpdateAttr GPTCommands.Add.begin
       GPTCommands.Add.sectors GPTCommands.Add.type_guid
       GPTCommands.Add.unique_guid GPTCommands.Add.label
       GPTCommands.Add.GetArg].
  change (GPTCommands.GetTypeGUID_alias "Unused") with (Some 0).
  cbn [GPTCommands.Add.GetArg].
  unfold Partition.IsUnused at 3.
  cbn [Partition.TypeGUID]. rewrite TYPE_GUID_UNUSED_eq.
  change (GUID.eqb 0 0) with true. cbv iota.
  destruct (Partition.IsUnused p); reflexivity.
Qed.

(** An edit that names only the partition ([add -i number] with no
    other option) on a used partition changes nothing in the loaded
    table. *)
Lemma Add_number_only_apply :
  forall (unique : GUID.t) (gpt : GPT.t) (number : Z) (p : Partition.t),
    GPT.GetPartition gpt number = OK p ->
    Partition.IsUnused p = false ->
    GPTCommands.Add.apply unique (Add_number_only number) gpt
    = OK (false, number, gpt).
Proof.
  intros unique gpt number p Hget Hused.
  unfold GPTCommands.Add.apply.
  cbn [Add_number_only GPTCommands.Add.number bind]. rewrite Hget.
  cbn [Add_number_only bind GPTCommands.Add.legacy_boot GPTCommands.Add.required
       GPTCommands.Add.priority GPTCommands.Add.tries
       GPTCommands.Add.successful GPTCommands.Add.raw_16
       GPTCommands.Add.UpdateAttr GPTCommands.Add.begin
       GPTCommands.Add.sectors GPTCommands.Add.type_guid
       GPTCommands.Add.unique_guid GPTCommands.Add.label
       GPTCommands.Add.GetArg].
  rewrite Hused.
  replace (Partition.FirstLBA p - 1 + Partition.blocks p)
    with (Partition.LastLBA p) by (unfold Partition.blocks; lia).
  replace {| Partition.TypeGUID := Partition.TypeGUID p;
             Partition.UniqueGUID := Partition.UniqueGUID p;
             Partition.FirstLBA := Partition.FirstLBA p;
             Partition.LastLBA := Partition.LastLBA p;
             Partition.Attributes := Partition.Attributes p;
             Partition.Names := Partition.Names p;
             Partition.image := Partition.image p;
             Partition.number := Partition.number p;
             Partition.block_size := Partition.block_size p |}
    with p by (destruct p; reflexivity).
  rewrite Hused, (store_partition_same gpt number p Hget). reflexivity.
Qed.

(** X7. Where [add] puts a new partition when no beginning sector is
    given: whenever [add] without [-b] fills an unused entry and the
    entry is used afterwards, the new partition begins one block after
    the highest block of the used partitions (so after each of them),
    and it ends [-s] sectors later, or at [LastUsableLBA] when no size
    is given. *)
Theorem Add_new_partition_placement :
  forall (unique : GUID.t) (a : GPTCommands.Add.args) (gpt gpt' : GPT.t)
         (number : Z) (p' : Partition.t),
    GPTCommands.Add.begin a = None ->
    GPTCommands.Add.apply unique a gpt = OK (true, number, gpt') ->
    GPT.GetPartition gpt' number = OK p' ->
    Partition.IsUnused p' = false ->
    Partition.FirstLBA p' = GPT.GetMaxUsedLBA gpt + 1
    /\ (forall q, In q (GPT.GetUsedPartitions gpt) ->
                  Partition.LastLBA q < Partition.FirstLBA p')
    /\ Partition.LastLBA p'
       = match GPTCommands.Add.sectors a with
         | Some s => Partition.FirstLBA p' - 1 + s
         | None => Header.LastUsableLBA (GPT.header gpt)
         end.
Proof.
  intros unique a gpt gpt' number p' Hb Happ Hget' Hused'.
  unfold GPTCommands.Add.apply in Happ.
  destruct (match GPTCommands.Add.number a with
            | Some n => OK n
            | None => _
            end) as [n|]; cbn [bind] in Happ; [|discriminate].
  destruct (GPT.GetPartition gpt n) as [part|] eqn:Hget; cbn [bind] in Happ;
    [|discriminate].
  destruct (Partition.IsUnused part) eqn:Hun.
  2:{ repeat match type of Happ with
             | bind ?x _ = _ => destruct x; cbn [bind] in Happ;
                                [|discriminate]
             end.
      discriminate. }
  rewrite (GetMaxUsedLBA_store_unused gpt n part (Partition.Zero part)
             Hget Hun (IsUnused_Zero part)) in Happ.
  repeat match type of Happ with
         | bind ?x _ = _ => destruct x; cbn [bind] in Happ; [|discriminate]
         end.
  rewrite Hb in Happ.
  cbn [GPTCommands.Add.GetArg Partition.set_TypeGUID
       Partition.set_UniqueGUID Partition.set_LastLBA Partition.set_FirstLBA
       Partition.Zero Partition.TypeGUID Partition.UniqueGUID
       Partition.FirstLBA Partition.LastLBA Partition.Attributes
       Partition.Names Partition.image Partition.number
       Partition.block_size] in Happ.
  injection Happ as <- <-.
  rewrite (GetPartition_store_same gpt n part _ Hget) in Hget'.
  injection Hget' as <-.
  match type of Hused' with
  | Partition.IsUnused (if ?c then _ else _) = _ =>
      destruct c eqn:Hc; [discriminate|]
  end.
  cbn [Partition.FirstLBA Partition.LastLBA].
  split; [reflexivity|].
  split.
  - intros q Hq. pose proof (GetMaxUsedLBA_upper gpt q Hq). lia.
  - destruct (GPTCommands.Add.sectors a); cbn [GPTCommands.Add.GetArg];
      [reflexivity|].
    unfold Partition.blocks.
    cbn [Partition.FirstLBA Partition.LastLBA Partition.set_TypeGUID
         Partition.set_UniqueGUID Partition.set_LastLBA
         Partition.set_FirstLBA Partition.Zero].
    lia.
Qed.

Lemma Add_new_partition_placement_witness :
  exists gpt' p',
    GPTCommands.Add.begin Sample4.add_kernel = None
    /\ GPTCommands.Add.apply 7 Sample4.add_kernel Sample.gpt
       = OK (true, 3, gpt')
    /\ GPT.GetPartition gpt' 3 = OK p'
    /\ Partition.IsUnused p' = false
    /\ Partition.FirstLBA p' = 51
    /\ Partition.LastLBA p' = 51 - 1 + 2048.
Proof.
  destruct (GPTCommands.Add.apply 7 Sample4.add_kernel Sample.gpt)
    as [[[new_ n] gpt']|e] eqn:E; vm_compute in E; [|discriminate].
  injection E as <- <- <-.
  eexists. eexists.
  split; [reflexivity|].
  split; [reflexivity|].
  split; [vm_compute; reflexivity|].
  split; [reflexivity|].
  refine ((fun H => conj (proj1 H) (proj2 (proj2 H))) _).
  refine (Add_new_partition_placement 7 Sample4.add_kernel Sample.gpt _ 3 _
            eq_refl _ _ _).
  - vm_compute. reflexivity.
  - vm_compute. reflexivity.
  - reflexivity.
Defined.
(** ** What [LoadFromFile] returns *)

Lemma io_bind_inv {A B : Type} (m : io A) (k : A -> io B) (f : File.t)
  (r : B * File.t) :
  io_bind m k f = OK r -> exists a f1, m f = OK (a, f1) /\ k a f1 = OK r.
Proof.
  unfold io_bind. destruct (m f) as [[a f1]|]; [|discriminate].
  intros H. exists a, f1. split; [reflexivity | exact H].
Qed.

Lemma same_file_refl (f : File.t) : same_file f f.
Proof. repeat split. Qed.

Lemma same_file_trans (f1 f2 f3 : File.t) :
  same_file f1 f2 -> same_file f2 f3 -> same_file f1 f3.
Proof.
  unfold same_file. intros (A1 & A2 & A3) (B1 & B2 & B3).
  repeat split; congruence.
Qed.

Lemma seek_same (offset : Z) (w : whence) (f f' : File.t) (u : unit) :
  seek offset w f = OK (u, f') -> same_file f f'.
Proof.
  unfold seek. destruct (_ <? 0); [discriminate|].
  intros H. injection H as _ <-. repeat split.
Qed.

Lemma read_same (num : nat) (f f' : File.t) (data : list byte) :
  read num f = OK (data, f') -> same_file f f'.
Proof. unfold read. intros H. injection H as _ <-. repeat split. Qed.

Lemma lift_inv {A : Type} (r : result A) (f f' : File.t) (a : A) :
  lift r f = OK (a, f') -> r = OK a /\ f' = f.
Proof.
  unfold lift. destruct r; [|discriminate].
  intros H. injection H as -> ->. split; reflexivity.
Qed.

Lemma Header_ReadFrom_same (f f' : File.t) (h : Header.t) :
  Header_ReadFrom f = OK (h, f') -> same_file f f'.
Proof.
  unfold Header_ReadFrom. intros H.
  apply io_bind_inv in H. destruct H as (src & f1 & Hr & Hl).
  apply lift_inv in Hl. destruct Hl as [_ ->].
  exact (read_same _ _ _ _ Hr).
Qed.

Lemma ProtectiveMBR_ReadFrom_same (f f' : File.t) (m : ProtectiveMBR.t) :
  ProtectiveMBR_ReadFrom f = OK (m, f') -> same_file f f'.
Proof.
  unfold ProtectiveMBR_ReadFrom. intros H.
  apply io_bind_inv in H. destruct H as (src & f1 & Hr & Hl).
  apply lift_inv in Hl. destruct Hl as [_ ->].
  exact (read_same _ _ _ _ Hr).
Qed.

Lemma Partition_ReadFrom_meta (image_ : string) (number_ bs : Z)
  (f f' : File.t) (p : Partition.t) :
  Partition_ReadFrom image_ number_ bs f = OK (p, f') ->
  same_file f f'
  /\ Partition.image p = image_ /\ Partition.number p = number_
  /\ Partition.block_size p = bs.
Proof.
  unfold Partition_ReadFrom. intros H.
  apply io_bind_inv in H. destruct H as (src & f1 & Hr & Hl).
  apply lift_inv in Hl. destruct Hl as [Hu ->].
  split; [exact (read_same _ _ _ _ Hr)|].
  unfold Partition.Unpack in Hu.
  destruct (negb _); [discriminate|].
  repeat match type of Hu with
         | (let '(_, _) := ?t in _) = _ => destruct t
         end.
  destruct (UTF16StructField.Unpack _); cbn [bind] in Hu; [|discriminate].
  injection Hu as <-. repeat split.
Qed.

Lemma probe_seeks_found (seeks : list (Z * whence)) :
  forall (i : Z) (f f' : File.t) (r : option (Header.t * bool)),
    GPT.probe_seeks seeks i f = OK (r, f') ->
    same_file f f'
    /\ match r with
       | Some (h, _) => GPT.valid_signature (Header.Signature h) = true
       | None => True
       end.
Proof.
  induction seeks as [|[offset w] rest IH]; intros i f f' r H.
  - cbn [GPT.probe_seeks] in H. unfold ret in H. injection H as <- <-.
    split; [apply same_file_refl | exact I].
  - cbn [GPT.probe_seeks] in H.
    apply io_bind_inv in H. destruct H as (u & f1 & Hs & H).
    apply io_bind_inv in H. destruct H as (h & f2 & Hh & H).
    pose proof (same_file_trans _ _ _ (seek_same _ _ _ _ _ Hs)
                  (Header_ReadFrom_same _ _ _ Hh)) as Hsame.
    destruct (GPT.valid_signature (Header.Signature h)) eqn:Hv.
    + unfold ret in H. injection H as <- <-. split; assumption.
    + destruct (IH _ _ _ _ H) as [Hs2 Hr].
      split; [exact (same_file_trans _ _ _ Hsame Hs2) | exact Hr].
Qed.

Lemma probe_block_sizes_found (block_sizes : list Z) :
  forall (f f' : File.t) (h : Header.t) (bs : Z) (sec : bool),
    GPT.probe_block_sizes block_sizes f = OK ((h, bs, sec), f') ->
    same_file f f'
    /\ GPT.valid_signature (Header.Signature h) = true
    /\ In bs block_sizes.
Proof.
  induction block_sizes as [|b rest IH]; intros f f' h bs sec H.
  - discriminate.
  - cbn [GPT.probe_block_sizes] in H.
    apply io_bind_inv in H. destruct H as (found & f1 & Hp & H).
    destruct (probe_seeks_found _ _ _ _ _ Hp) as [Hsame Hv].
    destruct found as [[h0 sec0]|].
    + unfold ret in H. injection H as <- <- <- <-.
      split; [exact Hsame|]. split; [exact Hv | left; reflexivity].
    + destruct (IH _ _ _ _ _ H) as (Hs2 & Hv2 & Hin).
      split; [exact (same_file_trans _ _ _ Hsame Hs2)|].
      split; [exact Hv2 | right; exact Hin].
Qed.

Lemma read_partitions_meta (image_ : string) (bs : Z) (k : nat) :
  forall (first : nat) (f f' : File.t) (ps : list Partition.t),
    GPT.read_partitions image_ bs
      (map (fun i => Z.of_nat i + 1) (seq first k)) f = OK (ps, f') ->
    same_file f f'
    /\ table_meta image_ bs (Z.of_nat first + 1) ps
    /\ List.length ps = k.
Proof.
  induction k as [|k IH]; intros first f f' ps H.
  - cbn [seq map GPT.read_partitions] in H. unfold ret in H.
    injection H as <- <-. split; [apply same_file_refl|].
    split; [exact I | reflexivity].
  - cbn [seq map GPT.read_partitions] in H.
    apply io_bind_inv in H. destruct H as (p & f1 & Hp & H).
    apply io_bind_inv in H. destruct H as (ps0 & f2 & Hps & H).
    unfold ret in H. injection H as <- <-.
    destruct (Partition_ReadFrom_meta _ _ _ _ _ _ Hp)
      as (Hs1 & Hi & Hn & Hb).
    destruct (IH _ _ _ _ Hps) as (Hs2 & Hm & Hl).
    split; [exact (same_file_trans _ _ _ Hs1 Hs2)|].
    split.
    + cbn [table_meta]. repeat split; try assumption.
      replace (Z.of_nat first + 1 + 1) with (Z.of_nat (S first) + 1) by lia.
      exact Hm.
    + cbn [List.length]. rewrite Hl. reflexivity.
Qed.

Lemma LoadFromFile_inv (f f' : File.t) (g : GPT.t) :
  GPT.LoadFromFile f = OK (g, f') ->
  same_file f f'
  /\ GPT.valid_signature (Header.Signature (GPT.header g)) = true
  /\ table_meta (File.name f) (GPT.block_size g) 1 (GPT.partitions g)
  /\ List.length (GPT.partitions g)
     = Z.to_nat (Header.PartitionEntriesNumber (GPT.header g))
  /\ match File.logical_block_size f with
     | Some n => GPT.block_size g = n
     | None => GPT.block_size g = 512 \/ GPT.block_size g = 4096
     end.
Proof.
  unfold GPT.LoadFromFile. intros H.
  apply io_bind_inv in H. destruct H as (u & f1 & Hseek & H).
  apply io_bind_inv in H. destruct H as (m & f2 & Hm & H).
  apply io_bind_inv in H. destruct H as (is_blk & f3 & Hblk & H).
  apply io_bind_inv in H. destruct H as (sizes & f4 & Hsizes & H).
  apply io_bind_inv in H. destruct H as ([[h bs] sec] & f5 & Hprobe & H).
  apply io_bind_inv in H. destruct H as (u2 & f6 & Hseek2 & H).
  apply io_bind_inv in H. destruct H as (nm & f7 & Hname & H).
  apply io_bind_inv in H. destruct H as (ps & f8 & Hps & H).
  unfold ret in H. injection H as <- <-.
  pose proof (seek_same _ _ _ _ _ Hseek) as S1.
  pose proof (ProtectiveMBR_ReadFrom_same _ _ _ Hm) as S2.
  unfold IsBlockDevice in Hblk. injection Hblk as <- <-.
  destruct (probe_block_sizes_found _ _ _ _ _ _ Hprobe) as (S5 & Hv & Hin).
  pose proof (seek_same _ _ _ _ _ Hseek2) as S6.
  unfold get_name in Hname. injection Hname as <- <-.
  destruct (read_partitions_meta _ _ _ _ _ _ _ Hps) as (S8 & Hmeta & Hlen).
  assert (S02 : same_file f f2) by exact (same_file_trans _ _ _ S1 S2).
  assert (S24 : same_file f2 f4
                /\ match File.logical_block_size f with
                   | Some n => sizes = [n]
                   | None => sizes = [512; 4096]
                   end).
  { destruct S02 as (_ & _ & Hl). rewrite <- Hl.
    destruct (File.logical_block_size f2) eqn:Hlbs.
    - apply io_bind_inv in Hsizes. destruct Hsizes as (n & f9 & Hn & Hr).
      unfold GetLogicalBlockSize in Hn. rewrite Hlbs in Hn.
      injection Hn as <- <-. unfold ret in Hr. injection Hr as <- <-.
      split; [apply same_file_refl | reflexivity].
    - unfold ret in Hsizes. injection Hsizes as <- <-.
      split; [apply same_file_refl | reflexivity]. }
  destruct S24 as [S24 Hsz].
  assert (S06 : same_file f f6).
  { eapply same_file_trans; [exact S02|].
    eapply same_file_trans; [exact S24|].
    eapply same_file_trans; [exact S5 | exact S6]. }
  cbn [GPT.header GPT.partitions GPT.block_size].
  split; [exact (same_file_trans _ _ _ S06 S8)|].
  split; [exact Hv|].
  split; [destruct S06 as (Hn & _); rewrite <- Hn; exact Hmeta|].
  split; [exact Hlen|].
  destruct (File.logical_block_size f); subst sizes.
  - destruct Hin as [<-|[]]. reflexivity.
  - destruct Hin as [<-|[<-|[]]]; [left | right]; reflexivity.
Qed.

Lemma value_inv {A : Type} (r : result (A * File.t)) (a : A) :
  value r = OK a -> exists f', r = OK (a, f').
Proof.
  destruct r as [[a0 f']|]; cbn [value]; [|discriminate].
  intros H. injection H as ->. exists f'. reflexivity.
Qed.

(** X8. What every table that [LoadFromFile] returns looks like: the
    file is left as it was but for the position; the header carries
    one of the two accepted signatures; there are as many entries as
    the header's [PartitionEntriesNumber], numbered from 1 and
    carrying the name of the image and the block size of the table;
    and the block size is the one the block device reports, or 512 or
    4096 for a plain file. *)
Theorem LoadFromFile_shape :
  forall (f : File.t) (g : GPT.t),
    value (GPT.LoadFromFile f) = OK g ->
    (exists f', GPT.LoadFromFile f = OK (g, f') /\ same_file f f')
    /\ (Header.Signature (GPT.header g) = b "EFI PART"%string
        \/ Header.Signature (GPT.header g) = b "CHROMEOS"%string)
    /\ table_meta (File.name f) (GPT.block_size g) 1 (GPT.partitions g)
    /\ List.length (GPT.partitions g)
       = Z.to_nat (Header.PartitionEntriesNumber (GPT.header g))
    /\ match File.logical_block_size f with
       | Some n => GPT.block_size g = n
       | None => GPT.block_size g = 512 \/ GPT.block_size g = 4096
       end.
Proof.
  intros f g Hv. destruct (value_inv _ _ Hv) as [f' H].
  destruct (LoadFromFile_inv f f' g H) as (H1 & H2 & H3 & H4 & H5).
  split; [exists f'; split; assumption|].
  split; [|split; [exact H3|split; [exact H4|exact H5]]].
  unfold GPT.valid_signature, Header.SIGNATURES in H2.
  cbn [existsb] in H2. rewrite orb_false_r in H2.
  apply orb_true_iff in H2. unfold bytes_eqb in H2.
  destruct H2 as [H2|H2]; [left | right];
    destruct (list_eq_dec Byte.byte_eq_dec _ _) as [E|] in H2;
    try discriminate; exact E.
Qed.

Lemma Sample7_loaded :
  value (GPT.LoadFromFile Sample2.image) = OK Sample7.loaded.
Proof. vm_compute. reflexivity. Qed.

Lemma LoadFromFile_shape_witness :
  value (GPT.LoadFromFile Sample2.image) = OK Sample7.loaded
  /\ (exists f', GPT.LoadFromFile Sample2.image = OK (Sample7.loaded, f')
                 /\ same_file Sample2.image f')
  /\ (Header.Signature (GPT.header Sample7.loaded) = b "EFI PART"%string
      \/ Header.Signature (GPT.header Sample7.loaded) = b "CHROMEOS"%string)
  /\ table_meta (File.name Sample2.image) (GPT.block_size Sample7.loaded) 1
       (GPT.partitions Sample7.loaded)
  /\ List.length (GPT.partitions Sample7.loaded)
     = Z.to_nat (Header.PartitionEntriesNumber (GPT.header Sample7.loaded))
  /\ match File.logical_block_size Sample2.image return Prop with
     | Some n => GPT.block_size Sample7.loaded = n
     | None => GPT.block_size Sample7.loaded = 512
               \/ GPT.block_size Sample7.loaded = 4096
     end.
Proof.
  split; [exact Sample7_loaded|].
  exact (LoadFromFile_shape Sample2.image Sample7.loaded Sample7_loaded).
Defined.

(** ** [show] *)

Lemma show_partition_number (a : GPTCommands.Show.args) (n : Z)
  (image_ : string) (bs : Z) (ps : list Partition.t) :
  GPTCommands.Show.number a = Some n ->
  forall k : Z,
    table_meta image_ bs k ps ->
    flat_map (GPTCommands.Show.show_partition a) ps
    = if (k <=? n) && (n <? k + Z.of_nat (List.length ps))
      then match nth_error ps (Z.to_nat (n - k)) with
           | Some p => GPTCommands.Show.show_partition a p
           | None => []
           end
      else [].
Proof.
  intros Hn. induction ps as [|p ps IH]; intros k Hmeta.
  - cbn [flat_map List.length]. destruct (_ && _); [|reflexivity].
    destruct (Z.to_nat (n - k)); reflexivity.
  - destruct Hmeta as (_ & Hnum & _ & Hrest).
    cbn [flat_map List.length]. rewrite (IH (k + 1) Hrest).
    destruct (Z.eq_dec n k) as [->|Hne].
    + destruct (Z.leb_spec (k + 1) k); [lia|]. cbn [andb].
      rewrite app_nil_r.
      destruct (Z.leb_spec k k); [|lia].
      destruct (Z.ltb_spec k (k + Z.of_nat (S (List.length ps)))); [|lia].
      cbn [andb]. rewrite Z.sub_diag. reflexivity.
    + replace (GPTCommands.Show.show_partition a p) with (@nil string).
      2:{ unfold GPTCommands.Show.show_partition. rewrite Hn, Hnum.
          destruct (Z.eqb_spec k n); [lia | reflexivity]. }
      cbn [app].
      destruct (Z.leb_spec (k + 1) n), (Z.leb_spec k n); try lia;
        cbn [andb]; [|reflexivity].
      replace (Z.to_nat (n - k)) with (S (Z.to_nat (n - (k + 1)))) by lia.
      cbn [nth_error].
      destruct (Z.ltb_spec n (k + 1 + Z.of_nat (List.length ps))),
        (Z.ltb_spec n (k + Z.of_nat (S (List.length ps)))); try lia;
        reflexivity.
Qed.

Lemma table_meta_nth (image_ : string) (bs : Z) (ps : list Partition.t) :
  forall (k : Z) (i : nat) (p : Partition.t),
    table_meta image_ bs k ps -> nth_error ps i = Some p ->
    Partition.number p = k + Z.of_nat i.
Proof.
  induction ps as [|q ps IH]; intros k [|i] p Hmeta Hnth;
    cbn [nth_error] in Hnth; try discriminate.
  - injection Hnth as <-. destruct Hmeta as (_ & Hn & _). lia.
  - destruct Hmeta as (_ & _ & _ & Hrest).
    rewrite (IH _ _ _ Hrest Hnth). lia.
Qed.

(** X9. [show -i n] on an image that loads. When [n] is within
    [1..PartitionEntriesNumber], the entry [n] exists and carries the
    number [n], the lines printed are those of that entry alone (after
    the column titles, unless [-q] or a format option is given), used
    or not, and the command ends as [CheckIntegrity] does; with a
    format option the entry's line is the one value asked for.  When
    [n] is out of that range nothing is printed and the command fails
    with a [GPTError]. *)
Theorem Show_number_only :
  forall (a : GPTCommands.Show.args) (f : File.t) (g : GPT.t) (n : Z),
    value (GPT.LoadFromFile f) = OK g ->
    GPTCommands.Show.number a = Some n ->
    (0 < n <= Header.PartitionEntriesNumber (GPT.header g) ->
     exists p,
       GPT.GetPartition g n = OK p
       /\ Partition.number p = n
       /\ GPTCommands.Show.Execute a f
          = ((if negb (GPTCommands.Show.quick a
                       || GPTCommands.Show.IsFormatArgsSpecified a)
              then [GPTCommands.Show.fmt "start" "size" "part" "contents"]
              else [])
             ++ GPTCommands.Show.show_partition a p,
             GPT.CheckIntegrity g)
       /\ (GPTCommands.Show.IsFormatArgsSpecified a = true ->
           GPTCommands.Show.show_partition a p
           = [GPTCommands.Show.ApplyFormatArgs a p]))
    /\ (~ 0 < n <= Header.PartitionEntriesNumber (GPT.header g) ->
        GPTCommands.Show.Execute a f
        = ([], Err (GPTError "Invalid partition number"))).
Proof.
  intros a f g n Hv Hn. destruct (value_inv _ _ Hv) as [f' Hload].
  destruct (LoadFromFile_inv f f' g Hload) as (_ & _ & Hmeta & Hlen & _).
  unfold GPTCommands.Show.Execute. rewrite Hload, Hn.
  rewrite andb_false_r.
  split.
  - intros Hr.
    destruct (Z.ltb_spec 0 n); [|lia].
    destruct (Z.leb_spec n (Header.PartitionEntriesNumber (GPT.header g)));
      [|lia].
    cbn [andb negb]. rewrite andb_false_r.
    assert (Hlt : (Z.to_nat (n - 1) < List.length (GPT.partitions g))%nat)
      by lia.
    destruct (nth_error (GPT.partitions g) (Z.to_nat (n - 1))) as [p|] eqn:Hp.
    2:{ apply nth_error_None in Hp. lia. }
    exists p.
    assert (Hnum : Partition.number p = n).
    { rewrite (table_meta_nth _ _ _ _ _ _ Hmeta Hp). lia. }
    split.
    { unfold GPT.GetPartition.
      destruct (Z.ltb_spec 0 n); [|lia].
      destruct (Z.leb_spec n (Z.of_nat (List.length (GPT.partitions g))));
        [|lia].
      cbn [andb negb]. rewrite Hp. reflexivity. }
    split; [exact Hnum|].
    split.
    { rewrite (show_partition_number a n _ _ _ Hn 1 Hmeta).
      destruct (Z.leb_spec 1 n); [|lia].
      destruct (Z.ltb_spec n (1 + Z.of_nat (List.length (GPT.partitions g))));
        [|lia].
      cbn [andb]. rewrite Hp. cbn [app]. reflexivity. }
    intros Hfmt. unfold GPTCommands.Show.show_partition.
    rewrite Hn, Hnum, Z.eqb_refl, Hfmt. reflexivity.
  - intros Hr.
    destruct (Z.ltb_spec 0 n); cbn [andb negb]; [|reflexivity].
    destruct (Z.leb_spec n (Header.PartitionEntriesNumber (GPT.header g)));
      [lia | reflexivity].
Qed.

Lemma Show_number_only_witness :
  value (GPT.LoadFromFile Sample2.image) = OK Sample7.loaded
  /\ GPTCommands.Show.number (Sample4.show_type false) = Some 1
  /\ 0 < 1 <= Header.PartitionEntriesNumber (GPT.header Sample7.loaded)
  /\ exists p,
      GPT.GetPartition Sample7.loaded 1 = OK p
      /\ GPTCommands.Show.Execute (Sample4.show_type false) Sample2.image
         = ([GPTCommands.Show.ApplyFormatArgs (Sample4.show_type false) p],
            GPT.CheckIntegrity Sample7.loaded).
Proof.
  assert (Hr : 0 < 1
               <= Header.PartitionEntriesNumber (GPT.header Sample7.loaded))
    by (split; vm_compute; [reflexivity | discriminate]).
  split; [exact Sample7_loaded|]. split; [reflexivity|]. split; [exact Hr|].
  destruct (Show_number_only (Sample4.show_type false) Sample2.image
              Sample7.loaded 1 Sample7_loaded eq_refl)
    as [H _].
  destruct (H Hr) as (p & Hp & _ & Hshow & Hfmt).
  exists p. split; [exact Hp|].
  rewrite Hshow, (Hfmt eq_refl). reflexivity.
Defined.

(** ** [prioritize] *)

Lemma testbit_shiftl_15 (s i : Z) :
  0 <= s -> ~ s <= i < s + 4 -> Z.testbit (Z.shiftl 15 s) i = false.
Proof.
  intros Hs Hi. destruct (Z.ltb_spec i 0) as [Hneg|Hpos].
  - apply Z.testbit_neg_r. exact Hneg.
  - rewrite Z.shiftl_spec by lia.
    destruct (Z.ltb_spec (i - s) 0) as [Hlt|Hge].
    + apply Z.testbit_neg_r. exact Hlt.
    + change 15 with (Z.ones 4). apply Z.ones_spec_high. lia.
Qed.

Lemma priority_tries_only_refl (a : PartitionAttributes.t) :
  priority_tries_only a a.
Proof. intros i _. reflexivity. Qed.

Lemma priority_tries_only_trans (a1 a2 a3 : PartitionAttributes.t) :
  priority_tries_only a1 a2 -> priority_tries_only a2 a3 ->
  priority_tries_only a1 a3.
Proof. intros H1 H2 i Hi. rewrite (H2 i Hi). exact (H1 i Hi). Qed.

Lemma setter_frame_field (s m raw v r i : Z) :
  0 <= s ->
  BitProperty._setter s m raw v = OK r ->
  Z.testbit (Z.shiftl m s) i = false ->
  Z.testbit r i = Z.testbit raw i.
Proof.
  intros Hs. unfold BitProperty._setter.
  destruct (Z.eqb_spec (Z.land v m) v) as [Hv|]; [|discriminate].
  intros H Hi. apply Some_inj. injection H as <-. f_equal.
  apply setter_frame; assumption.
Qed.

Lemma set_priority_frame (a a' : PartitionAttributes.t) (v : Z) :
  PartitionAttributes.set PartitionAttributes.priority a v = OK a' ->
  priority_tries_only a a'.
Proof.
  unfold PartitionAttributes.set.
  destruct (BitProperty._setter _ _ _ _) as [r|] eqn:E; cbn [bind];
    [|discriminate].
  intros H. injection H as <-. intros i Hi.
  unfold PartitionAttributes.raw. cbn [PartitionAttributes._attrs].
  apply (setter_frame_field 48 15 _ v r i ltac:(lia) E).
  apply testbit_shiftl_15; lia.
Qed.

Lemma set_tries_frame (a a' : PartitionAttributes.t) (v : Z) :
  PartitionAttributes.set PartitionAttributes.tries a v = OK a' ->
  priority_tries_only a a'.
Proof.
  unfold PartitionAttributes.set.
  destruct (BitProperty._setter _ _ _ _) as [r|] eqn:E; cbn [bind];
    [|discriminate].
  intros H. injection H as <-. intros i Hi.
  unfold PartitionAttributes.raw. cbn [PartitionAttributes._attrs].
  apply (setter_frame_field 52 15 _ v r i ltac:(lia) E).
  apply testbit_shiftl_15; lia.
Qed.

Lemma set_Attributes_same (p : Partition.t) :
  Partition.set_Attributes (Partition.Attributes p) p = p.
Proof. destruct p; reflexivity. Qed.

Lemma attributes_frame_refl (S : nat -> Prop) (ps : list Partition.t) :
  attributes_frame S ps ps.
Proof.
  split; [reflexivity|]. intros j p Hp. exists (Partition.Attributes p).
  rewrite set_Attributes_same.
  split; [exact Hp|]. split; [apply priority_tries_only_refl | reflexivity].
Qed.

Lemma attributes_frame_trans (S : nat -> Prop) (ps1 ps2 ps3 : list Partition.t) :
  attributes_frame S ps1 ps2 -> attributes_frame S ps2 ps3 ->
  attributes_frame S ps1 ps3.
Proof.
  intros [L1 F1] [L2 F2]. split; [congruence|].
  intros j p Hp. destruct (F1 j p Hp) as (a1 & H1 & P1 & N1).
  destruct (F2 j _ H1) as (a2 & H2 & P2 & N2).
  exists a2. split; [rewrite H2; destruct p; reflexivity|].
  split.
  - eapply priority_tries_only_trans; [exact P1|].
    replace a1
      with (Partition.Attributes (Partition.set_Attributes a1 p))
      by (destruct p; reflexivity).
    exact P2.
  - intros Hn. rewrite (N2 Hn). destruct p; cbn. exact (N1 Hn).
Qed.

Lemma reprioritize_frame (S : nat -> Prop) (new_priority : Z)
  (ps ps' : list Partition.t) (i : nat) :
  GPTCommands.Prioritize.reprioritize new_priority ps i = OK ps' ->
  S i -> attributes_frame S ps ps'.
Proof.
  unfold GPTCommands.Prioritize.reprioritize. intros H HS.
  destruct (nth_error ps i) as [p|] eqn:Hp.
  2:{ injection H as <-. apply attributes_frame_refl. }
  destruct (_ =? new_priority).
  { injection H as <-. apply attributes_frame_refl. }
  destruct (PartitionAttributes.set PartitionAttributes.priority _ _)
    as [a1|] eqn:E1; cbn [bind] in H; [|discriminate].
  pose proof (set_priority_frame _ _ _ E1) as F1.
  assert (F2 : exists a2,
             ps' = list_set ps i (Partition.set_Attributes a2 p)
             /\ priority_tries_only (Partition.Attributes p) a2).
  { destruct (_ && _).
    - destruct (PartitionAttributes.set PartitionAttributes.tries a1 15)
        as [a2|] eqn:E2; cbn [bind] in H; [|discriminate].
      injection H as <-. exists a2. split; [reflexivity|].
      eapply priority_tries_only_trans; [exact F1|].
      exact (set_tries_frame _ _ _ E2).
    - cbn [bind] in H. injection H as <-. exists a1.
      split; [reflexivity | exact F1]. }
  destruct F2 as (a2 & -> & F2).
  split; [apply list_set_length|].
  intros j q Hq. destruct (Nat.eq_dec i j) as [<-|Hne].
  - rewrite Hp in Hq. injection Hq as <-. exists a2.
    split; [apply list_set_same; apply nth_error_Some; congruence|].
    split; [exact F2 | intros Hn; contradiction].
  - exists (Partition.Attributes q). rewrite set_Attributes_same.
    split; [rewrite list_set_other by exact Hne; exact Hq|].
    split; [apply priority_tries_only_refl | reflexivity].
Qed.

Lemma reprioritize_group_frame (S : nat -> Prop) (new_priority : Z)
  (group : list nat) :
  forall ps ps' : list Partition.t,
    GPTCommands.Prioritize.reprioritize_group new_priority ps group
    = OK ps' ->
    Forall S group -> attributes_frame S ps ps'.
Proof.
  induction group as [|i rest IH]; intros ps ps' H HS.
  - injection H as <-. apply attributes_frame_refl.
  - cbn [GPTCommands.Prioritize.reprioritize_group] in H.
    destruct (GPTCommands.Prioritize.reprioritize new_priority ps i)
      as [ps1|] eqn:E; cbn [bind] in H; [|discriminate].
    eapply attributes_frame_trans.
    + exact (reprioritize_frame S _ _ _ _ E (Forall_inv HS)).
    + exact (IH _ _ H (Forall_inv_tail HS)).
Qed.

Lemma assign_frame (S : nat -> Prop)
  (groups : GPTCommands.Prioritize.dict (list nat)) (highest : Z)
  (prios : list Z) :
  (forall pri group, In pri prios ->
                     dict_get Z.eqb groups pri = Some group ->
                     Forall S group) ->
  forall (i : Z) (ps ps' : list Partition.t),
    GPTCommands.Prioritize.assign groups highest i prios ps = OK ps' ->
    attributes_frame S ps ps'.
Proof.
  induction prios as [|pri rest IH]; intros HS i ps ps' H.
  - injection H as <-. apply attributes_frame_refl.
  - cbn [GPTCommands.Prioritize.assign] in H.
    destruct (dict_get Z.eqb groups pri) as [group|] eqn:Hg;
      [|discriminate].
    destruct (GPTCommands.Prioritize.reprioritize_group _ ps group)
      as [ps1|] eqn:E; cbn [bind] in H; [|discriminate].
    eapply attributes_frame_trans.
    + exact (reprioritize_group_frame S _ _ _ _ E
               (HS pri group (or_introl eq_refl) Hg)).
    + apply (IH (fun p g Hin => HS p g (or_intror Hin)) _ _ _ H).
Qed.

(** The groups hold places of kernel partitions, under their priority. *)

Lemma combine_seq_In {A : Type} (l : list A) :
  forall (s i : nat) (x : A),
    In (i, x) (combine (seq s (List.length l)) l) ->
    (s <= i)%nat /\ nth_error l (i - s) = Some x.
Proof.
  induction l as [|y l IH]; intros s i x H; [contradiction|].
  cbn [List.length seq combine] in H. destruct H as [H|H].
  - injection H as <- <-. rewrite Nat.sub_diag. split; [lia | reflexivity].
  - destruct (IH _ _ _ H) as [Hle Hn]. split; [lia|].
    replace (i - s)%nat with (S (i - S s)) by lia. exact Hn.
Qed.

Lemma kernel_parts_In (ps : list Partition.t) (i : nat) (p : Partition.t) :
  In (i, p) (GPTCommands.Prioritize.kernel_parts ps) ->
  nth_error ps i = Some p /\ Partition.IsChromeOSKernel p = true.
Proof.
  unfold GPTCommands.Prioritize.kernel_parts. intros H.
  apply filter_In in H. destruct H as [H Hk].
  destruct (combine_seq_In _ _ _ _ H) as [_ Hn].
  rewrite Nat.sub_0_r in Hn. split; assumption.
Qed.

Lemma insert_by_In {A : Type} (before : A -> A -> bool) (x y : A)
  (l : list A) :
  In y (insert_by before x l) <-> y = x \/ In y l.
Proof.
  induction l as [|z l IH]; cbn [insert_by].
  - cbn. intuition congruence.
  - destruct (before x z); cbn [In]; [intuition congruence|].
    rewrite IH. intuition congruence.
Qed.

Lemma sort_by_In {A : Type} (before : A -> A -> bool) (y : A) (l : list A) :
  In y (sort_by before l) <-> In y l.
Proof.
  unfold sort_by. induction l as [|x l IH]; cbn [fold_right]; [reflexivity|].
  rewrite insert_by_In, IH. cbn [In]. intuition congruence.
Qed.

Lemma groupby_In {A : Type} (key : A -> Z) (l : list A) :
  forall (k : Z) (g : list A) (x : A),
    In (k, g) (GPTCommands.Prioritize.groupby key l) -> In x g ->
    In x l /\ key x = k.
Proof.
  induction l as [|y l IH]; intros k g x H Hx; [contradiction|].
  cbn [GPTCommands.Prioritize.groupby] in H.
  destruct (GPTCommands.Prioritize.groupby key l) as [|[k0 g0] gs] eqn:E.
  - destruct H as [H|[]]. injection H as <- <-.
    destruct Hx as [<-|[]]. split; [left|]; reflexivity.
  - destruct (Z.eqb_spec (key y) k0) as [Hk|Hk].
    + destruct H as [H|H].
      * injection H as <- <-. destruct Hx as [<-|Hx].
        -- split; [left; reflexivity | exact Hk].
        -- destruct (IH k0 g0 x (or_introl eq_refl) Hx) as [Hin Hkey].
           split; [right; exact Hin | exact Hkey].
      * destruct (IH k g x (or_intror H) Hx) as [Hin Hkey].
        split; [right; exact Hin | exact Hkey].
    + destruct H as [H|H].
      * injection H as <- <-. destruct Hx as [<-|[]].
        split; [left|]; reflexivity.
      * destruct (IH k g x H Hx) as [Hin Hkey].
        split; [right; exact Hin | exact Hkey].
Qed.

Lemma dict_set_In {V : Type} (d : GPTCommands.Prioritize.dict V) (k : Z)
  (v : V) (k' : Z) (v' : V) :
  In (k', v') (GPTCommands.Prioritize.dict_set d k v) ->
  In (k', v') d \/ (k' = k /\ v' = v).
Proof.
  induction d as [|[k0 v0] d IH]; cbn [GPTCommands.Prioritize.dict_set].
  - intros [H|[]]. injection H as <- <-. right. split; reflexivity.
  - destruct (Z.eqb_spec k0 k) as [->|Hne]; intros [H|H].
    + injection H as <- <-. right. split; reflexivity.
    + left. right. exact H.
    + left. left. exact H.
    + destruct (IH H) as [Hd|Hd]; [left; right; exact Hd | right; exact Hd].
Qed.

Lemma dict_set_keys {V : Type} (d : GPTCommands.Prioritize.dict V) (k : Z)
  (v : V) :
  NoDup (GPTCommands.Prioritize.keys d) ->
  NoDup (GPTCommands.Prioritize.keys (GPTCommands.Prioritize.dict_set d k v))
  /\ forall k', In k' (GPTCommands.Prioritize.keys
                         (GPTCommands.Prioritize.dict_set d k v)) ->
                k' = k \/ In k' (GPTCommands.Prioritize.keys d).
Proof.
  unfold GPTCommands.Prioritize.keys.
  induction d as [|[k0 v0] d IH]; cbn [GPTCommands.Prioritize.dict_set map fst];
    intros Hnd.
  - split; [repeat constructor; intros []|].
    intros k' [<-|[]]. left. reflexivity.
  - destruct (Z.eqb_spec k0 k) as [->|Hne]; cbn [map fst].
    + split; [exact Hnd|]. intros k' H. right. exact H.
    + inversion Hnd as [|x l Hnotin Hnd']; subst.
      destruct (IH Hnd') as [IH1 IH2]. split.
      * constructor; [|exact IH1]. intros Hin.
        destruct (IH2 _ Hin) as [->|Hin']; [congruence | contradiction].
      * intros k' [<-|Hin]; [right; left; reflexivity|].
        destruct (IH2 _ Hin) as [->|Hin']; [left; reflexivity|].
        right. right. exact Hin'.
Qed.

Lemma dict_of_In {V : Type} (items : list (Z * V)) :
  forall (acc : GPTCommands.Prioritize.dict V) (k : Z) (v : V),
    In (k, v)
      (fold_left (fun d kv => GPTCommands.Prioritize.dict_set d (fst kv)
                                (snd kv)) items acc) ->
    In (k, v) acc \/ In (k, v) items.
Proof.
  induction items as [|[k0 v0] items IH]; intros acc k v H;
    cbn [fold_left] in H; [left; exact H|].
  destruct (IH _ _ _ H) as [Hacc|Hit]; [|right; right; exact Hit].
  destruct (dict_set_In _ _ _ _ _ Hacc) as [Hd|[-> ->]];
    [left; exact Hd | right; left; reflexivity].
Qed.

Lemma dict_of_NoDup {V : Type} (items : list (Z * V)) :
  forall acc : GPTCommands.Prioritize.dict V,
    NoDup (GPTCommands.Prioritize.keys acc) ->
    NoDup (GPTCommands.Prioritize.keys
             (fold_left (fun d kv => GPTCommands.Prioritize.dict_set d
                                       (fst kv) (snd kv)) items acc)).
Proof.
  induction items as [|[k0 v0] items IH]; intros acc Hnd;
    cbn [fold_left]; [exact Hnd|].
  apply IH. apply dict_set_keys. exact Hnd.
Qed.

Lemma dict_get_In {V : Type} (d : list (Z * V)) (k : Z) (v : V) :
  dict_get Z.eqb d k = Some v -> In (k, v) d.
Proof.
  induction d as [|[k0 v0] d IH]; cbn [dict_get]; [discriminate|].
  destruct (Z.eqb_spec k0 k) as [->|Hne].
  - intros H. injection H as <-. left. reflexivity.
  - intros H. right. exact (IH H).
Qed.

Lemma dict_remove_In {V : Type} (d : GPTCommands.Prioritize.dict V) (k : Z)
  (x : Z * V) :
  In x (GPTCommands.Prioritize.dict_remove d k) -> In x d.
Proof.
  induction d as [|[k0 v0] d IH]; cbn [GPTCommands.Prioritize.dict_remove];
    [intros []|].
  destruct (k0 =? k); [intros H; right; exact H|].
  intros [H|H]; [left; exact H | right; exact (IH H)].
Qed.

Lemma dict_remove_keys {V : Type} (d : GPTCommands.Prioritize.dict V)
  (k : Z) :
  NoDup (GPTCommands.Prioritize.keys d) ->
  ~ In k (GPTCommands.Prioritize.keys
            (GPTCommands.Prioritize.dict_remove d k)).
Proof.
  unfold GPTCommands.Prioritize.keys.
  induction d as [|[k0 v0] d IH]; cbn [GPTCommands.Prioritize.dict_remove
                                         map fst]; intros Hnd; [intros []|].
  inversion Hnd as [|x l Hnotin Hnd']; subst.
  destruct (Z.eqb_spec k0 k) as [->|Hne]; [exact Hnotin|].
  cbn [map fst]. intros [H|H]; [congruence | exact (IH Hnd' H)].
Qed.

Lemma dict_mem_keys {V : Type} (d : GPTCommands.Prioritize.dict V) (k : Z) :
  GPTCommands.Prioritize.dict_mem d k = false ->
  ~ In k (GPTCommands.Prioritize.keys d).
Proof.
  unfold GPTCommands.Prioritize.dict_mem, GPTCommands.Prioritize.keys.
  induction d as [|[k0 v0] d IH]; cbn [existsb map fst]; [intros _ []|].
  destruct (Z.eqb_spec k0 k) as [->|Hne]; cbn [orb]; [discriminate|].
  intros H [E|Hin]; [congruence | exact (IH H Hin)].
Qed.

Lemma remove_first_In (i j : nat) (l : list nat) :
  In j (GPTCommands.Prioritize.remove_first i l) -> In j l.
Proof.
  induction l as [|x l IH]; cbn [GPTCommands.Prioritize.remove_first];
    [intros []|].
  destruct (Nat.eqb x i); [intros H; right; exact H|].
  intros [H|H]; [left; exact H | right; exact (IH H)].
Qed.

Lemma initial_groups_In (ps : list Partition.t) (k : Z) (v : list nat)
  (j : nat) :
  In (k, v) (GPTCommands.Prioritize.initial_groups ps) -> In j v ->
  kernel_place_of_priority ps k j.
Proof.
  unfold GPTCommands.Prioritize.initial_groups,
    GPTCommands.Prioritize.dict_of. intros H Hj.
  destruct (dict_of_In _ _ _ _ H) as [[]|Hit].
  apply in_map_iff in Hit. destruct Hit as [[k0 g] [E Hg]].
  cbn [fst snd] in E. injection E as -> <-.
  apply in_map_iff in Hj. destruct Hj as [[j0 p] [E Hp]].
  cbn [fst] in E. subst j0.
  destruct (groupby_In _ _ _ _ _ Hg Hp) as [Hin Hkey].
  unfold sort_key_reverse in Hin.
  apply sort_by_In in Hin. apply kernel_parts_In in Hin.
  destruct Hin as [Hn Hk]. exists p. repeat split; assumption.
Qed.

Lemma initial_groups_NoDup (ps : list Partition.t) :
  NoDup (GPTCommands.Prioritize.keys
           (GPTCommands.Prioritize.initial_groups ps)).
Proof.
  unfold GPTCommands.Prioritize.initial_groups,
    GPTCommands.Prioritize.dict_of.
  apply dict_of_NoDup. constructor.
Qed.

Lemma promote_places (a : GPTCommands.Prioritize.args) (gpt : GPT.t)
  (groups groups' : GPTCommands.Prioritize.dict (list nat)) :
  GPTCommands.Prioritize.promote a gpt groups = OK groups' ->
  (forall k v j, In (k, v) groups -> In j v ->
                 kernel_place (GPT.partitions gpt) j) ->
  forall k v j, In (k, v) groups' -> In j v ->
                kernel_place (GPT.partitions gpt) j.
Proof.
  unfold GPTCommands.Prioritize.promote. intros H Hg.
  destruct (GPTCommands.Prioritize.number a) as [n|];
    [|injection H as <-; exact Hg].
  destruct (n =? 0); [injection H as <-; exact Hg|].
  destruct (GPT.GetPartition gpt n) as [p|] eqn:Hget; cbn [bind] in H;
    [|discriminate].
  destruct (existsb _ _) eqn:Hex; cbn [negb] in H; [|discriminate].
  assert (Hi : kernel_place (GPT.partitions gpt) (Z.to_nat (n - 1))).
  { apply existsb_exists in Hex. destruct Hex as [i [Hin Heq]].
    apply Nat.eqb_eq in Heq. subst i.
    apply in_map_iff in Hin. destruct Hin as [[i q] [E Hq]].
    cbn [fst] in E. subst i. apply kernel_parts_In in Hq.
    exists q. exact Hq. }
  unfold GPTCommands.Prioritize.dict_pop in H.
  destruct (dict_get Z.eqb groups _) as [friends_|] eqn:Hf; cbn [bind] in H;
    [|discriminate].
  apply dict_get_In in Hf.
  destruct (GPTCommands.Prioritize.max_key _) as [m|]; cbn [bind] in H;
    [|discriminate].
  assert (Hrem : forall k v j,
             In (k, v) (GPTCommands.Prioritize.dict_remove groups
                          (GPTCommands.Prioritize.priority_of p)) ->
             In j v -> kernel_place (GPT.partitions gpt) j)
    by (intros k v j Hin; apply (Hg k v j); eapply dict_remove_In; exact Hin).
  destruct (GPTCommands.Prioritize.friends a).
  - injection H as <-. intros k v j Hin Hj.
    destruct (dict_set_In _ _ _ _ _ Hin) as [Hd|[-> ->]].
    + exact (Hrem _ _ _ Hd Hj).
    + exact (Hg _ _ _ Hf Hj).
  - assert (Hone : forall k v j,
               In (k, v) (GPTCommands.Prioritize.dict_set
                            (GPTCommands.Prioritize.dict_remove groups
                               (GPTCommands.Prioritize.priority_of p))
                            (m + 1) [Z.to_nat (n - 1)]) ->
               In j v -> kernel_place (GPT.partitions gpt) j).
    { intros k v j Hin Hj.
      destruct (dict_set_In _ _ _ _ _ Hin) as [Hd|[-> ->]].
      - exact (Hrem _ _ _ Hd Hj).
      - destruct Hj as [<-|[]]. exact Hi. }
    destruct (GPTCommands.Prioritize.remove_first _ friends_) as [|x l] eqn:Hr.
    + injection H as <-. exact Hone.
    + injection H as <-. intros k v j Hin Hj.
      destruct (dict_set_In _ _ _ _ _ Hin) as [Hd|[-> ->]].
      * exact (Hone _ _ _ Hd Hj).
      * rewrite <- Hr in Hj. apply remove_first_In in Hj.
        exact (Hg _ _ _ Hf Hj).
Qed.

Lemma apply_groups_places (a : GPTCommands.Prioritize.args) (gpt : GPT.t)
  (groups : GPTCommands.Prioritize.dict (list nat)) :
  GPTCommands.Prioritize.promote a gpt
    (GPTCommands.Prioritize.initial_groups (GPT.partitions gpt)) = OK groups ->
  forall pri group,
    dict_get Z.eqb
      (if GPTCommands.Prioritize.dict_mem groups 0
       then GPTCommands.Prioritize.dict_remove groups 0 else groups) pri
    = Some group ->
    Forall (kernel_place (GPT.partitions gpt)) group.
Proof.
  intros Hp pri group Hg. apply Forall_forall. intros j Hj.
  apply dict_get_In in Hg.
  assert (Hin : In (pri, group) groups)
    by (destruct (GPTCommands.Prioritize.dict_mem groups 0);
        [eapply dict_remove_In|]; exact Hg).
  apply (promote_places a gpt _ groups Hp) with (k := pri) (v := group);
    try assumption.
  intros k v i Hkv Hi.
  destruct (initial_groups_In _ _ _ _ Hkv Hi) as (q & Hq & Hk & _).
  exists q. split; assumption.
Qed.

(** X10. [prioritize] changes nothing but the priority and tries
    fields of kernel partitions: whenever the change it makes to the
    loaded table succeeds, the header, the block size and the number
    of entries are the same, every entry keeps all its fields but
    the attributes, the attributes keep every bit outside the
    priority field (bits 48 to 51) and the tries field (bits 52 to
    55), and an entry that is no ChromeOS kernel keeps its attributes
    too. *)
Theorem Prioritize_changes_kernel_attributes_only :
  forall (a : GPTCommands.Prioritize.args) (gpt gpt' : GPT.t),
    GPTCommands.Prioritize.apply a gpt = OK gpt' ->
    GPT.header gpt' = GPT.header gpt
    /\ GPT.block_size gpt' = GPT.block_size gpt
    /\ attributes_frame (kernel_place (GPT.partitions gpt))
         (GPT.partitions gpt) (GPT.partitions gpt')
    /\ forall j p,
        nth_error (GPT.partitions gpt) j = Some p ->
        Partition.IsChromeOSKernel p = false ->
        nth_error (GPT.partitions gpt') j = Some p.
Proof.
  intros a gpt gpt' H. unfold GPTCommands.Prioritize.apply in H.
  cbv zeta in H.
  destruct (GPTCommands.Prioritize.promote a gpt _) as [groups|] eqn:Hp;
    cbn [bind] in H; [|discriminate].
  destruct (GPTCommands.Prioritize.assign _ _ _ _ _) as [ps|] eqn:Ha;
    cbn [bind] in H; [|discriminate].
  injection H as <-. cbn [GPT.set_partitions GPT.header GPT.block_size
                           GPT.partitions].
  assert (F : attributes_frame (kernel_place (GPT.partitions gpt))
                (GPT.partitions gpt) ps).
  { eapply assign_frame; [|exact Ha].
    intros pri group _ Hg. exact (apply_groups_places a gpt groups Hp _ _ Hg). }
  split; [reflexivity|]. split; [reflexivity|]. split; [exact F|].
  intros j p Hj Hk. destruct F as [_ F].
  destruct (F j p Hj) as (attrs & Hn & _ & Hsame).
  rewrite Hn, Hsame; [rewrite set_Attributes_same; reflexivity|].
  intros (q & Hq & Hkq). congruence.
Qed.

Lemma Prioritize_changes_kernel_attributes_only_witness :
  exists gpt',
    GPTCommands.Prioritize.apply Sample8.no_option Sample8.gpt = OK gpt'
    /\ GPT.header gpt' = GPT.header Sample8.gpt
    /\ nth_error (GPT.partitions gpt') 1 = Some Sample.state.
Proof.
  destruct (GPTCommands.Prioritize.apply Sample8.no_option Sample8.gpt)
    as [gpt'|e] eqn:E; [|vm_compute in E; discriminate].
  exists gpt'. split; [reflexivity|].
  destruct (Prioritize_changes_kernel_attributes_only _ _ _ E)
    as (H1 & _ & _ & H4).
  split; [exact H1|]. apply H4; reflexivity.
Defined.

(** X11. Without a target ([-i] absent), [prioritize] leaves every
    kernel partition of priority 0, like every partition that is no
    ChromeOS kernel, exactly as it was. *)
Theorem Prioritize_without_target_keeps_priority_0 :
  forall (a : GPTCommands.Prioritize.args) (gpt gpt' : GPT.t) (j : nat)
         (p : Partition.t),
    GPTCommands.Prioritize.number a = None ->
    GPTCommands.Prioritize.apply a gpt = OK gpt' ->
    nth_error (GPT.partitions gpt) j = Some p ->
    Partition.IsChromeOSKernel p = false
    \/ GPTCommands.Prioritize.priority_of p = 0 ->
    nth_error (GPT.partitions gpt') j = Some p.
Proof.
  intros a gpt gpt' j p Hnum H Hj Hp.
  unfold GPTCommands.Prioritize.apply in H. cbv zeta in H.
  unfold GPTCommands.Prioritize.promote in H. rewrite Hnum in H.
  cbn [bind] in H.
  set (groups := GPTCommands.Prioritize.initial_groups (GPT.partitions gpt))
    in H.
  set (groups' := if GPTCommands.Prioritize.dict_mem groups 0
                  then GPTCommands.Prioritize.dict_remove groups 0
                  else groups) in H.
  destruct (GPTCommands.Prioritize.assign _ _ _ _ _) as [ps|] eqn:Ha;
    cbn [bind] in H; [|discriminate].
  injection H as <-. cbn [GPT.set_partitions GPT.partitions].
  pose (S := fun i : nat =>
               exists k, k <> 0
                         /\ kernel_place_of_priority (GPT.partitions gpt) k i).
  assert (Hno0 : ~ In 0 (GPTCommands.Prioritize.keys groups')).
  { unfold groups'.
    destruct (GPTCommands.Prioritize.dict_mem groups 0) eqn:Hm.
    - apply dict_remove_keys. apply initial_groups_NoDup.
    - apply dict_mem_keys. exact Hm. }
  assert (F : attributes_frame S (GPT.partitions gpt) ps).
  { eapply assign_frame; [|exact Ha].
    intros pri group _ Hg. apply dict_get_In in Hg.
    apply Forall_forall. intros i Hi. exists pri. split.
    - intros ->. apply Hno0. unfold GPTCommands.Prioritize.keys.
      apply in_map_iff. exists (0, group). split; [reflexivity | exact Hg].
    - apply (initial_groups_In _ pri group i); [|exact Hi].
      unfold groups' in Hg.
      destruct (GPTCommands.Prioritize.dict_mem groups 0);
        [eapply dict_remove_In|]; exact Hg. }
  destruct F as [_ F]. destruct (F j p Hj) as (attrs & Hn & _ & Hsame).
  rewrite Hn, Hsame; [rewrite set_Attributes_same; reflexivity|].
  intros (k & Hk & q & Hq & Hkq & Hpri).
  rewrite Hj in Hq. injection Hq as <-.
  destruct Hp as [Hp|Hp]; congruence.
Qed.

Lemma Prioritize_without_target_keeps_priority_0_witness :
  exists gpt',
    GPTCommands.Prioritize.number Sample8.no_option = None
    /\ GPTCommands.Prioritize.apply Sample8.no_option Sample8.gpt = OK gpt'
    /\ nth_error (GPT.partitions Sample8.gpt) 2 = Some Sample8.kernel_b
    /\ GPTCommands.Prioritize.priority_of Sample8.kernel_b = 0
    /\ nth_error (GPT.partitions gpt') 2 = Some Sample8.kernel_b.
Proof.
  destruct (GPTCommands.Prioritize.apply Sample8.no_option Sample8.gpt)
    as [gpt'|e] eqn:E; [|vm_compute in E; discriminate].
  exists gpt'. split; [reflexivity|]. split; [reflexivity|].
  split; [reflexivity|]. split; [reflexivity|].
  apply (Prioritize_without_target_keeps_priority_0 Sample8.no_option
           Sample8.gpt gpt' 2 Sample8.kernel_b eq_refl E eq_refl).
  right. reflexivity.
Defined.

Lemma combine_seq_nth {A : Type} (l : list A) :
  forall (s i : nat) (x : A),
    nth_error l i = Some x ->
    In ((s + i)%nat, x) (combine (seq s (List.length l)) l).
Proof.
  induction l as [|y l IH]; intros s [|i] x H; cbn [nth_error] in H;
    try discriminate; cbn [List.length seq combine].
  - injection H as <-. left. rewrite Nat.add_0_r. reflexivity.
  - right. replace (s + S i)%nat with (S s + i)%nat by lia.
    apply IH. exact H.
Qed.

Lemma kernel_parts_nth (ps : list Partition.t) (i : nat) (p : Partition.t) :
  nth_error ps i = Some p -> Partition.IsChromeOSKernel p = true ->
  In (i, p) (GPTCommands.Prioritize.kernel_parts ps).
Proof.
  intros Hn Hk. unfold GPTCommands.Prioritize.kernel_parts.
  apply filter_In. split; [|exact Hk].
  exact (combine_seq_nth ps 0 i p Hn).
Qed.

Lemma groupby_const {A : Type} (key : A -> Z) (k : Z) (l : list A) :
  l <> [] -> (forall x, In x l -> key x = k) ->
  GPTCommands.Prioritize.groupby key l = [(k, l)].
Proof.
  induction l as [|x l IH]; intros Hne Hk; [congruence|].
  cbn [GPTCommands.Prioritize.groupby].
  destruct l as [|y l].
  - cbn [GPTCommands.Prioritize.groupby].
    rewrite (Hk x (or_introl eq_refl)). reflexivity.
  - rewrite IH by (try discriminate; intros z Hz; apply Hk; right; exact Hz).
    rewrite (Hk x (or_introl eq_refl)), Z.eqb_refl. reflexivity.
Qed.

(** X12. [prioritize -i n] fails with [ValueError] whenever the
    target is a kernel partition and every kernel partition of the
    table has the target's priority (a single kernel partition, for
    one): after the target's group is popped no group is left, and
    [max(groups)] is taken of an empty dict. *)
Theorem Prioritize_target_single_group_ValueError :
  forall (a : GPTCommands.Prioritize.args) (gpt : GPT.t) (n : Z)
         (p : Partition.t),
    GPTCommands.Prioritize.number a = Some n ->
    GPT.GetPartition gpt n = OK p ->
    Partition.IsChromeOSKernel p = true ->
    (forall q, In q (GPT.partitions gpt) ->
               Partition.IsChromeOSKernel q = true ->
               GPTCommands.Prioritize.priority_of q
               = GPTCommands.Prioritize.priority_of p) ->
    GPTCommands.Prioritize.apply a gpt = Err ValueError.
Proof.
  intros a gpt n p Hnum Hget Hk Hall.
  destruct (GetPartition_inv gpt n p Hget) as [Hn Hnth].
  pose proof (kernel_parts_nth _ _ _ Hnth Hk) as Hin.
  set (key := fun ip : nat * Partition.t =>
                GPTCommands.Prioritize.priority_of (snd ip)).
  set (parts := sort_key_reverse key
                  (GPTCommands.Prioritize.kernel_parts (GPT.partitions gpt))).
  assert (Hparts : GPTCommands.Prioritize.groupby key parts
                   = [(GPTCommands.Prioritize.priority_of p, parts)]).
  { apply groupby_const.
    - intros E. assert (Hp : In (Z.to_nat (n - 1), p) parts)
        by (apply sort_by_In; exact Hin).
      rewrite E in Hp. contradiction.
    - intros [i q] Hq. apply sort_by_In in Hq.
      apply kernel_parts_In in Hq. destruct Hq as [Hq Hkq].
      apply Hall; [eapply nth_error_In; exact Hq | exact Hkq]. }
  unfold GPTCommands.Prioritize.apply. cbv zeta.
  unfold GPTCommands.Prioritize.initial_groups.
  fold key. fold parts. rewrite Hparts.
  unfold GPTCommands.Prioritize.dict_of.
  cbn [map fst snd fold_left GPTCommands.Prioritize.dict_set].
  unfold GPTCommands.Prioritize.promote. rewrite Hnum.
  destruct (Z.eqb_spec n 0); [lia|]. rewrite Hget. cbn [bind].
  assert (Hex : existsb (Nat.eqb (Z.to_nat (n - 1)))
                  (map fst (GPTCommands.Prioritize.kernel_parts
                              (GPT.partitions gpt))) = true).
  { apply existsb_exists. exists (Z.to_nat (n - 1)).
    split; [|apply Nat.eqb_refl].
    apply in_map_iff. exists (Z.to_nat (n - 1), p).
    split; [reflexivity | exact Hin]. }
  rewrite Hex. cbn [negb].
  unfold GPTCommands.Prioritize.dict_pop. cbn [dict_get].
  rewrite Z.eqb_refl. cbn [bind GPTCommands.Prioritize.dict_remove].
  rewrite Z.eqb_refl. reflexivity.
Qed.

Lemma Prioritize_target_single_group_ValueError_witness :
  GPTCommands.Prioritize.number Sample8.target_1 = Some 1
  /\ GPT.GetPartition Sample.gpt 1 = OK Sample.kernel
  /\ Partition.IsChromeOSKernel Sample.kernel = true
  /\ GPTCommands.Prioritize.apply Sample8.target_1 Sample.gpt
     = Err ValueError.
Proof.
  split; [reflexivity|]. split; [reflexivity|]. split; [reflexivity|].
  apply (Prioritize_target_single_group_ValueError Sample8.target_1
           Sample.gpt 1 Sample.kernel eq_refl eq_refl eq_refl).
  intros q Hq Hk.
  assert (H : forallb (fun q => implb (Partition.IsChromeOSKernel q)
                                  (GPTCommands.Prioritize.priority_of q
                                   =? GPTCommands.Prioritize.priority_of
                                        Sample.kernel))
                (GPT.partitions Sample.gpt) = true)
    by (vm_compute; reflexivity).
  rewrite forallb_forall in H. specialize (H q Hq). rewrite Hk in H.
  apply Z.eqb_eq. exact H.
Defined.

(** With a target, a kernel partition of priority 0 is not spared:
    on the sample table with a second kernel partition of priority 0
    as entry 3, [prioritize -i 3] gives that partition priority 2
    (and 15 tries). *)
Lemma Prioritize_target_priority_0_promoted :
  exists gpt' p',
    GPTCommands.Prioritize.priority_of Sample8.kernel_b = 0
    /\ GPTCommands.Prioritize.apply
         (GPTCommands.Prioritize.Args None (Some 3) false) Sample8.gpt
       = OK gpt'
    /\ GPT.GetPartition gpt' 3 = OK p'
    /\ GPTCommands.Prioritize.priority_of p' = 2
    /\ PartitionAttributes.get PartitionAttributes.tries
         (Partition.Attributes p') = 15.
Proof.
  eexists. eexists. split; [reflexivity|].
  split; [vm_compute; reflexivity|].
  split; [vm_compute; reflexivity|].
  split; vm_compute; reflexivity.
Qed.
(** ** [find] on one drive, and with a match file *)

Lemma Find_criteria_given (a : GPTCommands.Find.args) :
  Find_criteria a ->
  negb
    (match GPTCommands.Find.type_guid a with
     | Some _ => true | None => false end
     || match GPTCommands.Find.unique_guid a with
        | Some _ => true | None => false end
     || match GPTCommands.Find.label a with
        | Some (_ :: _) => true | _ => false end) = false.
Proof.
  intros [H | [H | [c [s H]]]].
  - destruct (GPTCommands.Find.type_guid a); [reflexivity | congruence].
  - destruct (GPTCommands.Find.unique_guid a); [|congruence].
    rewrite orb_true_r. reflexivity.
  - rewrite H, !orb_true_r. reflexivity.
Qed.

Lemma match_partition_plain (sys : GPTCommands.Find.system)
  (a : GPTCommands.Find.args) (drive_ : string)
  (st : GPTCommands.Find.state) (p : Partition.t) :
  GPTCommands.Find.match_partition sys a false drive_ st p
  = OK (if Find_matches a p
        then {| GPTCommands.Find.found := GPTCommands.Find.found st + 1;
                GPTCommands.Find.printed :=
                  GPTCommands.Find.printed st ++ [Find_line a p] |}
        else st).
Proof.
  unfold GPTCommands.Find.match_partition, Find_matches, Find_line.
  destruct (_ || _); reflexivity.
Qed.

Lemma match_partitions_plain (sys : GPTCommands.Find.system)
  (a : GPTCommands.Find.args) (drive_ : string) (ps : list Partition.t) :
  forall st : GPTCommands.Find.state,
    GPTCommands.Find.match_partitions sys a false drive_ st ps
    = ({| GPTCommands.Find.found :=
            GPTCommands.Find.found st
            + Z.of_nat (List.length (filter (Find_matches a) ps));
          GPTCommands.Find.printed :=
            GPTCommands.Find.printed st
            ++ map (Find_line a) (filter (Find_matches a) ps) |}, OK tt).
Proof.
  induction ps as [|p ps IH]; intros st.
  - cbn [GPTCommands.Find.match_partitions filter map List.length].
    rewrite Z.add_0_r, app_nil_r. destruct st; reflexivity.
  - cbn [GPTCommands.Find.match_partitions filter].
    rewrite match_partition_plain, IH.
    destruct (Find_matches a p); [|reflexivity].
    cbn [GPTCommands.Find.found GPTCommands.Find.printed map List.length].
    rewrite <- app_assoc. cbn [app]. f_equal. f_equal. lia.
Qed.

(** X13. [find] on a named drive, with no match file: when the drive
    loads, the lines printed are those of the used partitions that
    agree with every criterion given, in the order of the table, and
    the exit code is 0 exactly when there is a match and, under [-1],
    no second one; when the drive does not load, nothing is printed
    and the error of [LoadFromFile] ends the command. *)
Theorem Find_named_drive :
  forall (sys : GPTCommands.Find.system) (a : GPTCommands.Find.args)
         (name : string),
    GPTCommands.Find.drive a = Some name ->
    GPTCommands.Find.match_file a = None ->
    Find_criteria a ->
    GPTCommands.Find.Execute sys a
    = match GPTCommands.Find.LoadFromPath sys name with
      | OK g =>
          let hits := filter (Find_matches a) (GPT.partitions g) in
          let found := Z.of_nat (List.length hits) in
          (map (Find_line a) hits,
           OK (if (found <? 1)
                  || (GPTCommands.Find.single_match a && (found >? 1))
               then 1 else 0))
      | Err e => ([], Err e)
      end.
Proof.
  intros sys a name Hdrive Hmatch Hcrit. unfold GPTCommands.Find.Execute.
  rewrite (Find_criteria_given a Hcrit), Hdrive, Hmatch.
  cbn [GPTCommands.Find.scan]. rewrite Hdrive.
  destruct (GPTCommands.Find.LoadFromPath sys name) as [g|e].
  - rewrite match_partitions_plain.
    cbn [GPTCommands.Find.found GPTCommands.Find.printed app Z.add].
    reflexivity.
  - destruct e; reflexivity.
Qed.

Lemma Find_named_drive_witness :
  GPTCommands.Find.drive
    (Sample3.find_state true (Some "/dev/sda"%string))
  = Some "/dev/sda"%string
  /\ Find_criteria (Sample3.find_state true (Some "/dev/sda"%string))
  /\ GPTCommands.Find.Execute Sample3.good_then_bad
       (Sample3.find_state true (Some "/dev/sda"%string))
     = (["/dev/sda2"%string], OK 0).
Proof.
  assert (Hc : Find_criteria
                 (Sample3.find_state true (Some "/dev/sda"%string))).
  { right. right. vm_compute. eexists. eexists. reflexivity. }
  split; [reflexivity|]. split; [exact Hc|].
  rewrite (Find_named_drive Sample3.good_then_bad
             (Sample3.find_state true (Some "/dev/sda"%string))
             "/dev/sda" eq_refl eq_refl Hc).
  vm_compute. reflexivity.
Defined.

Lemma match_partitions_pattern (sys : GPTCommands.Find.system)
  (a : GPTCommands.Find.args) (drive_ : string) (ps : list Partition.t) :
  forall st : GPTCommands.Find.state,
    fst (GPTCommands.Find.match_partitions sys a true drive_ st ps) = st.
Proof.
  induction ps as [|p ps IH]; intros st; [reflexivity|].
  cbn [GPTCommands.Find.match_partitions].
  unfold GPTCommands.Find.match_partition.
  destruct (_ || _); [apply IH|].
  destruct (GPTCommands.Find.open sys drive_) as [f|]; cbn [bind];
    [|reflexivity].
  destruct (seek _ _ f) as [[]|]; cbn [bind]; [apply IH | reflexivity].
Qed.

Lemma scan_pattern (sys : GPTCommands.Find.system)
  (a : GPTCommands.Find.args) (drives : list string) :
  forall (gpt : option GPT.t) (st : GPTCommands.Find.state),
    fst (GPTCommands.Find.scan sys a true gpt st drives) = st.
Proof.
  induction drives as [|d rest IH]; intros gpt st; [reflexivity|].
  cbn [GPTCommands.Find.scan].
  destruct (match GPTCommands.Find.LoadFromPath sys d with
            | OK g => OK (Some g)
            | Err e => _
            end) as [[g|]|e]; try reflexivity.
  pose proof (match_partitions_pattern sys a d (GPT.partitions g) st) as H.
  destruct (GPTCommands.Find.match_partitions sys a true d st
              (GPT.partitions g)) as [st' [[]|e]]; cbn [fst] in H; subst st'.
  - apply IH.
  - reflexivity.
Qed.

(** X14. [find -M file] never finds anything: the pattern is read
    from the match file as text and compared with bytes read from the
    drive, which are never equal to it.  Whenever the match file
    opens and is not empty, nothing is printed and the command does
    not end with exit code 0, on a named drive or scanning all of
    them. *)
Theorem Find_match_file_never_matches :
  forall (sys : GPTCommands.Find.system) (a : GPTCommands.Find.args)
         (path : string) (f : File.t),
    GPTCommands.Find.match_file a = Some path ->
    path <> EmptyString ->
    GPTCommands.Find.open sys path = OK f ->
    File.size f <> 0 ->
    fst (GPTCommands.Find.Execute sys a) = []
    /\ snd (GPTCommands.Find.Execute sys a) <> OK 0.
Proof.
  intros sys a path f Hm Hpath Hopen Hsize.
  unfold GPTCommands.Find.Execute.
  destruct (negb _); [split; [reflexivity | discriminate]|].
  rewrite Hm.
  destruct path as [|c path]; [congruence|].
  cbn [String.length Nat.eqb]. rewrite Hopen. cbn [bind].
  destruct (utf8_decodes 0 128 191 (File.content f));
    [|split; [reflexivity | discriminate]].
  destruct (Z.eqb_spec (File.size f) 0); [contradiction|]. cbn [negb].
  match goal with
  | |- context [GPTCommands.Find.scan sys a true None ?st ?ds] =>
      pose proof (scan_pattern sys a ds None st) as H;
      destruct (GPTCommands.Find.scan sys a true None st ds) as [st' [[]|e]]
  end; cbn [fst] in H; subst st'; cbn [fst snd GPTCommands.Find.printed
                                       GPTCommands.Find.found].
  - split; [reflexivity | discriminate].
  - split; [reflexivity | discriminate].
Qed.

Lemma Find_match_file_never_matches_witness :
  GPTCommands.Find.match_file Sample9.find_state_pattern
  = Some "pattern"%string
  /\ GPTCommands.Find.open Sample9.sys "pattern" = OK Sample9.pattern
  /\ File.size Sample9.pattern <> 0
  /\ fst (GPTCommands.Find.Execute Sample9.sys Sample9.find_state_pattern)
     = []
  /\ snd (GPTCommands.Find.Execute Sample9.sys Sample9.find_state_pattern)
     <> OK 0.
Proof.
  split; [reflexivity|]. split; [reflexivity|].
  assert (Hs : File.size Sample9.pattern <> 0) by discriminate.
  split; [exact Hs|].
  apply (Find_match_file_never_matches Sample9.sys
           Sample9.find_state_pattern "pattern" Sample9.pattern eq_refl);
    [discriminate | reflexivity | exact Hs].
Defined.
(** ** Writing, then reading *)

Lemma write_at_split (c : list byte) (p : nat) (blob : list byte) :
  exists pre post,
    write_at c p blob = pre ++ blob ++ post
    /\ List.length pre = p
    /\ pre = firstn p c ++ repeat Byte.x00 (p - List.length c)
    /\ post = skipn (p + List.length blob) c.
Proof.
  exists (firstn p c ++ repeat Byte.x00 (p - List.length c)),
    (skipn (p + List.length blob) c).
  split; [unfold write_at; rewrite <- app_assoc; reflexivity|].
  split; [|split; reflexivity].
  rewrite length_app, length_firstn, repeat_length. lia.
Qed.

Lemma write_at_length (c : list byte) (p : nat) (blob : list byte) :
  List.length (write_at c p blob)
  = Nat.max (List.length c) (p + List.length blob).
Proof.
  unfold write_at.
  rewrite !length_app, length_firstn, repeat_length, length_skipn. lia.
Qed.

Lemma slice_write_at_same (c : list byte) (p : nat) (blob : list byte) :
  slice (write_at c p blob) p (List.length blob) = blob.
Proof.
  destruct (write_at_split c p blob) as (pre & post & -> & Hp & _).
  unfold slice. rewrite skipn_app_len by exact Hp.
  apply firstn_app_len. reflexivity.
Qed.

Lemma slice_write_at_before (c : list byte) (p : nat) (blob : list byte)
  (q n : nat) :
  (q + n <= p)%nat -> (q + n <= List.length c)%nat ->
  slice (write_at c p blob) q n = slice c q n.
Proof.
  intros Hp Hc. unfold slice, write_at.
  rewrite skipn_app, firstn_app, !length_skipn, !length_firstn.
  replace (n - (Nat.min p (List.length c) - q))%nat with 0%nat by lia.
  cbn [firstn]. rewrite app_nil_r.
  rewrite skipn_firstn_comm, firstn_firstn.
  replace (Nat.min n (p - q)) with n by lia. reflexivity.
Qed.

Lemma slice_write_at_after (c : list byte) (p : nat) (blob : list byte)
  (q n : nat) :
  (p + List.length blob <= q)%nat ->
  slice (write_at c p blob) q n = slice c q n.
Proof.
  intros Hq. destruct (write_at_split c p blob)
    as (pre & post & -> & Hp & _ & ->).
  unfold slice. rewrite app_assoc, skipn_app.
  rewrite (skipn_all2 (pre ++ blob))
    by (rewrite length_app; lia).
  cbn [app]. rewrite length_app, Hp, skipn_skipn.
  replace (q - (p + List.length blob) + (p + List.length blob))%nat
    with q by lia.
  reflexivity.
Qed.

Lemma slice_decompose (c : list byte) (p n : nat) :
  (p + n <= List.length c)%nat ->
  c = firstn p c ++ slice c p n ++ skipn (p + n) c
  /\ List.length (firstn p c) = p
  /\ List.length (slice c p n) = n.
Proof.
  intros H. unfold slice. split; [|split].
  - rewrite <- (firstn_skipn p c) at 1. f_equal.
    rewrite <- (firstn_skipn n (skipn p c)) at 1. f_equal.
    rewrite skipn_skipn. f_equal. lia.
  - rewrite length_firstn. lia.
  - rewrite length_firstn, length_skipn. lia.
Qed.

Lemma read_slice (n : nat) (f : File.t) :
  read n f
  = OK (slice (File.content f) (Z.to_nat (File.pos f)) n,
        File.set_pos
          (File.pos f
           + Z.of_nat (List.length
                         (slice (File.content f) (Z.to_nat (File.pos f)) n)))
          f).
Proof. reflexivity. Qed.

Lemma WriteData_at (g : GPT.t) (blob : list byte) (lba : Z) (f : File.t) :
  0 <= lba * GPT.block_size g ->
  GPT.WriteData g blob lba f
  = OK (tt, File.Make (File.name f)
              (write_at (File.content f)
                 (Z.to_nat (lba * GPT.block_size g)) blob)
              (lba * GPT.block_size g + Z.of_nat (List.length blob))
              (File.logical_block_size f)).
Proof.
  intros H. unfold GPT.WriteData, io_bind, seek, write.
  destruct (Z.ltb_spec (lba * GPT.block_size g) 0); [lia|].
  reflexivity.
Qed.

Lemma valid_header_checksums (h : Header.t) (c1 c2 : Z) :
  valid_header h -> uint_range 4 c1 -> uint_range 4 c2 ->
  valid_header (Header.set_CRC32 c1 (Header.set_PartitionArrayCRC32 c2 h)).
Proof.
  intros (H1 & H2 & H3 & H4 & H5 & H6 & H7 & H8 & H9 & H10 & H11 & H12
          & H13 & H14) Hc1 Hc2.
  unfold valid_header.
  cbn [Header.set_CRC32 Header.set_PartitionArrayCRC32 Header.Signature
       Header.Revision Header.HeaderSize Header.CRC32 Header.Reserved
       Header.CurrentLBA Header.BackupLBA Header.FirstUsableLBA
       Header.LastUsableLBA Header.DiskGUID
       Header.PartitionEntriesStartingLBA Header.PartitionEntriesNumber
       Header.PartitionEntrySize Header.PartitionArrayCRC32].
  repeat split; first [assumption | apply H3 | apply H6 | apply H7
                       | apply H8 | apply H9 | apply H10 | apply H11
                       | apply H12 | apply H13 | apply Hc1 | apply Hc2].
Qed.

Lemma GetPartitionTableBlocks_bound (g : GPT.t) (h : Header.t) :
  GPT.block_size g = 512 ->
  0 <= Header.PartitionEntrySize h * Header.PartitionEntriesNumber h ->
  Header.PartitionEntrySize h * Header.PartitionEntriesNumber h
  <= 512 * GPT.GetPartitionTableBlocks g h.
Proof.
  intros Hbs H0. unfold GPT.GetPartitionTableBlocks. cbv zeta. rewrite Hbs.
  set (size := Header.PartitionEntrySize h * Header.PartitionEntriesNumber h)
    in *.
  pose proof (Z.div_mod size 512 ltac:(lia)).
  pose proof (Z.mod_pos_bound size 512 ltac:(lia)).
  destruct (Z.eqb_spec (size mod 512) 0); cbn [negb]; lia.
Qed.

(** The file [WriteToFile] leaves, for a table in the primary layout. *)
Lemma WriteToFile_primary (g g1 : GPT.t) (f f1 : File.t) :
  primary_table (File.name f) g ->
  GPT.WriteToFile g f = OK (g1, f1) ->
  exists hb pb bh bhb,
    GPT.UpdateChecksum g = OK g1
    /\ Header.blob (GPT.header g1) = OK hb
    /\ join_blobs (GPT.partitions g) = OK pb
    /\ GPT.GetBackupHeader g1 (GPT.header g1) = OK bh
    /\ Header.blob bh = OK bhb
    /\ File.name f1 = File.name f
    /\ File.logical_block_size f1 = File.logical_block_size f
    /\ File.content f1
       = write_at
           (write_at
              (write_at
                 (write_at (File.content f) 512 hb)
                 (Z.to_nat
                    (Header.PartitionEntriesStartingLBA (GPT.header g) * 512))
                 pb)
              (Z.to_nat
                 ((Header.BackupLBA (GPT.header g)
                   - GPT.GetPartitionTableBlocks g (GPT.header g)) * 512))
              pb)
           (Z.to_nat (Header.BackupLBA (GPT.header g) * 512)) bhb.
Proof.
  intros (Hbs & Hsec & Hcur & Hsig & Hvh & Hes & Hlen & Hvp & Hmeta & Hpes
          & Hlay) Hw.
  cbv zeta in Hpes, Hlay, Hcur, Hes, Hlen.
  assert (Htb : 0 <= GPT.GetPartitionTableBlocks g (GPT.header g)).
  { pose proof (GetPartitionTableBlocks_bound g (GPT.header g) Hbs).
    rewrite Hes in *. lia. }
  unfold GPT.WriteToFile in Hw.
  apply io_bind_inv in Hw. destruct Hw as (g' & f0 & Hup & Hw).
  apply lift_inv in Hup. destruct Hup as [Hup ->].
  destruct (UpdateChecksum_inv g g' Hup) as (parts & h' & Hj & Hh & Hg').
  destruct (Header_UpdateChecksum_inv _ _ Hh) as (blob0 & _ & Hh').
  assert (Hfields :
            Header.CurrentLBA h' = 1
            /\ Header.BackupLBA h' = Header.BackupLBA (GPT.header g)
            /\ Header.PartitionEntriesStartingLBA h'
               = Header.PartitionEntriesStartingLBA (GPT.header g)
            /\ Header.PartitionEntrySize h'
               = Header.PartitionEntrySize (GPT.header g)
            /\ Header.PartitionEntriesNumber h'
               = Header.PartitionEntriesNumber (GPT.header g)).
  { rewrite Hh'. destruct (GPT.header g). cbn in *. repeat split.
    exact Hcur. }
  destruct Hfields as (Hc' & Hb' & Hp' & He' & Hn').
  assert (Htb' : GPT.GetPartitionTableBlocks g' (GPT.header g')
                 = GPT.GetPartitionTableBlocks g (GPT.header g)).
  { subst g'. unfold GPT.GetPartitionTableBlocks.
    cbn [GPT.set_header GPT.header GPT.block_size]. rewrite He', Hn'.
    reflexivity. }
  assert (Hbs' : GPT.block_size g' = 512) by (subst g'; exact Hbs).
  assert (Hsec' : GPT.is_secondary g' = false) by (subst g'; exact Hsec).
  assert (Hhd : GPT.header g' = h') by (subst g'; reflexivity).
  assert (Hps : GPT.partitions g' = GPT.partitions g)
    by (subst g'; reflexivity).
  apply io_bind_inv in Hw. destruct Hw as ([] & f0 & Hci & Hw).
  apply lift_inv in Hci. destruct Hci as [Hci ->].
  apply io_bind_inv in Hw. destruct Hw as (pb & f0 & Hpb & Hw).
  apply lift_inv in Hpb. destruct Hpb as [Hpb ->].
  apply io_bind_inv in Hw. destruct Hw as (hb & f0 & Hhb & Hw).
  apply lift_inv in Hhb. destruct Hhb as [Hhb ->].
  apply io_bind_inv in Hw. destruct Hw as ([] & fa & Hw1 & Hw).
  apply io_bind_inv in Hw. destruct Hw as ([] & fb & Hw2 & Hw).
  rewrite Hsec' in Hw. cbn [negb] in Hw.
  apply io_bind_inv in Hw. destruct Hw as (bh & f0 & Hbh & Hw).
  apply lift_inv in Hbh. destruct Hbh as [Hbh ->].
  apply io_bind_inv in Hw. destruct Hw as ([] & fc & Hw3 & Hw).
  apply io_bind_inv in Hw. destruct Hw as (bhb & f0 & Hbhb & Hw).
  apply lift_inv in Hbhb. destruct Hbhb as [Hbhb ->].
  apply io_bind_inv in Hw. destruct Hw as ([] & fd & Hw4 & Hw).
  unfold ret in Hw. injection Hw as <- <-.
  assert (Hbhf : Header.PartitionEntriesStartingLBA bh
                 = Header.BackupLBA (GPT.header g)
                   - GPT.GetPartitionTableBlocks g (GPT.header g)
                 /\ Header.CurrentLBA bh = Header.BackupLBA (GPT.header g)).
  { unfold GPT.GetBackupHeader in Hbh. rewrite Htb', Hhd in Hbh.
    destruct (Header_UpdateChecksum_inv _ _ Hbh) as (blob1 & _ & ->).
    rewrite <- Hb'. destruct h'. cbn. split; reflexivity. }
  destruct Hbhf as [Hbp Hbc].
  rewrite Hhd in Hw1, Hw2. rewrite Hc' in Hw1. rewrite Hp' in Hw2.
  rewrite Hbp in Hw3. rewrite Hbc in Hw4.
  rewrite WriteData_at in Hw1 by (rewrite Hbs'; lia).
  rewrite WriteData_at in Hw2 by (rewrite Hbs'; lia).
  rewrite WriteData_at in Hw3 by (rewrite Hbs'; lia).
  rewrite WriteData_at in Hw4 by (rewrite Hbs'; lia).
  rewrite Hbs' in Hw1, Hw2, Hw3, Hw4.
  injection Hw1 as <-. injection Hw2 as <-. injection Hw3 as <-.
  injection Hw4 as <-.
  exists hb, pb, bh, bhb.
  rewrite Hps in Hpb.
  split; [exact Hup|]. split; [exact Hhb|]. split; [exact Hpb|].
  split; [exact Hbh|]. split; [exact Hbhb|].
  split; [reflexivity|]. split; reflexivity.
Qed.

Lemma header_at_slice (f : File.t) (off : Z) :
  header_at f off
  = Header.Unpack (slice (File.content f) (Z.to_nat off) 92).
Proof. reflexivity. Qed.

Lemma pmbr_at_start_slice (f f' : File.t) :
  slice (File.content f') 0 512 = slice (File.content f) 0 512 ->
  pmbr_at_start f' = pmbr_at_start f.
Proof.
  unfold pmbr_at_start, slice, ProtectiveMBR.calcsize. cbn [skipn].
  intros ->. reflexivity.
Qed.

(** Loading the image [WriteToFile] leaves, for a table in the
    primary layout. *)
Lemma LoadFromFile_written (g g1 : GPT.t) (f f1 : File.t) :
  File.logical_block_size f = None ->
  512 <= File.size f ->
  primary_table (File.name f) g ->
  GPT.WriteToFile g f = OK (g1, f1) ->
  GPT.UpdateChecksum g = OK g1
  /\ value (GPT.LoadFromFile f1)
     = OK {| GPT.pmbr := pmbr_at_start f;
             GPT.header := GPT.header g1;
             GPT.partitions := GPT.partitions g;
             GPT.block_size := 512;
             GPT.is_secondary := false |}.
Proof.
  intros Hlbs Hsize Hprim Hw.
  destruct (WriteToFile_primary g g1 f f1 Hprim Hw)
    as (hb & pb & bh & bhb & Hup & Hhb & Hpb & Hbh & Hbhb & Hname & Hlbs1
        & Hc).
  split; [exact Hup|].
  destruct Hprim as (Hbs & Hsec & Hcur & Hsig & Hvh & Hes & Hlen & Hvp
                     & Hmeta & Hpes & Hlay).
  cbv zeta in Hpes, Hlay, Hcur, Hes, Hlen, Hsig, Hvh.
  pose proof (GetPartitionTableBlocks_bound g (GPT.header g) Hbs) as Htb.
  rewrite Hes in Htb. specialize (Htb ltac:(lia)).
  (* the header that is written *)
  destruct (UpdateChecksum_inv g g1 Hup) as (parts & h1 & Hj & Hh & Hg1).
  destruct (Header_UpdateChecksum_inv _ _ Hh) as (blob0 & _ & Hh1).
  assert (Hhd : GPT.header g1 = h1) by (subst g1; reflexivity).
  assert (Hvh1 : valid_header h1).
  { rewrite Hh1. replace (Header.set_CRC32 0 _)
      with (Header.set_CRC32 0
              (Header.set_PartitionArrayCRC32 (binascii.crc32 parts)
                 (GPT.header g))) by reflexivity.
    replace (Header.set_CRC32 (binascii.crc32 blob0) _)
      with (Header.set_CRC32 (binascii.crc32 blob0)
              (Header.set_PartitionArrayCRC32 (binascii.crc32 parts)
                 (GPT.header g)))
      by (destruct (GPT.header g); reflexivity).
    apply valid_header_checksums; [exact Hvh | apply crc32_range ..]. }
  assert (Hf1 : Header.Signature h1 = Header.Signature (GPT.header g)
                /\ Header.PartitionEntriesStartingLBA h1
                   = Header.PartitionEntriesStartingLBA (GPT.header g)
                /\ Header.PartitionEntriesNumber h1
                   = Header.PartitionEntriesNumber (GPT.header g)).
  { rewrite Hh1. destruct (GPT.header g). repeat split. }
  destruct Hf1 as (Hsig1 & Hpes1 & Hnum1).
  rewrite Hhd in Hhb.
  destruct (Header_roundtrip h1 Hvh1) as (hb' & Hpack & Hunpack).
  unfold Header.blob in Hhb. rewrite Hpack in Hhb. injection Hhb as ->.
  pose proof (Header_Pack_length h1 hb Hpack) as Lhb.
  unfold Header.calcsize in Lhb.
  (* the entries that are written *)
  destruct (table_roundtrip (File.name f) 512 (GPT.partitions g) Hvp 0%nat
              Hmeta) as (pb' & Hjoin & Lpb & Hread).
  rewrite Hpb in Hjoin. injection Hjoin as <-.
  (* the bytes of the image *)
  set (c0 := File.content f) in *.
  set (P := Z.to_nat
              (Header.PartitionEntriesStartingLBA (GPT.header g) * 512))
    in *.
  set (Q := Z.to_nat
              ((Header.BackupLBA (GPT.header g)
                - GPT.GetPartitionTableBlocks g (GPT.header g)) * 512)) in *.
  set (R := Z.to_nat (Header.BackupLBA (GPT.header g) * 512)) in *.
  set (c1 := write_at c0 512 hb) in *.
  set (c2 := write_at c1 P pb) in *.
  set (c3 := write_at c2 Q pb) in *.
  assert (L0 : (512 <= List.length c0)%nat)
    by (unfold File.size in Hsize; fold c0 in Hsize; lia).
  assert (L1 : (604 <= List.length c1)%nat)
    by (unfold c1; rewrite write_at_length; lia).
  assert (L2 : (P + List.length pb <= List.length c2)%nat
               /\ (604 <= List.length c2)%nat)
    by (unfold c2; rewrite write_at_length; lia).
  assert (L3 : (P + List.length pb <= List.length c3)%nat
               /\ (604 <= List.length c3)%nat)
    by (unfold c3; rewrite write_at_length; lia).
  assert (L4 : (P + List.length pb <= List.length (File.content f1))%nat
               /\ (604 <= List.length (File.content f1))%nat)
    by (rewrite Hc, write_at_length; lia).
  unfold Partition.calcsize in Lpb.
  assert (HP : (1024 <= P)%nat) by (unfold P; lia).
  assert (HQ : (P + List.length pb <= Q)%nat) by (unfold P, Q; lia).
  assert (HR : (Q + List.length pb <= R)%nat) by (unfold Q, R; lia).
  assert (F1 : slice (File.content f1) 512 92 = hb).
  { rewrite Hc.
    rewrite slice_write_at_before by lia.
    fold c3. unfold c3. rewrite slice_write_at_before by lia.
    unfold c2. rewrite slice_write_at_before by lia.
    unfold c1. rewrite <- Lhb. apply slice_write_at_same. }
  assert (F2 : slice (File.content f1) P (List.length pb) = pb).
  { rewrite Hc.
    rewrite slice_write_at_before by lia.
    unfold c3. rewrite slice_write_at_before by lia.
    unfold c2. apply slice_write_at_same. }
  assert (F3 : slice (File.content f1) 0 512 = slice c0 0 512).
  { rewrite Hc.
    rewrite slice_write_at_before by lia.
    unfold c3. rewrite slice_write_at_before by lia.
    unfold c2. rewrite slice_write_at_before by lia.
    unfold c1. rewrite slice_write_at_before by lia. reflexivity. }
  (* loading *)
  rewrite (LoadFromFile_plain f1)
    by (try (rewrite Hlbs1; exact Hlbs); unfold File.size; lia).
  cbn [GPT.probe_block_sizes]. unfold io_bind at 1.
  destruct (probe_seeks_step f1 512 (512 * 1) SEEK_SET 512
              [(- (512), SEEK_END)] 0 eq_refl ltac:(lia)
              ltac:(unfold File.size; lia)) as (h & Hat & Hprobe).
  rewrite header_at_slice in Hat.
  change (Z.to_nat 512) with 512%nat in Hat. rewrite F1, Hunpack in Hat.
  injection Hat as <-.
  rewrite Hprobe, Hsig1, Hsig. unfold ret at 1.
  unfold io_bind at 1.
  rewrite (seek_at f1 (512 + 92)
             (512 * Header.PartitionEntriesStartingLBA h1) SEEK_SET
             (512 * Header.PartitionEntriesStartingLBA h1) eq_refl
             ltac:(lia)).
  unfold io_bind at 1, get_name at 1.
  cbn [File.set_pos File.name]. unfold io_bind at 1.
  rewrite Hname, Hnum1, <- Hlen, Nat2Z.id, Hpes1.
  destruct (slice_decompose (File.content f1) P (List.length pb)
              ltac:(lia)) as (Hdec & Hpre & _).
  rewrite F2 in Hdec.
  rewrite (Hread (File.set_pos
                    (512 * Header.PartitionEntriesStartingLBA (GPT.header g))
                    f1)
             (firstn P (File.content f1))
             (skipn (P + List.length pb) (File.content f1))).
  - unfold ret. cbn [value]. rewrite Hhd.
    rewrite (pmbr_at_start_slice f f1 F3). reflexivity.
  - exact Hdec.
  - cbn [File.set_pos File.pos]. rewrite Hpre. unfold P. lia.
Qed.

Lemma LoadFromFile_set_pos (f : File.t) (p : Z) :
  GPT.LoadFromFile (File.set_pos p f) = GPT.LoadFromFile f.
Proof. destruct f. reflexivity. Qed.

(** X15. Writing, then loading. For a table in the primary layout
    (blocks of 512 bytes, header in block 1, canonical fields, entries
    of 128 bytes numbered from 1, the backup entries after the
    primary ones) and an image that is a plain file of at least one
    block: when [WriteToFile] succeeds, [LoadFromFile] on the image
    it leaves returns the primary copy of the table with the
    checksums [UpdateChecksum] computes: the same partitions, the
    header of the written table, block size 512, and the protective
    MBR the image had before. *)
Theorem WriteToFile_then_LoadFromFile :
  forall (g g1 : GPT.t) (f : File.t),
    File.logical_block_size f = None ->
    512 <= File.size f ->
    primary_table (File.name f) g ->
    value (GPT.WriteToFile g f) = OK g1 ->
    GPT.UpdateChecksum g = OK g1
    /\ value (GPT.LoadFromFile (file_after f (GPT.WriteToFile g f)))
       = OK {| GPT.pmbr := pmbr_at_start f;
               GPT.header := GPT.header g1;
               GPT.partitions := GPT.partitions g;
               GPT.block_size := 512;
               GPT.is_secondary := false |}.
Proof.
  intros g g1 f Hlbs Hsize Hprim Hv.
  destruct (value_inv _ _ Hv) as [f1 Hw].
  destruct (LoadFromFile_written g g1 f f1 Hlbs Hsize Hprim Hw) as [Hup Hl].
  split; [exact Hup|].
  rewrite Hw. cbn [file_after]. rewrite LoadFromFile_set_pos. exact Hl.
Qed.

(** ** Tables that [Create] makes *)

Lemma New_valid (image_ : string) (number_ block_size_ : Z) :
  valid_partition (Partition.New image_ number_ block_size_).
Proof.
  unfold valid_partition, Partition.New, GUID.valid, uint_range, valid_name.
  cbn [Partition.TypeGUID Partition.UniqueGUID Partition.FirstLBA
       Partition.LastLBA Partition.Attributes Partition.Names
       PartitionAttributes.raw PartitionAttributes._attrs].
  repeat split; try lia.
  exists []. reflexivity.
Qed.

Lemma New_table_valid (image_ : string) (block_size_ : Z) (n : nat) :
  forall k : nat,
    Forall valid_partition
      (map (fun i => Partition.New image_ (Z.of_nat i + 1) block_size_)
         (seq k n))
    /\ table_meta image_ block_size_ (Z.of_nat k + 1)
         (map (fun i => Partition.New image_ (Z.of_nat i + 1) block_size_)
            (seq k n))
    /\ Forall (fun p => Partition.IsUnused p = true)
         (map (fun i => Partition.New image_ (Z.of_nat i + 1) block_size_)
            (seq k n)).
Proof.
  induction n as [|n IH]; intros k; cbn [seq map table_meta].
  - repeat split; constructor.
  - destruct (IH (S k)) as (H1 & H2 & H3).
    split; [constructor; [apply New_valid | exact H1]|].
    split.
    + repeat split.
      replace (Z.of_nat k + 1 + 1) with (Z.of_nat (S k) + 1) by lia.
      exact H2.
    + constructor; [reflexivity | exact H3].
Qed.

Lemma Sample_gpt_partitions :
  GPT.partitions Sample.gpt
  = [Sample.kernel; Sample.state]
      ++ map (fun i => Partition.New "disk.bin" (Z.of_nat i + 1) 512)
           (seq 2 126).
Proof. reflexivity. Qed.

Lemma Sample_gpt_primary : primary_table "disk.bin" Sample.gpt.
Proof.
  unfold primary_table. cbv zeta.
  split; [reflexivity|]. split; [reflexivity|]. split; [reflexivity|].
  split; [reflexivity|]. split; [exact Sample_header_valid|].
  split; [reflexivity|]. split; [reflexivity|].
  destruct (New_table_valid "disk.bin" 512 126 2) as (Hv & Hm & _).
  split.
  { rewrite Sample_gpt_partitions. apply Forall_app. split; [|exact Hv].
    apply Forall_cons; [exact Sample_kernel_valid|].
    apply Forall_cons; [exact Sample_state_valid | apply Forall_nil]. }
  split.
  { rewrite Sample_gpt_partitions. cbn [app table_meta].
    repeat split. }
  split; vm_compute; discriminate.
Qed.

Lemma WriteToFile_then_LoadFromFile_witness :
  File.logical_block_size Sample2.blank = None
  /\ 512 <= File.size Sample2.blank
  /\ primary_table (File.name Sample2.blank) Sample.gpt
  /\ value (GPT.WriteToFile Sample.gpt Sample2.blank) = OK Sample6.checked
  /\ value (GPT.LoadFromFile
              (file_after Sample2.blank
                 (GPT.WriteToFile Sample.gpt Sample2.blank)))
     = OK {| GPT.pmbr := pmbr_at_start Sample2.blank;
             GPT.header := GPT.header Sample6.checked;
             GPT.partitions := GPT.partitions Sample.gpt;
             GPT.block_size := 512;
             GPT.is_secondary := false |}.
Proof.
  assert (Hs : 512 <= File.size Sample2.blank)
    by (vm_compute; discriminate).
  assert (Hw : value (GPT.WriteToFile Sample.gpt Sample2.blank)
               = OK Sample6.checked) by (vm_compute; reflexivity).
  split; [reflexivity|]. split; [exact Hs|].
  split; [exact Sample_gpt_primary|]. split; [exact Hw|].
  exact (proj2 (WriteToFile_then_LoadFromFile Sample.gpt Sample6.checked
                  Sample2.blank eq_refl Hs Sample_gpt_primary Hw)).
Defined.

(** ** [WriteToFile] goes through *)

Lemma valid_header_CRC32 (h : Header.t) (c : Z) :
  valid_header h -> uint_range 4 c -> valid_header (Header.set_CRC32 c h).
Proof.
  intros Hv Hc.
  replace (Header.set_CRC32 c h)
    with (Header.set_CRC32 c
            (Header.set_PartitionArrayCRC32 (Header.PartitionArrayCRC32 h) h))
    by (destruct h; reflexivity).
  apply valid_header_checksums; [exact Hv | exact Hc|].
  apply Hv.
Qed.

Lemma valid_header_PartitionArrayCRC32 (h : Header.t) (c : Z) :
  valid_header h -> uint_range 4 c ->
  valid_header (Header.set_PartitionArrayCRC32 c h).
Proof.
  intros Hv Hc.
  replace (Header.set_PartitionArrayCRC32 c h)
    with (Header.set_CRC32 (Header.CRC32 h)
            (Header.set_PartitionArrayCRC32 c h))
    by (destruct h; reflexivity).
  apply valid_header_checksums; [exact Hv | | exact Hc].
  apply Hv.
Qed.

Lemma uint_range_0 (n : nat) : uint_range n 0.
Proof. unfold uint_range. split; [lia|]. apply Z.pow_pos_nonneg; lia. Qed.

Lemma Header_UpdateChecksum_valid (h : Header.t) :
  valid_header h ->
  exists h', Header.UpdateChecksum h = OK h' /\ valid_header h'.
Proof.
  intros Hv. unfold Header.UpdateChecksum, Header.blob. cbv zeta.
  pose proof (valid_header_CRC32 h 0 Hv (uint_range_0 4)) as Hv0.
  rewrite (Header_Pack_valid _ Hv0). cbn [bind].
  eexists. split; [reflexivity|].
  apply valid_header_CRC32; [exact Hv0 | apply crc32_range].
Qed.

Lemma Header_blob_valid (h : Header.t) :
  valid_header h -> exists blob, Header.blob h = OK blob.
Proof.
  intros Hv. unfold Header.blob. rewrite (Header_Pack_valid _ Hv).
  eexists. reflexivity.
Qed.

Lemma WriteToFile_succeeds (g : GPT.t) (f : File.t) :
  primary_table (File.name f) g ->
  check_layout g = OK tt ->
  exists g1, value (GPT.WriteToFile g f) = OK g1
             /\ GPT.CheckIntegrity g1 = OK tt.
Proof.
  intros Hprim Hlay0.
  pose proof Hprim as (Hbs & Hsec & Hcur & Hsig & Hvh & Hes & Hlen & Hvp
                       & Hmeta & Hpes & Hlay).
  cbv zeta in Hpes, Hlay, Hcur, Hes, Hlen, Hsig, Hvh.
  pose proof (GetPartitionTableBlocks_bound g (GPT.header g) Hbs) as Htb.
  rewrite Hes in Htb. specialize (Htb ltac:(lia)).
  destruct (table_roundtrip (File.name f) 512 (GPT.partitions g) Hvp 0%nat
              Hmeta) as (pb & Hjoin & _ & _).
  destruct (Header_UpdateChecksum_valid
              (Header.set_PartitionArrayCRC32 (binascii.crc32 pb)
                 (GPT.header g)))
    as (h1 & Hh1 & Hvh1).
  { apply valid_header_PartitionArrayCRC32; [exact Hvh | apply crc32_range]. }
  assert (Hup : GPT.UpdateChecksum g = OK (GPT.set_header h1 g)).
  { unfold GPT.UpdateChecksum. rewrite Hjoin. cbn [bind]. rewrite Hh1.
    reflexivity. }
  destruct (UpdateChecksum_checksums g _ Hup) as (Hsum & _ & Hl & _).
  assert (Hci : GPT.CheckIntegrity (GPT.set_header h1 g) = OK tt).
  { rewrite CheckIntegrity_split, Hl, Hlay0. exact Hsum. }
  destruct (Header_UpdateChecksum_inv _ _ Hh1) as (blob0 & _ & Hh1').
  assert (Hfields :
            Header.CurrentLBA h1 = 1
            /\ Header.BackupLBA h1 = Header.BackupLBA (GPT.header g)
            /\ Header.PartitionEntriesStartingLBA h1
               = Header.PartitionEntriesStartingLBA (GPT.header g)
            /\ Header.PartitionEntrySize h1
               = Header.PartitionEntrySize (GPT.header g)
            /\ Header.PartitionEntriesNumber h1
               = Header.PartitionEntriesNumber (GPT.header g)).
  { rewrite Hh1'. destruct (GPT.header g). cbn in *. repeat split.
    exact Hcur. }
  destruct Hfields as (Hc1 & Hb1 & Hp1 & He1 & Hn1).
  destruct (Header_blob_valid h1 Hvh1) as (hb & Hhb).
  assert (Htb1 : GPT.GetPartitionTableBlocks (GPT.set_header h1 g) h1
                 = GPT.GetPartitionTableBlocks g (GPT.header g)).
  { unfold GPT.GetPartitionTableBlocks.
    cbn [GPT.set_header GPT.block_size]. rewrite He1, Hn1. reflexivity. }
  destruct (Header_UpdateChecksum_valid
              (Header.set_PartitionEntriesStartingLBA
                 (Header.BackupLBA h1
                  - GPT.GetPartitionTableBlocks (GPT.set_header h1 g) h1)
                 (Header.set_CurrentLBA (Header.BackupLBA h1)
                    (Header.set_BackupLBA (Header.CurrentLBA h1) h1))))
    as (bh & Hbh & Hvbh).
  { rewrite Htb1, Hb1, Hc1.
    destruct Hvh1 as (H1 & H2 & H3 & H4 & H5 & H6 & H7 & H8 & H9 & H10
                      & H11 & H12 & H13 & H14).
    unfold valid_header.
    cbn [Header.set_PartitionEntriesStartingLBA Header.set_CurrentLBA
         Header.set_BackupLBA Header.Signature
         Header.Revision Header.HeaderSize Header.CRC32 Header.Reserved
         Header.CurrentLBA Header.BackupLBA Header.FirstUsableLBA
         Header.LastUsableLBA Header.DiskGUID
         Header.PartitionEntriesStartingLBA Header.PartitionEntriesNumber
         Header.PartitionEntrySize Header.PartitionArrayCRC32].
    rewrite Hb1 in H7. unfold uint_range in *.
    repeat split; try assumption; try apply H3; try apply H4; try apply H8;
      try apply H9; try apply H10; try apply H12; try apply H13;
      try apply H14; try apply H7; try lia. }
  destruct (Header_UpdateChecksum_inv _ _ Hbh) as (blob1 & _ & Hbh').
  assert (Hbf : Header.PartitionEntriesStartingLBA bh
                = Header.BackupLBA (GPT.header g)
                  - GPT.GetPartitionTableBlocks g (GPT.header g)
                /\ Header.CurrentLBA bh = Header.BackupLBA (GPT.header g)).
  { rewrite Hbh', Htb1, Hb1. destruct h1. cbn. split; reflexivity. }
  destruct Hbf as [Hbp Hbc].
  destruct (Header_blob_valid bh Hvbh) as (bhb & Hbhb).
  exists (GPT.set_header h1 g). split; [|exact Hci].
  unfold GPT.WriteToFile, io_bind, lift, ret. rewrite Hup, Hci.
  cbn [GPT.set_header GPT.partitions GPT.header GPT.is_secondary].
  rewrite Hjoin, Hhb, Hsec. cbn [negb].
  unfold GPT.GetBackupHeader.
  cbn [GPT.set_header GPT.partitions GPT.header GPT.is_secondary].
  rewrite Hbh, Hbhb, Hc1, Hp1, Hbp, Hbc.
  rewrite !WriteData_at
    by (cbn [GPT.set_header GPT.block_size]; rewrite Hbs; lia).
  reflexivity.
Qed.

(** ** [create], then loading *)

Lemma CheckOutsideUsable_ok (h : Header.t) (a c lba : Z) (o : bool) :
  1 <= lba ->
  lba <= Z.max (Header.BackupLBA h) (Header.CurrentLBA h) ->
  ~ Header.FirstUsableLBA h <= lba <= Header.LastUsableLBA h ->
  (o = true -> ~ a <= lba <= c) ->
  GPT.CheckOutsideUsable h a c lba o = OK tt.
Proof.
  intros H1 H2 H3 H4. unfold GPT.CheckOutsideUsable.
  destruct (Z.ltb_spec lba 1); [lia|].
  destruct (Z.gtb_spec lba (Z.max (Header.BackupLBA h) (Header.CurrentLBA h)));
    [lia|].
  destruct (Z.leb_spec (Header.FirstUsableLBA h) lba),
    (Z.leb_spec lba (Header.LastUsableLBA h)); cbn [andb]; try lia.
  all: destruct o; cbn [andb]; try reflexivity.
  all: destruct (Z.leb_spec a lba), (Z.leb_spec lba c); cbn [andb];
    try reflexivity; exfalso; apply (H4 eq_refl); lia.
Qed.

Lemma Create_header (disk_guid : GUID.t) (size : Z) :
  Header.Create disk_guid size 512 0 Header.DEFAULT_PARTITION_ENTRIES
  = {| Header.Signature := b "EFI PART"%string;
       Header.Revision := Header.DEFAULT_REVISION;
       Header.HeaderSize := 92;
       Header.CRC32 := 0;
       Header.Reserved := repeat Byte.x00 4;
       Header.CurrentLBA := 1;
       Header.BackupLBA := size / 512 - 1;
       Header.FirstUsableLBA := 34;
       Header.LastUsableLBA := size / 512 - 32 - 2;
       Header.DiskGUID := disk_guid;
       Header.PartitionEntriesStartingLBA := 2;
       Header.PartitionEntriesNumber := 128;
       Header.PartitionEntrySize := 128;
       Header.PartitionArrayCRC32 := 0 |}.
Proof. reflexivity. Qed.

Lemma Create_primary (disk_guid : GUID.t) (image_ : string) (size : Z) :
  GUID.valid disk_guid ->
  67 <= size / 512 <= 2 ^ 64 ->
  primary_table image_ (GPT.Create disk_guid image_ size 512 0)
  /\ check_layout (GPT.Create disk_guid image_ size 512 0) = OK tt
  /\ Forall (fun p => Partition.IsUnused p = true)
       (GPT.partitions (GPT.Create disk_guid image_ size 512 0)).
Proof.
  intros Hguid Hn.
  destruct (New_table_valid image_ 512 128 0) as (Hv & Hm & Hu).
  assert (Hps : GPT.partitions (GPT.Create disk_guid image_ size 512 0)
                = map (fun i => Partition.New image_ (Z.of_nat i + 1) 512)
                    (seq 0 128)) by reflexivity.
  assert (Hh : GPT.header (GPT.Create disk_guid image_ size 512 0)
               = Header.Create disk_guid size 512 0
                   Header.DEFAULT_PARTITION_ENTRIES) by reflexivity.
  assert (Htb : GPT.GetPartitionTableBlocks
                  (GPT.Create disk_guid image_ size 512 0)
                  (GPT.header (GPT.Create disk_guid image_ size 512 0))
                = 32) by reflexivity.
  split; [|split].
  - unfold primary_table. cbv zeta. rewrite Htb, Hps, Hh, Create_header.
    cbn [Header.Signature Header.CurrentLBA Header.PartitionEntrySize
         Header.PartitionEntriesNumber Header.PartitionEntriesStartingLBA
         Header.BackupLBA].
    split; [reflexivity|]. split; [reflexivity|]. split; [reflexivity|].
    split; [reflexivity|].
    split.
    { unfold valid_header, uint_range.
      cbn [Header.Signature Header.Revision Header.HeaderSize Header.CRC32
           Header.Reserved Header.CurrentLBA Header.BackupLBA
           Header.FirstUsableLBA Header.LastUsableLBA Header.DiskGUID
           Header.PartitionEntriesStartingLBA Header.PartitionEntriesNumber
           Header.PartitionEntrySize Header.PartitionArrayCRC32].
      change (2 ^ (8 * Z.of_nat 8)) with (2 ^ 64).
      change (2 ^ (8 * Z.of_nat 4)) with 4294967296.
      repeat split; try reflexivity; try exact (proj1 Hguid);
        try exact (proj2 Hguid); lia. }
    split; [reflexivity|].
    split; [rewrite length_map, length_seq; reflexivity|].
    split; [exact Hv|]. split; [exact Hm|]. lia.
  - unfold check_layout. cbv zeta. rewrite Htb.
    unfold GPT.GetUsedPartitions.
    replace (filter _ (GPT.partitions _)) with (@nil Partition.t)
      by (symmetry; apply (GetUsedPartitions_empty
                             (GPT.Create disk_guid image_ size 512 0));
          rewrite Hps; exact Hu).
    rewrite Hh, Create_header.
    cbn [Header.PartitionEntriesStartingLBA Header.CurrentLBA
         Header.BackupLBA].
    rewrite !CheckOutsideUsable_ok;
      cbn [Header.PartitionEntriesStartingLBA Header.CurrentLBA
           Header.BackupLBA Header.FirstUsableLBA Header.LastUsableLBA];
      try lia; try discriminate.
    reflexivity.
  - rewrite Hps. exact Hu.
Qed.

Lemma CheckIntegrity_pmbr (pm pm' : option ProtectiveMBR.t) (h : Header.t)
  (ps : list Partition.t) (bs : Z) (sec sec' : bool) :
  GPT.CheckIntegrity (GPT.Make pm h ps bs sec)
  = GPT.CheckIntegrity (GPT.Make pm' h ps bs sec').
Proof. reflexivity. Qed.

Lemma Create_Execute_plain (disk_guid : GUID.t) (f : File.t) :
  File.logical_block_size f = None ->
  GPTCommands.Create.Execute disk_guid
    (GPTCommands.Create.Args false 0 None) f
  = match GPT.WriteToFile
            (GPT.Create disk_guid (File.name f) (File.size f) 512 0) f with
    | OK (_, f') => OK ("Created GPT"%string, f')
    | Err e => Err e
    end.
Proof.
  intros Hlbs. unfold GPTCommands.Create.Execute.
  cbn [GPTCommands.Create.block_size GPTCommands.Create.zero
       GPTCommands.Create.pad_blocks].
  unfold io_bind, IsBlockDevice, get_name, GetImageSize, ret.
  rewrite Hlbs.
  change GPT.DEFAULT_BLOCK_SIZE with 512.
  destruct (GPT.WriteToFile _ f) as [[g1 f1]|e]; reflexivity.
Qed.

(** X16. [create], then loading. On a plain image file of [n] blocks
    of 512 bytes, [n] at least 67, [create] with no option goes
    through: [WriteToFile] of the table [GPT.Create] makes for the
    size of the image succeeds, and [LoadFromFile] on the image it
    leaves gives a table with [FirstUsableLBA] 34, [BackupLBA]
    [n - 1], [LastUsableLBA] [n - 34] and 128 entries, all unused,
    that [CheckIntegrity] accepts. *)
Theorem Create_then_LoadFromFile :
  forall (disk_guid : GUID.t) (f : File.t),
    GUID.valid disk_guid ->
    File.logical_block_size f = None ->
    67 <= File.size f / 512 <= 2 ^ 64 ->
    let n := File.size f / 512 in
    let g := GPT.Create disk_guid (File.name f) (File.size f) 512 0 in
    let created :=
      GPTCommands.Create.Execute disk_guid
        (GPTCommands.Create.Args false 0 None) f in
    value created = OK "Created GPT"%string
    /\ file_after f created = file_after f (GPT.WriteToFile g f)
    /\ exists g2,
        value (GPT.LoadFromFile (file_after f created)) = OK g2
        /\ Header.FirstUsableLBA (GPT.header g2) = 34
        /\ Header.BackupLBA (GPT.header g2) = n - 1
        /\ Header.LastUsableLBA (GPT.header g2) = n - 34
        /\ List.length (GPT.partitions g2) = 128%nat
        /\ GPT.GetUsedPartitions g2 = []
        /\ GPT.block_size g2 = 512
        /\ GPT.is_secondary g2 = false
        /\ GPT.CheckIntegrity g2 = OK tt.
Proof.
  intros disk_guid f Hguid Hlbs Hn n g created.
  destruct (Create_primary disk_guid (File.name f) (File.size f) Hguid Hn)
    as (Hprim & Hlay & Hun).
  fold g in Hprim, Hlay, Hun.
  destruct (WriteToFile_succeeds g f Hprim Hlay) as (g1 & Hv & Hci).
  destruct (value_inv _ _ Hv) as [f1 Hw].
  assert (Hsize : 512 <= File.size f).
  { pose proof (Z.div_mod (File.size f) 512 ltac:(lia)).
    pose proof (Z.mod_pos_bound (File.size f) 512 ltac:(lia)). lia. }
  destruct (LoadFromFile_written g g1 f f1 Hlbs Hsize Hprim Hw) as [Hup Hl].
  unfold created. rewrite (Create_Execute_plain disk_guid f Hlbs).
  fold g. rewrite Hw. cbn [value file_after].
  split; [reflexivity|]. split; [reflexivity|].
  rewrite LoadFromFile_set_pos, Hl. eexists. split; [reflexivity|].
  cbn [GPT.header GPT.partitions GPT.block_size GPT.is_secondary].
  destruct (UpdateChecksum_inv g g1 Hup) as (parts & h1 & _ & Hh & Hg1).
  destruct (Header_UpdateChecksum_inv _ _ Hh) as (blob0 & _ & Hh1).
  assert (Hhd : GPT.header g1 = h1) by (subst g1; reflexivity).
  assert (Hf : Header.FirstUsableLBA h1 = 34
               /\ Header.BackupLBA h1 = n - 1
               /\ Header.LastUsableLBA h1 = n - 34).
  { rewrite Hh1. unfold g.
    change (GPT.header (GPT.Create disk_guid (File.name f) (File.size f)
                          512 0))
      with (Header.Create disk_guid (File.size f) 512 0
              Header.DEFAULT_PARTITION_ENTRIES).
    rewrite Create_header.
    cbn [Header.set_CRC32 Header.set_PartitionArrayCRC32
         Header.FirstUsableLBA Header.BackupLBA Header.LastUsableLBA].
    fold n. repeat split. lia. }
  destruct Hf as (Hf1 & Hf2 & Hf3). rewrite Hhd.
  split; [exact Hf1|]. split; [exact Hf2|]. split; [exact Hf3|].
  split; [unfold g; cbn [GPT.Create GPT.partitions];
          rewrite length_map, length_seq; reflexivity|].
  split; [apply GetUsedPartitions_empty; exact Hun|].
  split; [reflexivity|]. split; [reflexivity|].
  rewrite <- Hci. subst g1. apply CheckIntegrity_pmbr.
Qed.

Lemma Create_then_LoadFromFile_witness :
  GUID.valid Sample.disk_guid
  /\ File.logical_block_size Sample2.blank = None
  /\ 67 <= File.size Sample2.blank / 512 <= 2 ^ 64
  /\ exists g2,
      value (GPT.LoadFromFile
               (file_after Sample2.blank
                  (GPTCommands.Create.Execute Sample.disk_guid
                     (GPTCommands.Create.Args false 0 None) Sample2.blank)))
      = OK g2
      /\ Header.FirstUsableLBA (GPT.header g2) = 34
      /\ Header.BackupLBA (GPT.header g2) = File.size Sample2.blank / 512 - 1
      /\ File.size Sample2.blank / 512 - 1 = 99.
Proof.
  assert (Hg : GUID.valid Sample.disk_guid)
    by (split; vm_compute; [discriminate | reflexivity]).
  assert (Hn : 67 <= File.size Sample2.blank / 512 <= 2 ^ 64)
    by (split; vm_compute; discriminate).
  split; [exact Hg|]. split; [reflexivity|]. split; [exact Hn|].
  destruct (Create_then_LoadFromFile Sample.disk_guid Sample2.blank Hg
              eq_refl Hn) as (_ & _ & g2 & H1 & H2 & H3 & _).
  exists g2. split; [exact H1|]. split; [exact H2|]. split; [exact H3|].
  vm_compute. reflexivity.
Defined.

(** ** [add], from the image to the image *)

Lemma LoadFromFile_pmbr (f f' : File.t) (g : GPT.t) :
  File.logical_block_size f = None ->
  512 <= File.size f ->
  GPT.LoadFromFile f = OK (g, f') ->
  GPT.pmbr g = pmbr_at_start f.
Proof.
  intros Hlbs Hsize H. rewrite (LoadFromFile_plain f Hlbs Hsize) in H.
  destruct (GPT.probe_block_sizes _ _) as [[[[h bs] sec] f1]|];
    [|discriminate].
  apply io_bind_inv in H. destruct H as (u & f2 & _ & H).
  apply io_bind_inv in H. destruct H as (nm & f3 & _ & H).
  apply io_bind_inv in H. destruct H as (ps & f4 & _ & H).
  unfold ret in H. injection H as <- _. reflexivity.
Qed.

Lemma Add_apply_inv (unique : GUID.t) (a : GPTCommands.Add.args)
  (g g' : GPT.t) (is_new : bool) (n : Z) :
  GPTCommands.Add.apply unique a g = OK (is_new, n, g') ->
  exists p0 p',
    GPT.GetPartition g n = OK p0
    /\ is_new = Partition.IsUnused p0
    /\ g' = GPT.store_partition g n p'.
Proof.
  unfold GPTCommands.Add.apply. intros H.
  destruct (match GPTCommands.Add.number a with
            | Some n => OK n
            | None => _
            end) as [n0|]; cbn [bind] in H; [|discriminate].
  destruct (GPT.GetPartition g n0) as [part|] eqn:Hget; cbn [bind] in H;
    [|discriminate].
  repeat match type of H with
         | bind ?x _ = _ => destruct x; cbn [bind] in H; [|discriminate]
         end.
  injection H as <- <- <-.
  eexists. eexists. split; [exact Hget|]. split; reflexivity.
Qed.

Lemma pmbr_at_start_same (f f' : File.t) :
  same_file f f' -> pmbr_at_start f' = pmbr_at_start f.
Proof. intros (_ & Hc & _). unfold pmbr_at_start. rewrite Hc. reflexivity. Qed.

(** [add] on an image, when the table it builds is in the primary
    layout and passes the layout checks: the command goes through and
    the image loads to that table, with its checksums brought up to
    date. *)
Lemma Add_Execute_written (unique : GUID.t) (a : GPTCommands.Add.args)
  (f f' : File.t) (g g' : GPT.t) (is_new : bool) (n : Z)
  (p' : Partition.t) :
  File.logical_block_size f = None ->
  512 <= File.size f ->
  GPT.LoadFromFile f = OK (g, f') ->
  GPTCommands.Add.apply unique a g = OK (is_new, n, g') ->
  GPT.GetPartition g' n = OK p' ->
  primary_table (File.name f) g' ->
  check_layout g' = OK tt ->
  exists g1,
    GPT.UpdateChecksum g' = OK g1
    /\ GPT.CheckIntegrity g1 = OK tt
    /\ value (GPTCommands.Add.Execute unique a f)
       = OK (if Partition.IsUnused p' then "Deleted (zeroed)"
             else if is_new then "Added" else "Modified")%string
    /\ value (GPT.LoadFromFile
                (file_after f (GPTCommands.Add.Execute unique a f)))
       = OK g1.
Proof.
  intros Hlbs Hsize Hload Happ Hget Hprim Hlay.
  destruct (LoadFromFile_inv f f' g Hload) as (Hsame & _).
  pose proof Hsame as (Hname & Hcont & Hlbs').
  rewrite <- Hname in Hprim.
  destruct (WriteToFile_succeeds g' f' Hprim Hlay) as (g1 & Hv & Hci).
  destruct (value_inv _ _ Hv) as [f1 Hw].
  assert (Hsize' : 512 <= File.size f')
    by (unfold File.size; rewrite Hcont; exact Hsize).
  destruct (LoadFromFile_written g' g1 f' f1 ltac:(congruence) Hsize' Hprim Hw)
    as [Hup Hl].
  exists g1. split; [exact Hup|]. split; [exact Hci|].
  assert (Hex : GPTCommands.Add.Execute unique a f
                = OK ((if Partition.IsUnused p' then "Deleted (zeroed)"
                       else if is_new then "Added" else "Modified")%string,
                      f1)).
  { unfold GPTCommands.Add.Execute, io_bind. rewrite Hload.
    unfold lift at 1. rewrite Happ. rewrite Hw.
    unfold lift. rewrite Hget. reflexivity. }
  rewrite Hex. cbn [value file_after]. split; [reflexivity|].
  rewrite LoadFromFile_set_pos, Hl. f_equal.
  destruct (Add_apply_inv _ _ _ _ _ _ Happ) as (p0 & q & _ & _ & Hg').
  destruct (UpdateChecksum_inv g' g1 Hup) as (parts & h1 & _ & _ & Hg1).
  destruct Hprim as (Hbs & Hsec & _).
  rewrite (pmbr_at_start_same f f' Hsame),
    <- (LoadFromFile_pmbr f f' g Hlbs Hsize Hload).
  subst g1. unfold GPT.set_header. cbn [GPT.header GPT.partitions].
  rewrite Hbs, Hsec. subst g'. reflexivity.
Qed.

Lemma LoadFromFile_size (f f' : File.t) (g : GPT.t) :
  GPT.LoadFromFile f = OK (g, f') -> 512 <= File.size f.
Proof.
  unfold GPT.LoadFromFile. intros H.
  apply io_bind_inv in H. destruct H as (u & f1 & Hseek & H).
  apply io_bind_inv in H. destruct H as (m & f2 & Hm & _).
  unfold seek in Hseek. cbn [Z.ltb Z.compare] in Hseek.
  injection Hseek as _ <-.
  unfold ProtectiveMBR_ReadFrom in Hm.
  apply io_bind_inv in Hm. destruct Hm as (src & f3 & Hr & Hl).
  apply lift_inv in Hl. destruct Hl as [Hu _].
  assert (Hsrc : src = firstn ProtectiveMBR.calcsize (File.content f)).
  { unfold read in Hr. cbn [File.set_pos File.pos File.content] in Hr.
    change (Z.to_nat 0) with 0%nat in Hr.
    change (skipn 0 (File.content f)) with (File.content f) in Hr.
    congruence. }
  subst src. unfold ProtectiveMBR.Unpack in Hu.
  destruct (Nat.eqb_spec
              (List.length (firstn ProtectiveMBR.calcsize (File.content f)))
              ProtectiveMBR.calcsize) as [E|]; cbn [negb] in Hu;
    [|discriminate].
  rewrite length_firstn in E. unfold ProtectiveMBR.calcsize in E.
  unfold File.size. lia.
Qed.

Lemma check_layout_one_used (g g' : GPT.t) (p : Partition.t) :
  check_layout g = OK tt ->
  GPT.header g' = GPT.header g ->
  GPT.block_size g' = GPT.block_size g ->
  GPT.GetUsedPartitions g' = [p] ->
  Header.FirstUsableLBA (GPT.header g) <= Partition.FirstLBA p ->
  Partition.LastLBA p <= Header.LastUsableLBA (GPT.header g) ->
  check_layout g' = OK tt.
Proof.
  unfold check_layout. cbv zeta. intros H Hh Hb Hu H1 H2.
  unfold GPT.GetPartitionTableBlocks in *. rewrite Hh, Hb, Hu.
  repeat match type of H with
         | bind (GPT.CheckOutsideUsable ?h ?a ?c ?l ?o) _ = _ =>
             destruct (GPT.CheckOutsideUsable h a c l o) as [[]|];
             cbn [bind] in H |- *; [|discriminate]
         end.
  cbn [sort_key sort_by fold_right insert_by GPT.check_overlap bind last
       map nodup List.length].
  destruct (Z.ltb_spec (Partition.FirstLBA p)
              (Header.FirstUsableLBA (GPT.header g))); [lia|].
  destruct (Z.gtb_spec (Partition.LastLBA p)
              (Header.LastUsableLBA (GPT.header g))); [lia|].
  reflexivity.
Qed.

Lemma primary_table_set_partitions (image_ : string) (g : GPT.t)
  (ps : list Partition.t) :
  primary_table image_ g ->
  List.length ps = List.length (GPT.partitions g) ->
  Forall valid_partition ps ->
  table_meta image_ 512 1 ps ->
  primary_table image_ (GPT.set_partitions ps g).
Proof.
  intros (Hbs & Hsec & Hcur & Hsig & Hvh & Hes & Hlen & Hvp & Hmeta & Hpes
          & Hlay) Hl Hv Hm.
  unfold primary_table. cbv zeta.
  cbn [GPT.set_partitions GPT.header GPT.partitions GPT.block_size
       GPT.is_secondary].
  rewrite Hl.
  repeat (split; [assumption|]). exact Hlay.
Qed.


Lemma Sample4_created_plain :
  File.logical_block_size Sample4.created = None.
Proof. vm_compute. reflexivity. Qed.

Lemma Sample4_loaded :
  value (GPT.LoadFromFile Sample4.created) = OK Sample4.loaded.
Proof. vm_compute. reflexivity. Qed.

Lemma Sample4_loaded_primary :
  primary_table (File.name Sample4.created) Sample4.loaded.
Proof.
  destruct (value_inv _ _ Sample4_loaded) as [f' Hload].
  destruct (LoadFromFile_inv _ _ _ Hload) as (_ & _ & Hmeta & _).
  destruct (Create_primary Sample.disk_guid "disk.bin" 1126400)
    as ((Hbs & Hsec & Hcur & Hsig & Hvh & Hes & Hlen & Hvp & _ & Hpes
         & Hlay) & _ & _).
  { split; vm_compute; [discriminate | reflexivity]. }
  { split; vm_compute; discriminate. }
  unfold primary_table. cbv zeta.
  split; [reflexivity|]. split; [reflexivity|]. split; [reflexivity|].
  split; [reflexivity|].
  split; [apply valid_header_checksums;
          [exact Hvh | split; vm_compute; [discriminate | reflexivity] ..]|].
  split; [reflexivity|]. split; [reflexivity|].
  split; [exact Hvp|]. split; [exact Hmeta|].
  split; vm_compute; discriminate.
Qed.


(** ** Edits that leave the table as it is *)

Lemma UpdateChecksum_fixed (g : GPT.t) :
  check_checksums g = OK tt -> GPT.UpdateChecksum g = OK g.
Proof.
  unfold check_checksums, GPT.UpdateChecksum. cbv zeta.
  destruct (join_blobs (GPT.partitions g)) as [parts|]; cbn [bind];
    [|discriminate].
  destruct (Z.eqb_spec (binascii.crc32 parts)
              (Header.PartitionArrayCRC32 (GPT.header g))) as [E|];
    cbn [negb]; [|discriminate].
  replace (Header.set_PartitionArrayCRC32 (binascii.crc32 parts)
             (GPT.header g))
    with (GPT.header g) by (rewrite E; destruct (GPT.header g); reflexivity).
  destruct (Header.UpdateChecksum (GPT.header g)) as [hc|] eqn:Hh;
    cbn [bind]; [|discriminate].
  destruct (Z.eqb_spec (Header.CRC32 hc) (Header.CRC32 (GPT.header g)))
    as [Ec|]; cbn [negb]; [|discriminate].
  intros _. f_equal.
  destruct (Header_UpdateChecksum_inv _ _ Hh) as (blob0 & _ & Hhc).
  assert (Hsame : hc = GPT.header g).
  { rewrite Hhc in Ec |- *. destruct (GPT.header g).
    cbn [Header.set_CRC32 Header.CRC32] in Ec |- *. rewrite Ec.
    reflexivity. }
  rewrite Hsame. destruct g; reflexivity.
Qed.

Lemma CheckIntegrity_halves (g : GPT.t) :
  GPT.CheckIntegrity g = OK tt ->
  check_layout g = OK tt /\ check_checksums g = OK tt.
Proof.
  rewrite CheckIntegrity_split.
  destruct (check_layout g) as [[]|]; cbn [bind]; [|discriminate].
  intros H. split; [reflexivity | exact H].
Qed.


Lemma primary_table_UpdateChecksum (image_ : string) (g g1 : GPT.t) :
  primary_table image_ g -> GPT.UpdateChecksum g = OK g1 ->
  primary_table image_ g1.
Proof.
  intros (Hbs & Hsec & Hcur & Hsig & Hvh & Hes & Hlen & Hvp & Hmeta & Hpes
          & Hlay) Hup.
  destruct (UpdateChecksum_inv g g1 Hup) as (parts & h1 & _ & Hh & ->).
  destruct (Header_UpdateChecksum_inv _ _ Hh) as (blob0 & _ & ->).
  cbv zeta in *.
  unfold primary_table. cbv zeta.
  unfold GPT.GetPartitionTableBlocks in *.
  cbn [GPT.set_header GPT.header GPT.partitions GPT.block_size
       GPT.is_secondary].
  assert (Hv1 : valid_header
                  (Header.set_CRC32 (binascii.crc32 blob0)
                     (Header.set_PartitionArrayCRC32 (binascii.crc32 parts)
                        (GPT.header g))))
    by (apply valid_header_checksums;
        [exact Hvh | apply crc32_range ..]).
  destruct (GPT.header g).
  cbn [Header.set_CRC32 Header.set_PartitionArrayCRC32 Header.Signature
       Header.CurrentLBA Header.BackupLBA Header.PartitionEntriesStartingLBA
       Header.PartitionEntriesNumber Header.PartitionEntrySize] in *.
  repeat (split; [assumption|]). exact Hlay.
Qed.

Lemma Sample7_loaded_checked : Sample7.loaded = Sample6.checked.
Proof. vm_compute. reflexivity. Qed.

Lemma Sample7_loaded_primary :
  primary_table (File.name Sample2.image) Sample7.loaded.
Proof.
  replace (File.name Sample2.image) with "disk.bin"%string
    by (vm_compute; reflexivity).
  rewrite Sample7_loaded_checked.
  apply (primary_table_UpdateChecksum _ Sample.gpt);
    [exact Sample_gpt_primary | vm_compute; reflexivity].
Qed.

Lemma Sample2_image_plain : File.logical_block_size Sample2.image = None.
Proof. vm_compute. reflexivity. Qed.


(** ** What the checks on the used partitions mean *)

Lemma check_layout_split (g : GPT.t) :
  check_layout g
  = (_ <- check_placement g ;;
     check_partitions (GPT.header g) (GPT.GetUsedPartitions g)).
Proof.
  unfold check_layout, check_placement, check_partitions. cbv zeta.
  repeat match goal with
         | |- bind ?x _ = bind (bind ?x _) _ =>
             destruct x as [[]|]; cbn [bind]; [|reflexivity]
         end.
  destruct (GPT.CheckOutsideUsable _ _ _ _ _) as [[]|]; reflexivity.
Qed.

Lemma check_placement_header (g g' : GPT.t) :
  GPT.header g' = GPT.header g -> GPT.block_size g' = GPT.block_size g ->
  check_placement g' = check_placement g.
Proof.
  intros Hh Hb. unfold check_placement, GPT.GetPartitionTableBlocks.
  rewrite Hh, Hb. reflexivity.
Qed.

Lemma insert_by_before (x : Partition.t) (s : list Partition.t) :
  ForallOrdPairs before s ->
  first_le_last x -> Forall first_le_last s -> Forall (disjoint x) s ->
  ForallOrdPairs before
    (insert_by (fun a c => Partition.FirstLBA a <=? Partition.FirstLBA c)
       x s).
Proof.
  unfold first_le_last.
  induction s as [|y s IH]; intros Hs Hx Hfl Hd; cbn [insert_by].
  - constructor; constructor.
  - inversion Hs as [|? ? Hy Hs']; subst.
    inversion Hfl as [|? ? Hfy Hfl']; subst.
    inversion Hd as [|? ? Hdy Hd']; subst.
    rewrite Forall_forall in Hy, Hfl', Hd'.
    destruct (Z.leb_spec (Partition.FirstLBA x) (Partition.FirstLBA y)).
    + constructor; [|exact Hs].
      constructor.
      * unfold before. destruct Hdy as [?|?]; lia.
      * apply Forall_forall. intros c Hc.
        pose proof (Hy c Hc) as [? ?]. pose proof (Hfl' c Hc).
        unfold before. destruct (Hd' c Hc) as [?|?]; lia.
    + constructor.
      * apply Forall_forall. intros c Hc. apply insert_by_In in Hc.
        destruct Hc as [->|Hc]; [|exact (Hy c Hc)].
        unfold before. destruct Hdy as [?|?]; lia.
      * apply IH; try assumption; apply Forall_forall; assumption.
Qed.

Lemma sort_key_before (l : list Partition.t) :
  ForallOrdPairs disjoint l -> Forall first_le_last l ->
  ForallOrdPairs before (sort_key Partition.FirstLBA l).
Proof.
  unfold sort_key, sort_by.
  induction l as [|x l IH]; intros Hd Hfl; cbn [fold_right];
    [constructor|].
  inversion Hd as [|? ? Hx Hd']; subst.
  inversion Hfl as [|? ? Hfx Hfl']; subst.
  apply insert_by_before; [exact (IH Hd' Hfl') | exact Hfx | |].
  - apply Forall_forall. intros c Hc.
    apply (proj1 (sort_by_In _ c l)) in Hc.
    rewrite Forall_forall in Hfl'. exact (Hfl' c Hc).
  - apply Forall_forall. intros c Hc.
    apply (proj1 (sort_by_In _ c l)) in Hc.
    rewrite Forall_forall in Hx. exact (Hx c Hc).
Qed.

Lemma check_overlap_before (s : list Partition.t) :
  ForallOrdPairs before s -> GPT.check_overlap s = OK tt.
Proof.
  induction s as [|a [|c rest] IH]; intros Hs; try reflexivity.
  inversion Hs as [|? ? Ha Hs']; subst.
  cbn [GPT.check_overlap].
  pose proof (Forall_inv Ha) as [_ Hlt].
  destruct (Z.geb_spec (Partition.LastLBA a) (Partition.FirstLBA c));
    [lia|].
  exact (IH Hs').
Qed.

Lemma last_In {A : Type} (l : list A) (d : A) :
  l <> [] -> In (last l d) l.
Proof.
  induction l as [|x l IH]; [congruence|]. intros _.
  destruct l as [|y l]; [left; reflexivity|].
  right. apply IH. discriminate.
Qed.

Lemma check_overlap_chain (l : list Partition.t) :
  GPT.check_overlap l = OK tt ->
  Forall first_le_last l ->
  ForallOrdPairs (fun p q => Partition.LastLBA p < Partition.FirstLBA q) l.
Proof.
  unfold first_le_last.
  induction l as [|x [|y rest] IH]; intros Hc Hfl.
  - constructor.
  - constructor; constructor.
  - cbn [GPT.check_overlap] in Hc.
    destruct (Z.geb_spec (Partition.LastLBA x) (Partition.FirstLBA y));
      [discriminate|].
    inversion Hfl as [|? ? Hfx Hfl']; subst.
    pose proof (IH Hc Hfl') as Hrest.
    constructor; [|exact Hrest].
    inversion Hrest as [|? ? Hy _]; subst.
    constructor; [lia|].
    pose proof (Forall_inv Hfl') as Hfy. cbv beta in Hfy.
    eapply Forall_impl; [|exact Hy]. cbv beta. intros c Hc'. lia.
Qed.

Lemma chain_last (l : list Partition.t) (d : Partition.t) :
  ForallOrdPairs (fun p q => Partition.LastLBA p < Partition.FirstLBA q) l ->
  Forall first_le_last l ->
  forall q, In q l -> Partition.LastLBA q <= Partition.LastLBA (last l d).
Proof.
  unfold first_le_last.
  induction l as [|x l IH]; intros Hc Hfl q Hq; [contradiction|].
  inversion Hc as [|? ? Hx Hc']; subst.
  inversion Hfl as [|? ? Hfx Hfl']; subst.
  destruct l as [|y l].
  - destruct Hq as [<-|[]]. cbn [last]. lia.
  - change (last (x :: y :: l) d) with (last (y :: l) d).
    destruct Hq as [<-|Hq]; [|exact (IH Hc' Hfl' q Hq)].
    assert (Hin : In (last (y :: l) d) (y :: l))
      by (apply last_In; discriminate).
    rewrite Forall_forall in Hx, Hfl'.
    pose proof (Hx _ Hin). pose proof (Hfl' _ Hin). lia.
Qed.

Lemma nodup_length_NoDup (l : list Z) :
  List.length (nodup Z.eq_dec l) = List.length l -> NoDup l.
Proof.
  assert (Hle : forall l0 : list Z,
             (List.length (nodup Z.eq_dec l0) <= List.length l0)%nat).
  { induction l0 as [|y l0 IH0]; [reflexivity|].
    cbn [nodup]. destruct (in_dec Z.eq_dec y l0); cbn [List.length]; lia. }
  induction l as [|x l IH]; [constructor|].
  cbn [nodup]. destruct (in_dec Z.eq_dec x l) as [Hin|Hnot].
  - intros H. pose proof (Hle l). cbn [List.length] in H. lia.
  - cbn [List.length]. intros H. constructor; [exact Hnot|].
    apply IH. lia.
Qed.

Lemma NoDup_pairs {A : Type} (R : A -> A -> Prop) (l : list A) :
  NoDup l ->
  (forall p q, In p l -> In q l -> p = q \/ R p q) ->
  ForallOrdPairs R l.
Proof.
  induction l as [|x l IH]; intros Hnd H; [constructor|].
  inversion Hnd as [|? ? Hx Hnd']; subst.
  constructor.
  - apply Forall_forall. intros c Hc.
    destruct (H x c (or_introl eq_refl) (or_intror Hc)) as [->|HR];
      [contradiction | exact HR].
  - apply IH; [exact Hnd'|]. intros p q Hp Hq.
    apply H; right; assumption.
Qed.

(** What the checks on the used partitions establish, for partitions
    that do not end before they begin. *)
Lemma check_partitions_sound (h : Header.t) (parts : list Partition.t) :
  check_partitions h parts = OK tt ->
  Forall first_le_last parts ->
  Forall (within_usable h) parts
  /\ ForallOrdPairs disjoint parts
  /\ NoDup (map Partition.UniqueGUID parts).
Proof.
  unfold check_partitions. cbv zeta. intros H Hfl.
  set (sorted := sort_key Partition.FirstLBA parts) in *.
  assert (Hin : forall p, In p sorted <-> In p parts)
    by (intros p; apply sort_by_In).
  assert (Hfls : Forall first_le_last sorted).
  { apply Forall_forall. intros p Hp. rewrite Forall_forall in Hfl.
    apply Hfl, Hin, Hp. }
  destruct (GPT.check_overlap sorted) as [[]|] eqn:Hov; cbn [bind] in H;
    [|discriminate].
  pose proof (check_overlap_chain sorted Hov Hfls) as Hchain.
  destruct (match sorted with [] => OK tt | _ => _ end) as [[]|] eqn:Hb;
    cbn [bind] in H; [|discriminate].
  destruct (Nat.eqb_spec
              (List.length (nodup Z.eq_dec (map Partition.UniqueGUID parts)))
              (List.length parts)) as [E|]; cbn [negb] in H;
    [|discriminate].
  assert (Hnd : NoDup (map Partition.UniqueGUID parts))
    by (apply nodup_length_NoDup; rewrite length_map; exact E).
  split; [|split; [|exact Hnd]].
  - apply Forall_forall. intros p Hp. apply Hin in Hp.
    destruct sorted as [|x l] eqn:Es; [contradiction|].
    destruct (Z.ltb_spec (Partition.FirstLBA x) (Header.FirstUsableLBA h));
      [discriminate|].
    destruct (Z.gtb_spec (Partition.LastLBA (last (x :: l) x))
                (Header.LastUsableLBA h)); [discriminate|].
    pose proof (chain_last (x :: l) x Hchain Hfls p Hp) as Hlast.
    split; [|lia].
    destruct Hp as [<-|Hp]; [lia|].
    inversion Hchain as [|? ? Hx _]; subst.
    rewrite Forall_forall in Hx. pose proof (Hx p Hp).
    pose proof (Forall_inv Hfls) as Hfx. unfold first_le_last in Hfx. lia.
  - apply NoDup_pairs; [exact (NoDup_map_inv _ _ Hnd)|].
    intros p q Hp Hq. apply Hin in Hp. apply Hin in Hq.
    destruct (ForallOrdPairs_In Hchain p q Hp Hq) as [E'|[Hl|Hl]];
      [left; exact E' | right; left; exact Hl | right; right; exact Hl].
Qed.

(** The converse: partitions that lie within the usable blocks, share
    no block and have distinct GUIDs pass the checks. *)
Lemma check_partitions_complete (h : Header.t) (parts : list Partition.t) :
  Forall first_le_last parts ->
  Forall (within_usable h) parts ->
  ForallOrdPairs disjoint parts ->
  NoDup (map Partition.UniqueGUID parts) ->
  check_partitions h parts = OK tt.
Proof.
  intros Hfl Hw Hd Hnd. unfold check_partitions. cbv zeta.
  pose proof (sort_key_before parts Hd Hfl) as Hs.
  rewrite (check_overlap_before _ Hs). cbn [bind].
  assert (Hin : forall p, In p (sort_key Partition.FirstLBA parts)
                          -> within_usable h p).
  { intros p Hp. apply (proj1 (sort_by_In _ p parts)) in Hp.
    rewrite Forall_forall in Hw. exact (Hw p Hp). }
  rewrite (nodup_fixed_point Z.eq_dec Hnd), length_map, Nat.eqb_refl.
  cbn [negb].
  destruct (sort_key Partition.FirstLBA parts) as [|x l] eqn:Es;
    [reflexivity|].
  destruct (Hin x (or_introl eq_refl)) as [Hx _].
  destruct (Hin (last (x :: l) x) (last_In (x :: l) x ltac:(discriminate)))
    as [_ Hl].
  destruct (Z.ltb_spec (Partition.FirstLBA x) (Header.FirstUsableLBA h));
    [lia|].
  destruct (Z.gtb_spec (Partition.LastLBA (last (x :: l) x))
              (Header.LastUsableLBA h)); [lia|].
  reflexivity.
Qed.

(** X17. What [CheckIntegrity] guarantees for the used partitions.
    On a table it accepts whose used partitions do not end before
    they begin ([FirstLBA <= LastLBA]): every used partition lies
    within [FirstUsableLBA .. LastUsableLBA], two different used
    partitions share no block, and no two used entries have the same
    [UniqueGUID]. *)
Theorem CheckIntegrity_used_partitions :
  forall g : GPT.t,
    GPT.CheckIntegrity g = OK tt ->
    (forall p, In p (GPT.GetUsedPartitions g) ->
               Partition.FirstLBA p <= Partition.LastLBA p) ->
    (forall p, In p (GPT.GetUsedPartitions g) ->
               Header.FirstUsableLBA (GPT.header g) <= Partition.FirstLBA p
               /\ Partition.LastLBA p
                  <= Header.LastUsableLBA (GPT.header g))
    /\ (forall p q, In p (GPT.GetUsedPartitions g) ->
                    In q (GPT.GetUsedPartitions g) ->
                    p <> q ->
                    Partition.LastLBA p < Partition.FirstLBA q
                    \/ Partition.LastLBA q < Partition.FirstLBA p)
    /\ NoDup (map Partition.UniqueGUID (GPT.GetUsedPartitions g)).
Proof.
  intros g Hci Hfl.
  destruct (CheckIntegrity_halves g Hci) as [Hlay _].
  rewrite check_layout_split in Hlay.
  destruct (check_placement g) as [[]|]; cbn [bind] in Hlay; [|discriminate].
  destruct (check_partitions_sound _ _ Hlay (proj2 (Forall_forall _ _) Hfl))
    as (Hw & Hd & Hnd).
  split; [exact (proj1 (Forall_forall _ _) Hw)|].
  split; [|exact Hnd].
  intros p q Hp Hq Hne.
  destruct (ForallOrdPairs_In Hd p q Hp Hq) as [E|[H|[H|H]]];
    [contradiction | exact H | right; exact H | left; exact H].
Qed.

Lemma CheckIntegrity_used_partitions_witness :
  GPT.CheckIntegrity Sample6.checked = OK tt
  /\ (forall p, In p (GPT.GetUsedPartitions Sample6.checked) ->
                Partition.FirstLBA p <= Partition.LastLBA p)
  /\ (Partition.LastLBA Sample.kernel < Partition.FirstLBA Sample.state
      \/ Partition.LastLBA Sample.state < Partition.FirstLBA Sample.kernel)
  /\ NoDup (map Partition.UniqueGUID (GPT.GetUsedPartitions Sample6.checked)).
Proof.
  assert (Hci : GPT.CheckIntegrity Sample6.checked = OK tt)
    by (vm_compute; reflexivity).
  assert (Hu : GPT.GetUsedPartitions Sample6.checked
               = [Sample.kernel; Sample.state]) by (vm_compute; reflexivity).
  assert (Hfl : forall p, In p (GPT.GetUsedPartitions Sample6.checked) ->
                          Partition.FirstLBA p <= Partition.LastLBA p).
  { rewrite Hu. intros p [<-|[<-|[]]]; vm_compute; discriminate. }
  destruct (CheckIntegrity_used_partitions Sample6.checked Hci Hfl)
    as (_ & Hd & Hnd).
  split; [exact Hci|]. split; [exact Hfl|]. split; [|exact Hnd].
  apply Hd.
  - rewrite Hu. left. reflexivity.
  - rewrite Hu. right. left. reflexivity.
  - discriminate.
Defined.

(** ** [RemovePartition], from the image to the image *)

Lemma filter_list_set_unused (l : list Partition.t) (i : nat)
  (x : Partition.t) :
  Partition.IsUnused x = true ->
  filter (fun q => negb (Partition.IsUnused q)) (list_set l i x)
  = filter (fun q => negb (Partition.IsUnused q)) l
  \/ exists l1 y l2,
      filter (fun q => negb (Partition.IsUnused q)) l = l1 ++ y :: l2
      /\ filter (fun q => negb (Partition.IsUnused q)) (list_set l i x)
         = l1 ++ l2.
Proof.
  intros Hx. revert i.
  induction l as [|y l IH]; intros i; [left; destruct i; reflexivity|].
  destruct i as [|i]; cbn [list_set filter].
  - rewrite Hx. cbn [negb].
    destruct (Partition.IsUnused y); cbn [negb]; [left; reflexivity|].
    right. exists [], y, (filter (fun q => negb (Partition.IsUnused q)) l).
    split; reflexivity.
  - destruct (IH i) as [E|(l1 & z & l2 & E1 & E2)].
    + left. rewrite E. reflexivity.
    + right. rewrite E1, E2.
      destruct (Partition.IsUnused y); cbn [negb].
      * exists l1, z, l2. split; reflexivity.
      * exists (y :: l1), z, l2. split; reflexivity.
Qed.

Lemma ForallOrdPairs_remove {A : Type} (R : A -> A -> Prop)
  (l1 : list A) (y : A) (l2 : list A) :
  ForallOrdPairs R (l1 ++ y :: l2) -> ForallOrdPairs R (l1 ++ l2).
Proof.
  induction l1 as [|a l1 IH]; cbn [app]; intros H;
    inversion H as [|? ? Ha H']; subst; [exact H'|].
  constructor; [|exact (IH H')].
  apply Forall_app in Ha. destruct Ha as [H1 H2].
  apply Forall_app. split; [exact H1 | exact (Forall_inv_tail H2)].
Qed.

Lemma Forall_remove {A : Type} (P : A -> Prop) (l1 : list A) (y : A)
  (l2 : list A) :
  Forall P (l1 ++ y :: l2) -> Forall P (l1 ++ l2).
Proof.
  intros H. apply Forall_app in H. destruct H as [H1 H2].
  apply Forall_app. split; [exact H1 | exact (Forall_inv_tail H2)].
Qed.

Lemma Forall_list_set {A : Type} (P : A -> Prop) (l : list A) (i : nat)
  (x : A) :
  Forall P l -> P x -> Forall P (list_set l i x).
Proof.
  intros H Hx. revert i. induction H as [|y l Hy Hl IH]; intros [|i];
    cbn [list_set]; constructor; try assumption. apply IH.
Qed.

Lemma table_meta_list_set (image_ : string) (bs : Z) (l : list Partition.t) :
  forall (k : Z) (i : nat) (p x : Partition.t),
    table_meta image_ bs k l ->
    nth_error l i = Some p ->
    Partition.image x = Partition.image p ->
    Partition.number x = Partition.number p ->
    Partition.block_size x = Partition.block_size p ->
    table_meta image_ bs k (list_set l i x).
Proof.
  induction l as [|y l IH]; intros k [|i] p x Hm Hn Hi Hnum Hb;
    cbn [nth_error] in Hn; try discriminate;
    destruct Hm as (H1 & H2 & H3 & H4); cbn [list_set table_meta].
  - injection Hn as ->. repeat split; congruence.
  - repeat split; try assumption. exact (IH _ _ _ _ H4 Hn Hi Hnum Hb).
Qed.

Lemma Zero_valid (p : Partition.t) : valid_partition (Partition.Zero p).
Proof.
  unfold valid_partition, Partition.Zero, GUID.valid, uint_range, valid_name.
  cbn [Partition.TypeGUID Partition.UniqueGUID Partition.FirstLBA
       Partition.LastLBA Partition.Attributes Partition.Names
       PartitionAttributes.raw PartitionAttributes._attrs].
  repeat split; try lia.
  exists []. reflexivity.
Qed.

(** Zeroing an entry keeps the layout checks passing. *)
Lemma check_layout_store_Zero (g : GPT.t) (part : Z) (p : Partition.t) :
  check_layout g = OK tt ->
  Forall first_le_last (GPT.GetUsedPartitions g) ->
  check_layout (GPT.store_partition g part (Partition.Zero p)) = OK tt.
Proof.
  intros Hlay Hfl. rewrite check_layout_split in Hlay |- *.
  rewrite (check_placement_header g (GPT.store_partition g part _))
    by reflexivity.
  destruct (check_placement g) as [[]|]; cbn [bind] in Hlay |- *;
    [|discriminate].
  destruct (check_partitions_sound _ _ Hlay Hfl) as (Hw & Hd & Hnd).
  change (GPT.header (GPT.store_partition g part (Partition.Zero p)))
    with (GPT.header g).
  unfold GPT.GetUsedPartitions, GPT.store_partition in *.
  cbn [GPT.set_partitions GPT.partitions].
  destruct (filter_list_set_unused (GPT.partitions g)
              (Z.to_nat (part - 1)) (Partition.Zero p) (IsUnused_Zero p))
    as [E|(l1 & y & l2 & E1 & E2)].
  - rewrite E. exact Hlay.
  - rewrite E2. rewrite E1 in Hfl, Hw, Hd, Hnd.
    apply check_partitions_complete.
    + exact (Forall_remove _ _ _ _ Hfl).
    + exact (Forall_remove _ _ _ _ Hw).
    + exact (ForallOrdPairs_remove _ _ _ _ Hd).
    + rewrite map_app in Hnd |- *. cbn [map] in Hnd.
      exact (NoDup_remove_1 _ _ _ Hnd).
Qed.



(** ** Partitions outside the usable blocks *)

Lemma check_partitions_outside (h : Header.t) (parts : list Partition.t)
  (p : Partition.t) :
  Forall first_le_last parts ->
  In p parts ->
  Partition.FirstLBA p < Header.FirstUsableLBA h
  \/ Header.LastUsableLBA h < Partition.LastLBA p ->
  check_partitions h parts = Err AttributeError
  \/ check_partitions h parts = Err (GPTError "Overlap in partition entries").
Proof.
  intros Hfl Hp Hout. unfold check_partitions. cbv zeta.
  set (sorted := sort_key Partition.FirstLBA parts) in *.
  assert (Hin : forall q, In q sorted <-> In q parts)
    by (intros q; apply sort_by_In).
  assert (Hfls : Forall first_le_last sorted).
  { apply Forall_forall. intros q Hq. rewrite Forall_forall in Hfl.
    apply Hfl, Hin, Hq. }
  destruct (GPT.check_overlap sorted) as [[]|e] eqn:Hov; cbn [bind].
  2:{ right. rewrite (check_overlap_error _ _ Hov). reflexivity. }
  left.
  pose proof (check_overlap_chain sorted Hov Hfls) as Hchain.
  apply Hin in Hp.
  destruct sorted as [|x l] eqn:Es; [contradiction|].
  destruct (Z.ltb_spec (Partition.FirstLBA x) (Header.FirstUsableLBA h))
    as [|Hx]; [reflexivity|].
  destruct (Z.gtb_spec (Partition.LastLBA (last (x :: l) x))
              (Header.LastUsableLBA h)) as [|Hl]; [reflexivity|].
  exfalso.
  pose proof (chain_last (x :: l) x Hchain Hfls p Hp) as Hlast.
  destruct Hout as [Hout|Hout]; [|lia].
  destruct Hp as [<-|Hp]; [lia|].
  inversion Hchain as [|? ? Hxl _]; subst.
  rewrite Forall_forall in Hxl. pose proof (Hxl p Hp).
  pose proof (Forall_inv Hfls) as Hfx. unfold first_le_last in Hfx. lia.
Qed.

(** X18. A used partition outside the usable blocks is never reported
    as such: the two messages of [CheckIntegrity] about the first and
    the last partition read [header.FirstLBA] and [header.LastLBA],
    which a header does not have.  On a table whose header placement
    passes the first four checks and whose used partitions do not end
    before they begin, when some used partition begins before
    [FirstUsableLBA] or ends after [LastUsableLBA], [CheckIntegrity]
    ends in [AttributeError], unless it has found an overlap before. *)
Theorem CheckIntegrity_outside_usable_AttributeError :
  forall (g : GPT.t) (p : Partition.t),
    check_placement g = OK tt ->
    (forall q, In q (GPT.GetUsedPartitions g) ->
               Partition.FirstLBA q <= Partition.LastLBA q) ->
    In p (GPT.GetUsedPartitions g) ->
    Partition.FirstLBA p < Header.FirstUsableLBA (GPT.header g)
    \/ Header.LastUsableLBA (GPT.header g) < Partition.LastLBA p ->
    GPT.CheckIntegrity g = Err AttributeError
    \/ GPT.CheckIntegrity g = Err (GPTError "Overlap in partition entries").
Proof.
  intros g p Hpl Hfl Hp Hout.
  rewrite CheckIntegrity_split, check_layout_split, Hpl. cbn [bind].
  destruct (check_partitions_outside (GPT.header g) _ p
              (proj2 (Forall_forall _ _) Hfl) Hp Hout) as [E|E];
    rewrite E; [left | right]; reflexivity.
Qed.

Lemma CheckIntegrity_outside_usable_AttributeError_witness :
  check_placement Sample11.outside = OK tt
  /\ (forall q, In q (GPT.GetUsedPartitions Sample11.outside) ->
                Partition.FirstLBA q <= Partition.LastLBA q)
  /\ In (Partition.set_LastLBA 70 Sample.state)
       (GPT.GetUsedPartitions Sample11.outside)
  /\ Header.LastUsableLBA (GPT.header Sample11.outside) < 70
  /\ (GPT.CheckIntegrity Sample11.outside = Err AttributeError
      \/ GPT.CheckIntegrity Sample11.outside
         = Err (GPTError "Overlap in partition entries")).
Proof.
  assert (Hpl : check_placement Sample11.outside = OK tt)
    by (vm_compute; reflexivity).
  assert (Hu : GPT.GetUsedPartitions Sample11.outside
               = [Sample.kernel; Partition.set_LastLBA 70 Sample.state])
    by (vm_compute; reflexivity).
  assert (Hfl : forall q, In q (GPT.GetUsedPartitions Sample11.outside) ->
                          Partition.FirstLBA q <= Partition.LastLBA q).
  { rewrite Hu. intros q [<-|[<-|[]]]; vm_compute; discriminate. }
  assert (Hp : In (Partition.set_LastLBA 70 Sample.state)
                 (GPT.GetUsedPartitions Sample11.outside))
    by (rewrite Hu; right; left; reflexivity).
  assert (Hout : Header.LastUsableLBA (GPT.header Sample11.outside) < 70)
    by (vm_compute; reflexivity).
  split; [exact Hpl|]. split; [exact Hfl|]. split; [exact Hp|].
  split; [exact Hout|].
  exact (CheckIntegrity_outside_usable_AttributeError Sample11.outside _
           Hpl Hfl Hp (or_intror Hout)).
Defined.

(** ** [add] of a partition that does not fit *)

Lemma UpdateChecksum_succeeds (image_ : string) (g : GPT.t) :
  primary_table image_ g -> exists g1, GPT.UpdateChecksum g = OK g1.
Proof.
  intros (_ & _ & _ & _ & Hvh & _ & _ & Hvp & Hmeta & _).
  cbv zeta in Hvh.
  destruct (table_roundtrip image_ 512 (GPT.partitions g) Hvp 0%nat Hmeta)
    as (pb & Hjoin & _ & _).
  destruct (Header_UpdateChecksum_valid
              (Header.set_PartitionArrayCRC32 (binascii.crc32 pb)
                 (GPT.header g)))
    as (h1 & Hh1 & _).
  { apply valid_header_PartitionArrayCRC32; [exact Hvh | apply crc32_range]. }
  exists (GPT.set_header h1 g).
  unfold GPT.UpdateChecksum. rewrite Hjoin. cbn [bind]. rewrite Hh1.
  reflexivity.
Qed.

Lemma WriteToFile_layout_error (image_ : string) (g : GPT.t) (f : File.t)
  (e : error) :
  primary_table image_ g -> check_layout g = Err e ->
  GPT.WriteToFile g f = Err e.
Proof.
  intros Hprim Hlay.
  destruct (UpdateChecksum_succeeds image_ g Hprim) as [g1 Hup].
  destruct (UpdateChecksum_checksums g g1 Hup) as (_ & _ & Hl & _).
  unfold GPT.WriteToFile, io_bind, lift. rewrite Hup.
  rewrite CheckIntegrity_split, Hl, Hlay. reflexivity.
Qed.


Lemma Sample10_loaded :
  value (GPT.LoadFromFile Sample10.created) = OK Sample10.loaded.
Proof. vm_compute. reflexivity. Qed.

Lemma Sample10_loaded_primary :
  primary_table (File.name Sample10.created) Sample10.loaded.
Proof.
  destruct (value_inv _ _ Sample10_loaded) as [f' Hload].
  destruct (LoadFromFile_inv _ _ _ Hload) as (_ & _ & Hmeta & _).
  destruct (Create_primary Sample.disk_guid "disk.bin" 51200)
    as ((Hbs & Hsec & Hcur & Hsig & Hvh & Hes & Hlen & Hvp & _ & Hpes
         & Hlay) & _ & _).
  { split; vm_compute; [discriminate | reflexivity]. }
  { split; vm_compute; discriminate. }
  unfold primary_table. cbv zeta.
  split; [reflexivity|]. split; [reflexivity|]. split; [reflexivity|].
  split; [reflexivity|].
  split; [apply valid_header_checksums;
          [exact Hvh | split; vm_compute; [discriminate | reflexivity] ..]|].
  split; [reflexivity|]. split; [reflexivity|].
  split; [exact Hvp|]. split; [exact Hmeta|].
  split; vm_compute; discriminate.
Qed.


(** ** Loading does not look at the checksums *)

Lemma slice_write_at_tail (c : list byte) (p k n : nat) (blob : list byte) :
  (p + k <= List.length c)%nat ->
  n = (k + List.length blob)%nat ->
  slice (write_at c (p + k) blob) p n = slice c p k ++ blob.
Proof.
  intros Hc ->. destruct (write_at_split c (p + k) blob)
    as (pre & post & -> & Hp & Hpre & _).
  replace (p + k - List.length c)%nat with 0%nat in Hpre by lia.
  cbn [repeat] in Hpre. rewrite app_nil_r in Hpre. subst pre.
  unfold slice. rewrite skipn_app, length_firstn.
  replace (p - Nat.min (p + k) (List.length c))%nat with 0%nat by lia.
  cbn [skipn]. rewrite skipn_firstn_comm.
  replace (p + k - p)%nat with k by lia.
  rewrite firstn_app, length_firstn, length_skipn.
  replace (Nat.min k (List.length c - p)) with k by lia.
  replace (k + List.length blob - k)%nat with (List.length blob) by lia.
  rewrite firstn_firstn. replace (Nat.min (k + List.length blob) k) with k
    by lia.
  rewrite firstn_app, Nat.sub_diag, firstn_all. cbn [firstn].
  rewrite app_nil_r. reflexivity.
Qed.

(** What [LoadFromFile] returns for a plain file, from the three pieces
    it reads: block 0, the 92 bytes at byte 512, and the entries. *)
Lemma LoadFromFile_of_slices (f : File.t) (h : Header.t)
  (ps : list Partition.t) (pb : list byte) :
  File.logical_block_size f = None ->
  Header.Unpack (slice (File.content f) 512 92) = OK h ->
  GPT.valid_signature (Header.Signature h) = true ->
  Forall valid_partition ps ->
  table_meta (File.name f) 512 1 ps ->
  Z.of_nat (List.length ps) = Header.PartitionEntriesNumber h ->
  join_blobs ps = OK pb ->
  0 <= Header.PartitionEntriesStartingLBA h ->
  (604 <= List.length (File.content f))%nat ->
  (Z.to_nat (Header.PartitionEntriesStartingLBA h * 512) + List.length pb
   <= List.length (File.content f))%nat ->
  slice (File.content f)
    (Z.to_nat (Header.PartitionEntriesStartingLBA h * 512))
    (List.length pb) = pb ->
  value (GPT.LoadFromFile f)
  = OK {| GPT.pmbr := pmbr_at_start f;
          GPT.header := h;
          GPT.partitions := ps;
          GPT.block_size := 512;
          GPT.is_secondary := false |}.
Proof.
  intros Hlbs Hun Hsig Hvp Hmeta Hlen Hjoin Hpes L F2len F2.
  destruct (table_roundtrip (File.name f) 512 ps Hvp 0%nat Hmeta)
    as (pb' & Hjoin' & Lpb & Hread).
  rewrite Hjoin in Hjoin'. injection Hjoin' as <-.
  set (P := Z.to_nat (Header.PartitionEntriesStartingLBA h * 512)) in *.
  rewrite (LoadFromFile_plain f Hlbs) by (unfold File.size; lia).
  cbn [GPT.probe_block_sizes]. unfold io_bind at 1.
  destruct (probe_seeks_step f 512 (512 * 1) SEEK_SET 512
              [(- (512), SEEK_END)] 0 eq_refl ltac:(lia)
              ltac:(unfold File.size; lia)) as (h0 & Hat & Hprobe).
  rewrite header_at_slice in Hat.
  change (Z.to_nat 512) with 512%nat in Hat. rewrite Hun in Hat.
  injection Hat as <-.
  rewrite Hprobe, Hsig. unfold ret at 1.
  unfold io_bind at 1.
  rewrite (seek_at f (512 + 92)
             (512 * Header.PartitionEntriesStartingLBA h) SEEK_SET
             (512 * Header.PartitionEntriesStartingLBA h) eq_refl
             ltac:(lia)).
  unfold io_bind at 1, get_name at 1.
  cbn [File.set_pos File.name]. unfold io_bind at 1.
  rewrite <- Hlen, Nat2Z.id.
  destruct (slice_decompose (File.content f) P (List.length pb)
              ltac:(lia)) as (Hdec & Hpre & _).
  rewrite F2 in Hdec.
  rewrite (Hread (File.set_pos
                    (512 * Header.PartitionEntriesStartingLBA h) f)
             (firstn P (File.content f))
             (skipn (P + List.length pb) (File.content f))).
  - unfold ret. cbn [value]. reflexivity.
  - exact Hdec.
  - cbn [File.set_pos File.pos]. rewrite Hpre. unfold P. lia.
Qed.

Lemma Header_Pack_prefix (h : Header.t) (v : Z) (hb : list byte) :
  valid_header h -> uint_range 4 v ->
  Header.Pack h = OK hb ->
  Header.Pack (Header.set_PartitionArrayCRC32 v h)
  = OK (firstn 88 hb ++ le_split 4 v).
Proof.
  intros Hv Hr Hp.
  rewrite (Header_Pack_valid h Hv) in Hp. injection Hp as <-.
  rewrite (Header_Pack_valid _ (valid_header_PartitionArrayCRC32 h v Hv Hr)).
  destruct h.
  cbn [Header.set_PartitionArrayCRC32 Header.Signature Header.Revision
       Header.HeaderSize Header.CRC32 Header.Reserved Header.CurrentLBA
       Header.BackupLBA Header.FirstUsableLBA Header.LastUsableLBA
       Header.DiskGUID Header.PartitionEntriesStartingLBA
       Header.PartitionEntriesNumber Header.PartitionEntrySize
       Header.PartitionArrayCRC32].
  f_equal.
  repeat rewrite (app_assoc _ _ (le_split 4 _ ++ _)).
  repeat rewrite (app_assoc _ _ (le_split 8 _ ++ _)).
  repeat rewrite (app_assoc _ _ (struct.pack_s _ _ ++ _)).
  repeat rewrite app_assoc.
  rewrite firstn_app_len; [reflexivity|].
  blob_length. reflexivity.
Qed.

Lemma WriteToFile_checked (g g1 : GPT.t) (f f1 : File.t) :
  GPT.WriteToFile g f = OK (g1, f1) ->
  GPT.UpdateChecksum g = OK g1 /\ GPT.CheckIntegrity g1 = OK tt.
Proof.
  unfold GPT.WriteToFile. intros Hw.
  apply io_bind_inv in Hw. destruct Hw as (g' & f0 & Hup & Hw).
  apply lift_inv in Hup. destruct Hup as [Hup ->].
  apply io_bind_inv in Hw. destruct Hw as ([] & f0 & Hci & Hw).
  apply lift_inv in Hci. destruct Hci as [Hci ->].
  apply io_bind_inv in Hw. destruct Hw as (pb & f0 & _ & Hw).
  apply io_bind_inv in Hw. destruct Hw as (hb & f2 & _ & Hw).
  apply io_bind_inv in Hw. destruct Hw as ([] & fa & _ & Hw).
  apply io_bind_inv in Hw. destruct Hw as ([] & fb & _ & Hw).
  destruct (negb (GPT.is_secondary g')).
  - apply io_bind_inv in Hw. destruct Hw as (bh & f3 & _ & Hw).
    apply io_bind_inv in Hw. destruct Hw as ([] & fc & _ & Hw).
    apply io_bind_inv in Hw. destruct Hw as (bhb & f4 & _ & Hw).
    apply io_bind_inv in Hw. destruct Hw as ([] & fd & _ & Hw).
    unfold ret in Hw. injection Hw as <- _. split; assumption.
  - unfold ret in Hw. injection Hw as <- _. split; assumption.
Qed.

Lemma PartitionArrayCRC32_change_detected (g : GPT.t) (v : Z) :
  GPT.CheckIntegrity g = OK tt ->
  v <> Header.PartitionArrayCRC32 (GPT.header g) ->
  GPT.CheckIntegrity
    (GPT.set_header (Header.set_PartitionArrayCRC32 v (GPT.header g)) g)
  = Err (GPTError "GPT Header PartitionArrayCRC32 does not match.").
Proof.
  intros Hci Hv.
  destruct (CheckIntegrity_halves g Hci) as [Hlay Hsum].
  unfold check_checksums in Hsum. cbv zeta in Hsum.
  destruct (join_blobs (GPT.partitions g)) as [parts|] eqn:Hj;
    cbn [bind] in Hsum; [|discriminate].
  destruct (Z.eqb_spec (binascii.crc32 parts)
              (Header.PartitionArrayCRC32 (GPT.header g))) as [Hpa|];
    cbn [negb] in Hsum; [|discriminate].
  rewrite CheckIntegrity_split.
  replace (check_layout _) with (check_layout g).
  2:{ destruct g as [pm h ps bs sec]. destruct h. reflexivity. }
  rewrite Hlay. cbn [bind]. unfold check_checksums. cbv zeta.
  cbn [GPT.set_header GPT.partitions GPT.header]. rewrite Hj.
  cbn [bind].
  replace (Header.PartitionArrayCRC32
             (Header.set_PartitionArrayCRC32 v (GPT.header g)))
    with v by (destruct (GPT.header g); reflexivity).
  destruct (Z.eqb_spec (binascii.crc32 parts) v); [congruence|].
  reflexivity.
Qed.

(** X20. Loading does not look at the checksums. A table in the
    primary layout is written to a plain image file by [WriteToFile],
    and then the four bytes of the stored [PartitionArrayCRC32]
    (bytes 88 to 91 of the header in block 1) are overwritten on the
    image by another value [v].  [LoadFromFile] still succeeds on the
    damaged image: it returns the written header with [v] in that
    field and the same partitions.  [CheckIntegrity] on the loaded
    table then fails with the [GPTError] of the partition array
    checksum. *)
Theorem LoadFromFile_ignores_checksum :
  forall (g g1 : GPT.t) (f : File.t) (v : Z),
    File.logical_block_size f = None ->
    512 <= File.size f ->
    primary_table (File.name f) g ->
    value (GPT.WriteToFile g f) = OK g1 ->
    0 <= v < 2 ^ 32 ->
    v <> Header.PartitionArrayCRC32 (GPT.header g1) ->
    let image :=
      corrupt_PartitionArrayCRC32 v (file_after f (GPT.WriteToFile g f)) in
    exists g2,
      value (GPT.LoadFromFile image) = OK g2
      /\ GPT.header g2 = Header.set_PartitionArrayCRC32 v (GPT.header g1)
      /\ GPT.partitions g2 = GPT.partitions g
      /\ GPT.CheckIntegrity g2
         = Err (GPTError "GPT Header PartitionArrayCRC32 does not match.").
Proof.
  intros g g1 f v Hlbs Hsize Hprim Hv Hrange Hne image.
  destruct (value_inv _ _ Hv) as [f1 Hw].
  destruct (WriteToFile_checked g g1 f f1 Hw) as [Hup Hci].
  destruct (WriteToFile_primary g g1 f f1 Hprim Hw)
    as (hb & pb & bh & bhb & _ & Hhb & Hpb & Hbh & Hbhb & Hname & Hlbs1
        & Hc).
  pose proof (primary_table_UpdateChecksum _ g g1 Hprim Hup) as Hprim1.
  destruct Hprim as (Hbs & Hsec & Hcur & Hsig & Hvh & Hes & Hlen & Hvp
                     & Hmeta & Hpes & Hlay).
  cbv zeta in Hpes, Hlay, Hcur, Hes, Hlen, Hsig, Hvh.
  pose proof (GetPartitionTableBlocks_bound g (GPT.header g) Hbs) as Htb.
  rewrite Hes in Htb. specialize (Htb ltac:(lia)).
  destruct Hprim1 as (_ & _ & _ & Hsig1 & Hvh1 & _ & Hlen1 & _).
  cbv zeta in Hsig1, Hvh1, Hlen1.
  destruct (UpdateChecksum_inv g g1 Hup) as (parts & h1 & Hj & Hh & Hg1).
  destruct (Header_UpdateChecksum_inv _ _ Hh) as (blob0 & _ & Hh1).
  assert (Hhd : GPT.header g1 = h1) by (subst g1; reflexivity).
  assert (Hps1 : GPT.partitions g1 = GPT.partitions g)
    by (subst g1; reflexivity).
  assert (Hpes1 : Header.PartitionEntriesStartingLBA h1
                  = Header.PartitionEntriesStartingLBA (GPT.header g))
    by (rewrite Hh1; destruct (GPT.header g); reflexivity).
  rewrite Hhd in *. rewrite Hps1 in Hlen1.
  unfold Header.blob in Hhb.
  pose proof (Header_Pack_length h1 hb Hhb) as Lhb.
  unfold Header.calcsize in Lhb.
  destruct (table_roundtrip (File.name f) 512 (GPT.partitions g) Hvp 0%nat
              Hmeta) as (pb' & Hjoin & Lpb & _).
  rewrite Hpb in Hjoin. injection Hjoin as <-.
  unfold Partition.calcsize in Lpb.
  (* the bytes of the written image *)
  set (c0 := File.content f) in *.
  set (P := Z.to_nat
              (Header.PartitionEntriesStartingLBA (GPT.header g) * 512))
    in *.
  set (Q := Z.to_nat
              ((Header.BackupLBA (GPT.header g)
                - GPT.GetPartitionTableBlocks g (GPT.header g)) * 512)) in *.
  set (R := Z.to_nat (Header.BackupLBA (GPT.header g) * 512)) in *.
  set (c1 := write_at c0 512 hb) in *.
  set (c2 := write_at c1 P pb) in *.
  set (c3 := write_at c2 Q pb) in *.
  assert (L0 : (512 <= List.length c0)%nat)
    by (unfold File.size in Hsize; fold c0 in Hsize; lia).
  assert (L1 : (604 <= List.length c1)%nat)
    by (unfold c1; rewrite write_at_length; lia).
  assert (L2 : (P + List.length pb <= List.length c2)%nat
               /\ (604 <= List.length c2)%nat)
    by (unfold c2; rewrite write_at_length; lia).
  assert (L3 : (P + List.length pb <= List.length c3)%nat
               /\ (604 <= List.length c3)%nat)
    by (unfold c3; rewrite write_at_length; lia).
  assert (L4 : (P + List.length pb <= List.length (File.content f1))%nat
               /\ (604 <= List.length (File.content f1))%nat)
    by (rewrite Hc, write_at_length; lia).
  assert (HP : (1024 <= P)%nat) by (unfold P; lia).
  assert (HQ : (P + List.length pb <= Q)%nat) by (unfold P, Q; lia).
  assert (HR : (Q + List.length pb <= R)%nat) by (unfold Q, R; lia).
  assert (F1 : slice (File.content f1) 512 92 = hb).
  { rewrite Hc.
    rewrite slice_write_at_before by lia.
    fold c3. unfold c3. rewrite slice_write_at_before by lia.
    unfold c2. rewrite slice_write_at_before by lia.
    unfold c1. rewrite <- Lhb. apply slice_write_at_same. }
  assert (F2 : slice (File.content f1) P (List.length pb) = pb).
  { rewrite Hc.
    rewrite slice_write_at_before by lia.
    unfold c3. rewrite slice_write_at_before by lia.
    unfold c2. apply slice_write_at_same. }
  (* the damaged image *)
  assert (Hr4 : uint_range 4 v)
    by (unfold uint_range; change (2 ^ (8 * Z.of_nat 4)) with (2 ^ 32); lia).
  set (h2 := Header.set_PartitionArrayCRC32 v h1).
  assert (Hvh2 : valid_header h2)
    by (apply valid_header_PartitionArrayCRC32; assumption).
  pose proof (Header_Pack_prefix h1 v hb Hvh1 Hr4 Hhb) as Hpack2.
  fold h2 in Hpack2.
  destruct (Header_roundtrip h2 Hvh2) as (hb2 & Hpack2' & Hunpack2).
  rewrite Hpack2 in Hpack2'. injection Hpack2' as <-.
  assert (Himg : image
                 = File.set_content
                     (write_at (File.content f1) (512 + 88) (le_split 4 v))
                     (File.set_pos 0 f1)).
  { unfold image. rewrite Hw. reflexivity. }
  assert (Hcont : File.content image
                  = write_at (File.content f1) (512 + 88) (le_split 4 v))
    by (rewrite Himg; reflexivity).
  assert (Hnm : File.name image = File.name f)
    by (rewrite Himg; exact Hname).
  assert (Hl2 : File.logical_block_size image = None)
    by (rewrite Himg; cbn [File.set_content File.set_pos
                             File.logical_block_size]; congruence).
  assert (G1 : slice (File.content image) 512 92
               = firstn 88 hb ++ le_split 4 v).
  { rewrite Hcont.
    rewrite (slice_write_at_tail (File.content f1) 512 88 92 (le_split 4 v))
      by (rewrite ?length_le_split; lia).
    f_equal. rewrite <- F1. unfold slice. rewrite firstn_firstn.
    reflexivity. }
  assert (G2 : slice (File.content image) P (List.length pb) = pb).
  { rewrite Hcont, slice_write_at_after; [exact F2|].
    rewrite length_le_split. lia. }
  assert (Lc : List.length (File.content image)
               = List.length (File.content f1)).
  { rewrite Hcont, write_at_length, length_le_split. lia. }
  exists {| GPT.pmbr := pmbr_at_start image; GPT.header := h2;
            GPT.partitions := GPT.partitions g; GPT.block_size := 512;
            GPT.is_secondary := false |}.
  split.
  { apply (LoadFromFile_of_slices image h2 (GPT.partitions g) pb Hl2).
    - rewrite G1. exact Hunpack2.
    - unfold h2. replace (Header.Signature _) with (Header.Signature h1)
        by (destruct h1; reflexivity). exact Hsig1.
    - exact Hvp.
    - rewrite Hnm. exact Hmeta.
    - unfold h2.
      replace (Header.PartitionEntriesNumber _)
        with (Header.PartitionEntriesNumber h1) by (destruct h1; reflexivity).
      exact Hlen1.
    - exact Hpb.
    - unfold h2.
      replace (Header.PartitionEntriesStartingLBA _)
        with (Header.PartitionEntriesStartingLBA h1)
        by (destruct h1; reflexivity).
      lia.
    - lia.
    - unfold h2.
      replace (Header.PartitionEntriesStartingLBA _)
        with (Header.PartitionEntriesStartingLBA h1)
        by (destruct h1; reflexivity).
      rewrite Hpes1. fold P. lia.
    - unfold h2.
      replace (Header.PartitionEntriesStartingLBA _)
        with (Header.PartitionEntriesStartingLBA h1)
        by (destruct h1; reflexivity).
      rewrite Hpes1. fold P. exact G2. }
  cbn [GPT.header GPT.partitions].
  split; [reflexivity|]. split; [reflexivity|].
  pose proof (PartitionArrayCRC32_change_detected g1 v Hci) as Hd.
  rewrite Hhd in Hd. specialize (Hd Hne). fold h2 in Hd.
  rewrite <- Hd. subst g1.
  unfold GPT.set_header. cbn [GPT.pmbr GPT.partitions GPT.block_size
                               GPT.is_secondary GPT.header].
  rewrite Hbs. apply CheckIntegrity_pmbr.
Qed.

Lemma LoadFromFile_ignores_checksum_witness :
  File.logical_block_size Sample2.blank = None
  /\ 512 <= File.size Sample2.blank
  /\ primary_table (File.name Sample2.blank) Sample.gpt
  /\ value (GPT.WriteToFile Sample.gpt Sample2.blank) = OK Sample6.checked
  /\ 0 <> Header.PartitionArrayCRC32 (GPT.header Sample6.checked)
  /\ exists g2,
      value (GPT.LoadFromFile
               (corrupt_PartitionArrayCRC32 0
                  (file_after Sample2.blank
                     (GPT.WriteToFile Sample.gpt Sample2.blank)))) = OK g2
      /\ GPT.CheckIntegrity g2
         = Err (GPTError "GPT Header PartitionArrayCRC32 does not match.").
Proof.
  assert (Hs : 512 <= File.size Sample2.blank)
    by (vm_compute; discriminate).
  assert (Hw : value (GPT.WriteToFile Sample.gpt Sample2.blank)
               = OK Sample6.checked) by (vm_compute; reflexivity).
  assert (Hne : 0 <> Header.PartitionArrayCRC32 (GPT.header Sample6.checked))
    by (vm_compute; discriminate).
  pose proof (LoadFromFile_ignores_checksum Sample.gpt Sample6.checked
                Sample2.blank 0 eq_refl Hs Sample_gpt_primary Hw
                ltac:(split; [reflexivity | reflexivity]) Hne) as H.
  cbv zeta in H. destruct H as (g2 & H1 & _ & _ & H4).
  split; [reflexivity|]. split; [exact Hs|].
  split; [exact Sample_gpt_primary|]. split; [exact Hw|].
  split; [exact Hne|].
  exists g2. split; [exact H1 | exact H4].
Defined.

(** X21. The checksums a table carries when it is written do not
    matter: [WriteToFile] recomputes both before it checks or writes
    anything.  For any values [c1] and [c2] stored in [CRC32] and
    [PartitionArrayCRC32], [WriteToFile] does what it does for the
    table itself; so for a table in the primary layout that passes
    the layout checks, written to a plain image file, the image loads
    to a table with the same partitions that [CheckIntegrity]
    accepts. *)
Theorem WriteToFile_recomputes_checksums :
  forall (g : GPT.t) (f : File.t) (c1 c2 : Z),
    File.logical_block_size f = None ->
    512 <= File.size f ->
    primary_table (File.name f) g ->
    check_layout g = OK tt ->
    let stale :=
      GPT.set_header
        (Header.set_CRC32 c1
           (Header.set_PartitionArrayCRC32 c2 (GPT.header g))) g in
    GPT.WriteToFile stale f = GPT.WriteToFile g f
    /\ exists g2,
        value (GPT.LoadFromFile (file_after f (GPT.WriteToFile stale f)))
        = OK g2
        /\ GPT.partitions g2 = GPT.partitions g
        /\ GPT.CheckIntegrity g2 = OK tt.
Proof.
  intros g f c1 c2 Hlbs Hsize Hprim Hlay stale.
  assert (Hup : GPT.UpdateChecksum stale = GPT.UpdateChecksum g).
  { unfold GPT.UpdateChecksum, stale, Header.UpdateChecksum.
    cbn [GPT.set_header GPT.partitions GPT.header].
    destruct (join_blobs (GPT.partitions g)) as [parts|]; cbn [bind];
      [|reflexivity].
    destruct g as [pm h ps bs sec]. destruct h. reflexivity. }
  assert (Heq : GPT.WriteToFile stale f = GPT.WriteToFile g f).
  { unfold GPT.WriteToFile. unfold io_bind at 1.
    unfold io_bind at 12. rewrite Hup. reflexivity. }
  split; [exact Heq|]. rewrite Heq.
  destruct (WriteToFile_succeeds g f Hprim Hlay) as (g1 & Hv & Hci).
  destruct (value_inv _ _ Hv) as [f1 Hw].
  destruct (LoadFromFile_written g g1 f f1 Hlbs Hsize Hprim Hw) as [Hup1 Hl].
  rewrite Hw. cbn [file_after]. rewrite LoadFromFile_set_pos, Hl.
  eexists. split; [reflexivity|]. split; [reflexivity|].
  rewrite <- Hci.
  destruct (UpdateChecksum_inv g g1 Hup1) as (parts & h1 & _ & _ & ->).
  destruct Hprim as (Hbs & _).
  unfold GPT.set_header. cbn [GPT.header GPT.partitions GPT.block_size].
  rewrite Hbs. apply CheckIntegrity_pmbr.
Qed.

Lemma WriteToFile_recomputes_checksums_witness :
  File.logical_block_size Sample2.blank = None
  /\ 512 <= File.size Sample2.blank
  /\ primary_table (File.name Sample2.blank) Sample.gpt
  /\ check_layout Sample.gpt = OK tt
  /\ exists g2,
      value (GPT.LoadFromFile
               (file_after Sample2.blank
                  (GPT.WriteToFile
                     (GPT.set_header
                        (Header.set_CRC32 1
                           (Header.set_PartitionArrayCRC32 2
                              (GPT.header Sample.gpt))) Sample.gpt)
                     Sample2.blank))) = OK g2
      /\ GPT.CheckIntegrity g2 = OK tt.
Proof.
  assert (Hs : 512 <= File.size Sample2.blank)
    by (vm_compute; discriminate).
  assert (Hlay : check_layout Sample.gpt = OK tt)
    by (vm_compute; reflexivity).
  pose proof (WriteToFile_recomputes_checksums Sample.gpt Sample2.blank 1 2
                eq_refl Hs Sample_gpt_primary Hlay) as H.
  cbv zeta in H. destruct H as (_ & g2 & H1 & _ & H3).
  split; [reflexivity|]. split; [exact Hs|].
  split; [exact Sample_gpt_primary|]. split; [exact Hlay|].
  exists g2. split; [exact H1 | exact H3].
Defined.
